(** * anthropic_ecs: an archetype entity/component store

    A shallow embedding of [src/anthropic_ecs.h] (namespace [fi]) and the
    properties of its pools, registry and handle resolution.

    Conventions of the embedding.
    - [size_t] values (type hashes, pool keys, entity versions) are [N];
      arithmetic on them wraps modulo 2^64 where the source computes.
    - Vector indices and sizes are [nat]; a [std::vector] is a [list].
    - The template pack [SetOfAllComponents...] is the class
      [ComponentUniverse]; a component type is its index in the pack
      ([getIndexInTypeList]).
    - [std::unordered_map] is stdpp's [gmap].
    - An operation returns an [outcome]: it finishes, it stops the process
      through [fi_assert], it runs into undefined behaviour, or it never
      returns. *)

From stdpp Require Import base tactics option list numbers sorting gmap fin_maps.

(** ** Outcomes of an operation *)

Inductive outcome (A : Type) : Type :=
| Done (a : A)   (* the call returned *)
| Aborted        (* fi_assert failed: std::abort() *)
| Undefined      (* out-of-range vector access, null dereference, signed overflow *)
| Diverged.      (* the recursion never returns *)
Arguments Done {A} a.
Arguments Aborted {A}.
Arguments Undefined {A}.
Arguments Diverged {A}.

#[global] Instance outcome_ret : MRet outcome := fun A a => Done a.
#[global] Instance outcome_bind : MBind outcome := fun A B f m =>
  match m with
  | Done a => f a
  | Aborted => Aborted
  | Undefined => Undefined
  | Diverged => Diverged
  end.

(** [fi_assert(condition, message)] *)
Definition fi_assert (condition : bool) : outcome unit :=
  if condition then Done tt else Aborted.

(** ** The index of a type in a template pack *)

(** [IndexOfType<Index, T, Types...>::value]; a type is an element of a
    set with decidable equality ([std::is_same]). *)
Fixpoint IndexOfType {Ty : Type} `{EqDecision Ty} (Index : nat) (T : Ty) (Types : list Ty)
    : nat :=
  match Types with
  | [] => Index
  | First :: Rest => if decide (T = First) then Index else IndexOfType (S Index) T Rest
  end.

(** [getIndexInTypeList<T, Types...>()] *)
Definition getIndexInTypeList {Ty : Type} `{EqDecision Ty} (T : Ty) (Types : list Ty) : nat :=
  IndexOfType 0 T Types.

(** The template pack of a registry: how many component types there are,
    the payload type (one type stands for all payloads, which the store
    never inspects), [ComponentType{}] for each type, and
    [typeid(T).hash_code()]. *)
Class ComponentUniverse := {
  V : Type;
  universeSize : nat;
  defaultComponent : nat -> V;
  hash_code : nat -> N
}.

(** ** Fingerprints *)

Definition wrap64 (x : N) : N := (x mod 2 ^ 64)%N.
Definition add64 (a b : N) : N := wrap64 (a + b).
Definition shl64 (a k : N) : N := wrap64 (N.shiftl a k).

(** [seed ^= hash + 0x9e3779b9 + (seed << 6) + (seed >> 2)]; the function
    returns the new seed. *)
Definition hashCombine (seed hash : N) : N :=
  N.lxor seed (add64 (add64 (add64 hash 0x9e3779b9) (shl64 seed 6)) (N.shiftr seed 2)).

(** [std::sort] on [size_t]: the ascending rearrangement. *)
Definition sortHashes (hashes : list N) : list N := merge_sort N.le hashes.

Definition combineHashes (hashes : list N) : N :=
  fold_left hashCombine (sortHashes hashes) 0%N.

(** ** Handles *)

Module EntityId.

Record t : Type := mk {
  unstableIndex : nat;
  version : N;
  poolKey : N;
  dead : bool
}.

Definition markDead (e : t) : t :=
  mk (unstableIndex e) (version e) (poolKey e) true.

(** [operator==] *)
Definition eqb (a b : t) : bool := bool_decide (version a = version b).

Definition isIdentical (a other : t) : bool :=
  bool_decide (unstableIndex a = unstableIndex other)
  && bool_decide (version a = version other)
  && bool_decide (poolKey a = poolKey other).

End EntityId.

(** ** Vectors *)

(** [std::swap(vec[i], vec[j])] for indices in range. *)
Definition vecSwap {A} (i j : nat) (vec : list A) : list A :=
  match vec !! i, vec !! j with
  | Some x, Some y => <[j := x]> (<[i := y]> vec)
  | _, _ => vec
  end.

(** [vec.pop_back()] on a vector that is not empty. *)
Definition pop_back {A} (vec : list A) : list A := take (length vec - 1) vec.

(** ** Component pools *)

(** we want to know how the pool resolved a destroy entity call *)
Record RemoveEntityResult : Type := mkRemoveEntityResult {
  success : bool;
  wasSwapped : bool;
  swappedEntityVersion : option N;
  swappedEntityUnstableIndex : option nat
}.

Module ComponentPool.
Section WithUniverse.
Context `{U : ComponentUniverse}.

Record t : Type := mk {
  components : list (list V);      (* the tuple of vectors, one per type of the pack *)
  componentsInUseBitmask : N;      (* std::bitset over the pack *)
  componentsInUseIndices : list nat;
  componentHashes : list N;
  versions : list N;
  poolSize : nat;
  poolKey : N
}.

Definition with_components (cols : list (list V)) (p : t) : t :=
  mk cols (componentsInUseBitmask p) (componentsInUseIndices p)
     (componentHashes p) (versions p) (poolSize p) (poolKey p).

(** [ComponentPool() : poolSize(0) {}] *)
Definition empty : t := mk (replicate universeSize []) 0%N [] [] [] 0 0%N.

Definition size (p : t) : nat := poolSize p.

(** [accessComponentsVecByIndex(index, func)]: [func] runs on the vector of
    the type at [index]; an index past the pack selects nothing. *)
Definition accessComponentsVecByIndex
    (index : nat) (func : list V -> outcome (list V)) (p : t) : outcome t :=
  match components p !! index with
  | Some vec => vec' ← func vec; Done (with_components (<[index := vec']> (components p)) p)
  | None => Done p
  end.

(** [(componentsInUseBitmask.set(index), ...)] *)
Definition setBits (cs : list nat) (bitmask : N) : N :=
  fold_left (fun m c => N.setbit m (N.of_nat c)) cs bitmask.

(** [reserveVectors] only changes capacities, which the embedding does not
    track. *)
Definition initFromTemplate (cs : list nat) (entityPoolKey : N) (_componentHashes : list N)
    (p : t) : t :=
  mk (components p) (setBits cs (componentsInUseBitmask p)) cs
     _componentHashes (versions p) (poolSize p) entityPoolKey.

Definition initFromBitmask (entityPoolKey : N) (_componentHashes : list N) (bitmask : N)
    (p : t) : t :=
  mk (components p) bitmask
     (filter (fun i => N.testbit bitmask (N.of_nat i) = true) (seq 0 universeSize))
     _componentHashes (versions p) (poolSize p) entityPoolKey.

(** The two assertions, [versions.push_back] and [poolSize++] shared by
    [createEntity] and [createEntityFromBitmask]. *)
Definition pushVersion (expectedEntityId : EntityId.t) (p : t) : outcome t :=
  _ ← fi_assert (bool_decide (EntityId.unstableIndex expectedEntityId = poolSize p));
  _ ← fi_assert (bool_decide (poolSize p = length (versions p)));
  Done (mk (components p) (componentsInUseBitmask p) (componentsInUseIndices p)
           (componentHashes p) (versions p ++ [EntityId.version expectedEntityId])
           (S (poolSize p)) (poolKey p)).

(** [std::get<std::vector<C>>(components).push_back(value)] *)
Definition pushComponent (c : nat) (value : V) (p : t) : t :=
  with_components (alter (fun vec => vec ++ [value]) c (components p)) p.

(** [createEntity<Components...>(expectedEntityId, entityComponents...)];
    [entityComponents] pairs each component type with its value. *)
Definition createEntity (expectedEntityId : EntityId.t) (entityComponents : list (nat * V))
    (p : t) : outcome t :=
  pushVersion expectedEntityId
    (fold_left (fun q cv => pushComponent cv.1 cv.2 q) entityComponents p).

Fixpoint pushDefaults (indices : list nat) (p : t) : outcome t :=
  match indices with
  | [] => Done p
  | index :: rest =>
      p' ← accessComponentsVecByIndex index
             (fun vec => Done (vec ++ [defaultComponent index])) p;
      pushDefaults rest p'
  end.

Definition createEntityFromBitmask (expectedEntityId : EntityId.t) (p : t) : outcome t :=
  p' ← pushDefaults (componentsInUseIndices p) p;
  pushVersion expectedEntityId p'.

Definition isValid (id : EntityId.t) (p : t) : outcome bool :=
  if EntityId.dead id then Done false
  else if bool_decide (poolSize p ≤ EntityId.unstableIndex id) then Done false
  else match versions p !! EntityId.unstableIndex id with
       | None => Undefined
       | Some v => Done (bool_decide (EntityId.version id = v))
       end.

(** The body of the loop over [componentsInUseIndices] in [removeEntity]:
    [if (index < vec.size() - 1) std::swap(vec[index], vec.back());
     vec.pop_back();].  On an empty vector [vec.size() - 1] wraps and both
    branches are undefined. *)
Definition swapPop (index : nat) (vec : list V) : outcome (list V) :=
  match vec with
  | [] => Undefined
  | _ =>
      Done (pop_back (if bool_decide (index < length vec - 1)
                      then vecSwap index (length vec - 1) vec
                      else vec))
  end.

Fixpoint swapPopColumns (indices : list nat) (index : nat) (p : t) : outcome t :=
  match indices with
  | [] => Done p
  | componentIndex :: rest =>
      p' ← accessComponentsVecByIndex componentIndex (swapPop index) p;
      swapPopColumns rest index p'
  end.

Definition removeFailed : RemoveEntityResult :=
  mkRemoveEntityResult false false None None.

Definition removeEntity (entityId : EntityId.t) (p : t)
    : outcome (RemoveEntityResult * t) :=
  if bool_decide (poolSize p = 0) then Done (removeFailed, p) else
  valid ← isValid entityId p;
  if negb valid then Done (removeFailed, p) else
  result ← (if bool_decide (1 < poolSize p)
            then match last (versions p) with
                 | Some back =>
                     Done (mkRemoveEntityResult true true (Some back)
                             (Some (EntityId.unstableIndex entityId)))
                 | None => Undefined
                 end
            else Done (mkRemoveEntityResult true false None None));
  p1 ← swapPopColumns (componentsInUseIndices p) (EntityId.unstableIndex entityId) p;
  if bool_decide (EntityId.unstableIndex entityId < length (versions p1)) then
    Done (result,
          mk (components p1) (componentsInUseBitmask p1) (componentsInUseIndices p1)
             (componentHashes p1)
             (pop_back (vecSwap (EntityId.unstableIndex entityId)
                                (length (versions p1) - 1) (versions p1)))
             (poolSize p1 - 1) (poolKey p1))
  else Undefined.

(** [hasComponent<Component>()]: the bit of the pool's mask at the index of
    the type.  The embedding covers the types of the pack, whose index is
    below [universeSize].  For a type outside the pack
    [getIndexInTypeList] gives [universeSize], the size of the bitset, and
    [bitset::test] throws [std::out_of_range]; of the operations of the
    registry, [removeComponent] alone can be instantiated with such a
    type. *)
Definition hasComponent (c : nat) (p : t) : bool :=
  N.testbit (componentsInUseBitmask p) (N.of_nat c).

(** [hasComponents<Components...>()]: the mask of the listed types is
    contained in the pool's mask.  As for [hasComponent], the listed types
    are types of the pack; [bitset::set] throws for another index. *)
Definition hasComponents (cs : list nat) (p : t) : bool :=
  let checkMask := setBits cs 0%N in
  bool_decide (N.land (componentsInUseBitmask p) checkMask = checkMask).

(** [getComponent<Component>(entityId)]: the pointer is the slot
    [entityId.unstableIndex] of column [c]; the result is the value there,
    [None] for [nullptr]. *)
Definition getComponent (c : nat) (entityId : EntityId.t) (p : t) : outcome (option V) :=
  if negb (hasComponents [c] p) then Done None else
  valid ← isValid entityId p;
  if (valid : bool) then
    match components p !! c ≫= (fun vec => vec !! EntityId.unstableIndex entityId) with
    | Some value => Done (Some value)
    | None => Undefined
    end
  else Done None.

End WithUniverse.
End ComponentPool.

(** ** The registry *)

(** [INT_MAX]: [nextVersionIndex] is an [int]. *)
Definition INT_MAX : Z := (2 ^ 31 - 1)%Z.

(** Conversion of an [int] to [size_t]. *)
Definition size_t_of_int (z : Z) : N := Z.to_N (z mod 2 ^ 64)%Z.

Module Registry.
Section WithUniverse.
Context `{U : ComponentUniverse}.

Record t : Type := mk {
  pools : gmap N ComponentPool.t;
  entityRemappings : gmap N EntityId.t;
  nextVersionIndex : Z;
  isIterating : bool
}.

Definition empty : t := mk ∅ ∅ 0%Z false.

Definition with_pools (ps : gmap N ComponentPool.t) (r : t) : t :=
  mk ps (entityRemappings r) (nextVersionIndex r) (isIterating r).

Definition with_remappings (m : gmap N EntityId.t) (r : t) : t :=
  mk (pools r) m (nextVersionIndex r) (isIterating r).

Definition with_iterating (b : bool) (r : t) : t :=
  mk (pools r) (entityRemappings r) (nextVersionIndex r) b.

(** A pointer or reference to a pool is the key it is stored under;
    dereferencing reads the map. *)
Definition derefPool (key : N) (r : t) : outcome ComponentPool.t :=
  match pools r !! key with
  | Some p => Done p
  | None => Undefined
  end.

Definition generateComponentPoolKeyFromHashes (typeHashes : list N) : N * list N :=
  (combineHashes typeHashes, typeHashes).

Definition generateComponentPoolKeyFromTemplate (cs : list nat) : N * list N :=
  generateComponentPoolKeyFromHashes (hash_code <$> cs).

Definition handleRemoveResult (removeResult : RemoveEntityResult) (poolKey : N) (r : t) : t :=
  if negb (success removeResult) then r
  else if wasSwapped removeResult then
    match swappedEntityVersion removeResult, swappedEntityUnstableIndex removeResult with
    | Some swappedVersion, Some swappedIndex =>
        with_remappings
          (<[swappedVersion := EntityId.mk swappedIndex swappedVersion poolKey false]>
             (entityRemappings r)) r
    | _, _ => r
    end
  else r.

(** [resolveEntityId(entityId, pool)].  The result carries the registry
    (the dead end marks a remap entry), the handle as the call leaves it,
    and the pool pointer: [Some key] when the source returns [true].
    [fuel] bounds the depth of the recursion. *)
Fixpoint resolveFuel (fuel : nat) (entityId : EntityId.t) (r : t)
    : outcome (t * EntityId.t * option N) :=
  match fuel with
  | 0 => Diverged
  | S fuel' =>
      if EntityId.dead entityId then Done (r, entityId, None) else
      direct ← match pools r !! EntityId.poolKey entityId with
               | Some currentPool => ComponentPool.isValid entityId currentPool
               | None => Done false
               end;
      if (direct : bool) then Done (r, entityId, Some (EntityId.poolKey entityId)) else
      match entityRemappings r !! EntityId.version entityId with
      | Some remap =>
          if EntityId.isIdentical remap entityId then
            Done (with_remappings
                    (<[EntityId.version entityId := EntityId.markDead remap]>
                       (entityRemappings r)) r,
                  EntityId.markDead entityId, None)
          else resolveFuel fuel' remap r
      | None => Done (r, entityId, None)
      end
  end.

(** The recursion leaves the registry untouched until it stops, and from
    its second call on the handle is an entry of the remap table: a run
    that makes more calls than the table has entries, plus one, has met
    an entry twice and never returns. *)
Definition resolveEntityId (entityId : EntityId.t) (r : t)
    : outcome (t * EntityId.t * option N) :=
  resolveFuel (S (size (entityRemappings r))) entityId r.

(** [pools.find(key)], with [pools.emplace] and [initFromTemplate] when the
    key is new. *)
Definition findOrCreateFromTemplate (cs : list nat) (key : N) (representation : list N)
    (r : t) : ComponentPool.t :=
  match pools r !! key with
  | Some p => p
  | None => ComponentPool.initFromTemplate cs key representation ComponentPool.empty
  end.

(** [createEntity(Components&&... components)] *)
Definition createEntityWith (entityComponents : list (nat * V)) (r : t)
    : outcome (t * EntityId.t) :=
  _ ← fi_assert (negb (isIterating r));
  let '(key, representation) := generateComponentPoolKeyFromTemplate (entityComponents.*1) in
  let pool := findOrCreateFromTemplate (entityComponents.*1) key representation r in
  (* nextVersionIndex++ *)
  if bool_decide (nextVersionIndex r = INT_MAX) then Undefined else
  let entityId :=
    EntityId.mk (ComponentPool.size pool) (size_t_of_int (nextVersionIndex r)) key false in
  pool' ← ComponentPool.createEntity entityId entityComponents pool;
  Done (mk (<[key := pool']> (pools r)) (entityRemappings r)
           (nextVersionIndex r + 1)%Z (isIterating r),
        entityId).

(** [createEntity<Components...>()]: the same steps with [Components{}...] *)
Definition createEntity (cs : list nat) (r : t) : outcome (t * EntityId.t) :=
  createEntityWith ((fun c => (c, defaultComponent c)) <$> cs) r.

Definition removeEntity (entityId : EntityId.t) (r : t) : outcome (t * EntityId.t) :=
  _ ← fi_assert (negb (isIterating r));
  '(r1, entityId1, pool) ← resolveEntityId entityId r;
  match pool with
  | Some key =>
      p ← derefPool key r1;
      '(removeResult, p') ← ComponentPool.removeEntity entityId1 p;
      let r2 := with_pools (<[key := p']> (pools r1)) r1 in
      let entityId2 :=
        if success removeResult then EntityId.markDead entityId1 else entityId1 in
      Done (handleRemoveResult removeResult (ComponentPool.poolKey p') r2, entityId2)
  | None => Done (r1, entityId1)
  end.

(** [vec[index] = value] on column [c] of the pool under [key]. *)
Definition writeComponent (key : N) (c index : nat) (value : V) (r : t) : outcome t :=
  p ← derefPool key r;
  p' ← ComponentPool.accessComponentsVecByIndex c
         (fun vec => if bool_decide (index < length vec)
                     then Done (<[index := value]> vec) else Undefined) p;
  Done (with_pools (<[key := p']> (pools r)) r).

(** One round of the copy loop of [transferEntityToNewPool]:
    [newComponentVector[newIndex] = oldComponentVector[oldIndex]]. *)
Definition copyComponent (componentIndex : nat) (oldKey : N) (oldIndex : nat)
    (newKey : N) (newIndex : nat) (r : t) : outcome t :=
  oldPool ← derefPool oldKey r;
  match ComponentPool.components oldPool !! componentIndex with
  | Some oldComponentVector =>
      match oldComponentVector !! oldIndex with
      | Some value => writeComponent newKey componentIndex newIndex value r
      | None => Undefined
      end
  | None => Done r
  end.

Fixpoint copyShared (indices : list nat) (componentToSkip : nat) (oldKey : N) (oldIndex : nat)
    (newKey : N) (newIndex : nat) (r : t) : outcome t :=
  match indices with
  | [] => Done r
  | componentIndex :: rest =>
      r' ← (if bool_decide (componentIndex = componentToSkip) then Done r
            else copyComponent componentIndex oldKey oldIndex newKey newIndex r);
      copyShared rest componentToSkip oldKey oldIndex newKey newIndex r'
  end.

(** The first half of [transferEntityToNewPool]: the slot is created in the
    new pool and the shared components are copied into it. *)
Definition transferPopulate (componentToSkip : nat) (oldEntityId newEntityId : EntityId.t)
    (oldPool newPool : N) (r : t) : outcome t :=
  _ ← fi_assert (negb (isIterating r));
  np ← derefPool newPool r;
  np1 ← ComponentPool.createEntityFromBitmask newEntityId np;
  (* after poolSize++ the size is positive, so size() - 1 does not wrap *)
  _ ← fi_assert (bool_decide (EntityId.unstableIndex newEntityId = ComponentPool.size np1 - 1));
  back ← match last (ComponentPool.versions np1) with
         | Some v => Done v
         | None => Undefined
         end;
  _ ← fi_assert (bool_decide (EntityId.version newEntityId = back));
  let r1 := with_pools (<[newPool := np1]> (pools r)) r in
  copyShared (ComponentPool.componentsInUseIndices np1) componentToSkip
    oldPool (EntityId.unstableIndex oldEntityId)
    newPool (EntityId.unstableIndex newEntityId) r1.

(** The second half: the old slot is removed and the remap table updated.
    The result is the registry and the value left in [oldEntityId]. *)
Definition transferRelease (oldEntityId newEntityId : EntityId.t) (oldPool : N) (r : t)
    : outcome (t * EntityId.t) :=
  op ← derefPool oldPool r;
  '(removeResult, op') ← ComponentPool.removeEntity oldEntityId op;
  let r1 := with_pools (<[oldPool := op']> (pools r)) r in
  let r2 := handleRemoveResult removeResult (ComponentPool.poolKey op') r1 in
  Done (with_remappings
          (<[EntityId.version newEntityId := newEntityId]> (entityRemappings r2)) r2,
        newEntityId).

Definition transferEntityToNewPool (componentToSkip : nat)
    (oldEntityId newEntityId : EntityId.t) (oldPool newPool : N) (r : t)
    : outcome (t * EntityId.t) :=
  r1 ← transferPopulate componentToSkip oldEntityId newEntityId oldPool newPool r;
  transferRelease oldEntityId newEntityId oldPool r1.

(** [pools.find(newPoolKey)], with [pools.emplace] and [initFromBitmask]
    when the key is new; [oldKey] is [entityId.poolKey]. *)
Definition findOrCreateFromBitmask (newPoolKey : N) (newRepresentation : list N)
    (oldKey : N) (nextBitmask : N -> N) (r : t) : outcome t :=
  match pools r !! newPoolKey with
  | Some _ => Done r
  | None =>
      oldPool ← derefPool oldKey r;
      Done (with_pools
              (<[newPoolKey :=
                   ComponentPool.initFromBitmask newPoolKey newRepresentation
                     (nextBitmask (ComponentPool.componentsInUseBitmask oldPool))
                     ComponentPool.empty]> (pools r)) r)
  end.

(** The common tail of [addComponent] and [removeComponent]. *)
Definition relocate (c : nat) (intermediateHashes : list N) (nextBitmask : N -> N)
    (entityId : EntityId.t) (oldPool : N) (r : t) : outcome (t * EntityId.t) :=
  let '(newPoolKey, newRepresentation) :=
    generateComponentPoolKeyFromHashes intermediateHashes in
  r1 ← findOrCreateFromBitmask newPoolKey newRepresentation
         (EntityId.poolKey entityId) nextBitmask r;
  np ← derefPool newPoolKey r1;
  let newEntityId :=
    EntityId.mk (ComponentPool.size np) (EntityId.version entityId) newPoolKey false in
  transferEntityToNewPool c entityId newEntityId oldPool newPoolKey r1.

Definition get (c : nat) (entityId : EntityId.t) (r : t)
    : outcome (t * EntityId.t * option V) :=
  '(r1, entityId1, pool) ← resolveEntityId entityId r;
  match pool with
  | Some key =>
      p ← derefPool key r1;
      component ← ComponentPool.getComponent c entityId1 p;
      Done (r1, entityId1, component)
  | None => Done (r1, entityId1, None)
  end.

Definition set (c : nat) (component : V) (entityId : EntityId.t) (r : t)
    : outcome (t * EntityId.t) :=
  '(r1, entityId1, pool) ← resolveEntityId entityId r;
  match pool with
  | Some key =>
      p ← derefPool key r1;
      componentPtr ← ComponentPool.getComponent c entityId1 p;
      match componentPtr with
      | Some _ =>
          r2 ← writeComponent key c (EntityId.unstableIndex entityId1) component r1;
          Done (r2, entityId1)
      | None => Done (r1, entityId1)
      end
  | None => Done (r1, entityId1)
  end.

Definition addComponent (c : nat) (component : V) (entityId : EntityId.t) (r : t)
    : outcome (t * EntityId.t) :=
  _ ← fi_assert (negb (isIterating r));
  '(r1, entityId1, pool) ← resolveEntityId entityId r;
  match pool with
  | Some oldPool =>
      op ← derefPool oldPool r1;
      if ComponentPool.hasComponent c op then
        (* *this->get<ComponentToAdd>(entityId) = component *)
        '(r2, entityId2, componentPtr) ← get c entityId1 r1;
        match componentPtr with
        | Some _ =>
            r3 ← writeComponent (EntityId.poolKey entityId2) c
                   (EntityId.unstableIndex entityId2) component r2;
            Done (r3, entityId2)
        | None => Undefined
        end
      else
        '(r2, entityId2) ←
          relocate c (ComponentPool.componentHashes op ++ [hash_code c])
            (fun bitmask => N.setbit bitmask (N.of_nat c)) entityId1 oldPool r1;
        r3 ← writeComponent (EntityId.poolKey entityId2) c
               (EntityId.unstableIndex entityId2) component r2;
        Done (r3, entityId2)
  | None => Done (r1, entityId1)
  end.

Definition removeComponent (c : nat) (entityId : EntityId.t) (r : t)
    : outcome (t * EntityId.t) :=
  _ ← fi_assert (negb (isIterating r));
  '(r1, entityId1, pool) ← resolveEntityId entityId r;
  match pool with
  | Some oldPool =>
      op ← derefPool oldPool r1;
      if negb (ComponentPool.hasComponent c op) then Done (r1, entityId1)
      else
        relocate c
          (filter (fun h => h ≠ hash_code c) (ComponentPool.componentHashes op))
          (fun bitmask => N.clearbit bitmask (N.of_nat c)) entityId1 oldPool r1
  | None => Done (r1, entityId1)
  end.

Definition getPool (cs : list nat) (r : t) : option ComponentPool.t :=
  pools r !! (generateComponentPoolKeyFromTemplate cs).1.

(** *** Bulk iteration

    A callback runs against the registry it captured: it is a function on
    the registry state.  The references into the columns it receives are
    the slots [unstableIndex] of the pool under the handle's [poolKey].
    The order in which an [unordered_map] is walked is unspecified; the
    embedding walks the keys in the order of [map_to_list].  The keys and,
    for each pool, the slot count are read when the loop over them starts:
    while [isIterating] is set every operation that could change them
    stops at its [fi_assert]. *)

Definition poolKeys (r : t) : list N := (map_to_list (pools r)).*1.

Fixpoint forEachKey (body : N -> t -> outcome t) (keys : list N) (r : t) : outcome t :=
  match keys with
  | [] => Done r
  | key :: rest => r' ← body key r; forEachKey body rest r'
  end.

(** [std::get<std::vector<Components>>(components)[i]...] must be in range. *)
Definition slotsInRange (cs : list nat) (i : nat) (p : ComponentPool.t) : bool :=
  forallb (fun c => bool_decide
                      (is_Some (ComponentPool.components p !! c ≫= (fun vec => vec !! i)))) cs.

(** [ComponentPool::forEach<Components...>(callback)] on the pool under
    [key], from slot [i] on. *)
Fixpoint forEachSlot (cs : list nat) (callback : EntityId.t -> t -> outcome t)
    (key : N) (slots : list nat) (r : t) : outcome t :=
  match slots with
  | [] => Done r
  | i :: rest =>
      p ← derefPool key r;
      if bool_decide (ComponentPool.poolSize p ≤ i) then Done r else
      match ComponentPool.versions p !! i with
      | Some v =>
          if slotsInRange cs i p then
            r' ← callback (EntityId.mk i v (ComponentPool.poolKey p) false) r;
            forEachSlot cs callback key rest r'
          else Undefined
      | None => Undefined
      end
  end.

(** [ComponentPool::forEachEarlyReturn<Components...>(callback)] *)
Fixpoint forEachSlotEarlyReturn (cs : list nat)
    (callback : EntityId.t -> t -> outcome (t * bool))
    (key : N) (slots : list nat) (r : t) : outcome (t * bool) :=
  match slots with
  | [] => Done (r, false)
  | i :: rest =>
      p ← derefPool key r;
      if bool_decide (ComponentPool.poolSize p ≤ i) then Done (r, false) else
      match ComponentPool.versions p !! i with
      | Some v =>
          if slotsInRange cs i p then
            '(r', result) ← callback (EntityId.mk i v (ComponentPool.poolKey p) false) r;
            if (result : bool) then Done (r', true)
            else forEachSlotEarlyReturn cs callback key rest r'
          else Undefined
      | None => Undefined
      end
  end.

Definition forEachPool (callback : N -> t -> outcome t) (r : t) : outcome t :=
  let r1 := with_iterating true r in
  r2 ← forEachKey
         (fun key r =>
            p ← derefPool key r;
            if bool_decide (ComponentPool.size p = 0) then Done r else callback key r)
         (poolKeys r1) r1;
  Done (with_iterating false r2).

Definition forEachComponents (cs : list nat) (callback : EntityId.t -> t -> outcome t)
    (r : t) : outcome t :=
  let r1 := with_iterating true r in
  r2 ← forEachKey
         (fun key r =>
            p ← derefPool key r;
            if ComponentPool.hasComponents cs p
            then forEachSlot cs callback key (seq 0 (ComponentPool.poolSize p)) r
            else Done r)
         (poolKeys r1) r1;
  Done (with_iterating false r2).

(** The loop over the pools of [forEachComponentsEarlyReturn]; [true] once
    a callback asked to stop ([break]). *)
Fixpoint forEachKeyEarlyReturn (cs : list nat)
    (callback : EntityId.t -> t -> outcome (t * bool)) (keys : list N) (r : t) : outcome t :=
  match keys with
  | [] => Done r
  | key :: rest =>
      p ← derefPool key r;
      if ComponentPool.hasComponents cs p then
        '(r', stop) ← forEachSlotEarlyReturn cs callback key
                        (seq 0 (ComponentPool.poolSize p)) r;
        if (stop : bool) then Done r' else forEachKeyEarlyReturn cs callback rest r'
      else forEachKeyEarlyReturn cs callback rest r
  end.

Definition forEachComponentsEarlyReturn (cs : list nat)
    (callback : EntityId.t -> t -> outcome (t * bool)) (r : t) : outcome t :=
  let r1 := with_iterating true r in
  r2 ← forEachKeyEarlyReturn cs callback (poolKeys r1) r1;
  Done (with_iterating false r2).

(** The inner loop of [forEachEntity]; the handle carries the map key. *)
Fixpoint forEachEntitySlot (callback : EntityId.t -> t -> outcome t)
    (key : N) (slots : list nat) (r : t) : outcome t :=
  match slots with
  | [] => Done r
  | i :: rest =>
      p ← derefPool key r;
      if bool_decide (ComponentPool.size p ≤ i) then Done r else
      match ComponentPool.versions p !! i with
      | Some v =>
          r' ← callback (EntityId.mk i v key false) r;
          forEachEntitySlot callback key rest r'
      | None => Undefined
      end
  end.

(** The source ends with [isIterating = true]. *)
Definition forEachEntity (callback : EntityId.t -> t -> outcome t) (r : t) : outcome t :=
  let r1 := with_iterating true r in
  r2 ← forEachKey
         (fun key r =>
            p ← derefPool key r;
            forEachEntitySlot callback key (seq 0 (ComponentPool.size p)) r)
         (poolKeys r1) r1;
  Done (with_iterating true r2).

End WithUniverse.
End Registry.

(** ** Well-formed stores *)

Section Invariants.
Context `{U : ComponentUniverse}.

(** All the ways of choosing component types of the pack, each in
    increasing order. *)
Fixpoint sublists {A} (l : list A) : list (list A) :=
  match l with
  | [] => [[]]
  | x :: rest => ((x ::.) <$> sublists rest) ++ sublists rest
  end.

Definition fingerprint (cs : list nat) : N := combineHashes (hash_code <$> cs).

(** No two sets of component types of the pack share a fingerprint
    ([typeid(T).hash_code()] is the compiler's; the store relies on it). *)
Definition collisionFree : bool :=
  let sets := sublists (seq 0 universeSize) in
  forallb (fun s1 =>
    forallb (fun s2 =>
      implb (bool_decide (fingerprint s1 = fingerprint s2)) (bool_decide (s1 = s2)))
      sets) sets.

(** Version [v] is stored at slot [i] of the pool under [k]. *)
Definition livesAt (r : Registry.t) (v : N) (k : N) (i : nat) : Prop :=
  exists p, Registry.pools r !! k = Some p /\ ComponentPool.versions p !! i = Some v.

Record poolOk (k : N) (p : ComponentPool.t) : Prop := {
  ok_key : ComponentPool.poolKey p = k;
  ok_size : ComponentPool.poolSize p = length (ComponentPool.versions p);
  ok_width : length (ComponentPool.components p) = universeSize;
  ok_nodup : NoDup (ComponentPool.componentsInUseIndices p);
  ok_range : forall c, c ∈ ComponentPool.componentsInUseIndices p -> c < universeSize;
  ok_mask : forall c,
    N.testbit (ComponentPool.componentsInUseBitmask p) (N.of_nat c) = true
    <-> c ∈ ComponentPool.componentsInUseIndices p;
  ok_hashes :
    ComponentPool.componentHashes p ≡ₚ hash_code <$> ComponentPool.componentsInUseIndices p;
  ok_fingerprint : k = combineHashes (ComponentPool.componentHashes p);
  ok_column : forall c, c ∈ ComponentPool.componentsInUseIndices p ->
    exists col, ComponentPool.components p !! c = Some col
                /\ length col = ComponentPool.poolSize p
}.

Record registryOk (r : Registry.t) : Prop := {
  ok_pools : forall k p, Registry.pools r !! k = Some p -> poolOk k p;
  ok_remap_version : forall v e,
    Registry.entityRemappings r !! v = Some e -> EntityId.version e = v;
  ok_unique : forall v k1 i1 k2 i2,
    livesAt r v k1 i1 -> livesAt r v k2 i2 -> k1 = k2 /\ i1 = i2;
  ok_fresh : forall v k i,
    livesAt r v k i -> (Z.of_N v < Registry.nextVersionIndex r)%Z;
  ok_counter : (0 <= Registry.nextVersionIndex r <= INT_MAX)%Z;
  ok_remap_fresh : forall v e,
    Registry.entityRemappings r !! v = Some e -> (Z.of_N v < Registry.nextVersionIndex r)%Z;
  ok_remap : forall v e k i,
    Registry.entityRemappings r !! v = Some e -> livesAt r v k i ->
    EntityId.poolKey e = k /\ EntityId.unstableIndex e = i /\ EntityId.dead e = false
}.

(** The number of slots of the pool under [k]; a pool that was never
    created has none. *)
Definition poolSizeAt (r : Registry.t) (k : N) : nat :=
  match Registry.pools r !! k with
  | Some p => ComponentPool.poolSize p
  | None => 0
  end.

(** The value of component type [c] at slot [i] of the pool under [k]. *)
Definition componentAt (r : Registry.t) (k : N) (c i : nat) : option V :=
  Registry.pools r !! k ≫= fun p =>
  ComponentPool.components p !! c ≫= fun vec => vec !! i.

(** Handle [h] leads to slot [i] of the pool under [k]: it is not
    tombstoned, the entity of its version is stored in that slot, and the
    handle names the slot or its version has a remap entry. *)
Definition tracked (r : Registry.t) (h : EntityId.t) (k : N) (i : nat) : Prop :=
  EntityId.dead h = false
  /\ livesAt r (EntityId.version h) k i
  /\ ((EntityId.poolKey h = k /\ EntityId.unstableIndex h = i)
      \/ is_Some (Registry.entityRemappings r !! EntityId.version h)).

(** From [r] to [r'] every component value outside [changed] stays with
    its entity: an entity [w] that held value [x] for type [c] still does,
    in the same slot or in one its remap entry leads to; and no version
    loses its remap entry. *)
Definition keeps (changed : N -> nat -> Prop) (r r' : Registry.t) : Prop :=
  (forall w, is_Some (Registry.entityRemappings r !! w) ->
             is_Some (Registry.entityRemappings r' !! w))
  /\ forall w k i p c x,
       Registry.pools r !! k = Some p ->
       ComponentPool.versions p !! i = Some w ->
       ComponentPool.hasComponent c p = true ->
       componentAt r k c i = Some x ->
       ~ changed w c ->
       exists k' i' p',
         Registry.pools r' !! k' = Some p'
         /\ ComponentPool.versions p' !! i' = Some w
         /\ ComponentPool.hasComponent c p' = true
         /\ componentAt r' k' c i' = Some x
         /\ ((k' = k /\ i' = i) \/ is_Some (Registry.entityRemappings r' !! w)).

(** The handles an iteration builds for the slots of the pool under
    [key], in slot order. *)
Definition poolHandles (key : N) (p : ComponentPool.t) : list EntityId.t :=
  imap (fun i v => EntityId.mk i v key false) (ComponentPool.versions p).

(** The handles of all stored entities, pool by pool in the order of the
    walk over the map; those of the pools that hold all the types [cs]; and
    the keys of the pools that are not empty. *)
Definition entityHandles (r : Registry.t) : list EntityId.t :=
  map_to_list (Registry.pools r) ≫= fun kp => poolHandles kp.1 kp.2.

Definition matchingHandles (cs : list nat) (r : Registry.t) : list EntityId.t :=
  map_to_list (Registry.pools r) ≫= fun kp =>
    if ComponentPool.hasComponents cs kp.2 then poolHandles kp.1 kp.2 else [].

Definition occupiedPools (r : Registry.t) : list N :=
  map_to_list (Registry.pools r) ≫= fun kp =>
    if bool_decide (ComponentPool.size kp.2 = 0) then [] else [kp.1].

(** The callback run on each item of a list in turn, and the same with a
    callback that can ask to stop. *)
Fixpoint visit {A} (callback : A -> Registry.t -> outcome Registry.t) (items : list A)
    (r : Registry.t) : outcome Registry.t :=
  match items with
  | [] => Done r
  | item :: rest => r' ← callback item r; visit callback rest r'
  end.

Fixpoint visitUntil {A} (callback : A -> Registry.t -> outcome (Registry.t * bool))
    (items : list A) (r : Registry.t) : outcome (Registry.t * bool) :=
  match items with
  | [] => Done (r, false)
  | item :: rest =>
      '(r', stop) ← callback item r;
      if (stop : bool) then Done (r', true) else visitUntil callback rest r'
  end.

(** [r'] has the pools of [r], with the same slots, versions and component
    types. *)
Definition sameSlots (r r' : Registry.t) : Prop :=
  forall k,
    (fun p => (ComponentPool.versions p, ComponentPool.poolSize p,
               ComponentPool.componentsInUseBitmask p)) <$> Registry.pools r' !! k
    = (fun p => (ComponentPool.versions p, ComponentPool.poolSize p,
                 ComponentPool.componentsInUseBitmask p)) <$> Registry.pools r !! k.

(** The state of an iteration that started from [r0]: the store is well
    formed, the flag is set, and the pools have the slots they had. *)
Definition iterating (r0 r : Registry.t) : Prop :=
  registryOk r /\ Registry.isIterating r = true /\ sameSlots r0 r.

(** A callback that keeps that state when it returns. *)
Definition keepsSlots {A} (callback : A -> Registry.t -> outcome Registry.t) : Prop :=
  forall a r r', registryOk r -> Registry.isIterating r = true -> callback a r = Done r' ->
    registryOk r' /\ Registry.isIterating r' = true /\ sameSlots r r'.

(** From [r] to [r'] no pool and no remap entry has been erased. *)
Definition neverErased (r r' : Registry.t) : Prop :=
  (forall k, is_Some (Registry.pools r !! k) -> is_Some (Registry.pools r' !! k))
  /\ (forall v, is_Some (Registry.entityRemappings r !! v) ->
                is_Some (Registry.entityRemappings r' !! v)).

(** From [r0] to [r] the version counter has not gone down, and every
    version stored in [r] was stored in [r0] or was taken from the counter
    since. *)
Definition noReuse (r0 r : Registry.t) : Prop :=
  (Registry.nextVersionIndex r0 <= Registry.nextVersionIndex r)%Z
  /\ forall w k i, livesAt r w k i ->
       (exists k0 i0, livesAt r0 w k0 i0) \/ (Registry.nextVersionIndex r0 <= Z.of_N w)%Z.

(** What [ComponentPool::removeEntity] reports for a valid handle. *)
Definition removalReport (id : EntityId.t) (p : ComponentPool.t) : RemoveEntityResult :=
  if bool_decide (1 < ComponentPool.poolSize p)
  then mkRemoveEntityResult true true (last (ComponentPool.versions p))
         (Some (EntityId.unstableIndex id))
  else mkRemoveEntityResult true false None None.

(** The entity behind handle [id1], stored in the pool under [k], has been
    moved by [addComponent<c>] or [removeComponent<c>] to the pool of the
    component types [newCs]; [r'] and [id'] are the store and the handle
    after the call. *)
Record relocated (c : nat) (newCs : list nat) (r : Registry.t) (k : N)
    (id1 : EntityId.t) (r' : Registry.t) (id' : EntityId.t) : Prop := {
  (* the handle the caller holds afterwards *)
  mv_key : EntityId.poolKey id' = fingerprint newCs;
  mv_index : EntityId.unstableIndex id' = poolSizeAt r (fingerprint newCs);
  mv_version : EntityId.version id' = EntityId.version id1;
  mv_alive : EntityId.dead id' = false;
  mv_distinct : EntityId.poolKey id' <> k;
  (* it is valid in the destination pool, whose types are [newCs] *)
  mv_dest : exists q',
    Registry.pools r' !! EntityId.poolKey id' = Some q'
    /\ ComponentPool.componentsInUseIndices q' ≡ₚ newCs
    /\ ComponentPool.isValid id' q' = Done true;
  (* pool sizes *)
  mv_dest_size :
    poolSizeAt r' (EntityId.poolKey id') = S (poolSizeAt r (EntityId.poolKey id'));
  mv_src_size : poolSizeAt r' k = poolSizeAt r k - 1;
  mv_other : forall k'', k'' <> k -> k'' <> EntityId.poolKey id' ->
    poolSizeAt r' k'' = poolSizeAt r k'';
  (* the entity has one slot, the new one *)
  mv_unique : forall k'' j,
    livesAt r' (EntityId.version id1) k'' j
    <-> k'' = EntityId.poolKey id' /\ j = EntityId.unstableIndex id';
  (* the shared components kept their values *)
  mv_values : forall c', c' ∈ newCs -> c' <> c ->
    exists x, componentAt r k c' (EntityId.unstableIndex id1) = Some x
              /\ componentAt r' (EntityId.poolKey id') c' (EntityId.unstableIndex id') = Some x;
  mv_iterating : Registry.isIterating r' = Registry.isIterating r;
  mv_counter : Registry.nextVersionIndex r' = Registry.nextVersionIndex r
}.

(** The order of the steps of a relocation: the destination pool is found
    or created ([r1]); the new slot is filled while the old one still
    exists ([r2]); then the old slot is removed, which gives [r3].
    In [r2], before the removal, the entity is stored in both slots, the
    old slot still holds its values, the new slot holds the value of the
    old slot for every component type [c'] other than [c], and, when [c]
    is a type of the destination pool (the [addComponent] case), the
    value [ComponentToAdd{}] for [c].  The removal does not touch the new
    slot.  [removeComponent] returns [r3]; [addComponent] then writes the
    added value. *)
Definition relocationSteps (c : nat) (newCs : list nat) (r : Registry.t) (k : N)
    (id1 : EntityId.t) (r3 : Registry.t) (id' : EntityId.t) : Prop :=
  exists r1 r2,
    (forall w k'' j, livesAt r1 w k'' j <-> livesAt r w k'' j)
    /\ Registry.transferPopulate c id1 id' k (EntityId.poolKey id') r1 = Done r2
    /\ livesAt r2 (EntityId.version id1) k (EntityId.unstableIndex id1)
    /\ livesAt r2 (EntityId.version id1) (EntityId.poolKey id') (EntityId.unstableIndex id')
    /\ (forall c', c' ∈ newCs -> c' <> c ->
          exists x,
            componentAt r k c' (EntityId.unstableIndex id1) = Some x
            /\ componentAt r2 k c' (EntityId.unstableIndex id1) = Some x
            /\ componentAt r2 (EntityId.poolKey id') c' (EntityId.unstableIndex id') = Some x)
    /\ (c ∈ newCs ->
          componentAt r2 (EntityId.poolKey id') c (EntityId.unstableIndex id')
          = Some (defaultComponent c))
    /\ Registry.transferRelease id1 id' k r2 = Done (r3, id')
    /\ (forall c',
          componentAt r3 (EntityId.poolKey id') c' (EntityId.unstableIndex id')
          = componentAt r2 (EntityId.poolKey id') c' (EntityId.unstableIndex id')).

(** One call of the public interface that returns.  [createEntity] is
    instantiated with pairwise distinct types of the pack, the other
    operations with a type of the pack; handles are arbitrary. *)
Inductive apiStep : Registry.t -> Registry.t -> Prop :=
| step_createEntity cs r r' id :
    NoDup cs -> (forall c, c ∈ cs -> c < universeSize) ->
    Registry.createEntity cs r = Done (r', id) -> apiStep r r'
| step_createEntityWith cvs r r' id :
    NoDup cvs.*1 -> (forall c, c ∈ cvs.*1 -> c < universeSize) ->
    Registry.createEntityWith cvs r = Done (r', id) -> apiStep r r'
| step_removeEntity id r r' id' :
    Registry.removeEntity id r = Done (r', id') -> apiStep r r'
| step_addComponent c v id r r' id' :
    c < universeSize ->
    Registry.addComponent c v id r = Done (r', id') -> apiStep r r'
| step_removeComponent c id r r' id' :
    c < universeSize ->
    Registry.removeComponent c id r = Done (r', id') -> apiStep r r'
| step_get c id r r' id' x :
    Registry.get c id r = Done (r', id', x) -> apiStep r r'
| step_set c v id r r' id' :
    Registry.set c v id r = Done (r', id') -> apiStep r r'.

(** A callback that touches the registry through calls of the interface. *)
Definition apiCallback {A} (callback : A -> Registry.t -> outcome Registry.t) : Prop :=
  forall a r r', callback a r = Done r' -> rtc apiStep r r'.

Definition apiCallbackEarlyReturn {A}
    (callback : A -> Registry.t -> outcome (Registry.t * bool)) : Prop :=
  forall a r r' stop, callback a r = Done (r', stop) -> rtc apiStep r r'.

Inductive step : Registry.t -> Registry.t -> Prop :=
| step_api r r' : apiStep r r' -> step r r'
| step_forEachPool callback r r' :
    apiCallback callback ->
    Registry.forEachPool callback r = Done r' -> step r r'
| step_forEachComponents cs callback r r' :
    apiCallback callback ->
    Registry.forEachComponents cs callback r = Done r' -> step r r'
| step_forEachComponentsEarlyReturn cs callback r r' :
    apiCallbackEarlyReturn callback ->
    Registry.forEachComponentsEarlyReturn cs callback r = Done r' -> step r r'
| step_forEachEntity callback r r' :
    apiCallback callback ->
    Registry.forEachEntity callback r = Done r' -> step r r'.

(** The states a program can bring a fresh registry into. *)
Definition reachable (r : Registry.t) : Prop := rtc step Registry.empty r.

End Invariants.

(** ** A concrete store

    Three component types, as in the README's example program; the type
    hashes are three 64-bit numbers standing for [typeid(T).hash_code()]. *)

Module Demo.

Definition universe : ComponentUniverse := {|
  V := Z;
  universeSize := 3;
  defaultComponent := fun _ => 0%Z;
  hash_code := fun c =>
    match c with
    | O => 0x9ae16a3b2f90404f%N
    | S O => 0xc3a5c85c97cb3127%N
    | _ => 0xb492b66fbe98f273%N
    end
|}.

#[local] Existing Instance universe.

(** The key of the pool of the entities that hold component type 0 alone. *)
Definition key0 : N := combineHashes [hash_code 0].

(** Two entities created with [createEntity<T0>(10)] and
    [createEntity<T0>(20)] on a fresh registry, and the registries they
    leave: [single] after the first call, [pair] after the second. *)
Definition first : EntityId.t := EntityId.mk 0 0 key0 false.
Definition second : EntityId.t := EntityId.mk 1 1 key0 false.

Definition single : Registry.t :=
  Registry.mk
    {[ key0 := ComponentPool.mk [[10]; []; []]%Z 1 [0] [hash_code 0] [0]%N 1 key0 ]}
    ∅ 1 false.

Definition pool0 : ComponentPool.t :=
  ComponentPool.mk [[10; 20]; []; []]%Z 1 [0] [hash_code 0] [0; 1]%N 2 key0.

Definition pair : Registry.t := Registry.mk {[ key0 := pool0 ]} ∅ 2 false.

(** The registry after [removeEntity(first)]: the second entity sits in
    slot 0 and its move is recorded. *)
Definition pool1 : ComponentPool.t :=
  ComponentPool.mk [[20]; []; []]%Z 1 [0] [hash_code 0] [1]%N 1 key0.

Definition moved : EntityId.t := EntityId.mk 0 1 key0 false.

Definition healed : Registry.t := Registry.mk {[ key0 := pool1 ]} {[ 1%N := moved ]} 2 false.

End Demo.

(** * Properties *)

(** ** Hashes *)

Lemma sortHashes_perm (l1 l2 : list N) :
  l1 ≡ₚ l2 -> sortHashes l1 = sortHashes l2.
Proof.
  intros Hp. unfold sortHashes.
  apply (Sorted_unique N.le).
  - apply Sorted_merge_sort; apply _.
  - apply Sorted_merge_sort; apply _.
  - rewrite !merge_sort_Permutation. exact Hp.
Qed.

Lemma combineHashes_perm (l1 l2 : list N) :
  l1 ≡ₚ l2 -> combineHashes l1 = combineHashes l2.
Proof.
  intros Hp. unfold combineHashes. by rewrite (sortHashes_perm l1 l2 Hp).
Qed.

(** ** Outcomes *)

Lemma bind_Done {A B} (m : outcome A) (f : A -> outcome B) (b : B) :
  m ≫= f = Done b <-> exists a, m = Done a /\ f a = Done b.
Proof.
  destruct m; simpl; split; try discriminate; eauto.
  all: intros (a' & Hm & Hf); by inversion Hm; subst.
Qed.

Lemma fi_assert_Done (b : bool) (u : unit) : fi_assert b = Done u <-> b = true.
Proof. destruct b, u; simpl; split; (done || discriminate). Qed.

Ltac inv_outcome :=
  repeat match goal with
  | H : _ ≫= _ = Done _ |- _ =>
      let a := fresh "a" in let E := fresh "E" in
      apply bind_Done in H as (a & E & H)
  | H : fi_assert _ = Done _ |- _ => apply fi_assert_Done in H
  | H : Done _ = Done _ |- _ => injection H as H; subst
  | H : mret _ = Done _ |- _ => injection H as H; subst
  | H : Aborted = Done _ |- _ => discriminate H
  | H : Undefined = Done _ |- _ => discriminate H
  | H : Diverged = Done _ |- _ => discriminate H
  | H : (_, _) = (_, _) |- _ => injection H as ?; subst
  end.

(** ** Vectors *)

Lemma length_vecSwap {A} (i j : nat) (l : list A) : length (vecSwap i j l) = length l.
Proof.
  unfold vecSwap. destruct (l !! i), (l !! j); auto.
  by rewrite !length_insert.
Qed.

Lemma length_pop_back {A} (l : list A) : length (pop_back l) = length l - 1.
Proof. unfold pop_back. rewrite length_take. lia. Qed.

(** Swap with the back and pop: the back takes the place of slot [idx]. *)
Lemma lookup_swap_pop {A} (idx j : nat) (l : list A) :
  idx < length l ->
  pop_back (vecSwap idx (length l - 1) l) !! j =
    if decide (j < length l - 1)
    then (if decide (j = idx) then l !! (length l - 1) else l !! j)
    else None.
Proof.
  intros Hidx.
  destruct (lookup_lt_is_Some_2 l idx Hidx) as [x Hx].
  destruct (lookup_lt_is_Some_2 l (length l - 1) ltac:(lia)) as [y Hy].
  unfold pop_back. rewrite length_vecSwap. unfold vecSwap. rewrite Hx, Hy.
  case_decide as Hj.
  - rewrite lookup_take_lt by done.
    rewrite list_lookup_insert_ne by lia.
    case_decide as Hji.
    + subst j. rewrite list_lookup_insert_eq by done. done.
    + by rewrite list_lookup_insert_ne.
  - apply lookup_take_ge. lia.
Qed.

Lemma length_swap_pop {A} (idx : nat) (l : list A) :
  length (pop_back (vecSwap idx (length l - 1) l)) = length l - 1.
Proof. by rewrite length_pop_back, length_vecSwap. Qed.

Lemma vecSwap_same {A} (i : nat) (l : list A) : vecSwap i i l = l.
Proof.
  unfold vecSwap. destruct (l !! i) eqn:E; [|done].
  rewrite list_insert_insert_eq. by apply list_insert_id.
Qed.

Lemma vecSwap_out_of_range {A} (i j : nat) (l : list A) :
  length l <= i -> vecSwap i j l = l.
Proof. intros H. unfold vecSwap. by rewrite (lookup_ge_None_2 l i H). Qed.

(** ** Component pools *)

Lemma decide_elem_of_cons_ne {B} (c x : nat) (l : list nat) (X Y : B) :
  c <> x ->
  (if decide (c ∈ x :: l) then X else Y) = (if decide (c ∈ l) then X else Y).
Proof.
  intros Hne. destruct (decide (c ∈ l)) as [H|H].
  - rewrite decide_True; [done | by right].
  - rewrite decide_False; [done|]. rewrite not_elem_of_cons. done.
Qed.

Section PoolFacts.
Context `{U : ComponentUniverse}.
Implicit Types (p : ComponentPool.t) (id : EntityId.t).

Lemma with_components_twice cols cols' p :
  ComponentPool.with_components cols (ComponentPool.with_components cols' p)
  = ComponentPool.with_components cols p.
Proof. done. Qed.

Lemma with_components_same p : ComponentPool.with_components (ComponentPool.components p) p = p.
Proof. by destruct p. Qed.

Lemma isValid_true id p :
  ComponentPool.isValid id p = Done true <->
  EntityId.dead id = false
  /\ EntityId.unstableIndex id < ComponentPool.poolSize p
  /\ ComponentPool.versions p !! EntityId.unstableIndex id = Some (EntityId.version id).
Proof.
  unfold ComponentPool.isValid.
  destruct (EntityId.dead id); [split; [discriminate | intros [? _]; discriminate]|].
  case_bool_decide as Hsz.
  { split; [discriminate | intros (_ & ? & _); lia]. }
  destruct (ComponentPool.versions p !! EntityId.unstableIndex id) as [v|] eqn:Ev.
  - split.
    + intros [= Hb]. apply bool_decide_eq_true in Hb. subst v. repeat split; [lia].
    + intros (_ & _ & [= ->]). by rewrite bool_decide_eq_true_2.
  - split; [discriminate | intros (_ & _ & ?); discriminate].
Qed.

Lemma isValid_defined id p :
  ComponentPool.poolSize p = length (ComponentPool.versions p) ->
  exists b, ComponentPool.isValid id p = Done b.
Proof.
  intros Hsz. unfold ComponentPool.isValid.
  destruct (EntityId.dead id); [eauto|].
  case_bool_decide; [eauto|].
  destruct (lookup_lt_is_Some_2 (ComponentPool.versions p) (EntityId.unstableIndex id))
    as [v ->]; [lia | eauto].
Qed.

(** [isValid] does not read the columns. *)
Lemma isValid_with_components id cols p :
  ComponentPool.isValid id (ComponentPool.with_components cols p) = ComponentPool.isValid id p.
Proof. done. Qed.

(** The loops over [componentsInUseIndices] change the columns they name
    and nothing else. *)
Lemma pushDefaults_spec indices p :
  NoDup indices ->
  exists cols,
    ComponentPool.pushDefaults indices p = Done (ComponentPool.with_components cols p)
    /\ length cols = length (ComponentPool.components p)
    /\ forall c, cols !! c =
         if decide (c ∈ indices)
         then (fun col => col ++ [defaultComponent c]) <$> ComponentPool.components p !! c
         else ComponentPool.components p !! c.
Proof.
  intros Hnd. revert p. induction Hnd as [|x l Hx Hnd IH]; intros p.
  - exists (ComponentPool.components p).
    split_and!; [simpl; by rewrite with_components_same | done |].
    intros c. by rewrite decide_False by apply not_elem_of_nil.
  - simpl. unfold ComponentPool.accessComponentsVecByIndex.
    destruct (ComponentPool.components p !! x) as [vec|] eqn:Ex; simpl.
    + destruct (IH (ComponentPool.with_components
                      (<[x:=vec ++ [defaultComponent x]]> (ComponentPool.components p)) p))
        as (cols & Hrun & Hlen & Hcols).
      exists cols. rewrite Hrun, with_components_twice. split_and!; [done| |].
      { rewrite Hlen. simpl. by rewrite length_insert. }
      intros c. rewrite Hcols. simpl.
      destruct (decide (c = x)) as [->|Hne].
      * rewrite decide_False by done. rewrite decide_True by (left).
        rewrite list_lookup_insert_eq by (by eapply lookup_lt_Some). by rewrite Ex.
      * rewrite list_lookup_insert_ne by done.
        by rewrite (decide_elem_of_cons_ne c x l).
    + destruct (IH p) as (cols & Hrun & Hlen & Hcols).
      exists cols. split_and!; [done..|].
      intros c. rewrite Hcols.
      destruct (decide (c = x)) as [->|Hne].
      * rewrite decide_False by done. rewrite decide_True by (left). by rewrite Ex.
      * by rewrite (decide_elem_of_cons_ne c x l).
Qed.

Lemma swapPop_nonempty idx (vec : list V) :
  vec <> [] ->
  ComponentPool.swapPop idx vec = Done (pop_back (vecSwap idx (length vec - 1) vec)).
Proof.
  intros Hne. unfold ComponentPool.swapPop. destruct vec as [|a vec]; [done|].
  f_equal. case_bool_decide as Hidx; [done|].
  destruct (decide (idx = length (a :: vec) - 1)) as [->|Hneq].
  - by rewrite vecSwap_same.
  - rewrite vecSwap_out_of_range; [done|]. simpl in *. lia.
Qed.

Lemma swapPopColumns_spec indices idx p :
  NoDup indices ->
  (forall c col, c ∈ indices -> ComponentPool.components p !! c = Some col -> col <> []) ->
  exists cols,
    ComponentPool.swapPopColumns indices idx p = Done (ComponentPool.with_components cols p)
    /\ length cols = length (ComponentPool.components p)
    /\ forall c, cols !! c =
         if decide (c ∈ indices)
         then (fun col => pop_back (vecSwap idx (length col - 1) col))
                <$> ComponentPool.components p !! c
         else ComponentPool.components p !! c.
Proof.
  intros Hnd. revert p. induction Hnd as [|x l Hx Hnd IH]; intros p Hne.
  - exists (ComponentPool.components p).
    split_and!; [simpl; by rewrite with_components_same | done |].
    intros c. by rewrite decide_False by apply not_elem_of_nil.
  - simpl. unfold ComponentPool.accessComponentsVecByIndex.
    destruct (ComponentPool.components p !! x) as [vec|] eqn:Ex; simpl.
    + rewrite swapPop_nonempty by (eapply Hne; [left | done]). simpl.
      destruct (IH (ComponentPool.with_components
                      (<[x:=pop_back (vecSwap idx (length vec - 1) vec)]>
                         (ComponentPool.components p)) p))
        as (cols & Hrun & Hlen & Hcols).
      { intros c col Hc. simpl. rewrite list_lookup_insert_ne by (intros ->; done).
        intros Hcol. eapply Hne; [by right | done]. }
      exists cols. rewrite Hrun, with_components_twice. split_and!; [done| |].
      { rewrite Hlen. simpl. by rewrite length_insert. }
      intros c. rewrite Hcols. simpl.
      destruct (decide (c = x)) as [->|Hnx].
      * rewrite decide_False by done. rewrite decide_True by (left).
        rewrite list_lookup_insert_eq by (by eapply lookup_lt_Some). by rewrite Ex.
      * rewrite list_lookup_insert_ne by done.
        by rewrite (decide_elem_of_cons_ne c x l).
    + destruct (IH p) as (cols & Hrun & Hlen & Hcols).
      { intros c col Hc. eapply Hne. by right. }
      exists cols. split_and!; [done..|].
      intros c. rewrite Hcols.
      destruct (decide (c = x)) as [->|Hnx].
      * rewrite decide_False by done. rewrite decide_True by (left). by rewrite Ex.
      * by rewrite (decide_elem_of_cons_ne c x l).
Qed.

End PoolFacts.

Section PoolOperations.
Context `{U : ComponentUniverse}.
Implicit Types (p : ComponentPool.t) (id : EntityId.t).

Lemma pushComponents_spec (cvs : list (nat * V)) p :
  NoDup cvs.*1 ->
  exists cols,
    fold_left (fun q cv => ComponentPool.pushComponent cv.1 cv.2 q) cvs p
      = ComponentPool.with_components cols p
    /\ length cols = length (ComponentPool.components p)
    /\ (forall c, c ∈ cvs.*1 ->
          exists v, (c, v) ∈ cvs
                    /\ cols !! c = (fun col => col ++ [v]) <$> ComponentPool.components p !! c)
    /\ (forall c, c ∉ cvs.*1 -> cols !! c = ComponentPool.components p !! c).
Proof.
  revert p. induction cvs as [|[x v] cvs IH]; intros p Hnd.
  - exists (ComponentPool.components p).
    split_and!; [simpl; by rewrite with_components_same | done | |done].
    intros c Hc. by apply elem_of_nil in Hc.
  - simpl in Hnd. apply NoDup_cons in Hnd as [Hx Hnd]. simpl.
    destruct (IH (ComponentPool.pushComponent x v p) Hnd) as (cols & Hrun & Hlen & Hin & Hout).
    exists cols. rewrite Hrun. split_and!; [done | | |].
    + rewrite Hlen. simpl. by rewrite length_alter.
    + intros c [->|Hc]%elem_of_cons.
      * exists v. split; [left|]. rewrite (Hout x Hx). simpl.
        by rewrite list_lookup_alter_eq.
      * destruct (Hin c Hc) as (v' & Hv' & Hcol). exists v'. split; [by right|].
        rewrite Hcol. simpl. rewrite list_lookup_alter_ne; [done|]. intros ->. done.
    + intros c [Hcx Hc]%not_elem_of_cons. rewrite (Hout c Hc). simpl.
      by rewrite list_lookup_alter_ne.
Qed.

Lemma pushVersion_spec id p :
  EntityId.unstableIndex id = ComponentPool.poolSize p ->
  ComponentPool.poolSize p = length (ComponentPool.versions p) ->
  ComponentPool.pushVersion id p =
    Done (ComponentPool.mk (ComponentPool.components p)
            (ComponentPool.componentsInUseBitmask p) (ComponentPool.componentsInUseIndices p)
            (ComponentPool.componentHashes p)
            (ComponentPool.versions p ++ [EntityId.version id])
            (S (ComponentPool.poolSize p)) (ComponentPool.poolKey p)).
Proof.
  intros H1 H2. unfold ComponentPool.pushVersion.
  by rewrite !bool_decide_eq_true_2.
Qed.

Lemma pushVersion_Done id p p' :
  ComponentPool.pushVersion id p = Done p' ->
  EntityId.unstableIndex id = ComponentPool.poolSize p
  /\ ComponentPool.poolSize p = length (ComponentPool.versions p)
  /\ p' = ComponentPool.mk (ComponentPool.components p)
            (ComponentPool.componentsInUseBitmask p) (ComponentPool.componentsInUseIndices p)
            (ComponentPool.componentHashes p)
            (ComponentPool.versions p ++ [EntityId.version id])
            (S (ComponentPool.poolSize p)) (ComponentPool.poolKey p).
Proof.
  unfold ComponentPool.pushVersion. intros H. inv_outcome.
  rewrite bool_decide_eq_true in E, E0. done.
Qed.

(** Appending a slot keeps a pool well formed. *)
Lemma poolOk_push k p cols v :
  poolOk k p ->
  length cols = length (ComponentPool.components p) ->
  (forall c, c ∈ ComponentPool.componentsInUseIndices p ->
     exists x, cols !! c = (fun col => col ++ [x]) <$> ComponentPool.components p !! c) ->
  poolOk k (ComponentPool.mk cols
              (ComponentPool.componentsInUseBitmask p) (ComponentPool.componentsInUseIndices p)
              (ComponentPool.componentHashes p) (ComponentPool.versions p ++ [v])
              (S (ComponentPool.poolSize p)) (ComponentPool.poolKey p)).
Proof.
  intros [Hkey Hsize Hwidth Hnd Hrange Hmask Hhashes Hfp Hcolumn] Hlen Hcols.
  split; simpl; try done.
  - rewrite length_app. simpl. lia.
  - congruence.
  - intros c Hc. destruct (Hcolumn c Hc) as (col & Hcol & Hl).
    destruct (Hcols c Hc) as (x & Hx). rewrite Hcol in Hx. simpl in Hx.
    eexists. split; [done|]. rewrite length_app. simpl. lia.
Qed.

Lemma createEntityFromBitmask_spec k id p :
  poolOk k p ->
  EntityId.unstableIndex id = ComponentPool.poolSize p ->
  exists cols,
    ComponentPool.createEntityFromBitmask id p =
      Done (ComponentPool.mk cols
              (ComponentPool.componentsInUseBitmask p) (ComponentPool.componentsInUseIndices p)
              (ComponentPool.componentHashes p)
              (ComponentPool.versions p ++ [EntityId.version id])
              (S (ComponentPool.poolSize p)) (ComponentPool.poolKey p))
    /\ length cols = length (ComponentPool.components p)
    /\ forall c, cols !! c =
         if decide (c ∈ ComponentPool.componentsInUseIndices p)
         then (fun col => col ++ [defaultComponent c]) <$> ComponentPool.components p !! c
         else ComponentPool.components p !! c.
Proof.
  intros Hok Hidx. unfold ComponentPool.createEntityFromBitmask.
  destruct (pushDefaults_spec (ComponentPool.componentsInUseIndices p) p (ok_nodup _ _ Hok))
    as (cols & Hrun & Hlen & Hcols).
  exists cols. rewrite Hrun. simpl. rewrite pushVersion_spec; [done | done |].
  simpl. by apply ok_size with k.
Qed.

Lemma createEntity_pool_spec k id (cvs : list (nat * V)) p :
  poolOk k p ->
  NoDup cvs.*1 ->
  EntityId.unstableIndex id = ComponentPool.poolSize p ->
  exists cols,
    ComponentPool.createEntity id cvs p =
      Done (ComponentPool.mk cols
              (ComponentPool.componentsInUseBitmask p) (ComponentPool.componentsInUseIndices p)
              (ComponentPool.componentHashes p)
              (ComponentPool.versions p ++ [EntityId.version id])
              (S (ComponentPool.poolSize p)) (ComponentPool.poolKey p))
    /\ length cols = length (ComponentPool.components p)
    /\ (forall c, c ∈ cvs.*1 ->
          exists v, (c, v) ∈ cvs
                    /\ cols !! c = (fun col => col ++ [v]) <$> ComponentPool.components p !! c)
    /\ (forall c, c ∉ cvs.*1 -> cols !! c = ComponentPool.components p !! c).
Proof.
  intros Hok Hnd Hidx. unfold ComponentPool.createEntity.
  destruct (pushComponents_spec cvs p Hnd) as (cols & Hrun & Hlen & Hin & Hout).
  exists cols. rewrite Hrun. rewrite pushVersion_spec; [done | done |].
  simpl. by apply ok_size with k.
Qed.

Lemma removeEntity_pool_spec k id p :
  poolOk k p ->
  ComponentPool.isValid id p = Done true ->
  exists cols,
    ComponentPool.removeEntity id p =
      Done (removalReport id p,
            ComponentPool.mk cols
              (ComponentPool.componentsInUseBitmask p) (ComponentPool.componentsInUseIndices p)
              (ComponentPool.componentHashes p)
              (pop_back (vecSwap (EntityId.unstableIndex id)
                                 (length (ComponentPool.versions p) - 1)
                                 (ComponentPool.versions p)))
              (ComponentPool.poolSize p - 1) (ComponentPool.poolKey p))
    /\ length cols = length (ComponentPool.components p)
    /\ forall c, cols !! c =
         if decide (c ∈ ComponentPool.componentsInUseIndices p)
         then (fun col => pop_back (vecSwap (EntityId.unstableIndex id) (length col - 1) col))
                <$> ComponentPool.components p !! c
         else ComponentPool.components p !! c.
Proof.
  intros Hok Hvalid.
  pose proof Hvalid as (Hdead & Hidx & Hver)%isValid_true.
  pose proof (ok_size _ _ Hok) as Hsize.
  destruct (swapPopColumns_spec (ComponentPool.componentsInUseIndices p)
              (EntityId.unstableIndex id) p (ok_nodup _ _ Hok)) as (cols & Hrun & Hlen & Hcols).
  { intros c col Hc Hcol. destruct (ok_column _ _ Hok c Hc) as (col' & Hcol' & Hl).
    rewrite Hcol in Hcol'. injection Hcol' as ->. intros ->. simpl in Hl. lia. }
  exists cols. split; [|done].
  unfold ComponentPool.removeEntity.
  rewrite bool_decide_eq_false_2 by lia. rewrite Hvalid. simpl.
  assert (exists back, last (ComponentPool.versions p) = Some back) as [back Hback].
  { rewrite last_lookup. apply lookup_lt_is_Some_2. lia. }
  unfold removalReport. rewrite Hback.
  case_bool_decide; simpl; rewrite Hrun; simpl;
    (rewrite bool_decide_eq_true_2 by lia); done.
Qed.

Lemma removeEntity_pool_fail id p :
  ComponentPool.poolSize p = 0 \/ ComponentPool.isValid id p = Done false ->
  ComponentPool.removeEntity id p = Done (ComponentPool.removeFailed, p).
Proof.
  unfold ComponentPool.removeEntity. intros [H|H].
  - by rewrite bool_decide_eq_true_2.
  - case_bool_decide; [done|]. by rewrite H.
Qed.

(** Removing a slot keeps a pool well formed. *)
Lemma poolOk_swap_pop k p cols idx :
  poolOk k p ->
  idx < ComponentPool.poolSize p ->
  length cols = length (ComponentPool.components p) ->
  (forall c, c ∈ ComponentPool.componentsInUseIndices p ->
     cols !! c = (fun col => pop_back (vecSwap idx (length col - 1) col))
                   <$> ComponentPool.components p !! c) ->
  poolOk k (ComponentPool.mk cols
              (ComponentPool.componentsInUseBitmask p) (ComponentPool.componentsInUseIndices p)
              (ComponentPool.componentHashes p)
              (pop_back (vecSwap idx (length (ComponentPool.versions p) - 1)
                                 (ComponentPool.versions p)))
              (ComponentPool.poolSize p - 1) (ComponentPool.poolKey p)).
Proof.
  intros [Hkey Hsize Hwidth Hnd Hrange Hmask Hhashes Hfp Hcolumn] Hidx Hlen Hcols.
  split; simpl; try done.
  - rewrite length_swap_pop. lia.
  - congruence.
  - intros c Hc. destruct (Hcolumn c Hc) as (col & Hcol & Hl).
    rewrite (Hcols c Hc), Hcol. simpl.
    eexists. split; [done|]. rewrite length_swap_pop. lia.
Qed.

End PoolOperations.

(** ** Handle resolution *)

Section ResolveFacts.
Context `{U : ComponentUniverse}.
Implicit Types (r : Registry.t) (p : ComponentPool.t) (id : EntityId.t).

(** Resolution never touches the pools, the counter or the iteration flag. *)
Lemma resolveFuel_frame fuel id r r' id' res :
  Registry.resolveFuel fuel id r = Done (r', id', res) ->
  Registry.pools r' = Registry.pools r
  /\ Registry.nextVersionIndex r' = Registry.nextVersionIndex r
  /\ Registry.isIterating r' = Registry.isIterating r.
Proof.
  revert id. induction fuel as [|fuel IH]; intros id; simpl; [discriminate|].
  destruct (EntityId.dead id); [intros; by inv_outcome|].
  intros H. apply bind_Done in H as (direct & Hdirect & H).
  destruct direct; [by inv_outcome|].
  destruct (Registry.entityRemappings r !! EntityId.version id) as [remap|];
    [|by inv_outcome].
  destruct (EntityId.isIdentical remap id); [by inv_outcome|].
  by apply IH in H.
Qed.

(** A successful resolution changes nothing, and the handle it leaves is
    valid in the pool it names. *)
Lemma resolveFuel_Some fuel id r r' id' k :
  Registry.resolveFuel fuel id r = Done (r', id', Some k) ->
  r' = r /\ k = EntityId.poolKey id'
  /\ exists p, Registry.pools r !! k = Some p /\ ComponentPool.isValid id' p = Done true.
Proof.
  revert id. induction fuel as [|fuel IH]; intros id; simpl; [discriminate|].
  destruct (EntityId.dead id); [intros; by inv_outcome|].
  intros H. apply bind_Done in H as (direct & Hdirect & H).
  destruct direct.
  - inv_outcome. split_and!; [done..|].
    destruct (Registry.pools r' !! EntityId.poolKey id') as [p|]; [eauto|by inv_outcome].
  - destruct (Registry.entityRemappings r !! EntityId.version id) as [remap|];
      [|by inv_outcome].
    destruct (EntityId.isIdentical remap id); [by inv_outcome|].
    by apply IH in H.
Qed.

Lemma isIdentical_true (a b : EntityId.t) :
  EntityId.isIdentical a b = true <->
  EntityId.unstableIndex a = EntityId.unstableIndex b
  /\ EntityId.version a = EntityId.version b
  /\ EntityId.poolKey a = EntityId.poolKey b.
Proof.
  unfold EntityId.isIdentical. rewrite !andb_true_iff, !bool_decide_eq_true. tauto.
Qed.

Lemma isIdentical_refl (a : EntityId.t) : EntityId.isIdentical a a = true.
Proof. by apply isIdentical_true. Qed.

(** With a remap table whose entries sit under their own version, the
    call on an entry returns without another call. *)
Lemma resolveFuel_entry r v e :
  registryOk r ->
  Registry.entityRemappings r !! v = Some e ->
  exists res, forall fuel, Registry.resolveFuel (S fuel) e r = Done res.
Proof.
  intros Hok He. simpl.
  destruct (EntityId.dead e); [eauto|].
  assert (exists b, match Registry.pools r !! EntityId.poolKey e with
                    | Some currentPool => ComponentPool.isValid e currentPool
                    | None => Done false
                    end = Done b) as [b ->].
  { destruct (Registry.pools r !! EntityId.poolKey e) as [p|] eqn:Ep; [|eauto].
    apply isValid_defined. eapply ok_size, ok_pools; eauto. }
  simpl. destruct b; [eauto|].
  rewrite (ok_remap_version r Hok v e He), He, isIdentical_refl. eauto.
Qed.

Lemma resolveFuel_S fuel id r :
  Registry.resolveFuel (S fuel) id r =
    if EntityId.dead id then Done (r, id, None) else
    direct ← match Registry.pools r !! EntityId.poolKey id with
             | Some currentPool => ComponentPool.isValid id currentPool
             | None => Done false
             end;
    if (direct : bool) then Done (r, id, Some (EntityId.poolKey id)) else
    match Registry.entityRemappings r !! EntityId.version id with
    | Some remap =>
        if EntityId.isIdentical remap id then
          Done (Registry.with_remappings
                  (<[EntityId.version id := EntityId.markDead remap]>
                     (Registry.entityRemappings r)) r,
                EntityId.markDead id, None)
        else Registry.resolveFuel fuel remap r
    | None => Done (r, id, None)
    end.
Proof. done. Qed.

(** Two calls always suffice: at most one remap entry is followed. *)
Lemma resolveFuel_two r id :
  registryOk r ->
  exists res, forall fuel, Registry.resolveFuel (S (S fuel)) id r = Done res.
Proof.
  intros Hok.
  destruct (EntityId.dead id) eqn:Hdead.
  { eexists. intros fuel. rewrite resolveFuel_S, Hdead. done. }
  assert (exists b, match Registry.pools r !! EntityId.poolKey id with
                    | Some currentPool => ComponentPool.isValid id currentPool
                    | None => Done false
                    end = Done b) as [b Hb].
  { destruct (Registry.pools r !! EntityId.poolKey id) as [p|] eqn:Ep; [|eauto].
    apply isValid_defined. eapply ok_size, ok_pools; eauto. }
  destruct b.
  { eexists. intros fuel. rewrite resolveFuel_S, Hdead, Hb. done. }
  destruct (Registry.entityRemappings r !! EntityId.version id) as [e|] eqn:He.
  2:{ eexists. intros fuel. rewrite resolveFuel_S, Hdead, Hb. simpl. rewrite He. done. }
  destruct (EntityId.isIdentical e id) eqn:Hid.
  { eexists. intros fuel. rewrite resolveFuel_S, Hdead, Hb. simpl. rewrite He, Hid. done. }
  destruct (resolveFuel_entry r _ e Hok He) as [res Hres].
  exists res. intros fuel. rewrite resolveFuel_S, Hdead, Hb. simpl. rewrite He, Hid.
  apply Hres.
Qed.

Lemma resolveEntityId_two r id :
  registryOk r ->
  exists res, Registry.resolveEntityId id r = Done res
              /\ Registry.resolveFuel 2 id r = Done res.
Proof.
  intros Hok. unfold Registry.resolveEntityId.
  destruct (resolveFuel_two r id Hok) as (res & Hres).
  exists res. split; [|apply Hres].
  destruct (size (Registry.entityRemappings r)) as [|n] eqn:Hn; [|apply Hres].
  apply map_size_empty_iff in Hn.
  specialize (Hres 0). revert Hres. rewrite !resolveFuel_S.
  destruct (EntityId.dead id); [done|].
  destruct (match Registry.pools r !! EntityId.poolKey id with
            | Some currentPool => ComponentPool.isValid id currentPool
            | None => Done false
            end) as [[]| | |]; simpl; try done.
  by rewrite Hn, lookup_empty.
Qed.

Lemma registryOk_markDead r v e :
  registryOk r ->
  Registry.entityRemappings r !! v = Some e ->
  (forall k i, ~ livesAt r v k i) ->
  registryOk (Registry.with_remappings
                (<[v := EntityId.markDead e]> (Registry.entityRemappings r)) r).
Proof.
  intros [Hpools Hrv Huniq Hfresh Hcounter Hrfresh Hremap] He Hdead.
  split; simpl; try done.
  - intros w e'. rewrite lookup_insert. case_decide as Hw.
    + intros [= <-]. subst w. simpl. eauto.
    + eauto.
  - intros w e'. rewrite lookup_insert. case_decide as Hw.
    + intros [= <-]. subst w. eauto.
    + eauto.
  - intros w e' k i. rewrite lookup_insert. case_decide as Hw.
    + intros [= <-] Hlive. subst w. by apply Hdead in Hlive.
    + eauto.
Qed.

(** Resolution keeps the store well formed and the handle's version. *)
Lemma resolveFuel_ok fuel id r r' id' res :
  registryOk r ->
  Registry.resolveFuel fuel id r = Done (r', id', res) ->
  registryOk r' /\ EntityId.version id' = EntityId.version id.
Proof.
  intros Hok. revert id. induction fuel as [|fuel IH]; intros id; [discriminate|].
  rewrite resolveFuel_S.
  destruct (EntityId.dead id) eqn:Hdead; [intros; by inv_outcome|].
  intros H. apply bind_Done in H as (direct & Hdirect & H).
  destruct direct; [by inv_outcome|].
  destruct (Registry.entityRemappings r !! EntityId.version id) as [e|] eqn:He;
    [|by inv_outcome].
  destruct (EntityId.isIdentical e id) eqn:Hid.
  - inv_outcome. split; [|done].
    apply registryOk_markDead; [done..|].
    intros k i Hlive.
    destruct (ok_remap r Hok _ _ _ _ He Hlive) as (Hk & Hi & _).
    apply isIdentical_true in Hid as (Hidx & _ & Hkey).
    destruct Hlive as (p & Hp & Hv).
    rewrite <- Hkey, Hk, Hp in Hdirect.
    assert (ComponentPool.isValid id p = Done true) as Hvalid; [|congruence].
    apply isValid_true. split_and!; [done | |congruence].
    rewrite (ok_size _ _ (ok_pools r Hok _ _ Hp)).
    apply lookup_lt_Some in Hv. congruence.
  - apply IH in H as [? Hver]. split; [done|].
    rewrite Hver. by apply (ok_remap_version r Hok).
Qed.

Lemma resolveEntityId_ok id r r' id' res :
  registryOk r ->
  Registry.resolveEntityId id r = Done (r', id', res) ->
  registryOk r' /\ EntityId.version id' = EntityId.version id.
Proof. apply resolveFuel_ok. Qed.

Lemma resolveEntityId_frame id r r' id' res :
  Registry.resolveEntityId id r = Done (r', id', res) ->
  Registry.pools r' = Registry.pools r
  /\ Registry.nextVersionIndex r' = Registry.nextVersionIndex r
  /\ Registry.isIterating r' = Registry.isIterating r.
Proof. apply resolveFuel_frame. Qed.

Lemma resolveEntityId_Some id r r' id' k :
  Registry.resolveEntityId id r = Done (r', id', Some k) ->
  r' = r /\ k = EntityId.poolKey id'
  /\ exists p, Registry.pools r !! k = Some p /\ ComponentPool.isValid id' p = Done true.
Proof. apply resolveFuel_Some. Qed.

(** A handle that is valid where it points resolves to itself. *)
Lemma resolveEntityId_direct id r p :
  Registry.pools r !! EntityId.poolKey id = Some p ->
  ComponentPool.isValid id p = Done true ->
  Registry.resolveEntityId id r = Done (r, id, Some (EntityId.poolKey id)).
Proof.
  intros Hp Hvalid. unfold Registry.resolveEntityId. rewrite resolveFuel_S.
  apply isValid_true in Hvalid as Hv. destruct Hv as (-> & _).
  by rewrite Hp, Hvalid.
Qed.

End ResolveFacts.

(** ** Creation and fingerprints *)

Section Creation.
Context `{U : ComponentUniverse}.
Implicit Types (r : Registry.t) (p : ComponentPool.t) (id : EntityId.t).

Lemma pushComponents_frame (cvs : list (nat * V)) p :
  exists cols,
    fold_left (fun q cv => ComponentPool.pushComponent cv.1 cv.2 q) cvs p
      = ComponentPool.with_components cols p.
Proof.
  revert p. induction cvs as [|[x v] cvs IH]; intros p; simpl.
  - exists (ComponentPool.components p). by rewrite with_components_same.
  - destruct (IH (ComponentPool.pushComponent x v p)) as [cols ->]. by exists cols.
Qed.

Lemma createEntity_pool_Done id (cvs : list (nat * V)) p p' :
  ComponentPool.createEntity id cvs p = Done p' ->
  EntityId.unstableIndex id = ComponentPool.poolSize p
  /\ ComponentPool.poolSize p = length (ComponentPool.versions p)
  /\ ComponentPool.versions p' = ComponentPool.versions p ++ [EntityId.version id]
  /\ ComponentPool.poolSize p' = S (ComponentPool.poolSize p)
  /\ ComponentPool.componentsInUseBitmask p' = ComponentPool.componentsInUseBitmask p.
Proof.
  unfold ComponentPool.createEntity.
  destruct (pushComponents_frame cvs p) as [cols ->].
  intros (H1 & H2 & ->)%pushVersion_Done. done.
Qed.

Lemma createEntityWith_Done (cvs : list (nat * V)) r r' id :
  Registry.createEntityWith cvs r = Done (r', id) ->
  let key := fingerprint cvs.*1 in
  let pool := Registry.findOrCreateFromTemplate cvs.*1 key (hash_code <$> cvs.*1) r in
  Registry.isIterating r = false
  /\ Registry.nextVersionIndex r <> INT_MAX
  /\ id = EntityId.mk (ComponentPool.size pool)
            (size_t_of_int (Registry.nextVersionIndex r)) key false
  /\ exists pool',
       ComponentPool.createEntity id cvs pool = Done pool'
       /\ r' = Registry.mk (<[key := pool']> (Registry.pools r))
                 (Registry.entityRemappings r)
                 (Registry.nextVersionIndex r + 1)%Z (Registry.isIterating r).
Proof.
  unfold Registry.createEntityWith, Registry.generateComponentPoolKeyFromTemplate,
    Registry.generateComponentPoolKeyFromHashes.
  intros H. apply bind_Done in H as ([] & Hiter%fi_assert_Done & H).
  apply negb_true_iff in Hiter.
  case_bool_decide as Hmax; [discriminate|].
  apply bind_Done in H as (pool' & Hcreate & H). inv_outcome.
  split_and!; [done..|]. eauto.
Qed.

Lemma createEntity_types (cs : list nat) :
  ((fun c => (c, defaultComponent c)) <$> cs).*1 = cs.
Proof. rewrite <- list_fmap_compose. apply list_fmap_id. Qed.

End Creation.

(** C7. The fingerprint of a list of type hashes does not depend on the
    order of the list; two [createEntity] calls whose component-type lists
    are permutations of each other hand out the same pool key, and the pool
    under that key stores both entities. *)
Theorem fingerprint_order_independent `{U : ComponentUniverse} :
  (forall hashes1 hashes2 : list N,
     hashes1 ≡ₚ hashes2 -> combineHashes hashes1 = combineHashes hashes2)
  /\ (forall (cs1 cs2 : list nat) (r r1 r2 : Registry.t) (id1 id2 : EntityId.t),
        cs1 ≡ₚ cs2 ->
        Registry.createEntity cs1 r = Done (r1, id1) ->
        Registry.createEntity cs2 r1 = Done (r2, id2) ->
        (Registry.generateComponentPoolKeyFromTemplate cs1).1
          = (Registry.generateComponentPoolKeyFromTemplate cs2).1
        /\ EntityId.poolKey id1 = EntityId.poolKey id2
        /\ exists p, Registry.pools r2 !! EntityId.poolKey id1 = Some p
             /\ ComponentPool.versions p !! EntityId.unstableIndex id1
                  = Some (EntityId.version id1)
             /\ ComponentPool.versions p !! EntityId.unstableIndex id2
                  = Some (EntityId.version id2)).
Proof.
  split; [apply combineHashes_perm|].
  intros cs1 cs2 r r1 r2 id1 id2 Hperm H1 H2.
  assert (fingerprint cs1 = fingerprint cs2) as Hkey.
  { unfold fingerprint. apply combineHashes_perm. by rewrite Hperm. }
  unfold Registry.createEntity in H1, H2.
  apply createEntityWith_Done in H1 as (_ & _ & Hid1 & pool1 & Hc1 & ->).
  apply createEntityWith_Done in H2 as (_ & _ & Hid2 & pool2 & Hc2 & ->).
  rewrite !createEntity_types in *.
  unfold Registry.findOrCreateFromTemplate in Hid2, Hc2. simpl in Hid2, Hc2.
  rewrite <- Hkey in Hid2, Hc2. rewrite lookup_insert_eq in Hid2, Hc2.
  apply createEntity_pool_Done in Hc1 as (Hi1 & Hs1 & Hv1 & Hsz1 & _).
  apply createEntity_pool_Done in Hc2 as (Hi2 & Hs2 & Hv2 & Hsz2 & _).
  split; [done|]. split; [by rewrite Hid1, Hid2|].
  exists pool2. simpl. rewrite Hid1 at 1. simpl.
  rewrite <- Hkey, lookup_insert_eq. split; [done|].
  rewrite Hv2, Hv1, Hi1, Hi2, Hs1, Hs2, Hv1. split.
  - rewrite lookup_app_l by (rewrite length_app; simpl; lia).
    by rewrite list_lookup_middle.
  - by rewrite list_lookup_middle.
Qed.

(** ** Lookups and the iteration flag *)

Section IterationFlag.
Context `{U : ComponentUniverse}.
Implicit Types (r : Registry.t) (p : ComponentPool.t) (id : EntityId.t).

Lemma resolveFuel_with_iterating b fuel id r :
  Registry.resolveFuel fuel id (Registry.with_iterating b r) =
    '(r', id', pool) ← Registry.resolveFuel fuel id r;
    Done (Registry.with_iterating b r', id', pool).
Proof.
  revert id. induction fuel as [|fuel IH]; intros id; [done|].
  rewrite !resolveFuel_S. cbn [Registry.pools Registry.entityRemappings Registry.with_iterating].
  destruct (EntityId.dead id); [done|].
  destruct (match Registry.pools r !! EntityId.poolKey id with
            | Some currentPool => ComponentPool.isValid id currentPool
            | None => Done false
            end) as [[]| | |]; simpl; try done.
  destruct (Registry.entityRemappings r !! EntityId.version id) as [e|]; [|done].
  destruct (EntityId.isIdentical e id); [done|]. apply IH.
Qed.

Lemma resolveEntityId_with_iterating b id r :
  Registry.resolveEntityId id (Registry.with_iterating b r) =
    '(r', id', pool) ← Registry.resolveEntityId id r;
    Done (Registry.with_iterating b r', id', pool).
Proof. apply resolveFuel_with_iterating. Qed.

Lemma writeComponent_with_iterating b key c index value r :
  Registry.writeComponent key c index value (Registry.with_iterating b r) =
    r' ← Registry.writeComponent key c index value r; Done (Registry.with_iterating b r').
Proof.
  unfold Registry.writeComponent, Registry.derefPool. simpl.
  destruct (Registry.pools r !! key) as [p|]; [|done]. simpl.
  destruct (ComponentPool.accessComponentsVecByIndex c _ p); done.
Qed.

Lemma get_with_iterating b c id r :
  Registry.get c id (Registry.with_iterating b r) =
    '(r', id', x) ← Registry.get c id r; Done (Registry.with_iterating b r', id', x).
Proof.
  unfold Registry.get. rewrite resolveEntityId_with_iterating.
  destruct (Registry.resolveEntityId id r) as [[[r1 id1] [k|]]| | |]; simpl; try done.
  unfold Registry.derefPool. simpl.
  destruct (Registry.pools r1 !! k) as [p|]; [|done]. simpl.
  destruct (ComponentPool.getComponent c id1 p); done.
Qed.

Lemma set_with_iterating b c value id r :
  Registry.set c value id (Registry.with_iterating b r) =
    '(r', id') ← Registry.set c value id r; Done (Registry.with_iterating b r', id').
Proof.
  unfold Registry.set. rewrite resolveEntityId_with_iterating.
  destruct (Registry.resolveEntityId id r) as [[[r1 id1] [k|]]| | |]; simpl; try done.
  unfold Registry.derefPool at 1 2. simpl.
  destruct (Registry.pools r1 !! k) as [p|]; [|done]. simpl.
  destruct (ComponentPool.getComponent c id1 p) as [[x|]| | |]; simpl; try done.
  rewrite writeComponent_with_iterating.
  destruct (Registry.writeComponent k c _ value r1); done.
Qed.

Lemma isValid_not_Aborted id p : ComponentPool.isValid id p <> Aborted.
Proof.
  unfold ComponentPool.isValid.
  destruct (EntityId.dead id); [done|]. case_bool_decide; [done|].
  by destruct (ComponentPool.versions p !! EntityId.unstableIndex id).
Qed.

Lemma resolveFuel_not_Aborted fuel id r : Registry.resolveFuel fuel id r <> Aborted.
Proof.
  revert id. induction fuel as [|fuel IH]; intros id; [done|].
  rewrite resolveFuel_S.
  destruct (EntityId.dead id); [done|].
  destruct (Registry.pools r !! EntityId.poolKey id) as [p|].
  - pose proof (isValid_not_Aborted id p).
    destruct (ComponentPool.isValid id p) as [[]| | |]; simpl; try done.
    destruct (Registry.entityRemappings r !! EntityId.version id) as [e|]; [|done].
    destruct (EntityId.isIdentical e id); [done|]. apply IH.
  - simpl. destruct (Registry.entityRemappings r !! EntityId.version id) as [e|]; [|done].
    destruct (EntityId.isIdentical e id); [done|]. apply IH.
Qed.

Lemma getComponent_not_Aborted c id p : ComponentPool.getComponent c id p <> Aborted.
Proof.
  unfold ComponentPool.getComponent.
  destruct (negb _); [done|].
  pose proof (isValid_not_Aborted id p).
  destruct (ComponentPool.isValid id p) as [[]| | |]; simpl; try done.
  by destruct (_ ≫= _).
Qed.

Lemma writeComponent_not_Aborted key c index value r :
  Registry.writeComponent key c index value r <> Aborted.
Proof.
  unfold Registry.writeComponent, Registry.derefPool.
  destruct (Registry.pools r !! key) as [p|]; [|done]. simpl.
  unfold ComponentPool.accessComponentsVecByIndex.
  destruct (ComponentPool.components p !! c) as [vec|]; [|done]. simpl.
  by case_bool_decide.
Qed.

Lemma get_not_Aborted c id r : Registry.get c id r <> Aborted.
Proof.
  unfold Registry.get, Registry.resolveEntityId.
  pose proof (resolveFuel_not_Aborted (S (size (Registry.entityRemappings r))) id r).
  destruct (Registry.resolveFuel _ id r) as [[[r1 id1] [k|]]| | |]; simpl; try done.
  unfold Registry.derefPool.
  destruct (Registry.pools r1 !! k) as [p|]; [|done]. simpl.
  pose proof (getComponent_not_Aborted c id1 p).
  by destruct (ComponentPool.getComponent c id1 p).
Qed.

Lemma set_not_Aborted c value id r : Registry.set c value id r <> Aborted.
Proof.
  unfold Registry.set, Registry.resolveEntityId.
  pose proof (resolveFuel_not_Aborted (S (size (Registry.entityRemappings r))) id r).
  destruct (Registry.resolveFuel _ id r) as [[[r1 id1] [k|]]| | |]; simpl; try done.
  unfold Registry.derefPool at 1.
  destruct (Registry.pools r1 !! k) as [p|]; [|done]. simpl.
  pose proof (getComponent_not_Aborted c id1 p).
  destruct (ComponentPool.getComponent c id1 p) as [[x|]| | |]; simpl; try done.
  pose proof (writeComponent_not_Aborted k c (EntityId.unstableIndex id1) value r1).
  by destruct (Registry.writeComponent k c _ value r1).
Qed.

(** The four mutating entry points stop at their [fi_assert] while an
    iteration is in progress. *)
Lemma mutators_abort_while_iterating r :
  Registry.isIterating r = true ->
  (forall cs, Registry.createEntity cs r = Aborted)
  /\ (forall cvs, Registry.createEntityWith cvs r = Aborted)
  /\ (forall id, Registry.removeEntity id r = Aborted)
  /\ (forall c value id, Registry.addComponent c value id r = Aborted)
  /\ (forall c id, Registry.removeComponent c id r = Aborted).
Proof.
  intros Hit.
  unfold Registry.createEntity, Registry.createEntityWith, Registry.removeEntity,
    Registry.addComponent, Registry.removeComponent.
  rewrite Hit. done.
Qed.

End IterationFlag.

(** C9. [get] and [set] make no iterating-state assertion: with the flag
    set either way they compute the same result, the flag is handed through
    untouched, and they never stop at an assertion; [createEntity],
    [removeEntity], [addComponent] and [removeComponent] abort under the
    flag. *)
Theorem get_set_allowed_while_iterating `{U : ComponentUniverse}
    (c : nat) (component : V) (id : EntityId.t) (r : Registry.t) (b : bool) :
  Registry.get c id (Registry.with_iterating b r)
    = ('(r', id', x) ← Registry.get c id r; Done (Registry.with_iterating b r', id', x))
  /\ Registry.set c component id (Registry.with_iterating b r)
       = ('(r', id') ← Registry.set c component id r;
          Done (Registry.with_iterating b r', id'))
  /\ Registry.get c id r <> Aborted
  /\ Registry.set c component id r <> Aborted
  /\ (forall cs, Registry.createEntity cs (Registry.with_iterating true r) = Aborted)
  /\ Registry.removeEntity id (Registry.with_iterating true r) = Aborted
  /\ Registry.addComponent c component id (Registry.with_iterating true r) = Aborted
  /\ Registry.removeComponent c id (Registry.with_iterating true r) = Aborted.
Proof.
  destruct (mutators_abort_while_iterating (Registry.with_iterating true r) eq_refl)
    as (H1 & _ & H3 & H4 & H5).
  split_and!; auto using get_with_iterating, set_with_iterating,
    get_not_Aborted, set_not_Aborted.
Qed.

(** ** Expected absence *)

Section Absence.
Context `{U : ComponentUniverse}.
Implicit Types (r : Registry.t) (p : ComponentPool.t) (id : EntityId.t).

(** The mask test of [getComponent] and the bit test of [hasComponent]
    agree. *)
Lemma hasComponents_single c p :
  ComponentPool.hasComponents [c] p = ComponentPool.hasComponent c p.
Proof.
  unfold ComponentPool.hasComponents, ComponentPool.hasComponent, ComponentPool.setBits.
  simpl. set (m := ComponentPool.componentsInUseBitmask p).
  destruct (N.testbit m (N.of_nat c)) eqn:Hbit.
  - apply bool_decide_eq_true. apply N.bits_inj_iff. intros n.
    rewrite N.land_spec, N.setbit_eqb, N.bits_0, orb_false_r.
    destruct (N.eqb_spec (N.of_nat c) n) as [<-|]; [by rewrite Hbit | by rewrite andb_false_r].
  - apply bool_decide_eq_false. intros Heq.
    assert (N.testbit (N.land m (N.setbit 0 (N.of_nat c))) (N.of_nat c) = true) as Ht.
    { rewrite Heq. apply N.setbit_eq. }
    rewrite N.land_spec, Hbit in Ht. done.
Qed.

Lemma getComponent_absent c id p :
  ComponentPool.hasComponent c p = false ->
  ComponentPool.getComponent c id p = Done None.
Proof.
  intros H. unfold ComponentPool.getComponent. by rewrite hasComponents_single, H.
Qed.

End Absence.


(** ** The iteration flag after an iteration *)

Section AfterIteration.
Context `{U : ComponentUniverse}.
Implicit Types (r : Registry.t).

(** [forEachPool], [forEachComponents] and [forEachComponentsEarlyReturn]
    clear the flag when they return, also after an early exit. *)
Lemma forEach_clears_iterating r r' :
  (forall callback, Registry.forEachPool callback r = Done r' ->
     Registry.isIterating r' = false)
  /\ (forall cs callback, Registry.forEachComponents cs callback r = Done r' ->
        Registry.isIterating r' = false)
  /\ (forall cs callback, Registry.forEachComponentsEarlyReturn cs callback r = Done r' ->
        Registry.isIterating r' = false).
Proof.
  unfold Registry.forEachPool, Registry.forEachComponents,
    Registry.forEachComponentsEarlyReturn.
  split_and!; intros; by inv_outcome.
Qed.

End AfterIteration.

(** C4 fails for [forEachEntity]: its last statement is
    [isIterating = true], so after it has returned the store is still in
    the iterating state and every mutating operation stops at its
    assertion. *)
Theorem forEachEntity_leaves_iterating `{U : ComponentUniverse}
    (callback : EntityId.t -> Registry.t -> outcome Registry.t) (r r' : Registry.t) :
  Registry.forEachEntity callback r = Done r' ->
  Registry.isIterating r' = true
  /\ (forall cs, Registry.createEntity cs r' = Aborted)
  /\ (forall id, Registry.removeEntity id r' = Aborted)
  /\ (forall c value id, Registry.addComponent c value id r' = Aborted)
  /\ (forall c id, Registry.removeComponent c id r' = Aborted).
Proof.
  unfold Registry.forEachEntity. intros H. inv_outcome.
  destruct (mutators_abort_while_iterating (Registry.with_iterating true a) eq_refl)
    as (H1 & _ & H3 & H4 & H5).
  done.
Qed.

(** C5 fails when the last slot of a pool with more than one slot is
    removed: nothing is moved, yet [removeEntity] reports a swap and names
    the removed entity itself as the one swapped. *)
Theorem removeEntity_reports_swap_for_last_slot `{U : ComponentUniverse}
    (k : N) (id : EntityId.t) (p : ComponentPool.t) :
  poolOk k p ->
  ComponentPool.isValid id p = Done true ->
  1 < ComponentPool.poolSize p ->
  EntityId.unstableIndex id = ComponentPool.poolSize p - 1 ->
  exists result p',
    ComponentPool.removeEntity id p = Done (result, p')
    /\ wasSwapped result = true
    /\ swappedEntityVersion result = Some (EntityId.version id)
    /\ swappedEntityUnstableIndex result = Some (EntityId.unstableIndex id)
    /\ ComponentPool.versions p'
         = take (ComponentPool.poolSize p - 1) (ComponentPool.versions p)
    /\ forall c col, c ∈ ComponentPool.componentsInUseIndices p ->
         ComponentPool.components p !! c = Some col ->
         ComponentPool.components p' !! c = Some (take (ComponentPool.poolSize p - 1) col).
Proof.
  intros Hok Hvalid Hsize Hlast.
  destruct (removeEntity_pool_spec k id p Hok Hvalid) as (cols & Hrun & Hlen & Hcols).
  pose proof Hvalid as (Hdead & Hidx & Hver)%isValid_true.
  pose proof (ok_size _ _ Hok) as Hsz.
  eexists _, _. split; [exact Hrun|].
  unfold removalReport. rewrite bool_decide_eq_true_2 by done. simpl.
  split_and!; [done | | done | |].
  - rewrite last_lookup, <- Hver, Hlast, Hsz. f_equal. lia.
  - rewrite Hlast, Hsz, vecSwap_same. unfold pop_back. done.
  - intros c col Hc Hcol. rewrite Hcols, decide_True, Hcol by done. simpl.
    destruct (ok_column _ _ Hok c Hc) as (col' & Hcol' & Hl).
    rewrite Hcol in Hcol'. injection Hcol' as <-.
    rewrite Hlast, Hl, vecSwap_same. unfold pop_back. by rewrite Hl.
Qed.

(** ** Fingerprints of sets of component types *)

Section Fingerprints.
Context `{U : ComponentUniverse}.

Lemma sublists_filter {A} (P : A -> Prop) `{!forall x, Decision (P x)} (l : list A) :
  filter P l ∈ sublists l.
Proof.
  induction l as [|x l IH]; simpl; [by left|].
  rewrite filter_cons. apply elem_of_app. case_decide.
  - left. by apply list_elem_of_fmap_2.
  - by right.
Qed.

Lemma fingerprint_perm (cs1 cs2 : list nat) :
  cs1 ≡ₚ cs2 -> fingerprint cs1 = fingerprint cs2.
Proof. intros H. unfold fingerprint. apply combineHashes_perm. by rewrite H. Qed.

(** What [collisionFree] checks, for duplicate-free lists in any order. *)
Lemma collisionFree_spec (cs1 cs2 : list nat) :
  collisionFree = true ->
  NoDup cs1 -> NoDup cs2 ->
  (forall c, c ∈ cs1 -> c < universeSize) ->
  (forall c, c ∈ cs2 -> c < universeSize) ->
  fingerprint cs1 = fingerprint cs2 ->
  cs1 ≡ₚ cs2.
Proof.
  intros Hcf Hnd1 Hnd2 Hr1 Hr2 Hfp.
  assert (forall cs, NoDup cs -> (forall c, c ∈ cs -> c < universeSize) ->
            filter (fun c => c ∈ cs) (seq 0 universeSize) ≡ₚ cs) as Hsub.
  { intros cs Hnd Hr. apply NoDup_Permutation; [|done|].
    - apply NoDup_filter, NoDup_seq.
    - intros x. rewrite list_elem_of_filter, elem_of_seq. split; [tauto|].
      intros Hx. split; [done|]. specialize (Hr x Hx). lia. }
  set (s1 := filter (fun c => c ∈ cs1) (seq 0 universeSize)).
  set (s2 := filter (fun c => c ∈ cs2) (seq 0 universeSize)).
  assert (s1 = s2) as Heq.
  { unfold collisionFree in Hcf. rewrite forallb_forall in Hcf.
    specialize (Hcf s1). rewrite forallb_forall in Hcf.
    specialize (Hcf ltac:(apply list_elem_of_In, sublists_filter; apply _) s2
                    ltac:(apply list_elem_of_In, sublists_filter; apply _)).
    rewrite bool_decide_eq_true_2 in Hcf.
    - by apply bool_decide_eq_true in Hcf.
    - rewrite (fingerprint_perm s1 cs1), (fingerprint_perm s2 cs2) by (by apply Hsub).
      done. }
  rewrite <- (Hsub cs1), <- (Hsub cs2) by done. fold s1 s2. by rewrite Heq.
Qed.

(** Distinct types of the pack have distinct hashes. *)
Lemma hash_code_inj (c1 c2 : nat) :
  collisionFree = true ->
  c1 < universeSize -> c2 < universeSize ->
  hash_code c1 = hash_code c2 -> c1 = c2.
Proof.
  intros Hcf H1 H2 Hh.
  assert ([c1] ≡ₚ [c2]) as Hp.
  { apply collisionFree_spec; try done.
    - apply NoDup_singleton.
    - apply NoDup_singleton.
    - intros c ->%list_elem_of_singleton. done.
    - intros c ->%list_elem_of_singleton. done.
    - unfold fingerprint. simpl. by rewrite Hh. }
  apply Permutation_singleton_r in Hp. by injection Hp.
Qed.

End Fingerprints.

(** ** Keeping the store well formed *)

Section StoreInvariant.
Context `{U : ComponentUniverse}.
Implicit Types (r : Registry.t) (p q : ComponentPool.t) (id : EntityId.t).

Lemma livesAt_insert r k q v k' i :
  livesAt (Registry.with_pools (<[k := q]> (Registry.pools r)) r) v k' i <->
  (k' = k /\ ComponentPool.versions q !! i = Some v) \/ (k' <> k /\ livesAt r v k' i).
Proof.
  unfold livesAt. simpl. split.
  - intros (p & Hp & Hv). rewrite lookup_insert in Hp. case_decide as Hk.
    + injection Hp as <-. left. done.
    + right. split; [done|]. eauto.
  - intros [[-> Hv]|[Hk (p & Hp & Hv)]].
    + exists q. by rewrite lookup_insert_eq.
    + exists p. by rewrite lookup_insert_ne.
Qed.

(** A store with the same slots, remap table and counter is as well
    formed as the one it came from. *)
Lemma registryOk_same_slots r r' :
  registryOk r ->
  (forall k q, Registry.pools r' !! k = Some q -> poolOk k q) ->
  Registry.entityRemappings r' = Registry.entityRemappings r ->
  Registry.nextVersionIndex r' = Registry.nextVersionIndex r ->
  (forall v k i, livesAt r' v k i <-> livesAt r v k i) ->
  registryOk r'.
Proof.
  intros [Hpools Hrv Huniq Hfresh Hcounter Hrfresh Hremap] Hpools' Hmap Hnext Hlive.
  split; rewrite ?Hmap, ?Hnext; try done.
  - intros v k1 i1 k2 i2 H1%Hlive H2%Hlive. eauto.
  - intros v k i H%Hlive. eauto.
  - intros v e k i He H%Hlive. eauto.
Qed.

Lemma registryOk_replace_pool r k p q :
  registryOk r ->
  Registry.pools r !! k = Some p ->
  poolOk k q ->
  ComponentPool.versions q = ComponentPool.versions p ->
  registryOk (Registry.with_pools (<[k := q]> (Registry.pools r)) r).
Proof.
  intros Hok Hp Hq Hv. apply (registryOk_same_slots r); [done| |done|done|].
  - simpl. intros k' q'. rewrite lookup_insert. case_decide.
    + intros [= <-]. by subst.
    + by apply (ok_pools r).
  - intros v k' i. rewrite livesAt_insert, Hv. split.
    + intros [[-> ?]|[_ ?]]; [by exists p | done].
    + intros Hl. destruct (decide (k' = k)) as [->|]; [left|by right].
      destruct Hl as (p' & Hp' & ?). rewrite Hp in Hp'. by injection Hp' as <-.
Qed.

Lemma registryOk_insert_empty_pool r k q :
  registryOk r ->
  Registry.pools r !! k = None ->
  poolOk k q ->
  ComponentPool.versions q = [] ->
  registryOk (Registry.with_pools (<[k := q]> (Registry.pools r)) r).
Proof.
  intros Hok Hp Hq Hv. apply (registryOk_same_slots r); [done| |done|done|].
  - simpl. intros k' q'. rewrite lookup_insert. case_decide.
    + intros [= <-]. by subst.
    + by apply (ok_pools r).
  - intros v k' i. rewrite livesAt_insert, Hv. split.
    + intros [[-> ?]|[_ ?]]; done.
    + intros Hl. destruct (decide (k' = k)) as [->|]; [|by right].
      destruct Hl as (p' & Hp' & ?). congruence.
Qed.

(** Appending a version that is nowhere in the store. *)
Lemma registryOk_append r k q q' v remap' next' :
  registryOk r ->
  Registry.pools r !! k = Some q ->
  poolOk k q' ->
  ComponentPool.versions q' = ComponentPool.versions q ++ [v] ->
  (forall k' i, ~ livesAt r v k' i) ->
  (Z.of_N v < next')%Z ->
  (Registry.nextVersionIndex r <= next' <= INT_MAX)%Z ->
  (forall w, w <> v -> remap' !! w = Registry.entityRemappings r !! w) ->
  (forall e, remap' !! v = Some e ->
     EntityId.version e = v /\ EntityId.poolKey e = k
     /\ EntityId.unstableIndex e = length (ComponentPool.versions q)
     /\ EntityId.dead e = false) ->
  registryOk (Registry.mk (<[k := q']> (Registry.pools r)) remap' next'
                (Registry.isIterating r)).
Proof.
  intros [Hpools Hrv Huniq Hfresh Hcounter Hrfresh Hremap] Hq Hq' Hv Hdead Hvn Hnext
    Hother Hentry.
  assert (forall w k' i,
            livesAt (Registry.mk (<[k := q']> (Registry.pools r)) remap' next'
                       (Registry.isIterating r)) w k' i ->
            (w = v /\ k' = k /\ i = length (ComponentPool.versions q)) \/ livesAt r w k' i)
    as Hlive.
  { intros w k' i (p & Hp & Hw). simpl in Hp. rewrite lookup_insert in Hp.
    case_decide as Hk.
    - injection Hp as <-. subst k'. rewrite Hv in Hw.
      apply lookup_snoc_Some in Hw as [[_ Hw]|[-> ->]]; [right; by exists q | by left].
    - right. by exists p. }
  split; simpl.
  - intros k' p. rewrite lookup_insert. case_decide; [intros [= <-]; by subst | eauto].
  - intros w e He. destruct (decide (w = v)) as [->|Hne].
    + by apply Hentry in He as (? & _).
    + rewrite Hother in He by done. eauto.
  - intros w k1 i1 k2 i2 H1%Hlive H2%Hlive.
    destruct H1 as [(-> & -> & ->)|H1], H2 as [(? & -> & ->)|H2]; subst; try done.
    + by apply Hdead in H2.
    + by apply Hdead in H1.
    + eauto.
  - intros w k' i [(-> & _)|H]%Hlive; [done|]. apply Hfresh in H. lia.
  - lia.
  - intros w e He. destruct (decide (w = v)) as [->|Hne]; [done|].
    rewrite Hother in He by done. apply Hrfresh in He. lia.
  - intros w e k' i He [(-> & -> & ->)|H]%Hlive.
    + by apply Hentry in He as (_ & ? & ? & ?).
    + destruct (decide (w = v)) as [->|Hne]; [by apply Hdead in H|].
      rewrite Hother in He by done. eauto.
Qed.

Lemma handleRemoveResult_frame result k r :
  Registry.pools (Registry.handleRemoveResult result k r) = Registry.pools r
  /\ Registry.nextVersionIndex (Registry.handleRemoveResult result k r)
       = Registry.nextVersionIndex r
  /\ Registry.isIterating (Registry.handleRemoveResult result k r) = Registry.isIterating r.
Proof.
  unfold Registry.handleRemoveResult.
  destruct (success result), (wasSwapped result), (swappedEntityVersion result),
    (swappedEntityUnstableIndex result); done.
Qed.

(** The remap table after a removal was reported. *)
Lemma handleRemoveResult_report id p k r :
  Registry.entityRemappings (Registry.handleRemoveResult (removalReport id p) k r) =
    match last (ComponentPool.versions p) with
    | Some back =>
        if bool_decide (1 < ComponentPool.poolSize p)
        then <[back := EntityId.mk (EntityId.unstableIndex id) back k false]>
               (Registry.entityRemappings r)
        else Registry.entityRemappings r
    | None => Registry.entityRemappings r
    end.
Proof.
  unfold Registry.handleRemoveResult, removalReport.
  case_bool_decide; simpl; destruct (last (ComponentPool.versions p)); done.
Qed.

(** Swap-removal of the slot a valid handle names: the store stays well
    formed and the removed version is nowhere in it. *)
Lemma registryOk_removed r k p p' id :
  registryOk r ->
  Registry.pools r !! k = Some p ->
  ComponentPool.isValid id p = Done true ->
  poolOk k p' ->
  ComponentPool.versions p' =
    pop_back (vecSwap (EntityId.unstableIndex id) (length (ComponentPool.versions p) - 1)
                (ComponentPool.versions p)) ->
  let r' := Registry.handleRemoveResult (removalReport id p) k
              (Registry.with_pools (<[k := p']> (Registry.pools r)) r) in
  registryOk r' /\ (forall k' i, ~ livesAt r' (EntityId.version id) k' i).
Proof.
  intros Hok Hp Hvalid Hp' Hv' r'.
  pose proof Hok as [Hpools Hrv Huniq Hfresh Hcounter Hrfresh Hremap].
  apply isValid_true in Hvalid as (Hdead & Hidx & Hver).
  pose proof (ok_size _ _ (Hpools _ _ Hp)) as Hsize.
  destruct (handleRemoveResult_frame (removalReport id p) k
              (Registry.with_pools (<[k := p']> (Registry.pools r)) r))
    as (Hfp & Hfn & Hfi).
  fold r' in Hfp, Hfn, Hfi. simpl in Hfp, Hfn, Hfi.
  pose proof (handleRemoveResult_report id p k
                (Registry.with_pools (<[k := p']> (Registry.pools r)) r)) as Hmap.
  fold r' in Hmap. simpl in Hmap.
  assert (exists back, ComponentPool.versions p !! (length (ComponentPool.versions p) - 1)
                       = Some back) as [back Hback].
  { apply lookup_lt_is_Some_2. lia. }
  rewrite last_lookup in Hmap.
  replace (pred (length (ComponentPool.versions p)))
    with (length (ComponentPool.versions p) - 1) in Hmap by lia.
  rewrite Hback in Hmap.
  set (n := length (ComponentPool.versions p)) in *.
  set (i := EntityId.unstableIndex id) in *.
  assert (livesAt r back k (n - 1)) as Hbacklive by (by exists p).
  assert (livesAt r (EntityId.version id) k i) as Hvlive by (by exists p).
  assert (forall w k' j, livesAt r' w k' j ->
            exists j0, livesAt r w k' j0
              /\ (k' <> k -> j0 = j)
              /\ (k' = k -> j < n - 1 /\ ((j = i /\ j0 = n - 1) \/ (j <> i /\ j0 = j))))
    as Hold.
  { intros w k' j (q & Hq & Hw). rewrite Hfp in Hq.
    apply lookup_insert_Some in Hq as [[<- <-]|[Hk Hq]].
    - rewrite Hv' in Hw.
      unfold n, i in Hw. rewrite lookup_swap_pop in Hw by (fold n i; lia). fold n i in Hw.
      destruct (decide (j < n - 1)) as [Hj|]; [|done].
      destruct (decide (j = i)) as [Hji|Hji].
      + exists (n - 1). split; [by exists p|]. split; [done|]. intros _. split; [done|].
        left. done.
      + exists j. split; [by exists p|]. split; [done|]. intros _. split; [done|].
        right. done.
    - exists j. split; [by exists q|]. split; [done|]. intros ?. by subst. }
  split; [split|].
  - intros k' q. rewrite Hfp. intros [[<- <-]|[_ ?]]%lookup_insert_Some; eauto.
  - intros w e. rewrite Hmap. case_bool_decide; [|eauto].
    intros [[<- <-]|[_ ?]]%lookup_insert_Some; eauto.
  - intros w k1 j1 k2 j2 (j01 & H1 & Hne1 & Heq1)%Hold (j02 & H2 & Hne2 & Heq2)%Hold.
    destruct (Huniq _ _ _ _ _ H1 H2) as [-> ->]. split; [done|].
    destruct (decide (k2 = k)) as [->|Hk].
    + destruct (Heq1 eq_refl) as (? & [[? ?]|[? ?]]),
               (Heq2 eq_refl) as (? & [[? ?]|[? ?]]); lia.
    + rewrite <- (Hne1 Hk), <- (Hne2 Hk). done.
  - intros w k' j (j0 & H & _)%Hold. rewrite Hfn. eauto.
  - by rewrite Hfn.
  - intros w e. rewrite Hmap, Hfn. case_bool_decide; [|eauto].
    intros [[<- _]|[_ ?]]%lookup_insert_Some; eauto.
  - intros w e k1 j1 He (j01 & H1 & Hne1 & Heq1)%Hold.
    rewrite Hmap in He.
    destruct (decide (1 < ComponentPool.poolSize p /\ w = back)) as [[Hn ->]|Hnot].
    + (* the back, whose entry was rewritten *)
      rewrite bool_decide_eq_true_2 in He by done.
      rewrite lookup_insert_eq in He. injection He as <-. simpl.
      destruct (Huniq _ _ _ _ _ H1 Hbacklive) as [-> ->].
      destruct (Heq1 eq_refl) as (Hj1 & [[-> _]|[? ?]]); [done | lia].
    + (* any other entry is the old one, and its slot did not move *)
      assert (Registry.entityRemappings r !! w = Some e) as He0.
      { case_bool_decide; [|done].
        apply lookup_insert_Some in He as [[<- _]|[_ ?]]; [|done]. tauto. }
      destruct (Hremap _ _ _ _ He0 H1) as (Hk1 & Hj01 & Hd).
      split; [done|]. split; [|done]. rewrite Hj01.
      destruct (decide (k1 = k)) as [->|Hk]; [|by apply Hne1].
      destruct (Heq1 eq_refl) as (Hj1 & [[-> ->]|[_ ->]]); [|done].
      exfalso. apply Hnot. split; [lia|].
      destruct H1 as (p0 & Hp0 & Hw0). rewrite Hp in Hp0. injection Hp0 as <-.
      congruence.
  - intros k' j (j0 & H & Hne & Heq)%Hold.
    destruct (Huniq _ _ _ _ _ H Hvlive) as [-> ->].
    destruct (Heq eq_refl) as (Hj & [[? ?]|[? ?]]); lia.
Qed.

End StoreInvariant.

(** ** The operations keep the store well formed *)

Section OperationsPreserve.
Context `{U : ComponentUniverse}.
Implicit Types (r : Registry.t) (p q : ComponentPool.t) (id : EntityId.t).

Lemma get_ok c id r r' id' x :
  registryOk r -> Registry.get c id r = Done (r', id', x) -> registryOk r'.
Proof.
  intros Hok. unfold Registry.get. intros H.
  apply bind_Done in H as ([[r1 id1] pool] & Hres & H).
  apply resolveEntityId_ok in Hres as [Hok1 _]; [|done].
  destruct pool; inv_outcome; done.
Qed.

Lemma writeComponent_Done key c index value r r' :
  Registry.writeComponent key c index value r = Done r' ->
  exists p, Registry.pools r !! key = Some p
    /\ r' = Registry.with_pools
              (<[key := match ComponentPool.components p !! c with
                        | Some vec =>
                            ComponentPool.with_components
                              (<[c := <[index := value]> vec]> (ComponentPool.components p)) p
                        | None => p
                        end]> (Registry.pools r)) r
    /\ forall vec, ComponentPool.components p !! c = Some vec -> index < length vec.
Proof.
  unfold Registry.writeComponent, Registry.derefPool. intros H.
  destruct (Registry.pools r !! key) as [p|] eqn:Hp; [|done]. simpl in H.
  exists p. split; [done|].
  unfold ComponentPool.accessComponentsVecByIndex in H.
  destruct (ComponentPool.components p !! c) as [vec|] eqn:Hc; simpl in H.
  - case_bool_decide; [|done]. simpl in H. inv_outcome. split; [done|].
    by intros ? [= <-].
  - inv_outcome. done.
Qed.

(** Overwriting a value in a column keeps a pool well formed. *)
Lemma poolOk_write k p c index value :
  poolOk k p ->
  poolOk k match ComponentPool.components p !! c with
           | Some vec =>
               ComponentPool.with_components
                 (<[c := <[index := value]> vec]> (ComponentPool.components p)) p
           | None => p
           end.
Proof.
  intros Hok. destruct (ComponentPool.components p !! c) as [vec|] eqn:Hc; [|done].
  destruct Hok as [Hkey Hsize Hwidth Hnd Hrange Hmask Hhashes Hfp Hcolumn].
  split; simpl; try done.
  - by rewrite length_insert.
  - intros c' Hc'. destruct (Hcolumn c' Hc') as (col & Hcol & Hl).
    destruct (decide (c' = c)) as [->|Hne].
    + rewrite list_lookup_insert_eq by (by eapply lookup_lt_Some).
      eexists. split; [done|]. rewrite length_insert. congruence.
    + rewrite list_lookup_insert_ne by done. eauto.
Qed.

Lemma writeComponent_ok key c index value r r' :
  registryOk r ->
  Registry.writeComponent key c index value r = Done r' ->
  registryOk r'.
Proof.
  intros Hok (p & Hp & -> & _)%writeComponent_Done.
  apply (registryOk_replace_pool r key p); [done..| |].
  - apply poolOk_write. by apply (ok_pools r).
  - by destruct (ComponentPool.components p !! c).
Qed.

Lemma set_ok c value id r r' id' :
  registryOk r -> Registry.set c value id r = Done (r', id') -> registryOk r'.
Proof.
  intros Hok. unfold Registry.set. intros H.
  apply bind_Done in H as ([[r1 id1] pool] & Hres & H).
  apply resolveEntityId_ok in Hres as [Hok1 _]; [|done].
  destruct pool as [key|]; [|by inv_outcome].
  apply bind_Done in H as (p & Hp & H).
  apply bind_Done in H as (ptr & Hptr & H).
  destruct ptr; [|by inv_outcome].
  apply bind_Done in H as (r2 & Hw & H). inv_outcome.
  by eapply writeComponent_ok.
Qed.

Lemma removalReport_success id p : success (removalReport id p) = true.
Proof. unfold removalReport. by case_bool_decide. Qed.

(** What [Registry::removeEntity] does with a handle that resolves. *)
Lemma removeEntity_resolved id r id1 key p :
  registryOk r ->
  Registry.isIterating r = false ->
  Registry.resolveEntityId id r = Done (r, id1, Some key) ->
  Registry.pools r !! key = Some p ->
  exists p',
    Registry.removeEntity id r =
      Done (Registry.handleRemoveResult (removalReport id1 p) key
              (Registry.with_pools (<[key := p']> (Registry.pools r)) r),
            EntityId.markDead id1)
    /\ poolOk key p'
    /\ ComponentPool.versions p' =
         pop_back (vecSwap (EntityId.unstableIndex id1)
                     (length (ComponentPool.versions p) - 1) (ComponentPool.versions p))
    /\ ComponentPool.poolSize p' = ComponentPool.poolSize p - 1
    /\ ComponentPool.componentsInUseBitmask p' = ComponentPool.componentsInUseBitmask p
    /\ ComponentPool.componentsInUseIndices p' = ComponentPool.componentsInUseIndices p
    /\ ComponentPool.componentHashes p' = ComponentPool.componentHashes p
    /\ length (ComponentPool.components p') = length (ComponentPool.components p)
    /\ forall c, ComponentPool.components p' !! c =
         if decide (c ∈ ComponentPool.componentsInUseIndices p)
         then (fun col => pop_back (vecSwap (EntityId.unstableIndex id1) (length col - 1) col))
                <$> ComponentPool.components p !! c
         else ComponentPool.components p !! c.
Proof.
  intros Hok Hit Hres Hp.
  destruct (resolveEntityId_Some _ _ _ _ _ Hres) as (_ & _ & p0 & Hp0 & Hvalid).
  rewrite Hp in Hp0. injection Hp0 as <-.
  pose proof (ok_pools r Hok _ _ Hp) as Hpok.
  destruct (removeEntity_pool_spec key id1 p Hpok Hvalid) as (cols & Hrun & Hlen & Hcols).
  pose proof Hvalid as (_ & Hidx & _)%isValid_true.
  exists (ComponentPool.mk cols
            (ComponentPool.componentsInUseBitmask p) (ComponentPool.componentsInUseIndices p)
            (ComponentPool.componentHashes p)
            (pop_back (vecSwap (EntityId.unstableIndex id1)
                         (length (ComponentPool.versions p) - 1) (ComponentPool.versions p)))
            (ComponentPool.poolSize p - 1) (ComponentPool.poolKey p)).
  split.
  - unfold Registry.removeEntity. rewrite Hit. simpl. rewrite Hres. simpl.
    unfold Registry.derefPool. rewrite Hp. simpl. rewrite Hrun. simpl.
    rewrite (ok_key _ _ Hpok), removalReport_success. done.
  - split_and!; simpl; try done.
    apply poolOk_swap_pop; [done..|].
    intros c Hc. by rewrite Hcols, decide_True.
Qed.

Lemma removeEntity_ok id r r' id' :
  registryOk r -> Registry.removeEntity id r = Done (r', id') -> registryOk r'.
Proof.
  intros Hok H. pose proof H as H0. unfold Registry.removeEntity in H.
  apply bind_Done in H as ([] & Hit%fi_assert_Done & H). apply negb_true_iff in Hit.
  apply bind_Done in H as ([[r1 id1] pool] & Hres & H).
  destruct pool as [key|].
  - destruct (resolveEntityId_Some _ _ _ _ _ Hres) as (-> & _ & p & Hp & Hvalid).
    destruct (removeEntity_resolved id r id1 key p Hok Hit Hres Hp)
      as (p' & Hrun & Hpok & Hv & _).
    rewrite Hrun in H0. injection H0 as <- <-.
    by apply (registryOk_removed r key p p' id1).
  - inv_outcome. by apply resolveEntityId_ok in Hres as [? _].
Qed.

End OperationsPreserve.

(** ** Creating entities *)

Section CreateEntity.
Context `{U : ComponentUniverse}.
Implicit Types (r : Registry.t) (p q : ComponentPool.t) (id : EntityId.t).

Lemma setBits_testbit (cs : list nat) (m : N) (c : nat) :
  N.testbit (ComponentPool.setBits cs m) (N.of_nat c) = true <->
  N.testbit m (N.of_nat c) = true \/ c ∈ cs.
Proof.
  unfold ComponentPool.setBits. revert m.
  induction cs as [|x cs IH]; intros m; simpl.
  - rewrite elem_of_nil. tauto.
  - rewrite IH, N.setbit_eqb, orb_true_iff, elem_of_cons, N.eqb_eq. split.
    + intros [[Hx|?]|?]; [|tauto..]. right. left. symmetry. by apply Nat2N.inj.
    + intros [?|[->|?]]; tauto.
Qed.

Lemma poolOk_fingerprint k p :
  poolOk k p -> k = fingerprint (ComponentPool.componentsInUseIndices p).
Proof.
  intros Hok. rewrite (ok_fingerprint _ _ Hok) at 1.
  apply combineHashes_perm, (ok_hashes _ _ Hok).
Qed.

Lemma lookup_replicate_nil {A} (n c : nat) :
  c < n -> replicate n ([] : list A) !! c = Some [].
Proof. intros H. by apply lookup_replicate_2. Qed.

Lemma poolOk_initFromTemplate (cs : list nat) :
  NoDup cs -> (forall c, c ∈ cs -> c < universeSize) ->
  poolOk (fingerprint cs)
    (ComponentPool.initFromTemplate cs (fingerprint cs) (hash_code <$> cs) ComponentPool.empty).
Proof.
  intros Hnd Hr. split; simpl; try done.
  - by rewrite length_replicate.
  - intros c. rewrite setBits_testbit, N.bits_0. split; [intros [?|?]; done | by right].
  - intros c Hc. exists []. split; [|done]. apply lookup_replicate_nil. by apply Hr.
Qed.

(** The pool a [createEntity] call finds or creates is the one of its
    component types. *)
Lemma findOrCreateFromTemplate_ok (cs : list nat) r :
  collisionFree = true ->
  registryOk r ->
  NoDup cs -> (forall c, c ∈ cs -> c < universeSize) ->
  let pool := Registry.findOrCreateFromTemplate cs (fingerprint cs) (hash_code <$> cs) r in
  poolOk (fingerprint cs) pool
  /\ ComponentPool.componentsInUseIndices pool ≡ₚ cs
  /\ registryOk (Registry.with_pools (<[fingerprint cs := pool]> (Registry.pools r)) r).
Proof.
  intros Hcf Hok Hnd Hr. unfold Registry.findOrCreateFromTemplate.
  destruct (Registry.pools r !! fingerprint cs) as [q|] eqn:Hq; simpl.
  - pose proof (ok_pools r Hok _ _ Hq) as Hqok. split; [done|]. split.
    + apply collisionFree_spec; [done | by apply (ok_nodup _ _ Hqok) | done
                                | by apply (ok_range _ _ Hqok) | done |].
      symmetry. by apply poolOk_fingerprint.
    + by apply (registryOk_replace_pool r _ q).
  - split; [by apply poolOk_initFromTemplate|]. split; [done|].
    apply registryOk_insert_empty_pool; [done..| |done].
    by apply poolOk_initFromTemplate.
Qed.

Lemma size_t_of_int_small (z : Z) :
  (0 <= z <= INT_MAX)%Z -> Z.of_N (size_t_of_int z) = z.
Proof.
  intros Hz. unfold size_t_of_int, INT_MAX in *.
  rewrite Z.mod_small by lia. lia.
Qed.

(** [createEntity] on a well-formed store, outside an iteration and below
    [INT_MAX] entities. *)
Lemma createEntityWith_spec (cvs : list (nat * V)) r :
  collisionFree = true ->
  registryOk r ->
  NoDup cvs.*1 -> (forall c, c ∈ cvs.*1 -> c < universeSize) ->
  Registry.isIterating r = false ->
  Registry.nextVersionIndex r <> INT_MAX ->
  let key := fingerprint cvs.*1 in
  let pool := Registry.findOrCreateFromTemplate cvs.*1 key (hash_code <$> cvs.*1) r in
  let id := EntityId.mk (ComponentPool.size pool)
              (size_t_of_int (Registry.nextVersionIndex r)) key false in
  exists cols,
    let pool' := ComponentPool.mk cols
                   (ComponentPool.componentsInUseBitmask pool)
                   (ComponentPool.componentsInUseIndices pool)
                   (ComponentPool.componentHashes pool)
                   (ComponentPool.versions pool ++ [EntityId.version id])
                   (S (ComponentPool.poolSize pool)) (ComponentPool.poolKey pool) in
    let r' := Registry.mk (<[key := pool']> (Registry.pools r))
                (Registry.entityRemappings r)
                (Registry.nextVersionIndex r + 1)%Z (Registry.isIterating r) in
    Registry.createEntityWith cvs r = Done (r', id)
    /\ registryOk r'
    /\ poolOk key pool
    /\ ComponentPool.componentsInUseIndices pool ≡ₚ cvs.*1
    /\ length cols = length (ComponentPool.components pool)
    /\ (forall c, c ∈ cvs.*1 ->
          exists v, (c, v) ∈ cvs
            /\ cols !! c = (fun col => col ++ [v]) <$> ComponentPool.components pool !! c)
    /\ (forall c, c ∉ cvs.*1 -> cols !! c = ComponentPool.components pool !! c).
Proof.
  intros Hcf Hok Hnd Hr Hit Hmax key pool id.
  destruct (findOrCreateFromTemplate_ok cvs.*1 r Hcf Hok Hnd Hr) as (Hpool & Hperm & Hok0).
  fold key pool in Hpool, Hperm, Hok0.
  destruct (createEntity_pool_spec key id cvs pool Hpool Hnd eq_refl)
    as (cols & Hrun & Hlen & Hin & Hout).
  exists cols. intros pool' r'.
  split_and!; try done.
  - unfold Registry.createEntityWith, Registry.generateComponentPoolKeyFromTemplate,
      Registry.generateComponentPoolKeyFromHashes.
    rewrite Hit. simpl. rewrite bool_decide_eq_false_2 by done.
    fold (fingerprint cvs.*1). fold key pool id. rewrite Hrun. simpl.
    unfold r', pool'. by rewrite Hit.
  - pose proof (ok_counter r Hok) as Hcounter.
    pose proof (size_t_of_int_small _ Hcounter) as Hv.
    unfold r'. rewrite <- (insert_insert_eq (Registry.pools r) key pool' pool).
    pose proof (registryOk_append
                  (Registry.with_pools (<[key := pool]> (Registry.pools r)) r) key pool pool'
                  (size_t_of_int (Registry.nextVersionIndex r))
                  (Registry.entityRemappings r) (Registry.nextVersionIndex r + 1)%Z) as Happ.
    simpl in Happ. apply Happ; clear Happ; try done.
    + by rewrite lookup_insert_eq.
    + apply poolOk_push; [done..|].
      intros c Hc. rewrite Hperm in Hc. destruct (Hin c Hc) as (v & _ & ?). eauto.
    + intros k' i Hl. apply (ok_fresh _ Hok0) in Hl. simpl in Hl. lia.
    + lia.
    + lia.
    + intros e He. apply (ok_remap_fresh r Hok) in He. lia.
Qed.

Lemma createEntityWith_ok (cvs : list (nat * V)) r r' id :
  collisionFree = true ->
  registryOk r ->
  NoDup cvs.*1 -> (forall c, c ∈ cvs.*1 -> c < universeSize) ->
  Registry.createEntityWith cvs r = Done (r', id) ->
  registryOk r'.
Proof.
  intros Hcf Hok Hnd Hr H.
  pose proof H as (Hit & Hmax & _)%createEntityWith_Done.
  destruct (createEntityWith_spec cvs r Hcf Hok Hnd Hr Hit Hmax) as (cols & Hrun & Hok' & _).
  rewrite Hrun in H. by injection H as <- _.
Qed.

Lemma createEntity_ok (cs : list nat) r r' id :
  collisionFree = true ->
  registryOk r ->
  NoDup cs -> (forall c, c ∈ cs -> c < universeSize) ->
  Registry.createEntity cs r = Done (r', id) ->
  registryOk r'.
Proof.
  intros Hcf Hok Hnd Hr. apply createEntityWith_ok; try done.
  - by rewrite createEntity_types.
  - by rewrite createEntity_types.
Qed.

End CreateEntity.

(** ** Moving an entity between pools *)

Section Relocation.
Context `{U : ComponentUniverse}.
Implicit Types (r : Registry.t) (p q : ComponentPool.t) (id : EntityId.t).

Lemma registry_eta r :
  r = Registry.mk (Registry.pools r) (Registry.entityRemappings r)
        (Registry.nextVersionIndex r) (Registry.isIterating r).
Proof. by destruct r. Qed.

Lemma bitmask_indices_perm (bitmask : N) (cs : list nat) :
  NoDup cs -> (forall c, c ∈ cs -> c < universeSize) ->
  (forall c, N.testbit bitmask (N.of_nat c) = true <-> c ∈ cs) ->
  filter (fun i => N.testbit bitmask (N.of_nat i) = true) (seq 0 universeSize) ≡ₚ cs.
Proof.
  intros Hnd Hr Hmask. apply NoDup_Permutation; [|done|].
  - apply NoDup_filter, NoDup_seq.
  - intros x. rewrite list_elem_of_filter, elem_of_seq, Hmask. split; [tauto|].
    intros Hx. split; [done|]. specialize (Hr x Hx). lia.
Qed.

Lemma poolOk_initFromBitmask (hashes : list N) (bitmask : N) (cs : list nat) :
  NoDup cs -> (forall c, c ∈ cs -> c < universeSize) ->
  hashes ≡ₚ hash_code <$> cs ->
  (forall c, N.testbit bitmask (N.of_nat c) = true <-> c ∈ cs) ->
  poolOk (combineHashes hashes)
    (ComponentPool.initFromBitmask (combineHashes hashes) hashes bitmask ComponentPool.empty).
Proof.
  intros Hnd Hr Hh Hmask.
  pose proof (bitmask_indices_perm bitmask cs Hnd Hr Hmask) as Hperm.
  split; simpl; try done.
  - by rewrite length_replicate.
  - apply NoDup_filter, NoDup_seq.
  - intros c. rewrite Hperm. apply Hr.
  - intros c. rewrite Hperm. apply Hmask.
  - by rewrite Hh, Hperm.
  - intros c. rewrite Hperm. intros Hc. exists []. split; [|done].
    apply lookup_replicate_nil. by apply Hr.
Qed.

(** The pool an entity moves to: the one of the new set of component
    types, found or created empty; the rest of the store is untouched. *)
Lemma findOrCreateFromBitmask_spec r k p (newCs : list nat) (hashes : list N)
    (nextBitmask : N -> N) :
  collisionFree = true ->
  registryOk r ->
  Registry.pools r !! k = Some p ->
  NoDup newCs -> (forall c, c ∈ newCs -> c < universeSize) ->
  hashes ≡ₚ hash_code <$> newCs ->
  (forall c, N.testbit (nextBitmask (ComponentPool.componentsInUseBitmask p)) (N.of_nat c)
             = true <-> c ∈ newCs) ->
  exists r1 q,
    Registry.findOrCreateFromBitmask (combineHashes hashes) hashes k nextBitmask r = Done r1
    /\ registryOk r1
    /\ Registry.pools r1 !! combineHashes hashes = Some q
    /\ ComponentPool.componentsInUseIndices q ≡ₚ newCs
    /\ ComponentPool.poolSize q = poolSizeAt r (combineHashes hashes)
    /\ (forall k', k' <> combineHashes hashes ->
          Registry.pools r1 !! k' = Registry.pools r !! k')
    /\ Registry.entityRemappings r1 = Registry.entityRemappings r
    /\ Registry.nextVersionIndex r1 = Registry.nextVersionIndex r
    /\ Registry.isIterating r1 = Registry.isIterating r
    /\ (forall w k' j, livesAt r1 w k' j <-> livesAt r w k' j).
Proof.
  intros Hcf Hok Hp Hnd Hr Hh Hmask.
  unfold Registry.findOrCreateFromBitmask, poolSizeAt.
  destruct (Registry.pools r !! combineHashes hashes) as [q|] eqn:Hq.
  - exists r, q. pose proof (ok_pools r Hok _ _ Hq) as Hqok.
    assert (ComponentPool.componentsInUseIndices q ≡ₚ newCs) as Hperm.
    { apply collisionFree_spec; [done | by apply (ok_nodup _ _ Hqok) | done
                                | by apply (ok_range _ _ Hqok) | done |].
      rewrite <- (poolOk_fingerprint _ _ Hqok). apply combineHashes_perm, Hh. }
    split_and!; done.
  - unfold Registry.derefPool. rewrite Hp. simpl.
    eexists _, _. split; [done|].
    pose proof (poolOk_initFromBitmask hashes
                  (nextBitmask (ComponentPool.componentsInUseBitmask p)) newCs
                  Hnd Hr Hh Hmask) as Hnew.
    split_and!; simpl.
    + by apply registryOk_insert_empty_pool.
    + by rewrite lookup_insert_eq.
    + by apply bitmask_indices_perm.
    + done.
    + intros k' Hk'. by rewrite lookup_insert_ne.
    + done.
    + done.
    + done.
    + intros w k' j. rewrite livesAt_insert. simpl. split.
      * intros [[_ ?]|[_ ?]]; done.
      * intros Hl. right. split; [|done]. intros ->.
        destruct Hl as (? & ? & _). congruence.
Qed.

Lemma copyComponent_step c' k i k' m r0 p q cols pc x vec :
  Registry.pools r0 !! k = Some p ->
  k <> k' ->
  ComponentPool.components p !! c' = Some pc ->
  pc !! i = Some x ->
  cols !! c' = Some vec ->
  m < length vec ->
  Registry.copyComponent c' k i k' m
    (Registry.with_pools (<[k' := ComponentPool.with_components cols q]> (Registry.pools r0)) r0)
  = Done (Registry.with_pools
            (<[k' := ComponentPool.with_components (<[c' := <[m := x]> vec]> cols) q]>
               (Registry.pools r0)) r0).
Proof.
  intros Hp Hk Hpc Hx Hvec Hm.
  unfold Registry.copyComponent, Registry.writeComponent, Registry.derefPool. simpl.
  rewrite (lookup_insert_ne _ k' k) by congruence. rewrite Hp. simpl. rewrite Hpc, Hx.
  rewrite lookup_insert_eq. simpl.
  unfold ComponentPool.accessComponentsVecByIndex. simpl. rewrite Hvec. simpl.
  rewrite bool_decide_eq_true_2 by done. simpl.
  by rewrite insert_insert_eq.
Qed.

(** The copy loop of [transferEntityToNewPool]: each shared column of the
    new slot receives the value of the old slot. *)
Lemma copyShared_spec L c k i k' m r0 p q cols :
  Registry.pools r0 !! k = Some p ->
  k <> k' ->
  NoDup L ->
  (forall c', c' ∈ L -> c' <> c ->
     exists pc x vec, ComponentPool.components p !! c' = Some pc /\ pc !! i = Some x
                      /\ cols !! c' = Some vec /\ m < length vec) ->
  exists cols',
    Registry.copyShared L c k i k' m
      (Registry.with_pools (<[k' := ComponentPool.with_components cols q]> (Registry.pools r0))
         r0)
    = Done (Registry.with_pools
              (<[k' := ComponentPool.with_components cols' q]> (Registry.pools r0)) r0)
    /\ length cols' = length cols
    /\ (forall c', c' ∈ L -> c' <> c ->
          exists pc x vec, ComponentPool.components p !! c' = Some pc /\ pc !! i = Some x
                           /\ cols !! c' = Some vec
                           /\ cols' !! c' = Some (<[m := x]> vec))
    /\ (forall c', ~ (c' ∈ L /\ c' <> c) -> cols' !! c' = cols !! c').
Proof.
  intros Hp Hk Hnd. revert cols.
  induction Hnd as [|c0 L Hc0 Hnd IH]; intros cols Hpre.
  - exists cols. split_and!; [done..| |done]. intros c' Hc'. by apply elem_of_nil in Hc'.
  - cbn [Registry.copyShared]. case_bool_decide as Hskip.
    + subst c0. simpl.
      destruct (IH cols) as (cols' & Hrun & Hlen & Hin & Hout).
      { intros c' Hc' Hne. apply Hpre; [by right | done]. }
      exists cols'. split_and!; [done..| |].
      * intros c' [->|Hc']%elem_of_cons Hne; [done | by apply Hin].
      * intros c' Hnot. apply Hout. intros [? ?]. apply Hnot. split; [by right | done].
    + destruct (Hpre c0 ltac:(left) Hskip) as (pc & x & vec & Hpc & Hx & Hvec & Hm).
      rewrite (copyComponent_step c0 k i k' m r0 p q cols pc x vec) by done. simpl.
      destruct (IH (<[c0 := <[m := x]> vec]> cols)) as (cols' & Hrun & Hlen & Hin & Hout).
      { intros c' Hc' Hne. destruct (Hpre c' ltac:(by right) Hne)
          as (pc' & x' & vec' & ? & ? & ? & ?).
        exists pc', x', vec'. split_and!; try done.
        rewrite list_lookup_insert_ne; [done|]. intros ->. done. }
      exists cols'. rewrite Hrun. split_and!; [done | | |].
      * by rewrite Hlen, length_insert.
      * intros c' [->|Hc']%elem_of_cons Hne.
        -- exists pc, x, vec. split_and!; try done.
           rewrite Hout by (intros [? _]; done).
           apply list_lookup_insert_eq. by eapply lookup_lt_Some.
        -- destruct (Hin c' Hc' Hne) as (pc' & x' & vec' & ? & ? & Hv' & ?).
           exists pc', x', vec'. split_and!; try done.
           rewrite list_lookup_insert_ne in Hv'; [done|]. intros ->. done.
      * intros c' Hnot. rewrite Hout.
        -- apply list_lookup_insert_ne. intros ->. apply Hnot. split; [left | done].
        -- intros [? ?]. apply Hnot. split; [by right | done].
Qed.

Lemma insert_snoc_length {A} (l : list A) (x y : A) :
  <[length l := x]> (l ++ [y]) = l ++ [x].
Proof.
  rewrite insert_app_r_alt by lia. by rewrite Nat.sub_diag.
Qed.

(** The first half of a transfer: the new slot exists and holds the
    shared values, and the pools apart from the new one are untouched. *)
Lemma transferPopulate_spec c r1 k p k' q id1 :
  registryOk r1 ->
  Registry.isIterating r1 = false ->
  Registry.pools r1 !! k = Some p ->
  Registry.pools r1 !! k' = Some q ->
  k <> k' ->
  ComponentPool.isValid id1 p = Done true ->
  (forall c', c' ∈ ComponentPool.componentsInUseIndices q -> c' <> c ->
     c' ∈ ComponentPool.componentsInUseIndices p) ->
  exists cols1,
    let q1 := ComponentPool.mk cols1
                (ComponentPool.componentsInUseBitmask q) (ComponentPool.componentsInUseIndices q)
                (ComponentPool.componentHashes q)
                (ComponentPool.versions q ++ [EntityId.version id1])
                (S (ComponentPool.poolSize q)) (ComponentPool.poolKey q) in
    Registry.transferPopulate c id1
      (EntityId.mk (ComponentPool.poolSize q) (EntityId.version id1) k' false) k k' r1
    = Done (Registry.with_pools (<[k' := q1]> (Registry.pools r1)) r1)
    /\ poolOk k' q1
    /\ length cols1 = length (ComponentPool.components q)
    /\ (forall c', c' ∈ ComponentPool.componentsInUseIndices q ->
          exists x col, ComponentPool.components q !! c' = Some col
            /\ cols1 !! c' = Some (col ++ [x])
            /\ (c' <> c -> ComponentPool.components p !! c'
                             ≫= (fun vec => vec !! EntityId.unstableIndex id1) = Some x)
            /\ (c' = c -> x = defaultComponent c')).
Proof.
  intros Hok Hit Hp Hq Hk Hvalid Hsub.
  pose proof (ok_pools r1 Hok _ _ Hp) as Hpok.
  pose proof (ok_pools r1 Hok _ _ Hq) as Hqok.
  pose proof Hvalid as (_ & Hidx & _)%isValid_true.
  set (newId := EntityId.mk (ComponentPool.poolSize q) (EntityId.version id1) k' false).
  destruct (createEntityFromBitmask_spec k' newId q Hqok eq_refl)
    as (colsA & HrunA & HlenA & HcolsA).
  set (qA := ComponentPool.mk colsA
               (ComponentPool.componentsInUseBitmask q) (ComponentPool.componentsInUseIndices q)
               (ComponentPool.componentHashes q)
               (ComponentPool.versions q ++ [EntityId.version newId])
               (S (ComponentPool.poolSize q)) (ComponentPool.poolKey q)) in *.
  destruct (copyShared_spec (ComponentPool.componentsInUseIndices q) c k
              (EntityId.unstableIndex id1) k' (ComponentPool.poolSize q) r1 p qA colsA
              Hp Hk (ok_nodup _ _ Hqok)) as (cols1 & Hcopy & Hlen1 & Hin & Hout).
  { intros c' Hc' Hne.
    destruct (ok_column _ _ Hpok c' (Hsub c' Hc' Hne)) as (pc & Hpc & Hlpc).
    destruct (lookup_lt_is_Some_2 pc (EntityId.unstableIndex id1)) as [x Hx]; [lia|].
    destruct (ok_column _ _ Hqok c' Hc') as (col & Hcol & Hlcol).
    exists pc, x, (col ++ [defaultComponent c']). split_and!; try done.
    - by rewrite HcolsA, decide_True, Hcol.
    - rewrite length_app. simpl. lia. }
  exists cols1. simpl. split_and!.
  - unfold Registry.transferPopulate. rewrite Hit. simpl.
    unfold Registry.derefPool. rewrite Hq. simpl. rewrite HrunA. simpl.
    unfold ComponentPool.size. simpl.
    rewrite bool_decide_eq_true_2 by lia. simpl.
    rewrite last_snoc. simpl. rewrite bool_decide_eq_true_2 by done. simpl.
    exact Hcopy.
  - apply poolOk_push; [done | by rewrite Hlen1 |].
    intros c' Hc'. destruct (ok_column _ _ Hqok c' Hc') as (col & Hcol & Hlcol).
    destruct (decide (c' = c)) as [->|Hne].
    + exists (defaultComponent c). rewrite Hout by (intros [_ ?]; done).
      by rewrite HcolsA, decide_True.
    + destruct (Hin c' Hc' Hne) as (pc & x & vec & _ & _ & Hvec & Hc1).
      exists x. rewrite Hc1, Hcol. simpl. f_equal.
      rewrite HcolsA, decide_True, Hcol in Hvec by done. injection Hvec as <-.
      rewrite <- Hlcol. apply insert_snoc_length.
  - by rewrite Hlen1.
  - intros c' Hc'. destruct (ok_column _ _ Hqok c' Hc') as (col & Hcol & Hlcol).
    destruct (decide (c' = c)) as [->|Hne].
    + exists (defaultComponent c), col. split_and!; try done.
      rewrite Hout by (intros [_ ?]; done). by rewrite HcolsA, decide_True, Hcol.
    + destruct (Hin c' Hc' Hne) as (pc & x & vec & Hpc & Hx & Hvec & Hc1).
      exists x, col. split_and!; try done.
      * rewrite Hc1. f_equal.
        rewrite HcolsA, decide_True, Hcol in Hvec by done. injection Hvec as <-.
        rewrite <- Hlcol. apply insert_snoc_length.
      * intros _. by rewrite Hpc.
Qed.

Lemma registry_ext (a b : Registry.t) :
  Registry.pools a = Registry.pools b ->
  Registry.entityRemappings a = Registry.entityRemappings b ->
  Registry.nextVersionIndex a = Registry.nextVersionIndex b ->
  Registry.isIterating a = Registry.isIterating b ->
  a = b.
Proof. destruct a, b. simpl. congruence. Qed.

(** The second half of a transfer, and the whole of it: the old slot is
    gone, the remap table points at the new one, and the store is well
    formed again. *)
Lemma transferRelease_spec r1 k p k' q q1 id1 :
  registryOk r1 ->
  Registry.pools r1 !! k = Some p ->
  Registry.pools r1 !! k' = Some q ->
  k <> k' ->
  ComponentPool.isValid id1 p = Done true ->
  poolOk k' q1 ->
  ComponentPool.versions q1 = ComponentPool.versions q ++ [EntityId.version id1] ->
  let newId := EntityId.mk (ComponentPool.poolSize q) (EntityId.version id1) k' false in
  exists p',
    let r' := Registry.mk (<[k := p']> (<[k' := q1]> (Registry.pools r1)))
                (<[EntityId.version id1 := newId]>
                   (Registry.entityRemappings
                      (Registry.handleRemoveResult (removalReport id1 p) k r1)))
                (Registry.nextVersionIndex r1) (Registry.isIterating r1) in
    Registry.transferRelease id1 newId k
      (Registry.with_pools (<[k' := q1]> (Registry.pools r1)) r1) = Done (r', newId)
    /\ registryOk r'
    /\ poolOk k p'
    /\ ComponentPool.poolSize p' = ComponentPool.poolSize p - 1
    /\ ComponentPool.componentsInUseIndices p' = ComponentPool.componentsInUseIndices p
    /\ (forall k'' j, livesAt r' (EntityId.version id1) k'' j
                      <-> k'' = k' /\ j = ComponentPool.poolSize q).
Proof.
  intros Hok Hp Hq Hk Hvalid Hq1 Hv1 newId.
  pose proof (ok_pools r1 Hok _ _ Hp) as Hpok.
  pose proof (ok_pools r1 Hok _ _ Hq) as Hqok.
  pose proof Hvalid as (_ & Hidx & Hver)%isValid_true.
  destruct (removeEntity_pool_spec k id1 p Hpok Hvalid) as (cols & Hrun & Hlen & Hcols).
  set (p' := ComponentPool.mk cols
               (ComponentPool.componentsInUseBitmask p) (ComponentPool.componentsInUseIndices p)
               (ComponentPool.componentHashes p)
               (pop_back (vecSwap (EntityId.unstableIndex id1)
                            (length (ComponentPool.versions p) - 1) (ComponentPool.versions p)))
               (ComponentPool.poolSize p - 1) (ComponentPool.poolKey p)) in *.
  assert (poolOk k p') as Hp'ok.
  { apply poolOk_swap_pop; [done..|]. intros c' Hc'. by rewrite Hcols, decide_True. }
  exists p'. intros r'.
  destruct (registryOk_removed r1 k p p' id1 Hok Hp Hvalid Hp'ok eq_refl) as [HokR HdeadR].
  set (R := Registry.handleRemoveResult (removalReport id1 p) k
              (Registry.with_pools (<[k := p']> (Registry.pools r1)) r1)) in *.
  destruct (handleRemoveResult_frame (removalReport id1 p) k
              (Registry.with_pools (<[k := p']> (Registry.pools r1)) r1))
    as (HRp & HRn & HRi). fold R in HRp, HRn, HRi. simpl in HRp, HRn, HRi.
  assert (Registry.entityRemappings R
          = Registry.entityRemappings (Registry.handleRemoveResult (removalReport id1 p) k r1))
    as HRm.
  { unfold R. by rewrite !handleRemoveResult_report. }
  assert (r' = Registry.mk (<[k' := q1]> (Registry.pools R))
                 (<[EntityId.version id1 := newId]> (Registry.entityRemappings R))
                 (Registry.nextVersionIndex R) (Registry.isIterating R)) as Hr'.
  { apply registry_ext; simpl; [|by rewrite HRm|done|done].
    rewrite HRp. apply insert_insert_ne. congruence. }
  assert (registryOk r') as Hok'.
  { rewrite Hr'. apply (registryOk_append R k' q q1 (EntityId.version id1)); try done.
    - rewrite HRp. rewrite lookup_insert_ne by done. done.
    - rewrite HRn. apply (ok_fresh r1 Hok _ k (EntityId.unstableIndex id1)). by exists p.
    - pose proof (ok_counter R HokR). lia.
    - intros w Hw. by rewrite lookup_insert_ne.
    - rewrite lookup_insert_eq. intros e [= <-]. simpl. split_and!; try done.
      by rewrite (ok_size _ _ Hqok). }
  split_and!; try done.
  - unfold Registry.transferRelease, Registry.derefPool. simpl.
    rewrite lookup_insert_ne by congruence. rewrite Hp. simpl. rewrite Hrun. simpl.
    f_equal. f_equal. apply registry_ext; simpl.
    + by rewrite (proj1 (handleRemoveResult_frame _ _ _)).
    + rewrite (ok_key _ _ Hpok). by rewrite !handleRemoveResult_report.
    + by rewrite (proj1 (proj2 (handleRemoveResult_frame _ _ _))).
    + by rewrite (proj2 (proj2 (handleRemoveResult_frame _ _ _))).
  - intros k'' j.
    assert (livesAt r' (EntityId.version id1) k' (ComponentPool.poolSize q)) as Hnew.
    { exists q1. simpl. rewrite lookup_insert_ne by done. rewrite lookup_insert_eq.
      split; [done|]. rewrite Hv1, (ok_size _ _ Hqok). apply list_lookup_middle. done. }
    split.
    + intros Hl. by apply (ok_unique r' Hok' _ _ _ _ _ Hl Hnew).
    + intros [-> ->]. done.
Qed.

End Relocation.

Section RelocationSpec.
Context `{U : ComponentUniverse}.
Implicit Types (r : Registry.t) (p q : ComponentPool.t) (id : EntityId.t).

Lemma poolSizeAt_lookup r k p :
  Registry.pools r !! k = Some p -> poolSizeAt r k = ComponentPool.poolSize p.
Proof. intros H. unfold poolSizeAt. by rewrite H. Qed.

(** The common tail of [addComponent] and [removeComponent] on a handle
    that is valid in the pool under [k], towards the component types
    [newCs]. *)
Lemma relocate_spec c (newCs : list nat) (hashes : list N) (nextBitmask : N -> N) id1 k p r :
  collisionFree = true ->
  registryOk r ->
  Registry.isIterating r = false ->
  Registry.pools r !! k = Some p ->
  EntityId.poolKey id1 = k ->
  ComponentPool.isValid id1 p = Done true ->
  NoDup newCs -> (forall c', c' ∈ newCs -> c' < universeSize) ->
  hashes ≡ₚ hash_code <$> newCs ->
  (forall c', N.testbit (nextBitmask (ComponentPool.componentsInUseBitmask p)) (N.of_nat c')
              = true <-> c' ∈ newCs) ->
  ~ newCs ≡ₚ ComponentPool.componentsInUseIndices p ->
  (forall c', c' ∈ newCs -> c' <> c -> c' ∈ ComponentPool.componentsInUseIndices p) ->
  exists r' id',
    Registry.relocate c hashes nextBitmask id1 k r = Done (r', id')
    /\ registryOk r'
    /\ relocated c newCs r k id1 r' id'
    /\ relocationSteps c newCs r k id1 r' id'.
Proof.
  intros Hcf Hok Hit Hp Hkey Hvalid Hnd Hr Hh Hmask Hlen Hsub.
  pose proof (ok_pools r Hok _ _ Hp) as Hpok.
  pose proof Hvalid as (Hdead & Hidx & Hver)%isValid_true.
  assert (combineHashes hashes = fingerprint newCs) as Hk'.
  { unfold fingerprint. by apply combineHashes_perm. }
  assert (k <> fingerprint newCs) as Hne.
  { intros Heq. apply Hlen. symmetry.
    apply collisionFree_spec; [done | by apply (ok_nodup _ _ Hpok) | done
                              | by apply (ok_range _ _ Hpok) | done |].
    by rewrite <- (poolOk_fingerprint _ _ Hpok). }
  destruct (findOrCreateFromBitmask_spec r k p newCs hashes nextBitmask
              Hcf Hok Hp Hnd Hr Hh Hmask)
    as (r1 & q & Hfind & Hok1 & Hq & Hperm & Hsize & Hother1 & Hmap1 & Hnext1 & Hit1 & Hlive1).
  rewrite Hk' in *.
  set (k' := fingerprint newCs) in *.
  assert (Registry.pools r1 !! k = Some p) as Hp1 by (by rewrite Hother1).
  pose proof (ok_pools r1 Hok1 _ _ Hq) as Hqok.
  destruct (transferPopulate_spec c r1 k p k' q id1 Hok1 ltac:(congruence) Hp1 Hq Hne Hvalid)
    as (cols1 & Hpop & Hq1ok & Hlen1 & Hcols1).
  { intros c' Hc' Hc'c. apply Hsub; [|done]. by rewrite <- Hperm. }
  simpl in Hpop, Hq1ok.
  set (q1 := ComponentPool.mk cols1
               (ComponentPool.componentsInUseBitmask q) (ComponentPool.componentsInUseIndices q)
               (ComponentPool.componentHashes q)
               (ComponentPool.versions q ++ [EntityId.version id1])
               (S (ComponentPool.poolSize q)) (ComponentPool.poolKey q)) in *.
  destruct (transferRelease_spec r1 k p k' q q1 id1 Hok1 Hp1 Hq Hne Hvalid Hq1ok eq_refl)
    as (p' & Hrel & Hok' & Hp'ok & Hp'size & Hp'ind & Hunique).
  simpl in Hrel, Hok', Hunique.
  set (newId := EntityId.mk (ComponentPool.poolSize q) (EntityId.version id1) k' false) in *.
  set (r2 := Registry.with_pools (<[k' := q1]> (Registry.pools r1)) r1) in *.
  set (r' := Registry.mk (<[k := p']> (<[k' := q1]> (Registry.pools r1)))
               (<[EntityId.version id1 := newId]>
                  (Registry.entityRemappings
                     (Registry.handleRemoveResult (removalReport id1 p) k r1)))
               (Registry.nextVersionIndex r1) (Registry.isIterating r1)) in *.
  assert (Registry.pools r' !! k' = Some q1) as Hq1.
  { simpl. rewrite lookup_insert_ne by done. by rewrite lookup_insert_eq. }
  assert (Registry.pools r' !! k = Some p') as Hp'.
  { simpl. by rewrite lookup_insert_eq. }
  assert (forall c', c' ∈ newCs ->
            exists x, componentAt r2 k' c' (ComponentPool.poolSize q) = Some x
                      /\ componentAt r' k' c' (ComponentPool.poolSize q) = Some x
                      /\ (c' <> c -> componentAt r k c' (EntityId.unstableIndex id1) = Some x)
                      /\ (c' = c -> x = defaultComponent c))
    as Hvalues.
  { intros c' Hc'. rewrite <- Hperm in Hc'.
    destruct (Hcols1 c' Hc') as (x & col & Hcol & Hc1 & Hshared & Hdefault).
    destruct (ok_column _ _ Hqok c' Hc') as (col' & Hcol' & Hlcol).
    rewrite Hcol in Hcol'. injection Hcol' as <-.
    exists x. unfold componentAt. rewrite Hq1, Hp. unfold r2. simpl.
    rewrite lookup_insert_eq. simpl. rewrite Hc1. simpl.
    rewrite <- Hlcol, list_lookup_middle by done. split_and!; [done..|].
    intros ->. by apply Hdefault. }
  exists r', newId. split_and!.
  - unfold Registry.relocate, Registry.generateComponentPoolKeyFromHashes.
    rewrite Hk', Hkey. fold k'. rewrite Hfind. simpl.
    unfold Registry.derefPool. rewrite Hq. simpl.
    unfold Registry.transferEntityToNewPool, ComponentPool.size.
    fold newId. rewrite Hpop. simpl. exact Hrel.
  - done.
  - split; simpl.
    + done.
    + fold k'. by rewrite Hsize.
    + done.
    + done.
    + congruence.
    + exists q1. split; [done|]. split; [done|].
      apply isValid_true. simpl. split_and!; [done | lia |].
      rewrite (ok_size _ _ Hqok). by apply list_lookup_middle.
    + rewrite (poolSizeAt_lookup _ _ _ Hq1). simpl. by rewrite Hsize.
    + rewrite (poolSizeAt_lookup _ _ _ Hp'), (poolSizeAt_lookup _ _ _ Hp). done.
    + intros k'' Hk''1 Hk''2. unfold poolSizeAt. simpl.
      rewrite !lookup_insert_ne by done. by rewrite Hother1.
    + apply Hunique.
    + intros c' Hc' Hc'c. destruct (Hvalues c' Hc') as (x & _ & Hx' & Hx & _).
      exists x. split; [by apply Hx | done].
    + by rewrite Hit1.
    + by rewrite Hnext1.
  - exists r1, r2. split_and!.
    + done.
    + exact Hpop.
    + exists p. unfold r2. simpl. rewrite lookup_insert_ne by done. done.
    + exists q1. unfold r2. simpl. rewrite lookup_insert_eq. split; [done|].
      rewrite (ok_size _ _ Hqok). by apply list_lookup_middle.
    + intros c' Hc' Hc'c. destruct (Hvalues c' Hc') as (x & Hx2 & _ & Hx & _).
      exists x. split_and!; [by apply Hx | | done].
      rewrite <- (Hx Hc'c). unfold componentAt, r2. simpl.
      rewrite lookup_insert_ne by done. by rewrite Hp1, Hp.
    + intros Hc'. destruct (Hvalues c Hc') as (x & Hx2 & _ & _ & Hx).
      rewrite (Hx eq_refl) in Hx2. exact Hx2.
    + exact Hrel.
    + intros c'. unfold componentAt. cbn [EntityId.poolKey newId].
      rewrite Hq1. unfold r2. simpl. by rewrite lookup_insert_eq.
Qed.

End RelocationSpec.

Section AddRemoveComponent.
Context `{U : ComponentUniverse}.
Implicit Types (r : Registry.t) (p q : ComponentPool.t) (id : EntityId.t).

Lemma writeComponent_spec key c index value r q vec :
  Registry.pools r !! key = Some q ->
  ComponentPool.components q !! c = Some vec ->
  index < length vec ->
  Registry.writeComponent key c index value r =
    Done (Registry.with_pools
            (<[key := ComponentPool.with_components
                        (<[c := <[index := value]> vec]> (ComponentPool.components q)) q]>
               (Registry.pools r)) r).
Proof.
  intros Hq Hvec Hi. unfold Registry.writeComponent, Registry.derefPool. rewrite Hq. simpl.
  unfold ComponentPool.accessComponentsVecByIndex. rewrite Hvec. simpl.
  by rewrite bool_decide_eq_true_2.
Qed.

Lemma hasComponent_indices k p c :
  poolOk k p ->
  ComponentPool.hasComponent c p = true <-> c ∈ ComponentPool.componentsInUseIndices p.
Proof. intros Hok. apply (ok_mask _ _ Hok). Qed.

Lemma filter_hashes (l : list nat) (c : nat) :
  (forall c', c' ∈ l -> hash_code c' = hash_code c -> c' = c) ->
  filter (fun h => h <> hash_code c) (hash_code <$> l)
  = hash_code <$> filter (fun c' => c' <> c) l.
Proof.
  induction l as [|x l IH]; intros Hinj; [done|].
  rewrite fmap_cons, !filter_cons.
  rewrite IH by (intros c' Hc'; apply Hinj; by right).
  destruct (decide (x = c)) as [->|Hne].
  - rewrite decide_False by (intros H; by apply H).
    rewrite decide_False by (intros H; by apply H). done.
  - rewrite decide_True; [by rewrite decide_True|].
    intros Hh. apply Hne, Hinj; [left | done].
Qed.

(** The value written by [get]'s caller or by [addComponent] lands in one
    column of one pool. *)
Lemma componentAt_write r key q c vec index value k' c' j :
  Registry.pools r !! key = Some q ->
  ComponentPool.components q !! c = Some vec ->
  index < length vec ->
  componentAt
    (Registry.with_pools
       (<[key := ComponentPool.with_components
                   (<[c := <[index := value]> vec]> (ComponentPool.components q)) q]>
          (Registry.pools r)) r) k' c' j
  = if decide (k' = key /\ c' = c /\ j = index) then Some value else componentAt r k' c' j.
Proof.
  intros Hq Hvec Hi. unfold componentAt. simpl.
  destruct (decide (k' = key)) as [->|Hk].
  - rewrite lookup_insert_eq, Hq. simpl.
    destruct (decide (c' = c)) as [->|Hc].
    + rewrite list_lookup_insert_eq by (by eapply lookup_lt_Some). rewrite Hvec. simpl.
      destruct (decide (j = index)) as [->|Hj].
      * rewrite decide_True by done. by apply list_lookup_insert_eq.
      * rewrite decide_False by tauto. by apply list_lookup_insert_ne.
    + rewrite list_lookup_insert_ne by done. rewrite decide_False by tauto. done.
  - rewrite lookup_insert_ne by done. rewrite decide_False by tauto. done.
Qed.

(** [addComponent] with a component type the entity lacks. *)
Lemma addComponent_spec c value id id1 r r0 k p :
  collisionFree = true ->
  registryOk r ->
  Registry.isIterating r = false ->
  Registry.resolveEntityId id r = Done (r0, id1, Some k) ->
  Registry.pools r !! k = Some p ->
  ComponentPool.hasComponent c p = false ->
  c < universeSize ->
  exists r' id',
    Registry.addComponent c value id r = Done (r', id')
    /\ registryOk r'
    /\ relocated c (ComponentPool.componentsInUseIndices p ++ [c]) r k id1 r' id'
    /\ componentAt r' (EntityId.poolKey id') c (EntityId.unstableIndex id') = Some value
    /\ exists r3,
         relocationSteps c (ComponentPool.componentsInUseIndices p ++ [c]) r k id1 r3 id'
         /\ Registry.writeComponent (EntityId.poolKey id') c (EntityId.unstableIndex id')
              value r3 = Done r'.
Proof.
  intros Hcf Hok Hit Hres Hp Habsent Hc.
  destruct (resolveEntityId_Some _ _ _ _ _ Hres) as (-> & Hkey & p0 & Hp0 & Hvalid).
  rewrite Hp in Hp0. injection Hp0 as <-.
  pose proof (ok_pools r Hok _ _ Hp) as Hpok.
  assert (c ∉ ComponentPool.componentsInUseIndices p) as Hnotin.
  { rewrite <- (hasComponent_indices k p c Hpok). by rewrite Habsent. }
  destruct (relocate_spec c (ComponentPool.componentsInUseIndices p ++ [c])
              (ComponentPool.componentHashes p ++ [hash_code c])
              (fun bitmask => N.setbit bitmask (N.of_nat c)) id1 k p r)
    as (r3 & id' & Hrun & Hok3 & Hmv & Hsteps); try done.
  - apply NoDup_app. split; [by apply (ok_nodup _ _ Hpok)|]. split.
    + intros x Hx ->%list_elem_of_singleton. done.
    + apply NoDup_singleton.
  - intros c' [?| ->%list_elem_of_singleton]%elem_of_app; [by apply (ok_range _ _ Hpok) | done].
  - rewrite fmap_app. simpl. by rewrite (ok_hashes _ _ Hpok).
  - intros c'. rewrite N.setbit_iff, elem_of_app, list_elem_of_singleton,
      (ok_mask _ _ Hpok c'). split.
    + intros [H%Nat2N.inj|?]; [by right | by left].
    + intros [?| ->]; [by right | by left].
  - intros Hperm. apply Hnotin. rewrite <- Hperm. apply elem_of_app. right. by left.
  - intros c' [?| ->%list_elem_of_singleton]%elem_of_app Hne; done.
  - destruct (mv_dest _ _ _ _ _ _ _ Hmv) as (q' & Hq' & Hperm & Hvalid').
    pose proof (ok_pools r3 Hok3 _ _ Hq') as Hq'ok.
    pose proof Hvalid' as (_ & Hidx' & Hver')%isValid_true.
    destruct (ok_column _ _ Hq'ok c) as (vec & Hvec & Hlvec).
    { rewrite Hperm. apply elem_of_app. right. by left. }
    pose proof (writeComponent_spec (EntityId.poolKey id') c (EntityId.unstableIndex id')
                  value r3 q' vec Hq' Hvec ltac:(lia)) as Hwrite.
    eexists _, id'. split_and!.
    + unfold Registry.addComponent. rewrite Hit. simpl. rewrite Hres. simpl.
      unfold Registry.derefPool. rewrite Hp. simpl. rewrite Habsent.
      rewrite Hrun. simpl. rewrite Hwrite. done.
    + eapply writeComponent_ok; [exact Hok3 | exact Hwrite].
    + destruct Hmv as [mkey mindex mversion malive mdistinct mdest mv_dest_size0 mv_src_size0
                         mv_other0 mv_unique0 mv_values0 miter mcounter].
      split; try done.
      * exists (ComponentPool.with_components
                  (<[c := <[EntityId.unstableIndex id' := value]> vec]>
                     (ComponentPool.components q')) q').
        simpl. rewrite lookup_insert_eq. done.
      * rewrite <- mv_dest_size0. unfold poolSizeAt. simpl.
        by rewrite lookup_insert_eq, Hq'.
      * rewrite <- mv_src_size0. unfold poolSizeAt. simpl.
        by rewrite lookup_insert_ne.
      * intros k'' H1 H2. rewrite <- (mv_other0 k'' H1 H2). unfold poolSizeAt. simpl.
        by rewrite lookup_insert_ne.
      * intros k'' j. rewrite <- mv_unique0. rewrite livesAt_insert. simpl. split.
        -- intros [[-> ?]|[_ ?]]; [by exists q' | done].
        -- intros Hl. destruct (decide (k'' = EntityId.poolKey id')) as [->|]; [left|by right].
           destruct Hl as (q0 & Hq0 & ?). rewrite Hq' in Hq0. by injection Hq0 as <-.
      * intros c' Hc' Hne. destruct (mv_values0 c' Hc' Hne) as (x & Hx & Hx').
        exists x. split; [done|].
        rewrite (componentAt_write r3 _ q' c vec) by (done || lia).
        rewrite decide_False by tauto. done.
    + rewrite (componentAt_write r3 _ q' c vec) by (done || lia).
      by rewrite decide_True.
    + exists r3. split; [done | exact Hwrite].
Qed.

(** [removeComponent] with a component type the entity has. *)
Lemma removeComponent_spec c id id1 r r0 k p :
  collisionFree = true ->
  registryOk r ->
  Registry.isIterating r = false ->
  Registry.resolveEntityId id r = Done (r0, id1, Some k) ->
  Registry.pools r !! k = Some p ->
  ComponentPool.hasComponent c p = true ->
  let newCs := filter (fun c' => c' <> c) (ComponentPool.componentsInUseIndices p) in
  exists r' id',
    Registry.removeComponent c id r = Done (r', id')
    /\ registryOk r'
    /\ relocated c newCs r k id1 r' id'
    /\ relocationSteps c newCs r k id1 r' id'.
Proof.
  intros Hcf Hok Hit Hres Hp Hpresent newCs.
  destruct (resolveEntityId_Some _ _ _ _ _ Hres) as (-> & Hkey & p0 & Hp0 & Hvalid).
  rewrite Hp in Hp0. injection Hp0 as <-.
  pose proof (ok_pools r Hok _ _ Hp) as Hpok.
  assert (c ∈ ComponentPool.componentsInUseIndices p) as Hin.
  { by rewrite <- (hasComponent_indices k p c Hpok). }
  pose proof (ok_range _ _ Hpok c Hin) as Hc.
  destruct (relocate_spec c newCs
              (filter (fun h => h <> hash_code c) (ComponentPool.componentHashes p))
              (fun bitmask => N.clearbit bitmask (N.of_nat c)) id1 k p r)
    as (r' & id' & Hrun & Hok' & Hmv & Hsteps); try done.
  - apply NoDup_filter, (ok_nodup _ _ Hpok).
  - intros c' [_ ?]%list_elem_of_filter. by apply (ok_range _ _ Hpok).
  - rewrite (ok_hashes _ _ Hpok). unfold newCs. rewrite filter_hashes; [done|].
    intros c' Hc' Hh. apply hash_code_inj; [done | by apply (ok_range _ _ Hpok) | done..].
  - intros c'. unfold newCs.
    rewrite N.clearbit_iff, list_elem_of_filter, (ok_mask _ _ Hpok c'). split.
    + intros [? Hne]. split; [|done]. intros ->. done.
    + intros [Hne ?]. split; [done|]. intros Heq%Nat2N.inj. by subst.
  - intros Hperm. rewrite <- Hperm in Hin. by apply list_elem_of_filter in Hin as [? _].
  - intros c' [_ ?]%list_elem_of_filter _. done.
  - exists r', id'. split_and!; try done.
    unfold Registry.removeComponent. rewrite Hit. simpl. rewrite Hres. simpl.
    unfold Registry.derefPool. rewrite Hp. simpl. rewrite Hpresent. simpl. exact Hrun.
Qed.

Lemma addComponent_ok c value id r r' id' :
  collisionFree = true ->
  registryOk r ->
  c < universeSize ->
  Registry.addComponent c value id r = Done (r', id') ->
  registryOk r'.
Proof.
  intros Hcf Hok Hc H. pose proof H as H0. unfold Registry.addComponent in H.
  apply bind_Done in H as ([] & Hit%fi_assert_Done & H). apply negb_true_iff in Hit.
  apply bind_Done in H as ([[r1 id1] pool] & Hres & H).
  destruct pool as [k|].
  2:{ inv_outcome. by apply resolveEntityId_ok in Hres as [? _]. }
  destruct (resolveEntityId_Some _ _ _ _ _ Hres) as (-> & _ & p & Hp & Hvalid).
  unfold Registry.derefPool in H. rewrite Hp in H. simpl in H.
  destruct (ComponentPool.hasComponent c p) eqn:Hhas.
  - apply bind_Done in H as ([[r2 id2] ptr] & Hget & H).
    destruct ptr; [|done].
    apply bind_Done in H as (r3 & Hw & H). inv_outcome.
    eapply writeComponent_ok; [|exact Hw]. by eapply get_ok.
  - destruct (addComponent_spec c value id id1 r r k p Hcf Hok Hit Hres Hp Hhas Hc)
      as (r'' & id'' & Hrun & Hok'' & _).
    rewrite Hrun in H0. by injection H0 as <- _.
Qed.

Lemma removeComponent_ok c id r r' id' :
  collisionFree = true ->
  registryOk r ->
  Registry.removeComponent c id r = Done (r', id') ->
  registryOk r'.
Proof.
  intros Hcf Hok H. pose proof H as H0. unfold Registry.removeComponent in H.
  apply bind_Done in H as ([] & Hit%fi_assert_Done & H). apply negb_true_iff in Hit.
  apply bind_Done in H as ([[r1 id1] pool] & Hres & H).
  destruct pool as [k|].
  2:{ inv_outcome. by apply resolveEntityId_ok in Hres as [? _]. }
  destruct (resolveEntityId_Some _ _ _ _ _ Hres) as (-> & _ & p & Hp & Hvalid).
  unfold Registry.derefPool in H. rewrite Hp in H. simpl in H.
  destruct (ComponentPool.hasComponent c p) eqn:Hhas; simpl in H.
  - destruct (removeComponent_spec c id id1 r r k p Hcf Hok Hit Hres Hp Hhas)
      as (r'' & id'' & Hrun & Hok'' & _).
    rewrite Hrun in H0. by injection H0 as <- _.
  - by inv_outcome.
Qed.

End AddRemoveComponent.

(** ** Reachable stores are well formed *)

Section Reachable.
Context `{U : ComponentUniverse}.
Implicit Types (r : Registry.t).

Lemma registryOk_empty : registryOk Registry.empty.
Proof.
  split; simpl.
  - intros k p. by rewrite lookup_empty.
  - intros v e. by rewrite lookup_empty.
  - intros v k1 i1 k2 i2 (p & Hp & _). simpl in Hp. by rewrite lookup_empty in Hp.
  - intros v k i (p & Hp & _). simpl in Hp. by rewrite lookup_empty in Hp.
  - unfold INT_MAX. lia.
  - intros v e. by rewrite lookup_empty.
  - intros v e k i. by rewrite lookup_empty.
Qed.

Lemma with_iterating_ok b r : registryOk r -> registryOk (Registry.with_iterating b r).
Proof.
  intros Hok. apply (registryOk_same_slots r); try done.
  apply (ok_pools r Hok).
Qed.

Lemma apiStep_ok r r' :
  collisionFree = true -> registryOk r -> apiStep r r' -> registryOk r'.
Proof.
  intros Hcf Hok Hstep.
  destruct Hstep as [cs r r' id Hnd Hr H | cvs r r' id Hnd Hr H | id r r' id' H
                    | c v id r r' id' Hc H | c id r r' id' Hc H
                    | c id r r' id' x H | c v id r r' id' H].
  - by eapply createEntity_ok.
  - by eapply createEntityWith_ok.
  - by eapply removeEntity_ok.
  - by eapply addComponent_ok.
  - by eapply removeComponent_ok.
  - by eapply get_ok.
  - by eapply set_ok.
Qed.

Lemma rtc_apiStep_ok r r' :
  collisionFree = true -> registryOk r -> rtc apiStep r r' -> registryOk r'.
Proof.
  intros Hcf Hok Hsteps. induction Hsteps as [|r r1 r2 Hstep _ IH]; [done|].
  apply IH. by eapply apiStep_ok.
Qed.

(** The loops hand on whatever every round of their body keeps. *)
Lemma forEachKey_preserves (Q : Registry.t -> Prop) body keys r r' :
  (forall key r r', Q r -> body key r = Done r' -> Q r') ->
  Q r -> Registry.forEachKey body keys r = Done r' -> Q r'.
Proof.
  intros Hbody. revert r. induction keys as [|key keys IH]; intros r HQ H; simpl in H.
  - by inv_outcome.
  - apply bind_Done in H as (r1 & H1 & H). eauto.
Qed.

Lemma forEachSlot_preserves (Q : Registry.t -> Prop) cs callback key slots r r' :
  (forall id r r', Q r -> callback id r = Done r' -> Q r') ->
  Q r -> Registry.forEachSlot cs callback key slots r = Done r' -> Q r'.
Proof.
  intros Hcb. revert r. induction slots as [|i slots IH]; intros r HQ H; simpl in H.
  - by inv_outcome.
  - apply bind_Done in H as (p & Hp & H).
    case_bool_decide; [by inv_outcome|].
    destruct (ComponentPool.versions p !! i); [|done].
    destruct (Registry.slotsInRange cs i p); [|done].
    apply bind_Done in H as (r1 & H1 & H). eauto.
Qed.

Lemma forEachSlotEarlyReturn_preserves (Q : Registry.t -> Prop) cs callback key slots
    r r' stop :
  (forall id r r' b, Q r -> callback id r = Done (r', b) -> Q r') ->
  Q r -> Registry.forEachSlotEarlyReturn cs callback key slots r = Done (r', stop) -> Q r'.
Proof.
  intros Hcb. revert r. induction slots as [|i slots IH]; intros r HQ H; simpl in H.
  - by inv_outcome.
  - apply bind_Done in H as (p & Hp & H).
    case_bool_decide; [by inv_outcome|].
    destruct (ComponentPool.versions p !! i); [|done].
    destruct (Registry.slotsInRange cs i p); [|done].
    apply bind_Done in H as ([r1 b] & H1 & H).
    destruct b; [inv_outcome|]; eauto.
Qed.

Lemma forEachKeyEarlyReturn_preserves (Q : Registry.t -> Prop) cs callback keys r r' :
  (forall id r r' b, Q r -> callback id r = Done (r', b) -> Q r') ->
  Q r -> Registry.forEachKeyEarlyReturn cs callback keys r = Done r' -> Q r'.
Proof.
  intros Hcb. revert r. induction keys as [|key keys IH]; intros r HQ H; simpl in H.
  - by inv_outcome.
  - apply bind_Done in H as (p & Hp & H).
    destruct (ComponentPool.hasComponents cs p); [|eauto].
    apply bind_Done in H as ([r1 b] & H1 & H).
    apply forEachSlotEarlyReturn_preserves with (Q := Q) in H1; [|done..].
    destruct b; [by inv_outcome | eauto].
Qed.

Lemma forEachEntitySlot_preserves (Q : Registry.t -> Prop) callback key slots r r' :
  (forall id r r', Q r -> callback id r = Done r' -> Q r') ->
  Q r -> Registry.forEachEntitySlot callback key slots r = Done r' -> Q r'.
Proof.
  intros Hcb. revert r. induction slots as [|i slots IH]; intros r HQ H; simpl in H.
  - by inv_outcome.
  - apply bind_Done in H as (p & Hp & H).
    case_bool_decide; [by inv_outcome|].
    destruct (ComponentPool.versions p !! i); [|done].
    apply bind_Done in H as (r1 & H1 & H). eauto.
Qed.

Lemma step_ok r r' :
  collisionFree = true -> registryOk r -> step r r' -> registryOk r'.
Proof.
  intros Hcf Hok Hstep.
  destruct Hstep as [r r' H | callback r r' Hcb H | cs callback r r' Hcb H
                    | cs callback r r' Hcb H | callback r r' Hcb H].
  - by eapply apiStep_ok.
  - unfold Registry.forEachPool in H. apply bind_Done in H as (r2 & H2 & H). inv_outcome.
    apply with_iterating_ok.
    eapply (forEachKey_preserves registryOk); [|by apply (with_iterating_ok true)|exact H2].
    intros key r1 r1' Hok1 Hb. simpl in Hb. apply bind_Done in Hb as (p & _ & Hb).
    case_bool_decide; [by inv_outcome|].
    eapply rtc_apiStep_ok; [done..|]. by eapply Hcb.
  - unfold Registry.forEachComponents in H. apply bind_Done in H as (r2 & H2 & H).
    inv_outcome. apply with_iterating_ok.
    eapply (forEachKey_preserves registryOk); [|by apply (with_iterating_ok true)|exact H2].
    intros key r1 r1' Hok1 Hb. simpl in Hb. apply bind_Done in Hb as (p & _ & Hb).
    destruct (ComponentPool.hasComponents cs p); [|by inv_outcome].
    eapply (forEachSlot_preserves registryOk); [|done|exact Hb].
    intros id r3 r3' Hok3 Hc. eapply rtc_apiStep_ok; [done..|]. by eapply Hcb.
  - unfold Registry.forEachComponentsEarlyReturn in H.
    apply bind_Done in H as (r2 & H2 & H). inv_outcome. apply with_iterating_ok.
    eapply (forEachKeyEarlyReturn_preserves registryOk);
      [|by apply (with_iterating_ok true)|exact H2].
    intros id r3 r3' b Hok3 Hc. eapply rtc_apiStep_ok; [done..|]. by eapply Hcb.
  - unfold Registry.forEachEntity in H. apply bind_Done in H as (r2 & H2 & H). inv_outcome.
    apply with_iterating_ok.
    eapply (forEachKey_preserves registryOk); [|by apply (with_iterating_ok true)|exact H2].
    intros key r1 r1' Hok1 Hb. simpl in Hb. apply bind_Done in Hb as (p & _ & Hb).
    eapply (forEachEntitySlot_preserves registryOk); [|done|exact Hb].
    intros id r3 r3' Hok3 Hc. eapply rtc_apiStep_ok; [done..|]. by eapply Hcb.
Qed.

Lemma reachable_ok r : collisionFree = true -> reachable r -> registryOk r.
Proof.
  intros Hcf Hreach. unfold reachable in Hreach.
  revert r Hreach. apply (rtc_ind_r registryOk Registry.empty).
  - apply registryOk_empty.
  - intros r1 r2 _ Hstep IH. by eapply step_ok.
Qed.

End Reachable.

(** C2. In every store a program can reach, a remap entry whose version
    is still stored in some pool points at the pool and slot that store
    it; an entry sits under its own version, so following one leads to no
    other entry; and resolution always returns within two calls, that is
    after at most one remap entry. *)
Theorem remap_entries_are_current `{U : ComponentUniverse} (r : Registry.t) :
  collisionFree = true ->
  reachable r ->
  (forall v e k i,
     Registry.entityRemappings r !! v = Some e -> livesAt r v k i ->
     EntityId.version e = v /\ EntityId.poolKey e = k /\ EntityId.unstableIndex e = i
     /\ livesAt r (EntityId.version e) (EntityId.poolKey e) (EntityId.unstableIndex e))
  /\ (forall v e,
        Registry.entityRemappings r !! v = Some e ->
        Registry.entityRemappings r !! EntityId.version e = Some e)
  /\ (forall id, exists result,
        Registry.resolveEntityId id r = Done result
        /\ Registry.resolveFuel 2 id r = Done result).
Proof.
  intros Hcf Hreach. pose proof (reachable_ok r Hcf Hreach) as Hok.
  split_and!.
  - intros v e k i He Hl.
    destruct (ok_remap r Hok v e k i He Hl) as (Hk & Hi & _).
    pose proof (ok_remap_version r Hok v e He) as Hv.
    split_and!; try done. by rewrite Hv, Hk, Hi.
  - intros v e He. by rewrite (ok_remap_version r Hok v e He).
  - intros id. by apply resolveEntityId_two.
Qed.

(** ** Reading components *)

Section Reading.
Context `{U : ComponentUniverse}.
Implicit Types (r : Registry.t) (p q : ComponentPool.t) (id : EntityId.t).

Lemma getComponent_present c id p x :
  ComponentPool.hasComponent c p = true ->
  ComponentPool.isValid id p = Done true ->
  ComponentPool.components p !! c ≫= (fun vec => vec !! EntityId.unstableIndex id) = Some x ->
  ComponentPool.getComponent c id p = Done (Some x).
Proof.
  intros Hhas Hvalid Hx. unfold ComponentPool.getComponent.
  rewrite hasComponents_single, Hhas, Hvalid. simpl. by rewrite Hx.
Qed.

(** [get] through a handle that resolves to slot [id1] of the pool under
    [k]. *)
Lemma get_resolved c id id1 r r0 k p x :
  Registry.resolveEntityId id r = Done (r0, id1, Some k) ->
  Registry.pools r !! k = Some p ->
  ComponentPool.hasComponent c p = true ->
  componentAt r k c (EntityId.unstableIndex id1) = Some x ->
  Registry.get c id r = Done (r, id1, Some x).
Proof.
  intros Hres Hp Hhas Hx.
  destruct (resolveEntityId_Some _ _ _ _ _ Hres) as (-> & Hkey & p0 & Hp0 & Hvalid).
  rewrite Hp in Hp0. injection Hp0 as <-.
  unfold Registry.get. rewrite Hres. simpl. unfold Registry.derefPool. rewrite Hp. simpl.
  unfold componentAt in Hx. rewrite Hp in Hx. simpl in Hx.
  by rewrite (getComponent_present c id1 p x).
Qed.

(** A component type in use has a value at every slot. *)
Lemma componentAt_in_use r k p c i :
  poolOk k p ->
  Registry.pools r !! k = Some p ->
  c ∈ ComponentPool.componentsInUseIndices p ->
  i < ComponentPool.poolSize p ->
  exists x, componentAt r k c i = Some x.
Proof.
  intros Hok Hp Hc Hi. destruct (ok_column _ _ Hok c Hc) as (col & Hcol & Hl).
  destruct (lookup_lt_is_Some_2 col i ltac:(lia)) as [x Hx].
  exists x. unfold componentAt. rewrite Hp. simpl. rewrite Hcol. done.
Qed.

End Reading.

(** C3, as the code has it.  On a well-formed store, outside an
    iteration, for a handle that resolves: [addComponent] with a type the
    entity lacks and [removeComponent] with a type it has move the entity
    ([relocated]): the destination pool has one slot more, the source pool
    one less, every other pool its old size, the entity is stored in the
    new slot and nowhere else, and the handle handed back resolves
    directly to that slot.  Before the old slot is removed
    ([relocationSteps]) the new slot holds, for every component type the
    two pools share, the value of the old slot, which is still in place.
    For [addComponent] the column of the added type holds the value
    [ComponentToAdd{}] at that point and still does when the old slot has
    been removed; the value the call was given is written after the
    removal. *)
Theorem relocation_moves_the_entity `{U : ComponentUniverse}
    (c : nat) (id id1 : EntityId.t) (r r0 : Registry.t) (k : N) (p : ComponentPool.t) :
  collisionFree = true ->
  registryOk r ->
  Registry.isIterating r = false ->
  Registry.resolveEntityId id r = Done (r0, id1, Some k) ->
  Registry.pools r !! k = Some p ->
  c < universeSize ->
  (ComponentPool.hasComponent c p = false ->
   forall value, exists r' id' r3,
     Registry.addComponent c value id r = Done (r', id')
     /\ relocated c (ComponentPool.componentsInUseIndices p ++ [c]) r k id1 r' id'
     /\ relocationSteps c (ComponentPool.componentsInUseIndices p ++ [c]) r k id1 r3 id'
     /\ componentAt r3 (EntityId.poolKey id') c (EntityId.unstableIndex id')
        = Some (defaultComponent c)
     /\ Registry.writeComponent (EntityId.poolKey id') c (EntityId.unstableIndex id')
          value r3 = Done r'
     /\ componentAt r' (EntityId.poolKey id') c (EntityId.unstableIndex id') = Some value
     /\ Registry.resolveEntityId id' r' = Done (r', id', Some (EntityId.poolKey id')))
  /\ (ComponentPool.hasComponent c p = true ->
      let newCs := filter (fun c' => c' <> c) (ComponentPool.componentsInUseIndices p) in
      exists r' id',
        Registry.removeComponent c id r = Done (r', id')
        /\ relocated c newCs r k id1 r' id'
        /\ relocationSteps c newCs r k id1 r' id'
        /\ Registry.resolveEntityId id' r' = Done (r', id', Some (EntityId.poolKey id'))).
Proof.
  intros Hcf Hok Hit Hres Hp Hc. split.
  - intros Habsent value.
    destruct (addComponent_spec c value id id1 r r0 k p Hcf Hok Hit Hres Hp Habsent Hc)
      as (r' & id' & Hrun & Hok' & Hmv & Hvalue & r3 & Hsteps & Hwrite).
    exists r', id', r3. split_and!; try done.
    + destruct Hsteps as (r1 & r2 & _ & _ & _ & _ & _ & Hdefault & _ & Hsame).
      rewrite Hsame. apply Hdefault. apply elem_of_app. right. by apply list_elem_of_singleton.
    + destruct (mv_dest _ _ _ _ _ _ _ Hmv) as (q' & Hq' & _ & Hvalid').
      by apply (resolveEntityId_direct id' r' q').
  - intros Hpresent newCs.
    destruct (removeComponent_spec c id id1 r r0 k p Hcf Hok Hit Hres Hp Hpresent)
      as (r' & id' & Hrun & Hok' & Hmv & Hsteps).
    exists r', id'. split_and!; try done.
    destruct (mv_dest _ _ _ _ _ _ _ Hmv) as (q' & Hq' & _ & Hvalid').
    by apply (resolveEntityId_direct id' r' q').
Qed.

(** C6. On a well-formed store, outside an iteration: for an entity whose
    pool lacks component type [c], [addComponent<c>] followed by
    [removeComponent<c>] on the handle handed back brings the entity to
    the pool under its original key, with the original component types,
    and [get] returns for each of them the value it returned before. *)
Theorem add_then_remove_keeps_components `{U : ComponentUniverse}
    (c : nat) (value : V) (id id1 : EntityId.t) (r r0 : Registry.t) (k : N)
    (p : ComponentPool.t) :
  collisionFree = true ->
  registryOk r ->
  Registry.isIterating r = false ->
  Registry.resolveEntityId id r = Done (r0, id1, Some k) ->
  Registry.pools r !! k = Some p ->
  c < universeSize ->
  ComponentPool.hasComponent c p = false ->
  exists ra ida rb idb,
    Registry.addComponent c value id r = Done (ra, ida)
    /\ Registry.removeComponent c ida ra = Done (rb, idb)
    /\ EntityId.poolKey idb = k
    /\ EntityId.version idb = EntityId.version id1
    /\ (exists pb, Registry.pools rb !! k = Some pb
          /\ ComponentPool.componentsInUseIndices pb ≡ₚ ComponentPool.componentsInUseIndices p
          /\ ComponentPool.isValid idb pb = Done true)
    /\ forall c', ComponentPool.hasComponent c' p = true ->
         exists x, Registry.get c' id r = Done (r, id1, Some x)
                   /\ Registry.get c' idb rb = Done (rb, idb, Some x).
Proof.
  intros Hcf Hok Hit Hres Hp Hc Habsent.
  pose proof (ok_pools r Hok _ _ Hp) as Hpok.
  assert (c ∉ ComponentPool.componentsInUseIndices p) as Hnotin.
  { rewrite <- (hasComponent_indices k p c Hpok). by rewrite Habsent. }
  destruct (addComponent_spec c value id id1 r r0 k p Hcf Hok Hit Hres Hp Habsent Hc)
    as (ra & ida & Hadd & Hoka & Hmva & _).
  destruct (mv_dest _ _ _ _ _ _ _ Hmva) as (qa & Hqa & Hperma & Hvalida).
  pose proof (ok_pools ra Hoka _ _ Hqa) as Hqaok.
  pose proof (resolveEntityId_direct ida ra qa Hqa Hvalida) as Hresa.
  assert (ComponentPool.hasComponent c qa = true) as Hhasa.
  { apply (hasComponent_indices _ _ _ Hqaok). rewrite Hperma.
    apply elem_of_app. right. by left. }
  destruct (removeComponent_spec c ida ida ra ra (EntityId.poolKey ida) qa Hcf Hoka
              ltac:(by rewrite (mv_iterating _ _ _ _ _ _ _ Hmva)) Hresa Hqa Hhasa)
    as (rb & idb & Hrem & Hokb & Hmvb & _).
  set (newCs := filter (fun c' => c' <> c) (ComponentPool.componentsInUseIndices qa)) in *.
  assert (newCs ≡ₚ ComponentPool.componentsInUseIndices p) as Hpermb.
  { apply NoDup_Permutation.
    - apply NoDup_filter, (ok_nodup _ _ Hqaok).
    - apply (ok_nodup _ _ Hpok).
    - intros x. unfold newCs. rewrite list_elem_of_filter, Hperma, elem_of_app,
        list_elem_of_singleton. split; [tauto|].
      intros Hx. split; [by intros ->|by left]. }
  assert (EntityId.poolKey idb = k) as Hkb.
  { rewrite (mv_key _ _ _ _ _ _ _ Hmvb), (fingerprint_perm _ _ Hpermb).
    symmetry. by apply poolOk_fingerprint. }
  destruct (mv_dest _ _ _ _ _ _ _ Hmvb) as (pb & Hpb & Hpermpb & Hvalidb).
  exists ra, ida, rb, idb. split_and!; try done.
  - by rewrite (mv_version _ _ _ _ _ _ _ Hmvb), (mv_version _ _ _ _ _ _ _ Hmva).
  - exists pb. rewrite <- Hkb. split_and!; [done | by rewrite Hpermpb | done].
  - intros c' Hc'. apply (hasComponent_indices _ _ _ Hpok) in Hc' as Hin.
    assert (c' <> c) as Hne by (by intros ->).
    destruct (mv_values _ _ _ _ _ _ _ Hmva c') as (x & Hx & Hxa); [|done|].
    { apply elem_of_app. by left. }
    destruct (mv_values _ _ _ _ _ _ _ Hmvb c') as (x' & Hxa' & Hxb); [|done|].
    { by rewrite Hpermb. }
    rewrite Hxa in Hxa'. injection Hxa' as <-.
    exists x. split.
    + by apply (get_resolved c' id id1 r r0 k p x).
    + apply (get_resolved c' idb idb rb rb (EntityId.poolKey idb) pb x); try done.
      * by apply (resolveEntityId_direct idb rb pb).
      * apply (hasComponent_indices _ _ _ (ok_pools rb Hokb _ _ Hpb)).
        by rewrite Hpermpb, Hpermb.
Qed.

Section StaleHandles.
Context `{U : ComponentUniverse}.

(** A handle that resolves is not tombstoned, and resolution keeps its
    version. *)
Lemma resolveFuel_version fuel id r r' id' k :
  registryOk r ->
  Registry.resolveFuel fuel id r = Done (r', id', Some k) ->
  EntityId.dead id = false /\ EntityId.version id' = EntityId.version id.
Proof.
  intros Hok. revert id. induction fuel as [|fuel IH]; intros id; [discriminate|].
  rewrite resolveFuel_S.
  destruct (EntityId.dead id); [intros; by inv_outcome|].
  intros H. apply bind_Done in H as (direct & Hdirect & H).
  destruct direct; [by inv_outcome|].
  destruct (Registry.entityRemappings r !! EntityId.version id) as [remap|] eqn:He;
    [|by inv_outcome].
  destruct (EntityId.isIdentical remap id); [by inv_outcome|].
  apply IH in H as [_ ->]. split; [done|]. by apply (ok_remap_version r Hok).
Qed.

Lemma resolveEntityId_version id r r' id' k :
  registryOk r ->
  Registry.resolveEntityId id r = Done (r', id', Some k) ->
  EntityId.dead id = false /\ EntityId.version id' = EntityId.version id.
Proof. apply resolveFuel_version. Qed.

(** A handle whose version has a remap entry that is valid resolves to
    that entry's slot, directly or through the entry. *)
Lemma resolveEntityId_through_entry id r e p :
  registryOk r ->
  EntityId.dead id = false ->
  Registry.entityRemappings r !! EntityId.version id = Some e ->
  Registry.pools r !! EntityId.poolKey e = Some p ->
  ComponentPool.isValid e p = Done true ->
  Registry.resolveEntityId id r = Done (r, e, Some (EntityId.poolKey e)).
Proof.
  intros Hok Hdead He Hp Hvalid.
  pose proof (ok_remap_version r Hok _ _ He) as Hver.
  apply isValid_true in Hvalid as Hv. destruct Hv as (Hedead & Hei & Hev).
  unfold Registry.resolveEntityId.
  destruct (size (Registry.entityRemappings r)) as [|n] eqn:Hn.
  { apply map_size_empty_iff in Hn. by rewrite Hn, lookup_empty in He. }
  assert (Registry.resolveFuel (S n) e r = Done (r, e, Some (EntityId.poolKey e))) as Hrest.
  { rewrite resolveFuel_S, Hedead, Hp, Hvalid. done. }
  rewrite resolveFuel_S, Hdead.
  destruct (Registry.pools r !! EntityId.poolKey id) as [q|] eqn:Hq.
  - destruct (isValid_defined id q (ok_size _ _ (ok_pools r Hok _ _ Hq))) as [b Hb].
    rewrite Hb. destruct b.
    + apply isValid_true in Hb as (_ & _ & Hidv).
      destruct (ok_unique r Hok (EntityId.version id)
                  (EntityId.poolKey id) (EntityId.unstableIndex id)
                  (EntityId.poolKey e) (EntityId.unstableIndex e)) as [Hk Hi].
      { by exists q. }
      { exists p. by rewrite <- Hver. }
      simpl. destruct id, e; simpl in *. by subst.
    + simpl. rewrite He.
      destruct (EntityId.isIdentical e id) eqn:Hid; [|exact Hrest].
      apply isIdentical_true in Hid as (Hi & _ & Hk).
      rewrite <- Hk, Hp in Hq. injection Hq as <-.
      assert (ComponentPool.isValid id p = Done true) as Hb'.
      { apply isValid_true. rewrite <- Hi, <- Hver. done. }
      by rewrite Hb' in Hb.
  - simpl. rewrite He.
    destruct (EntityId.isIdentical e id) eqn:Hid; [|exact Hrest].
    apply isIdentical_true in Hid as (_ & _ & Hk). by rewrite <- Hk, Hp in Hq.
Qed.

End StaleHandles.

(** C1. In a pool with at least two slots, let [hl] be a handle that
    resolves to the pool's last slot and [hr] one that resolves to another
    slot of that pool.  After [removeEntity(hr)], [get] through the
    unchanged [hl], for a component type the pool holds, resolves it to
    the slot of the removed entity and returns the value the last slot
    held. *)
Theorem swap_removal_heals_last_handle `{U : ComponentUniverse}
    (c : nat) (hr hr1 hl hl1 : EntityId.t) (r r0 r1 : Registry.t) (k : N)
    (p : ComponentPool.t) :
  registryOk r ->
  Registry.isIterating r = false ->
  Registry.pools r !! k = Some p ->
  2 <= ComponentPool.poolSize p ->
  Registry.resolveEntityId hl r = Done (r1, hl1, Some k) ->
  EntityId.unstableIndex hl1 = ComponentPool.poolSize p - 1 ->
  Registry.resolveEntityId hr r = Done (r0, hr1, Some k) ->
  EntityId.unstableIndex hr1 < ComponentPool.poolSize p - 1 ->
  ComponentPool.hasComponent c p = true ->
  exists r' hr' x,
    Registry.get c hl r = Done (r, hl1, Some x)
    /\ Registry.removeEntity hr r = Done (r', hr')
    /\ Registry.get c hl r'
       = Done (r', EntityId.mk (EntityId.unstableIndex hr1) (EntityId.version hl1) k false,
               Some x)
    /\ componentAt r' k c (EntityId.unstableIndex hr1) = Some x.
Proof.
  intros Hok Hit Hp Hsize Hresl Hlasti Hres Hj Hhas.
  pose proof (ok_pools r Hok _ _ Hp) as Hpok.
  pose proof (ok_size _ _ Hpok) as Hsz.
  destruct (resolveEntityId_version _ _ _ _ _ Hok Hresl) as [Hldead Hlver].
  destruct (resolveEntityId_Some _ _ _ _ _ Hresl) as (-> & Hlkey & pl & Hpl & Hvalidl).
  rewrite Hp in Hpl. injection Hpl as <-.
  apply isValid_true in Hvalidl as Hvl. destruct Hvl as (_ & _ & Hlast).
  rewrite Hlasti in Hlast.
  set (vlast := EntityId.version hl1) in *.
  destruct (resolveEntityId_Some _ _ _ _ _ Hres) as (-> & Hkey & p0 & Hp0 & Hvalid).
  rewrite Hp in Hp0. injection Hp0 as <-.
  apply (hasComponent_indices _ _ _ Hpok) in Hhas as Hin.
  destruct (ok_column _ _ Hpok c Hin) as (col & Hcol & Hlcol).
  destruct (lookup_lt_is_Some_2 col (ComponentPool.poolSize p - 1) ltac:(lia)) as [x Hx].
  destruct (removeEntity_resolved hr r hr1 k p Hok Hit Hres Hp)
    as (p' & Hrun & Hp'ok & Hv' & Hs' & Hmask' & Hind' & _ & _ & Hcols').
  pose proof (removeEntity_ok _ _ _ _ Hok Hrun) as Hok'.
  set (j := EntityId.unstableIndex hr1) in *.
  set (e := EntityId.mk j vlast k false).
  set (r' := Registry.handleRemoveResult (removalReport hr1 p) k
               (Registry.with_pools (<[k := p']> (Registry.pools r)) r)) in *.
  assert (Registry.pools r' !! k = Some p') as Hp'.
  { unfold r'. rewrite (proj1 (handleRemoveResult_frame _ _ _)). simpl.
    by rewrite lookup_insert_eq. }
  assert (Registry.entityRemappings r' !! vlast = Some e) as He.
  { unfold r'. rewrite handleRemoveResult_report, last_lookup.
    replace (pred (length (ComponentPool.versions p)))
      with (ComponentPool.poolSize p - 1) by lia.
    rewrite Hlast, bool_decide_eq_true_2 by lia. simpl. by rewrite lookup_insert_eq. }
  assert (ComponentPool.isValid e p' = Done true) as Hvalide.
  { apply isValid_true. simpl. split_and!; [done | lia |].
    rewrite Hv', lookup_swap_pop by (fold j; lia). fold j.
    rewrite decide_True by lia. rewrite decide_True by done.
    rewrite <- Hlast. f_equal. lia. }
  assert (componentAt r' k c j = Some x) as Hxe.
  { unfold componentAt. rewrite Hp'. simpl. rewrite Hcols', decide_True, Hcol by done. simpl.
    rewrite lookup_swap_pop by (fold j; lia). fold j.
    rewrite decide_True by lia. rewrite decide_True by done.
    rewrite <- Hx. f_equal. lia. }
  exists r', (EntityId.markDead hr1), x. split_and!; [|done| |done].
  - apply (get_resolved c hl hl1 r r k p x); try done.
    unfold componentAt. rewrite Hp. simpl. by rewrite Hcol, Hlasti.
  - apply (get_resolved c hl e r' r' k p' x); try done.
    + apply (resolveEntityId_through_entry hl r' e p'); try done.
      by rewrite <- Hlver.
    + unfold ComponentPool.hasComponent in *. by rewrite Hmask'.
Qed.

(** C10. On a well-formed store, outside an iteration and with the version
    counter below [INT_MAX]: [createEntity] with no component type
    succeeds; the pool it uses is the one under [combineHashes [] = 0],
    created if absent; that pool gains the entity's version and nothing
    else; the handle resolves directly; and [get] returns the null result
    for every component type. *)
Theorem createEntity_without_components `{U : ComponentUniverse} (r : Registry.t) :
  collisionFree = true ->
  registryOk r ->
  Registry.isIterating r = false ->
  Registry.nextVersionIndex r <> INT_MAX ->
  exists r' id p',
    Registry.createEntity [] r = Done (r', id)
    /\ EntityId.poolKey id = combineHashes []
    /\ combineHashes [] = 0%N
    /\ Registry.pools r' !! 0%N = Some p'
    /\ ComponentPool.versions p'
       = match Registry.pools r !! 0%N with
         | Some p => ComponentPool.versions p
         | None => []
         end ++ [EntityId.version id]
    /\ ComponentPool.components p'
       = match Registry.pools r !! 0%N with
         | Some p => ComponentPool.components p
         | None => replicate universeSize []
         end
    /\ ComponentPool.componentsInUseIndices p' = []
    /\ (forall k, k <> 0%N -> Registry.pools r' !! k = Registry.pools r !! k)
    /\ Registry.resolveEntityId id r' = Done (r', id, Some 0%N)
    /\ forall c, Registry.get c id r' = Done (r', id, None).
Proof.
  intros Hcf Hok Hit Hmax.
  assert (combineHashes [] = 0%N) as Hzero by done.
  destruct (createEntityWith_spec [] r Hcf Hok) as (cols & Hrun & Hok' & Hpool & Hperm
    & Hlen & _ & Hout); try done.
  { apply NoDup_nil_2. }
  { intros c Hc. by apply elem_of_nil in Hc. }
  cbn [fmap list_fmap] in *. change (fingerprint []) with 0%N in *.
  set (pool := Registry.findOrCreateFromTemplate [] 0%N [] r) in *.
  apply Permutation_nil_r in Hperm.
  assert (cols = ComponentPool.components pool) as ->.
  { apply list_eq. intros c. apply Hout, not_elem_of_nil. }
  eexists _, _, _. split; [exact Hrun|]. simpl.
  rewrite lookup_insert_eq. split_and!; try done.
  - unfold pool, Registry.findOrCreateFromTemplate.
    by destruct (Registry.pools r !! 0%N).
  - unfold pool, Registry.findOrCreateFromTemplate.
    by destruct (Registry.pools r !! 0%N).
  - intros k Hk. by rewrite lookup_insert_ne.
  - match goal with |- Registry.resolveEntityId ?id ?r' = _ =>
      eapply (resolveEntityId_direct id r') end.
    + simpl. by rewrite lookup_insert_eq.
    + apply isValid_true. simpl. unfold ComponentPool.size. split_and!; [done | lia |].
      rewrite (ok_size _ _ Hpool). by apply list_lookup_middle.
  - intros c. unfold Registry.get.
    match goal with |- context [Registry.resolveEntityId ?id ?r'] =>
      rewrite (resolveEntityId_direct id r' _ ltac:(simpl; by rewrite lookup_insert_eq)) end.
    + simpl. unfold Registry.derefPool. simpl. rewrite lookup_insert_eq. simpl.
      rewrite getComponent_absent; [done|].
      unfold ComponentPool.hasComponent. simpl.
      destruct (N.testbit _ _) eqn:Hbit; [|done].
      apply (ok_mask _ _ Hpool) in Hbit. rewrite Hperm in Hbit. by apply elem_of_nil in Hbit.
    + apply isValid_true. simpl. unfold ComponentPool.size. split_and!; [done | lia |].
      rewrite (ok_size _ _ Hpool). by apply list_lookup_middle.
Qed.

(** * Further properties of the code *)

(** ** The index of a type in a pack *)

Section TypeIndex.
Context {Ty : Type} `{EqDecision Ty}.

Lemma IndexOfType_shift (Index : nat) (T : Ty) (Types : list Ty) :
  IndexOfType Index T Types = Index + IndexOfType 0 T Types.
Proof.
  revert Index. induction Types as [|First Rest IH]; intros Index; simpl; [lia|].
  destruct (decide (T = First)); [lia|].
  rewrite (IH (S Index)), (IH 1). lia.
Qed.

Lemma getIndexInTypeList_cons (T First : Ty) (Rest : list Ty) :
  getIndexInTypeList T (First :: Rest)
  = if decide (T = First) then 0 else S (getIndexInTypeList T Rest).
Proof.
  unfold getIndexInTypeList. simpl. destruct (decide (T = First)); [done|].
  by rewrite IndexOfType_shift.
Qed.

End TypeIndex.

(** X1. [getIndexInTypeList] returns the position of the first occurrence of
    the type in the pack, and the size of the pack when the type does not
    occur; in a pack without repetition it inverts the lookup by
    position. *)
Theorem getIndexInTypeList_spec {Ty : Type} `{EqDecision Ty} (T : Ty) (Types : list Ty) :
  getIndexInTypeList T Types <= length Types
  /\ (T ∈ Types ->
      Types !! getIndexInTypeList T Types = Some T
      /\ forall j, j < getIndexInTypeList T Types -> Types !! j <> Some T)
  /\ (T ∉ Types -> getIndexInTypeList T Types = length Types)
  /\ (forall i, NoDup Types -> Types !! i = Some T -> getIndexInTypeList T Types = i).
Proof.
  induction Types as [|First Rest IH].
  - split_and!; [done| |done|].
    + by intros ?%elem_of_nil.
    + intros i _ Hi. by rewrite lookup_nil in Hi.
  - destruct IH as (Hle & Hin & Hout & Hinv). rewrite getIndexInTypeList_cons.
    destruct (decide (T = First)) as [->|Hne]; split_and!; simpl.
    + lia.
    + intros _. split; [done|]. intros j Hj. lia.
    + intros Hnotin. exfalso. apply Hnotin. apply elem_of_cons. by left.
    + intros [|i] Hnd Hi; [done|]. simpl in Hi.
      apply NoDup_cons in Hnd as [Hfresh _]. exfalso. apply Hfresh.
      by apply (list_elem_of_lookup_2 _ i).
    + lia.
    + intros [?|Hrest]%elem_of_cons; [done|].
      destruct (Hin Hrest) as [Hfound Hfirst]. split; [done|].
      intros [|j] Hj; simpl; [congruence|]. apply Hfirst. lia.
    + intros Hnotin. rewrite Hout; [done|]. intros Hrest. apply Hnotin.
      apply elem_of_cons. by right.
    + intros [|i] Hnd Hi; simpl in Hi; [congruence|].
      apply NoDup_cons in Hnd as [_ Hnd]. by rewrite (Hinv i Hnd Hi).
Qed.

(** ** Removal from a pool *)

(** X2. [ComponentPool::removeEntity] on an empty pool, or with a handle that
    the pool does not validate (tombstoned, index out of range, version
    mismatch), reports failure and returns the pool as it was; the registry
    then records nothing. *)
Theorem pool_removeEntity_failure `{U : ComponentUniverse}
    (id : EntityId.t) (p : ComponentPool.t) :
  ComponentPool.poolSize p = 0
  \/ EntityId.dead id = true
  \/ ComponentPool.poolSize p <= EntityId.unstableIndex id
  \/ (exists v, ComponentPool.versions p !! EntityId.unstableIndex id = Some v
                /\ v <> EntityId.version id) ->
  exists result,
    ComponentPool.removeEntity id p = Done (result, p)
    /\ success result = false
    /\ wasSwapped result = false
    /\ swappedEntityVersion result = None
    /\ swappedEntityUnstableIndex result = None
    /\ forall k r, Registry.handleRemoveResult result k r = r.
Proof.
  intros H. exists ComponentPool.removeFailed.
  split; [|by split_and!].
  apply removeEntity_pool_fail.
  destruct H as [H|H]; [by left|]. right. unfold ComponentPool.isValid.
  destruct (EntityId.dead id) eqn:Hdead; [done|].
  destruct H as [H|[H|(v & Hv & Hne)]]; [done| |].
  - by rewrite bool_decide_eq_true_2.
  - case_bool_decide; [done|]. rewrite Hv. f_equal. apply bool_decide_eq_false_2. congruence.
Qed.

(** X3. [ComponentPool::removeEntity] with a handle the pool validates removes
    one slot: the pool has one slot less; the slot of the removed entity
    holds the version and the component values the last slot held; every
    other remaining slot is unchanged; columns of the types the pool does
    not use are untouched.  When the removed slot was not the last, the
    report names the entity that was moved and the slot it now has; in a
    pool with one slot no swap is reported. *)
Theorem pool_removeEntity_swap_and_pop `{U : ComponentUniverse}
    (k : N) (id : EntityId.t) (p : ComponentPool.t) :
  poolOk k p ->
  ComponentPool.isValid id p = Done true ->
  let i := EntityId.unstableIndex id in
  let n := ComponentPool.poolSize p in
  let from j := if decide (j = i) then n - 1 else j in
  exists result p',
    ComponentPool.removeEntity id p = Done (result, p')
    /\ success result = true
    /\ poolOk k p'
    /\ ComponentPool.poolSize p' = n - 1
    /\ ComponentPool.componentsInUseIndices p' = ComponentPool.componentsInUseIndices p
    /\ ComponentPool.componentsInUseBitmask p' = ComponentPool.componentsInUseBitmask p
    /\ ComponentPool.componentHashes p' = ComponentPool.componentHashes p
    /\ (forall j, j < n - 1 ->
          ComponentPool.versions p' !! j = ComponentPool.versions p !! from j)
    /\ (forall c j, c ∈ ComponentPool.componentsInUseIndices p -> j < n - 1 ->
          ComponentPool.components p' !! c ≫= (fun vec => vec !! j)
          = ComponentPool.components p !! c ≫= (fun vec => vec !! from j))
    /\ (forall c, c ∉ ComponentPool.componentsInUseIndices p ->
          ComponentPool.components p' !! c = ComponentPool.components p !! c)
    /\ (i < n - 1 ->
          wasSwapped result = true
          /\ swappedEntityVersion result = ComponentPool.versions p !! (n - 1)
          /\ swappedEntityUnstableIndex result = Some i
          /\ ComponentPool.versions p' !! i = ComponentPool.versions p !! (n - 1))
    /\ (n = 1 -> wasSwapped result = false /\ ComponentPool.versions p' = []).
Proof.
  intros Hok Hvalid i n from.
  destruct (removeEntity_pool_spec k id p Hok Hvalid) as (cols & Hrun & Hlen & Hcols).
  pose proof Hvalid as (Hdead & Hidx & Hver)%isValid_true.
  pose proof (ok_size _ _ Hok) as Hsz. fold i n in Hidx, Hsz.
  assert (forall j, j < n - 1 ->
            pop_back (vecSwap i (length (ComponentPool.versions p) - 1)
                        (ComponentPool.versions p)) !! j
            = ComponentPool.versions p !! from j) as Hversions.
  { intros j Hj. rewrite lookup_swap_pop by lia. rewrite decide_True by lia.
    unfold from. destruct (decide (j = i)); [|done]. f_equal. lia. }
  eexists _, _. split; [exact Hrun|]. simpl. split_and!; try done.
  - unfold removalReport. by case_bool_decide.
  - apply poolOk_swap_pop; [done..|]. intros c Hc. by rewrite Hcols, decide_True.
  - intros c j Hc Hj. rewrite Hcols, decide_True by done.
    destruct (ok_column _ _ Hok c Hc) as (col & Hcol & Hlcol). rewrite Hcol. simpl.
    fold n in Hlcol. rewrite lookup_swap_pop by lia. rewrite decide_True by lia.
    unfold from, i. destruct (decide (j = EntityId.unstableIndex id)); [|done].
    f_equal. lia.
  - intros c Hc. by rewrite Hcols, decide_False.
  - intros Hi. unfold removalReport. rewrite bool_decide_eq_true_2 by (fold n; lia). simpl.
    split_and!; [done| |done|].
    + rewrite last_lookup. f_equal. lia.
    + rewrite Hversions by done. unfold from. by rewrite decide_True.
  - intros Hn. unfold removalReport. rewrite bool_decide_eq_false_2 by (fold n; lia).
    split; [done|]. apply length_zero_iff_nil. rewrite length_swap_pop. lia.
Qed.

(** ** Which pools a query matches *)

Section PoolQueries.
Context `{U : ComponentUniverse}.

Lemma hasComponents_forall (cs : list nat) (p : ComponentPool.t) :
  ComponentPool.hasComponents cs p = true
  <-> forall c, c ∈ cs -> ComponentPool.hasComponent c p = true.
Proof.
  unfold ComponentPool.hasComponents, ComponentPool.hasComponent.
  rewrite bool_decide_eq_true.
  set (m := ComponentPool.componentsInUseBitmask p).
  set (check := ComponentPool.setBits cs 0).
  assert (forall n, N.testbit check n = true <-> exists c, c ∈ cs /\ n = N.of_nat c)
    as Hcheck.
  { intros n. rewrite <- (N2Nat.id n). unfold check. rewrite setBits_testbit.
    rewrite N.bits_0. split.
    - intros [?|Hin]; [done|]. eauto.
    - intros (c & Hc & Heq). right. apply Nat2N.inj in Heq. by subst. }
  split.
  - intros Hland c Hc.
    assert (N.testbit check (N.of_nat c) = true) as Hbit by (apply Hcheck; eauto).
    rewrite <- Hland, N.land_spec in Hbit. by apply andb_true_iff in Hbit as [? _].
  - intros Hhas. apply N.bits_inj_iff. intros n. rewrite N.land_spec.
    destruct (N.testbit check n) eqn:Hbit; [|by rewrite andb_false_r].
    apply Hcheck in Hbit as (c & Hc & ->). by rewrite (Hhas c Hc).
Qed.

Lemma hasComponents_nil (p : ComponentPool.t) : ComponentPool.hasComponents [] p = true.
Proof. apply hasComponents_forall. by intros c ?%elem_of_nil. Qed.

End PoolQueries.

(** X4. [hasComponents<Components...>] holds exactly when [hasComponent<C>]
    holds for each type of the list; every pool matches the empty list. *)
Theorem hasComponents_all `{U : ComponentUniverse} (cs : list nat) (p : ComponentPool.t) :
  (ComponentPool.hasComponents cs p = true
   <-> forall c, c ∈ cs -> ComponentPool.hasComponent c p = true)
  /\ ComponentPool.hasComponents [] p = true.
Proof. split; [apply hasComponents_forall | apply hasComponents_nil]. Qed.

(** ** Which handles resolve *)

Section Tracking.
Context `{U : ComponentUniverse}.
Implicit Types (r : Registry.t) (p : ComponentPool.t) (h : EntityId.t).

Lemma entityId_eta h :
  h = EntityId.mk (EntityId.unstableIndex h) (EntityId.version h) (EntityId.poolKey h)
        (EntityId.dead h).
Proof. by destruct h. Qed.

(** A resolution that succeeds either took the handle as it is or followed
    the remap entry of its version. *)
Lemma resolveEntityId_Some_cases h r r1 h1 k :
  Registry.resolveEntityId h r = Done (r1, h1, Some k) ->
  h1 = h \/ is_Some (Registry.entityRemappings r !! EntityId.version h).
Proof.
  unfold Registry.resolveEntityId. rewrite resolveFuel_S.
  destruct (EntityId.dead h); [intros; by inv_outcome|].
  intros H. apply bind_Done in H as (direct & _ & H).
  destruct direct; [left; by inv_outcome|].
  destruct (Registry.entityRemappings r !! EntityId.version h); [by right|by inv_outcome].
Qed.

Lemma resolveEntityId_tracked_1 h r r1 h1 k :
  registryOk r ->
  Registry.resolveEntityId h r = Done (r1, h1, Some k) ->
  r1 = r
  /\ h1 = EntityId.mk (EntityId.unstableIndex h1) (EntityId.version h) k false
  /\ tracked r h k (EntityId.unstableIndex h1).
Proof.
  intros Hok Hres.
  destruct (resolveEntityId_version _ _ _ _ _ Hok Hres) as [Hdead Hver].
  destruct (resolveEntityId_Some _ _ _ _ _ Hres) as (-> & Hkey & p & Hp & Hvalid).
  apply isValid_true in Hvalid as (Hdead1 & _ & Hslot).
  split; [done|]. split.
  { rewrite (entityId_eta h1) at 1. by rewrite Hver, Hdead1, <- Hkey. }
  split; [done|]. split.
  { exists p. by rewrite <- Hver. }
  destruct (resolveEntityId_Some_cases _ _ _ _ _ Hres) as [->|Hentry]; [left|by right].
  by rewrite Hkey.
Qed.

Lemma resolveEntityId_tracked_2 h r k i :
  registryOk r ->
  tracked r h k i ->
  Registry.resolveEntityId h r = Done (r, EntityId.mk i (EntityId.version h) k false, Some k).
Proof.
  intros Hok (Hdead & (p & Hp & Hslot) & Hcase).
  pose proof (ok_pools r Hok _ _ Hp) as Hpok.
  assert (i < ComponentPool.poolSize p) as Hi.
  { rewrite (ok_size _ _ Hpok). by apply lookup_lt_Some in Hslot. }
  destruct Hcase as [[Hk Hindex]|[e He]].
  - assert (h = EntityId.mk i (EntityId.version h) k false) as Heta.
    { rewrite (entityId_eta h) at 1. by rewrite Hk, Hindex, Hdead. }
    rewrite <- Heta, <- Hk. apply (resolveEntityId_direct h r p); [by rewrite Hk|].
    apply isValid_true. rewrite Hindex. done.
  - destruct (ok_remap r Hok _ e k i He) as (Hek & Hei & Hed); [by exists p|].
    pose proof (ok_remap_version r Hok _ _ He) as Hev.
    assert (e = EntityId.mk i (EntityId.version h) k false) as Heta.
    { rewrite (entityId_eta e) at 1. by rewrite Hek, Hei, Hed, Hev. }
    rewrite <- Heta, <- Hek.
    apply (resolveEntityId_through_entry h r e p); try done; [by rewrite Hek|].
    apply isValid_true. rewrite Hei, Hev. done.
Qed.

End Tracking.

(** X5. On a well-formed store [resolveEntityId] succeeds exactly for the
    handles that are not tombstoned, whose version is stored in some slot,
    and that name that slot or have a remap entry for their version.  It
    then leaves the store untouched and the handle it leaves names that
    slot, with the version of the handle it was given: a handle never
    resolves to another entity.  Every other handle gets [false]. *)
Theorem resolveEntityId_succeeds_iff_tracked `{U : ComponentUniverse}
    (h : EntityId.t) (r : Registry.t) :
  registryOk r ->
  (forall r1 h1 k,
     Registry.resolveEntityId h r = Done (r1, h1, Some k)
     <-> r1 = r
         /\ h1 = EntityId.mk (EntityId.unstableIndex h1) (EntityId.version h) k false
         /\ tracked r h k (EntityId.unstableIndex h1))
  /\ ((forall k i, ~ tracked r h k i) ->
      exists r1 h1, Registry.resolveEntityId h r = Done (r1, h1, None)
                    /\ Registry.pools r1 = Registry.pools r).
Proof.
  intros Hok. split.
  - intros r1 h1 k. split; [by apply resolveEntityId_tracked_1|].
    intros (-> & -> & Htracked). by apply resolveEntityId_tracked_2.
  - intros Hnone.
    destruct (resolveEntityId_two r h Hok) as ([[r1 h1] [k|]] & Hres & _).
    + destruct (resolveEntityId_tracked_1 _ _ _ _ _ Hok Hres) as (_ & _ & Htracked).
      by destruct (Hnone _ _ Htracked).
    + exists r1, h1. split; [done|]. by destruct (resolveEntityId_frame _ _ _ _ _ Hres).
Qed.

(** ** [addComponent] with a type the entity has *)

Section AddPresent.
Context `{U : ComponentUniverse}.

Lemma addComponent_present (c : nat) (component : V) (id id1 : EntityId.t)
    (r r1 : Registry.t) (k : N) (p : ComponentPool.t) :
  Registry.isIterating r = false ->
  Registry.resolveEntityId id r = Done (r1, id1, Some k) ->
  Registry.pools r !! k = Some p ->
  ComponentPool.hasComponent c p = true ->
  Registry.addComponent c component id r = Registry.set c component id r.
Proof.
  intros Hit Hres Hp Hhas.
  destruct (resolveEntityId_Some _ _ _ _ _ Hres) as (-> & Hkey & p0 & Hp0 & Hvalid).
  rewrite Hp in Hp0. injection Hp0 as <-.
  unfold Registry.addComponent, Registry.set, Registry.get.
  rewrite Hit, Hres. simpl. unfold Registry.derefPool. rewrite Hp. simpl. rewrite Hhas.
  rewrite (resolveEntityId_direct id1 r p) by (try rewrite <- Hkey; done). simpl.
  rewrite <- Hkey, Hp. simpl.
  unfold ComponentPool.getComponent. rewrite hasComponents_single, Hhas, Hvalid. simpl.
  destruct (ComponentPool.components p !! c ≫= _); simpl; [|done]. by rewrite <- Hkey.
Qed.

End AddPresent.

(** X6. When the pool of the resolved entity already holds the component type,
    [addComponent] overwrites the value as [set] does: both calls have the
    same outcome, and no entity moves. *)
Theorem addComponent_present_is_set `{U : ComponentUniverse}
    (c : nat) (component : V) (id id1 : EntityId.t) (r r1 : Registry.t) (k : N)
    (p : ComponentPool.t) :
  Registry.isIterating r = false ->
  Registry.resolveEntityId id r = Done (r1, id1, Some k) ->
  Registry.pools r !! k = Some p ->
  ComponentPool.hasComponent c p = true ->
  Registry.addComponent c component id r = Registry.set c component id r.
Proof. apply addComponent_present. Qed.

(** ** What an operation leaves as it was *)

Section Frame.
Context `{U : ComponentUniverse}.
Implicit Types (r : Registry.t) (p : ComponentPool.t) (h : EntityId.t).

Lemma get_Some_inv c h r r1 h1 x :
  Registry.get c h r = Done (r1, h1, Some x) ->
  exists k p,
    Registry.resolveEntityId h r = Done (r1, h1, Some k)
    /\ Registry.pools r1 !! k = Some p
    /\ ComponentPool.hasComponent c p = true
    /\ componentAt r1 k c (EntityId.unstableIndex h1) = Some x.
Proof.
  unfold Registry.get. intros H.
  apply bind_Done in H as ([[r2 h2] pool] & Hres & H).
  destruct pool as [k|]; [|by inv_outcome].
  apply bind_Done in H as (p & Hp & H).
  apply bind_Done in H as (component & Hget & H).
  injection H as -> -> ->.
  unfold Registry.derefPool in Hp.
  destruct (Registry.pools r1 !! k) as [p0|] eqn:Hp0; [|done]. injection Hp as ->.
  exists k, p. split; [done|]. split; [done|].
  unfold ComponentPool.getComponent in Hget. rewrite hasComponents_single in Hget.
  destruct (ComponentPool.hasComponent c p); [|by inv_outcome]. simpl in Hget.
  apply bind_Done in Hget as (valid & _ & Hget).
  destruct valid; [|by inv_outcome]. split; [done|].
  unfold componentAt. rewrite Hp0. simpl.
  destruct (ComponentPool.components p !! c ≫= _) as [y|]; by inv_outcome.
Qed.

Lemma get_None_of_unresolved c h r r1 h1 :
  Registry.resolveEntityId h r = Done (r1, h1, None) ->
  Registry.get c h r = Done (r1, h1, None).
Proof. intros H. unfold Registry.get. by rewrite H. Qed.

(** A version that is stored nowhere does not resolve. *)
Lemma resolveEntityId_not_stored h r :
  registryOk r ->
  (forall k i, ~ livesAt r (EntityId.version h) k i) ->
  exists r1 h1, Registry.resolveEntityId h r = Done (r1, h1, None).
Proof.
  intros Hok Hnone.
  destruct (resolveEntityId_two r h Hok) as ([[r1 h1] [k|]] & Hres & _); [|eauto].
  destruct (resolveEntityId_tracked_1 _ _ _ _ _ Hok Hres) as (_ & _ & _ & Hlive & _).
  by destruct (Hnone _ _ Hlive).
Qed.

(** What [get] returned before, it returns after. *)
Lemma get_kept changed c h r r' r1 h1 x :
  registryOk r -> registryOk r' ->
  keeps changed r r' ->
  Registry.get c h r = Done (r1, h1, Some x) ->
  ~ changed (EntityId.version h) c ->
  exists h1', Registry.get c h r' = Done (r', h1', Some x)
              /\ EntityId.version h1' = EntityId.version h.
Proof.
  intros Hok Hok' [Hentries Hslots] Hget Hsame.
  destruct (get_Some_inv _ _ _ _ _ _ Hget) as (k & p & Hres & Hp & Hhas & Hx).
  destruct (resolveEntityId_tracked_1 _ _ _ _ _ Hok Hres)
    as (-> & Hh1 & Hdead & (p0 & Hp0 & Hslot) & Hcase).
  rewrite Hp in Hp0. injection Hp0 as <-.
  destruct (Hslots _ _ _ _ _ _ Hp Hslot Hhas Hx Hsame)
    as (k' & i' & p' & Hp' & Hslot' & Hhas' & Hx' & Hcase').
  assert (tracked r' h k' i') as Htracked.
  { split; [done|]. split; [by exists p'|].
    destruct Hcase' as [[-> ->]|Hentry]; [|by right].
    destruct Hcase as [Hdirect|Hentry]; [by left|]. right. by apply Hentries. }
  exists (EntityId.mk i' (EntityId.version h) k' false). split; [|done].
  apply (get_resolved c h _ r' r' k' p' x); try done.
  by apply resolveEntityId_tracked_2.
Qed.

Lemma keeps_trans changed1 changed2 r r1 r2 :
  keeps changed1 r r1 -> keeps changed2 r1 r2 ->
  keeps (fun w c => changed1 w c \/ changed2 w c) r r2.
Proof.
  intros [He1 Hs1] [He2 Hs2]. split; [by auto|].
  intros w k i p c x Hp Hslot Hhas Hx Hsame.
  destruct (Hs1 _ _ _ _ _ _ Hp Hslot Hhas Hx ltac:(tauto))
    as (k1 & i1 & p1 & Hp1 & Hslot1 & Hhas1 & Hx1 & Hcase1).
  destruct (Hs2 _ _ _ _ _ _ Hp1 Hslot1 Hhas1 Hx1 ltac:(tauto))
    as (k2 & i2 & p2 & Hp2 & Hslot2 & Hhas2 & Hx2 & Hcase2).
  exists k2, i2, p2. split_and!; try done.
  destruct Hcase2 as [[-> ->]|?]; [|by right].
  destruct Hcase1 as [?|?]; [by left|]. right. by apply He2.
Qed.

Lemma keeps_weaken (changed1 changed2 : N -> nat -> Prop) r r' :
  (forall w c, changed1 w c -> changed2 w c) ->
  keeps changed1 r r' -> keeps changed2 r r'.
Proof.
  intros Himp [He Hs]. split; [done|].
  intros w k i p c x Hp Hslot Hhas Hx Hsame.
  apply (Hs w k i p c x); try done. intros ?. by apply Hsame, Himp.
Qed.

(** The removal of slot [j] of the pool under [k], with the remap entry
    [handleRemoveResult] writes: every other slot keeps its version and
    values; the last slot is found in slot [j], and has a remap entry. *)
Lemma removal_carries R k p p' id1 w k0 i p0 c x :
  Registry.pools R !! k = Some p ->
  poolOk k p ->
  ComponentPool.isValid id1 p = Done true ->
  ComponentPool.versions p' =
    pop_back (vecSwap (EntityId.unstableIndex id1) (length (ComponentPool.versions p) - 1)
                (ComponentPool.versions p)) ->
  ComponentPool.componentsInUseBitmask p' = ComponentPool.componentsInUseBitmask p ->
  (forall c', ComponentPool.components p' !! c' =
     if decide (c' ∈ ComponentPool.componentsInUseIndices p)
     then (fun col => pop_back (vecSwap (EntityId.unstableIndex id1) (length col - 1) col))
            <$> ComponentPool.components p !! c'
     else ComponentPool.components p !! c') ->
  let R' := Registry.handleRemoveResult (removalReport id1 p) k
              (Registry.with_pools (<[k := p']> (Registry.pools R)) R) in
  Registry.pools R !! k0 = Some p0 ->
  ComponentPool.versions p0 !! i = Some w ->
  ComponentPool.hasComponent c p0 = true ->
  componentAt R k0 c i = Some x ->
  ~ (k0 = k /\ i = EntityId.unstableIndex id1) ->
  exists i' p0',
    Registry.pools R' !! k0 = Some p0'
    /\ ComponentPool.versions p0' !! i' = Some w
    /\ ComponentPool.hasComponent c p0' = true
    /\ componentAt R' k0 c i' = Some x
    /\ (i' = i \/ is_Some (Registry.entityRemappings R' !! w)).
Proof.
  intros Hp Hpok Hvalid Hv' Hmask' Hcols' R' Hp0 Hslot Hhas Hx Hother.
  pose proof Hvalid as (_ & Hidx & _)%isValid_true.
  pose proof (ok_size _ _ Hpok) as Hsz.
  set (j := EntityId.unstableIndex id1) in *.
  assert (Registry.pools R' = <[k := p']> (Registry.pools R)) as Hpools.
  { unfold R'. by rewrite (proj1 (handleRemoveResult_frame _ _ _)). }
  destruct (decide (k0 = k)) as [->|Hk].
  - rewrite Hp in Hp0. injection Hp0 as <-.
    assert (i <> j) as Hij by tauto.
    apply lookup_lt_Some in Hslot as Hi.
    apply (hasComponent_indices _ _ _ Hpok) in Hhas as Hin.
    destruct (ok_column _ _ Hpok c Hin) as (col & Hcol & Hlcol).
    unfold componentAt in Hx. rewrite Hp in Hx. simpl in Hx. rewrite Hcol in Hx. simpl in Hx.
    assert (forall i', i' < ComponentPool.poolSize p - 1 ->
              componentAt R' k c i'
              = if decide (i' = j) then col !! (ComponentPool.poolSize p - 1) else col !! i')
      as Hvalue.
    { intros i' Hi'. unfold componentAt. rewrite Hpools, lookup_insert_eq. simpl.
      rewrite Hcols', decide_True, Hcol by done. simpl.
      rewrite lookup_swap_pop by lia. rewrite decide_True by lia. by rewrite Hlcol. }
    assert (forall i', i' < ComponentPool.poolSize p - 1 ->
              ComponentPool.versions p' !! i'
              = if decide (i' = j)
                then ComponentPool.versions p !! (ComponentPool.poolSize p - 1)
                else ComponentPool.versions p !! i') as Hversion.
    { intros i' Hi'. rewrite Hv', lookup_swap_pop by lia. rewrite decide_True by lia.
      by rewrite Hsz. }
    destruct (decide (i = ComponentPool.poolSize p - 1)) as [Hlast|Hmid].
    + exists j, p'. rewrite Hpools, lookup_insert_eq.
      rewrite Hversion, Hvalue, decide_True, decide_True by lia.
      split_and!; [done | by rewrite <- Hlast | | by rewrite <- Hlast |].
      { unfold ComponentPool.hasComponent in *. by rewrite Hmask'. }
      right. unfold R'. rewrite handleRemoveResult_report, last_lookup.
      replace (pred (length (ComponentPool.versions p)))
        with (ComponentPool.poolSize p - 1) by lia.
      rewrite <- Hlast, Hslot, bool_decide_eq_true_2 by lia.
      rewrite lookup_insert_eq. by eexists.
    + exists i, p'. rewrite Hpools, lookup_insert_eq.
      rewrite Hversion, Hvalue, decide_False, decide_False by lia.
      split_and!; [done | done | | done | by left].
      unfold ComponentPool.hasComponent in *. by rewrite Hmask'.
  - exists i, p0. rewrite Hpools, lookup_insert_ne by done.
    split_and!; [done..| |by left].
    unfold componentAt in *. by rewrite Hpools, lookup_insert_ne.
Qed.

Lemma removal_keeps_entries R k p p' id1 w :
  is_Some (Registry.entityRemappings R !! w) ->
  is_Some (Registry.entityRemappings
             (Registry.handleRemoveResult (removalReport id1 p) k
                (Registry.with_pools (<[k := p']> (Registry.pools R)) R)) !! w).
Proof.
  intros Hw. rewrite handleRemoveResult_report. simpl.
  destruct (last (ComponentPool.versions p)) as [back|]; [|done].
  case_bool_decide; [|done].
  destruct (decide (w = back)) as [->|Hne].
  - rewrite lookup_insert_eq. by eexists.
  - by rewrite lookup_insert_ne.
Qed.

End Frame.

(** ** [removeEntity] *)

Section RemoveEntityFrame.
Context `{U : ComponentUniverse}.
Implicit Types (r : Registry.t) (p : ComponentPool.t) (h : EntityId.t).

Lemma removeEntity_keeps id id1 r r0 k :
  registryOk r ->
  Registry.isIterating r = false ->
  Registry.resolveEntityId id r = Done (r0, id1, Some k) ->
  exists r',
    Registry.removeEntity id r = Done (r', EntityId.markDead id1)
    /\ registryOk r'
    /\ keeps (fun w _ => w = EntityId.version id) r r'
    /\ (forall k' i, ~ livesAt r' (EntityId.version id) k' i)
    /\ poolSizeAt r' k = poolSizeAt r k - 1
    /\ (forall k', k' <> k -> Registry.pools r' !! k' = Registry.pools r !! k')
    /\ Registry.nextVersionIndex r' = Registry.nextVersionIndex r
    /\ Registry.isIterating r' = false.
Proof.
  intros Hok Hit Hres.
  destruct (resolveEntityId_version _ _ _ _ _ Hok Hres) as [_ Hver].
  destruct (resolveEntityId_Some _ _ _ _ _ Hres) as (-> & Hkey & p & Hp & Hvalid).
  pose proof (ok_pools r Hok _ _ Hp) as Hpok.
  pose proof Hvalid as (_ & _ & Hslot1)%isValid_true.
  destruct (removeEntity_resolved id r id1 k p Hok Hit Hres Hp)
    as (p' & Hrun & Hp'ok & Hv' & Hs' & Hmask' & Hind' & _ & _ & Hcols').
  destruct (registryOk_removed r k p p' id1 Hok Hp Hvalid Hp'ok Hv') as [Hok' Hgone].
  set (r' := Registry.handleRemoveResult (removalReport id1 p) k
               (Registry.with_pools (<[k := p']> (Registry.pools r)) r)) in *.
  destruct (handleRemoveResult_frame (removalReport id1 p) k
              (Registry.with_pools (<[k := p']> (Registry.pools r)) r))
    as (Hpools & Hnext & Hflag). fold r' in Hpools, Hnext, Hflag. simpl in Hpools, Hnext, Hflag.
  exists r'. split_and!; try done.
  - split; [intros w; apply removal_keeps_entries|].
    intros w k0 i p0 c x Hp0 Hslot Hhas Hx Hother.
    destruct (removal_carries r k p p' id1 w k0 i p0 c x) as (i' & p0' & H); try done.
    { intros [-> ->]. rewrite Hp in Hp0. injection Hp0 as <-. congruence. }
    exists k0, i', p0'. destruct H as (? & ? & ? & ? & Hcase). split_and!; try done.
    destruct Hcase as [->|?]; [by left|by right].
  - by rewrite <- Hver.
  - unfold poolSizeAt. rewrite Hpools, lookup_insert_eq, Hp. done.
  - intros k' Hk'. by rewrite Hpools, lookup_insert_ne.
  - by rewrite Hflag.
Qed.

End RemoveEntityFrame.

(** X7. On a well-formed store, outside an iteration, [removeEntity] of an
    entity leaves every other entity readable: whatever [get] returned for
    a handle of another entity before the call, it returns after it, for
    the same handle value, whichever slot the entity has now. *)
Theorem removeEntity_keeps_other_entities `{U : ComponentUniverse}
    (id id1 : EntityId.t) (r r0 : Registry.t) (k : N) :
  registryOk r ->
  Registry.isIterating r = false ->
  Registry.resolveEntityId id r = Done (r0, id1, Some k) ->
  exists r' id',
    Registry.removeEntity id r = Done (r', id')
    /\ forall c h r1 h1 x,
         Registry.get c h r = Done (r1, h1, Some x) ->
         EntityId.version h <> EntityId.version id ->
         exists h1', Registry.get c h r' = Done (r', h1', Some x)
                     /\ EntityId.version h1' = EntityId.version h.
Proof.
  intros Hok Hit Hres.
  destruct (removeEntity_keeps id id1 r r0 k Hok Hit Hres)
    as (r' & Hrun & Hok' & Hkeeps & _).
  exists r', (EntityId.markDead id1). split; [done|].
  intros c h r1 h1 x Hget Hother.
  by apply (get_kept _ c h r r' r1 h1 x Hok Hok' Hkeeps Hget).
Qed.

(** X8. On a well-formed store, outside an iteration, [removeEntity] with a
    handle that resolves removes the entity for good: the handle comes back
    tombstoned, its pool has one slot less, the other pools and the version
    counter are as before, no handle with the entity's version resolves any
    more ([get] returns null through each), and a second [removeEntity]
    changes nothing. *)
Theorem removeEntity_removes_for_good `{U : ComponentUniverse}
    (id id1 : EntityId.t) (r r0 : Registry.t) (k : N) :
  registryOk r ->
  Registry.isIterating r = false ->
  Registry.resolveEntityId id r = Done (r0, id1, Some k) ->
  exists r' id',
    Registry.removeEntity id r = Done (r', id')
    /\ EntityId.dead id' = true
    /\ poolSizeAt r' k = poolSizeAt r k - 1
    /\ (forall k', k' <> k -> Registry.pools r' !! k' = Registry.pools r !! k')
    /\ Registry.nextVersionIndex r' = Registry.nextVersionIndex r
    /\ (forall h c, EntityId.version h = EntityId.version id ->
          exists r1 h1, Registry.resolveEntityId h r' = Done (r1, h1, None)
                        /\ Registry.get c h r' = Done (r1, h1, None)
                        /\ Registry.pools r1 = Registry.pools r')
    /\ Registry.removeEntity id' r' = Done (r', id').
Proof.
  intros Hok Hit Hres.
  destruct (removeEntity_keeps id id1 r r0 k Hok Hit Hres)
    as (r' & Hrun & Hok' & _ & Hgone & Hsize & Hother & Hnext & Hflag).
  exists r', (EntityId.markDead id1). split_and!; try done.
  - intros h c Hh.
    destruct (resolveEntityId_not_stored h r' Hok') as (r1 & h1 & Hnone).
    { by rewrite Hh. }
    exists r1, h1. split; [done|]. split; [by apply get_None_of_unresolved|].
    by destruct (resolveEntityId_frame _ _ _ _ _ Hnone).
  - unfold Registry.removeEntity, Registry.resolveEntityId. rewrite Hflag. simpl. done.
Qed.

(** ** [set] and [createEntity] *)

Section SetFrame.
Context `{U : ComponentUniverse}.
Implicit Types (r : Registry.t) (p : ComponentPool.t) (h : EntityId.t).

(** What [set] does with a handle that resolves to a pool holding the
    type. *)
Lemma set_resolved c value id id1 r r0 k p :
  registryOk r ->
  Registry.resolveEntityId id r = Done (r0, id1, Some k) ->
  Registry.pools r !! k = Some p ->
  ComponentPool.hasComponent c p = true ->
  exists vec,
    ComponentPool.components p !! c = Some vec
    /\ EntityId.unstableIndex id1 < length vec
    /\ Registry.set c value id r =
         Done (Registry.with_pools
                 (<[k := ComponentPool.with_components
                           (<[c := <[EntityId.unstableIndex id1 := value]> vec]>
                              (ComponentPool.components p)) p]> (Registry.pools r)) r,
               id1).
Proof.
  intros Hok Hres Hp Hhas.
  destruct (resolveEntityId_Some _ _ _ _ _ Hres) as (-> & Hkey & p0 & Hp0 & Hvalid).
  rewrite Hp in Hp0. injection Hp0 as <-.
  pose proof (ok_pools r Hok _ _ Hp) as Hpok.
  pose proof Hvalid as (_ & Hidx & _)%isValid_true.
  apply (hasComponent_indices _ _ _ Hpok) in Hhas as Hin.
  destruct (ok_column _ _ Hpok c Hin) as (vec & Hvec & Hlen).
  destruct (lookup_lt_is_Some_2 vec (EntityId.unstableIndex id1) ltac:(lia)) as [x Hx].
  exists vec. split; [done|]. split; [lia|].
  unfold Registry.set. rewrite Hres. simpl. unfold Registry.derefPool. rewrite Hp. simpl.
  rewrite (getComponent_present c id1 p x) by (try done; by rewrite Hvec).
  simpl. rewrite (writeComponent_spec k c _ value r p vec) by (try done; lia). done.
Qed.

Lemma NoDup_fst_unique {A B} (l : list (A * B)) (a : A) (b1 b2 : B) :
  NoDup l.*1 -> (a, b1) ∈ l -> (a, b2) ∈ l -> b1 = b2.
Proof.
  induction l as [|[a' b'] l IH]; simpl; [by intros _ ?%elem_of_nil|].
  intros [Hfresh Hnd]%NoDup_cons [H1|H1]%elem_of_cons [H2|H2]%elem_of_cons.
  - congruence.
  - injection H1 as -> ->. destruct Hfresh. apply list_elem_of_fmap. by exists (a', b2).
  - injection H2 as -> ->. destruct Hfresh. apply list_elem_of_fmap. by exists (a', b1).
  - by apply IH.
Qed.

End SetFrame.

(** X9. On a well-formed store, for a handle that resolves to an entity
    holding the component type: [set] stores the value, [get] through the
    same handle then returns it, no pool changes its size, the remap table
    and the version counter are untouched, and every other component value
    in the store is still returned by [get] as before. *)
Theorem set_then_get `{U : ComponentUniverse}
    (c : nat) (value : V) (id id1 : EntityId.t) (r r0 : Registry.t) (k : N)
    (p : ComponentPool.t) :
  registryOk r ->
  Registry.resolveEntityId id r = Done (r0, id1, Some k) ->
  Registry.pools r !! k = Some p ->
  ComponentPool.hasComponent c p = true ->
  exists r',
    Registry.set c value id r = Done (r', id1)
    /\ Registry.get c id r' = Done (r', id1, Some value)
    /\ (forall k', poolSizeAt r' k' = poolSizeAt r k')
    /\ Registry.entityRemappings r' = Registry.entityRemappings r
    /\ Registry.nextVersionIndex r' = Registry.nextVersionIndex r
    /\ forall c' h r1 h1 x,
         Registry.get c' h r = Done (r1, h1, Some x) ->
         EntityId.version h <> EntityId.version id \/ c' <> c ->
         exists h1', Registry.get c' h r' = Done (r', h1', Some x)
                     /\ EntityId.version h1' = EntityId.version h.
Proof.
  intros Hok Hres Hp Hhas.
  destruct (set_resolved c value id id1 r r0 k p Hok Hres Hp Hhas) as (vec & Hvec & Hlt & Hrun).
  destruct (resolveEntityId_version _ _ _ _ _ Hok Hres) as [_ Hver].
  destruct (resolveEntityId_Some _ _ _ _ _ Hres) as (-> & Hkey & p0 & Hp0 & Hvalid).
  rewrite Hp in Hp0. injection Hp0 as <-.
  pose proof Hvalid as (_ & _ & Hslot1)%isValid_true.
  set (j := EntityId.unstableIndex id1) in *.
  set (p' := ComponentPool.with_components
               (<[c := <[j := value]> vec]> (ComponentPool.components p)) p) in *.
  set (r' := Registry.with_pools (<[k := p']> (Registry.pools r)) r) in *.
  assert (registryOk r') as Hok' by (by eapply set_ok).
  assert (Registry.pools r' !! k = Some p') as Hp' by (simpl; by rewrite lookup_insert_eq).
  assert (forall k' c' i, componentAt r' k' c' i
            = if decide (k' = k /\ c' = c /\ i = j) then Some value else componentAt r k' c' i)
    as Hvalue.
  { intros k' c' i. by apply componentAt_write. }
  exists r'. split_and!; try done.
  - apply (get_resolved c id id1 r' r' k p' value); try done.
    + destruct (resolveEntityId_tracked_1 _ _ _ _ _ Hok Hres)
        as (_ & Heta & Hdead & _ & Hcase).
      rewrite Heta. apply resolveEntityId_tracked_2; [done|].
      split; [done|]. split; [|done]. exists p'. by rewrite <- Hver.
    + rewrite Hvalue. by rewrite decide_True.
  - intros k'. unfold poolSizeAt. simpl. destruct (decide (k' = k)) as [->|Hne].
    + by rewrite lookup_insert_eq, Hp.
    + by rewrite lookup_insert_ne.
  - intros c' h r1 h1 x Hget Hother.
    apply (get_kept (fun w c0 => w = EntityId.version id /\ c0 = c) c' h r r' r1 h1 x);
      try done; [|tauto].
    split; [done|].
    intros w k0 i p0 c0 y Hp0 Hslot Hhas0 Hy Hsame.
    exists k0, i, (if decide (k0 = k) then p' else p0). split_and!.
    + simpl. destruct (decide (k0 = k)) as [->|Hne].
      * by rewrite lookup_insert_eq.
      * by rewrite lookup_insert_ne.
    + destruct (decide (k0 = k)) as [->|Hne]; [|done].
      rewrite Hp in Hp0. by injection Hp0 as <-.
    + destruct (decide (k0 = k)) as [->|Hne]; [|done].
      rewrite Hp in Hp0. by injection Hp0 as <-.
    + rewrite Hvalue. rewrite decide_False; [done|].
      intros (-> & -> & ->). rewrite Hp in Hp0. injection Hp0 as <-.
      apply Hsame. split; [|done]. congruence.
    + by left.
Qed.

Section CreateFrame.
Context `{U : ComponentUniverse}.

Lemma createEntityWith_readback (cvs : list (nat * V)) (r : Registry.t) :
  collisionFree = true ->
  registryOk r ->
  NoDup cvs.*1 ->
  (forall c, c ∈ cvs.*1 -> c < universeSize) ->
  Registry.isIterating r = false ->
  Registry.nextVersionIndex r <> INT_MAX ->
  exists r' id,
    Registry.createEntityWith cvs r = Done (r', id)
    /\ EntityId.version id = Z.to_N (Registry.nextVersionIndex r)
    /\ Registry.nextVersionIndex r' = (Registry.nextVersionIndex r + 1)%Z
    /\ (forall k i, ~ livesAt r (EntityId.version id) k i)
    /\ EntityId.poolKey id = fingerprint cvs.*1
    /\ EntityId.unstableIndex id = poolSizeAt r (fingerprint cvs.*1)
    /\ EntityId.dead id = false
    /\ (forall c v, (c, v) ∈ cvs -> Registry.get c id r' = Done (r', id, Some v))
    /\ (forall c, c ∉ cvs.*1 -> Registry.get c id r' = Done (r', id, None))
    /\ forall c h r1 h1 x,
         Registry.get c h r = Done (r1, h1, Some x) ->
         exists h1', Registry.get c h r' = Done (r', h1', Some x)
                     /\ EntityId.version h1' = EntityId.version h.
Proof.
  intros Hcf Hok Hnd Hrange Hit Hmax.
  destruct (createEntityWith_spec cvs r Hcf Hok Hnd Hrange Hit Hmax)
    as (cols & Hrun & Hok' & Hpool & Hperm & Hlen & Hin & Hout).
  set (key := fingerprint cvs.*1) in *.
  set (pool := Registry.findOrCreateFromTemplate cvs.*1 key (hash_code <$> cvs.*1) r) in *.
  set (id := EntityId.mk (ComponentPool.size pool)
               (size_t_of_int (Registry.nextVersionIndex r)) key false) in *.
  set (pool' := ComponentPool.mk cols (ComponentPool.componentsInUseBitmask pool)
                  (ComponentPool.componentsInUseIndices pool)
                  (ComponentPool.componentHashes pool)
                  (ComponentPool.versions pool ++ [EntityId.version id])
                  (S (ComponentPool.poolSize pool)) (ComponentPool.poolKey pool)) in *.
  set (r' := Registry.mk (<[key := pool']> (Registry.pools r)) (Registry.entityRemappings r)
               (Registry.nextVersionIndex r + 1)%Z (Registry.isIterating r)) in *.
  pose proof (ok_counter r Hok) as Hcounter.
  pose proof (ok_size _ _ Hpool) as Hsz.
  assert (Registry.pools r' !! key = Some pool') as Hp' by (simpl; by rewrite lookup_insert_eq).
  assert (forall p0, Registry.pools r !! key = Some p0 -> p0 = pool) as Hsame.
  { intros p0 Hp0. unfold pool, Registry.findOrCreateFromTemplate. by rewrite Hp0. }
  assert (ComponentPool.isValid id pool' = Done true) as Hvalid.
  { apply isValid_true. simpl. unfold ComponentPool.size. split_and!; [done | lia |].
    rewrite Hsz. by apply list_lookup_middle. }
  assert (Registry.resolveEntityId id r' = Done (r', id, Some key)) as Hres.
  { by apply (resolveEntityId_direct id r' pool'). }
  exists r', id. split_and!; try done.
  - simpl. rewrite <- (size_t_of_int_small (Registry.nextVersionIndex r)) at 2 by lia.
    by rewrite N2Z.id.
  - intros k i Hlive. apply (ok_fresh r Hok) in Hlive. simpl in Hlive.
    rewrite size_t_of_int_small in Hlive by lia. lia.
  - simpl. unfold ComponentPool.size, poolSizeAt, pool, Registry.findOrCreateFromTemplate.
    by destruct (Registry.pools r !! key).
  - intros c v Hcv.
    assert (c ∈ cvs.*1) as Hc by (apply list_elem_of_fmap; by exists (c, v)).
    destruct (Hin c Hc) as (v0 & Hcv0 & Hcol).
    rewrite (NoDup_fst_unique cvs c v0 v Hnd Hcv0 Hcv) in Hcol.
    destruct (ok_column _ _ Hpool c) as (col & Hcol0 & Hlcol); [by rewrite Hperm|].
    apply (get_resolved c id id r' r' key pool' v); try done.
    + unfold ComponentPool.hasComponent. simpl. apply (ok_mask _ _ Hpool). by rewrite Hperm.
    + unfold componentAt. rewrite Hp'. simpl. rewrite Hcol, Hcol0. simpl.
      unfold ComponentPool.size. rewrite <- Hlcol. by apply list_lookup_middle.
  - intros c Hc. unfold Registry.get. rewrite Hres. simpl.
    unfold Registry.derefPool. rewrite Hp'. simpl.
    rewrite getComponent_absent; [done|].
    unfold ComponentPool.hasComponent. simpl.
    destruct (N.testbit _ _) eqn:Hbit; [|done].
    apply (ok_mask _ _ Hpool) in Hbit. by rewrite Hperm in Hbit.
  - intros c h r1 h1 x Hget.
    apply (get_kept (fun _ _ => False) c h r r' r1 h1 x); try done; [|tauto].
    split; [done|].
    intros w k0 i p0 c0 y Hp0 Hslot Hhas0 Hy _.
    destruct (decide (k0 = key)) as [->|Hne].
    + pose proof (Hsame _ Hp0) as ->.
      exists key, i, pool'. split_and!; [done| |done| |by left].
      * simpl. by apply lookup_app_l_Some.
      * unfold componentAt in *. rewrite Hp'. rewrite Hp0 in Hy. simpl in *.
        apply (ok_mask _ _ Hpool) in Hhas0.
        destruct (ok_column _ _ Hpool c0 Hhas0) as (col & Hcol0 & Hlcol).
        rewrite Hcol0 in Hy. simpl in Hy.
        rewrite Hperm in Hhas0. destruct (Hin c0 Hhas0) as (v0 & _ & Hcol).
        rewrite Hcol, Hcol0. simpl. by apply lookup_app_l_Some.
    + exists k0, i, p0. split_and!; [|done|done| |by left].
      * simpl. by rewrite lookup_insert_ne.
      * unfold componentAt in *. simpl. by rewrite lookup_insert_ne.
Qed.

End CreateFrame.

(** X10. On a well-formed store, outside an iteration and with the version
    counter below [INT_MAX], [createEntity(components...)] with pairwise
    distinct types of the pack returns a handle whose version is the old
    counter, which no stored entity has, and whose slot is the old size of
    the pool of those types; the counter advances by one; [get] through the
    handle returns the value given for each type and null for every other
    type; and every component value that [get] returned before is still
    returned. *)
Theorem createEntityWith_then_get `{U : ComponentUniverse}
    (cvs : list (nat * V)) (r : Registry.t) :
  collisionFree = true ->
  registryOk r ->
  NoDup cvs.*1 ->
  (forall c, c ∈ cvs.*1 -> c < universeSize) ->
  Registry.isIterating r = false ->
  Registry.nextVersionIndex r <> INT_MAX ->
  exists r' id,
    Registry.createEntityWith cvs r = Done (r', id)
    /\ EntityId.version id = Z.to_N (Registry.nextVersionIndex r)
    /\ Registry.nextVersionIndex r' = (Registry.nextVersionIndex r + 1)%Z
    /\ (forall k i, ~ livesAt r (EntityId.version id) k i)
    /\ EntityId.poolKey id = fingerprint cvs.*1
    /\ EntityId.unstableIndex id = poolSizeAt r (fingerprint cvs.*1)
    /\ EntityId.dead id = false
    /\ (forall c v, (c, v) ∈ cvs -> Registry.get c id r' = Done (r', id, Some v))
    /\ (forall c, c ∉ cvs.*1 -> Registry.get c id r' = Done (r', id, None))
    /\ forall c h r1 h1 x,
         Registry.get c h r = Done (r1, h1, Some x) ->
         exists h1', Registry.get c h r' = Done (r', h1', Some x)
                     /\ EntityId.version h1' = EntityId.version h.
Proof. apply createEntityWith_readback. Qed.

(** X11. On a well-formed store, outside an iteration and with the
    version counter below [INT_MAX], [createEntity<Components...>()],
    without values, gives every listed component its default-constructed
    value: [get] returns [Components{}] for each listed type and null for
    every other type. *)
Theorem createEntity_default_values `{U : ComponentUniverse}
    (cs : list nat) (r : Registry.t) :
  collisionFree = true ->
  registryOk r ->
  NoDup cs ->
  (forall c, c ∈ cs -> c < universeSize) ->
  Registry.isIterating r = false ->
  Registry.nextVersionIndex r <> INT_MAX ->
  exists r' id,
    Registry.createEntity cs r = Done (r', id)
    /\ EntityId.poolKey id = fingerprint cs
    /\ (forall c, c ∈ cs -> Registry.get c id r' = Done (r', id, Some (defaultComponent c)))
    /\ (forall c, c ∉ cs -> Registry.get c id r' = Done (r', id, None)).
Proof.
  intros Hcf Hok Hnd Hrange Hit Hmax.
  destruct (createEntityWith_readback ((fun c => (c, defaultComponent c)) <$> cs) r)
    as (r' & id & Hrun & _ & _ & _ & Hkey & _ & _ & Hin & Hout & _); try done.
  1, 2: by rewrite createEntity_types.
  rewrite createEntity_types in *.
  exists r', id. split_and!; try done.
  intros c Hc. apply Hin. apply list_elem_of_fmap. by exists c.
Qed.

(** ** [addComponent] and [removeComponent] *)

Section RelocationFrame.
Context `{U : ComponentUniverse}.
Implicit Types (r : Registry.t) (p q : ComponentPool.t) (h : EntityId.t).

(** Writing one slot of one column keeps every other value. *)
Lemma write_keeps R k q c vec j value v1 :
  Registry.pools R !! k = Some q ->
  ComponentPool.components q !! c = Some vec ->
  j < length vec ->
  ComponentPool.versions q !! j = Some v1 ->
  keeps (fun w c' => w = v1 /\ c' = c) R
    (Registry.with_pools
       (<[k := ComponentPool.with_components
                 (<[c := <[j := value]> vec]> (ComponentPool.components q)) q]>
          (Registry.pools R)) R).
Proof.
  intros Hq Hvec Hj Hslot1. split; [done|].
  intros w k0 i p0 c0 y Hp0 Hslot Hhas0 Hy Hsame.
  exists k0, i,
    (if decide (k0 = k)
     then ComponentPool.with_components
            (<[c := <[j := value]> vec]> (ComponentPool.components q)) q
     else p0).
  split_and!.
  - simpl. destruct (decide (k0 = k)) as [->|Hne].
    + by rewrite lookup_insert_eq.
    + by rewrite lookup_insert_ne.
  - destruct (decide (k0 = k)) as [->|Hne]; [|done].
    rewrite Hq in Hp0. by injection Hp0 as <-.
  - destruct (decide (k0 = k)) as [->|Hne]; [|done].
    rewrite Hq in Hp0. by injection Hp0 as <-.
  - rewrite (componentAt_write R k q c vec j value) by done.
    rewrite decide_False; [done|].
    intros (-> & -> & ->). rewrite Hq in Hp0. injection Hp0 as <-.
    apply Hsame. split; [|done]. congruence.
  - by left.
Qed.

(** The second half of [transferEntityToNewPool], with the pool it leaves
    written out. *)
Lemma transferRelease_run R k p id1 newId :
  Registry.pools R !! k = Some p ->
  poolOk k p ->
  ComponentPool.isValid id1 p = Done true ->
  exists p',
    ComponentPool.versions p' =
      pop_back (vecSwap (EntityId.unstableIndex id1) (length (ComponentPool.versions p) - 1)
                  (ComponentPool.versions p))
    /\ ComponentPool.componentsInUseBitmask p' = ComponentPool.componentsInUseBitmask p
    /\ (forall c', ComponentPool.components p' !! c' =
          if decide (c' ∈ ComponentPool.componentsInUseIndices p)
          then (fun col => pop_back (vecSwap (EntityId.unstableIndex id1) (length col - 1) col))
                 <$> ComponentPool.components p !! c'
          else ComponentPool.components p !! c')
    /\ let R' := Registry.handleRemoveResult (removalReport id1 p) k
                   (Registry.with_pools (<[k := p']> (Registry.pools R)) R) in
       Registry.transferRelease id1 newId k R =
         Done (Registry.with_remappings
                 (<[EntityId.version newId := newId]> (Registry.entityRemappings R')) R',
               newId).
Proof.
  intros Hp Hpok Hvalid.
  destruct (removeEntity_pool_spec k id1 p Hpok Hvalid) as (cols & Hrun & Hlen & Hcols).
  exists (ComponentPool.mk cols
            (ComponentPool.componentsInUseBitmask p) (ComponentPool.componentsInUseIndices p)
            (ComponentPool.componentHashes p)
            (pop_back (vecSwap (EntityId.unstableIndex id1)
                         (length (ComponentPool.versions p) - 1) (ComponentPool.versions p)))
            (ComponentPool.poolSize p - 1) (ComponentPool.poolKey p)).
  split_and!; [done..|].
  simpl. unfold Registry.transferRelease, Registry.derefPool. rewrite Hp. simpl.
  rewrite Hrun. simpl. by rewrite (ok_key _ _ Hpok).
Qed.

(** A relocation keeps every component value except the one of type [c] of
    the entity that moves, and leaves a remap entry for that entity. *)
Lemma relocate_keeps c (newCs : list nat) (hashes : list N) (nextBitmask : N -> N)
    id1 k p r :
  collisionFree = true ->
  registryOk r ->
  Registry.isIterating r = false ->
  Registry.pools r !! k = Some p ->
  EntityId.poolKey id1 = k ->
  ComponentPool.isValid id1 p = Done true ->
  NoDup newCs -> (forall c', c' ∈ newCs -> c' < universeSize) ->
  hashes ≡ₚ hash_code <$> newCs ->
  (forall c', N.testbit (nextBitmask (ComponentPool.componentsInUseBitmask p)) (N.of_nat c')
              = true <-> c' ∈ newCs) ->
  ~ newCs ≡ₚ ComponentPool.componentsInUseIndices p ->
  (forall c', c' ∈ newCs -> c' <> c -> c' ∈ ComponentPool.componentsInUseIndices p) ->
  (forall c', c' ∈ ComponentPool.componentsInUseIndices p -> c' <> c -> c' ∈ newCs) ->
  exists r' id',
    Registry.relocate c hashes nextBitmask id1 k r = Done (r', id')
    /\ registryOk r'
    /\ relocated c newCs r k id1 r' id'
    /\ relocationSteps c newCs r k id1 r' id'
    /\ keeps (fun w c' => w = EntityId.version id1 /\ c' = c) r r'
    /\ Registry.entityRemappings r' !! EntityId.version id1 = Some id'
    /\ (forall w k0 i0, livesAt r' w k0 i0 -> exists k1 i1, livesAt r w k1 i1).
Proof.
  intros Hcf Hok Hit Hp Hkey Hvalid Hnd Hr Hh Hmask Hlen Hsub Hsub2.
  destruct (relocate_spec c newCs hashes nextBitmask id1 k p r
              Hcf Hok Hit Hp Hkey Hvalid Hnd Hr Hh Hmask Hlen Hsub)
    as (r' & id' & Hrun & Hok' & Hmv & Hsteps).
  pose proof (ok_pools r Hok _ _ Hp) as Hpok.
  pose proof Hvalid as (Hdead & Hidx & Hver)%isValid_true.
  assert (combineHashes hashes = fingerprint newCs) as Hk'.
  { unfold fingerprint. by apply combineHashes_perm. }
  assert (k <> fingerprint newCs) as Hne.
  { intros Heq. apply Hlen. symmetry.
    apply collisionFree_spec; [done | by apply (ok_nodup _ _ Hpok) | done
                              | by apply (ok_range _ _ Hpok) | done |].
    by rewrite <- (poolOk_fingerprint _ _ Hpok). }
  destruct (findOrCreateFromBitmask_spec r k p newCs hashes nextBitmask
              Hcf Hok Hp Hnd Hr Hh Hmask)
    as (r1 & q & Hfind & Hok1 & Hq & Hperm & Hsize & Hother1 & Hmap1 & Hnext1 & Hit1 & Hlive1).
  rewrite Hk' in *.
  set (k' := fingerprint newCs) in *.
  assert (Registry.pools r1 !! k = Some p) as Hp1 by (by rewrite Hother1).
  pose proof (ok_pools r1 Hok1 _ _ Hq) as Hqok.
  destruct (transferPopulate_spec c r1 k p k' q id1 Hok1 ltac:(congruence) Hp1 Hq Hne Hvalid)
    as (cols1 & Hpop & Hq1ok & Hlen1 & Hcols1).
  { intros c' Hc' Hc'c. apply Hsub; [|done]. by rewrite <- Hperm. }
  simpl in Hpop, Hq1ok.
  set (q1 := ComponentPool.mk cols1
               (ComponentPool.componentsInUseBitmask q) (ComponentPool.componentsInUseIndices q)
               (ComponentPool.componentHashes q)
               (ComponentPool.versions q ++ [EntityId.version id1])
               (S (ComponentPool.poolSize q)) (ComponentPool.poolKey q)) in *.
  set (r2 := Registry.with_pools (<[k' := q1]> (Registry.pools r1)) r1) in *.
  set (newId := EntityId.mk (ComponentPool.poolSize q) (EntityId.version id1) k' false) in *.
  assert (Registry.pools r2 !! k = Some p) as Hp2.
  { unfold r2. simpl. by rewrite lookup_insert_ne. }
  destruct (transferRelease_run r2 k p id1 newId Hp2 Hpok Hvalid)
    as (p' & Hv' & Hmask' & Hcols' & Hrel).
  simpl in Hrel.
  set (R' := Registry.handleRemoveResult (removalReport id1 p) k
               (Registry.with_pools (<[k := p']> (Registry.pools r2)) r2)) in *.
  assert (Registry.relocate c hashes nextBitmask id1 k r
          = Done (Registry.with_remappings
                    (<[EntityId.version id1 := newId]> (Registry.entityRemappings R')) R',
                  newId)) as Hrun'.
  { unfold Registry.relocate, Registry.generateComponentPoolKeyFromHashes.
    rewrite Hk', Hkey. fold k'. rewrite Hfind. simpl.
    unfold Registry.derefPool. rewrite Hq. simpl.
    unfold Registry.transferEntityToNewPool, ComponentPool.size.
    fold newId. rewrite Hpop. simpl. exact Hrel. }
  rewrite Hrun in Hrun'. injection Hrun' as -> ->.
  assert (Registry.pools R' = <[k := p']> (<[k' := q1]> (Registry.pools r1))) as Hpools.
  { unfold R'. by rewrite (proj1 (handleRemoveResult_frame _ _ _)). }
  eexists _, _. split_and!; [exact Hrun | done | done | done | | |].
  2: { simpl. by rewrite lookup_insert_eq. }
  2: { intros w k0 i0 (p0 & Hp0 & Hslot). simpl in Hp0. rewrite Hpools in Hp0.
       destruct (decide (k0 = k)) as [->|Hk0].
       - rewrite lookup_insert_eq in Hp0. injection Hp0 as <-.
         apply lookup_lt_Some in Hslot as Hi0. rewrite Hv', length_swap_pop in Hi0.
         rewrite Hv', lookup_swap_pop in Hslot by (rewrite <- (ok_size _ _ Hpok); lia).
         rewrite decide_True in Hslot by done.
         destruct (decide (i0 = EntityId.unstableIndex id1)); exists k; eexists; by exists p.
       - rewrite lookup_insert_ne in Hp0 by done.
         destruct (decide (k0 = k')) as [->|Hk0'].
         + rewrite lookup_insert_eq in Hp0. injection Hp0 as <-. simpl in Hslot.
           apply lookup_app_Some in Hslot as [Hslot|[_ Hslot]].
           * exists k', i0. apply (Hlive1 w k' i0). by exists q.
           * apply list_lookup_singleton_Some in Hslot as [_ <-].
             exists k, (EntityId.unstableIndex id1). by exists p.
         + rewrite lookup_insert_ne in Hp0 by done.
           exists k0, i0. apply (Hlive1 w k0 i0). by exists p0. }
  split.
  { intros w Hw. simpl.
    destruct (decide (w = EntityId.version id1)) as [->|Hw1].
    - rewrite lookup_insert_eq. by eexists.
    - rewrite lookup_insert_ne by done. apply removal_keeps_entries. simpl.
      by rewrite Hmap1. }
  intros w k0 i p0 c0 x Hp0 Hslot Hhas Hx Hsame.
  assert (forall p0', Registry.pools r !! k' = Some p0' -> p0' = q) as Hsameq.
  { intros p0' Hp0'. unfold Registry.findOrCreateFromBitmask in Hfind.
    rewrite Hp0' in Hfind. injection Hfind as <-. rewrite Hp0' in Hq. by injection Hq. }
  destruct (decide (k0 = k /\ i = EntityId.unstableIndex id1)) as [[-> ->]|Hother].
  - rewrite Hp in Hp0. injection Hp0 as <-.
    assert (w = EntityId.version id1) as -> by congruence.
    assert (c0 <> c) as Hc0 by tauto.
    apply (hasComponent_indices _ _ _ Hpok) in Hhas as Hin.
    assert (c0 ∈ ComponentPool.componentsInUseIndices q) as Hinq
      by (rewrite Hperm; by apply Hsub2).
    destruct (Hcols1 c0 Hinq) as (x0 & col & Hcol & Hc1 & Hshared & _).
    destruct (ok_column _ _ Hqok c0 Hinq) as (col' & Hcol' & Hlcol).
    rewrite Hcol in Hcol'. injection Hcol' as <-.
    specialize (Hshared Hc0). unfold componentAt in Hx. rewrite Hp in Hx. simpl in Hx.
    rewrite Hx in Hshared. injection Hshared as ->.
    exists k', (ComponentPool.poolSize q), q1. simpl. split_and!.
    + rewrite Hpools, lookup_insert_ne, lookup_insert_eq by done. done.
    + simpl. rewrite (ok_size _ _ Hqok). by apply list_lookup_middle.
    + unfold ComponentPool.hasComponent. simpl. by apply (ok_mask _ _ Hqok).
    + unfold componentAt. simpl.
      rewrite Hpools, lookup_insert_ne, lookup_insert_eq by done. simpl.
      rewrite Hc1. simpl. rewrite <- Hlcol. by apply list_lookup_middle.
    + right. rewrite lookup_insert_eq. by eexists.
  - assert (exists p2, Registry.pools r2 !! k0 = Some p2
              /\ ComponentPool.versions p2 !! i = Some w
              /\ ComponentPool.hasComponent c0 p2 = true
              /\ componentAt r2 k0 c0 i = Some x) as (p2 & Hp2' & Hslot2 & Hhas2 & Hx2).
    { destruct (decide (k0 = k')) as [->|Hk0].
      - pose proof (Hsameq _ Hp0) as ->.
        exists q1. unfold r2, componentAt. simpl. rewrite lookup_insert_eq. simpl.
        split_and!; [done | by apply lookup_app_l_Some | done |].
        apply (hasComponent_indices _ _ _ Hqok) in Hhas as Hinq.
        destruct (Hcols1 c0 Hinq) as (x0 & col & Hcol & Hc1 & _).
        unfold componentAt in Hx. rewrite Hp0 in Hx. simpl in Hx. rewrite Hcol in Hx.
        simpl in Hx. rewrite Hc1. simpl. by apply lookup_app_l_Some.
      - exists p0. unfold r2, componentAt in *. simpl.
        rewrite lookup_insert_ne, Hother1 by done. by rewrite Hp0 in *. }
    destruct (removal_carries r2 k p p' id1 w k0 i p2 c0 x) as (i' & p0' & H); try done.
    fold R' in H. destruct H as (Hp0' & Hslot' & Hhas' & Hx' & Hcase).
    exists k0, i', p0'. simpl. split_and!; try done.
    destruct Hcase as [->|Hentry]; [by left|]. right.
    destruct (decide (w = EntityId.version id1)) as [->|Hw1].
    + rewrite lookup_insert_eq. by eexists.
    + by rewrite lookup_insert_ne.
Qed.

End RelocationFrame.

Section AddRemoveFrame.
Context `{U : ComponentUniverse}.
Implicit Types (r : Registry.t) (p q : ComponentPool.t) (h : EntityId.t).

(** After a relocation the handle given to the call, unchanged, leads to
    the new slot. *)
Lemma relocated_resolves c newCs r k id id1 r0 r' id' :
  registryOk r -> registryOk r' ->
  Registry.resolveEntityId id r = Done (r0, id1, Some k) ->
  relocated c newCs r k id1 r' id' ->
  is_Some (Registry.entityRemappings r' !! EntityId.version id1) ->
  Registry.resolveEntityId id r' = Done (r', id', Some (EntityId.poolKey id'))
  /\ Registry.resolveEntityId id' r' = Done (r', id', Some (EntityId.poolKey id')).
Proof.
  intros Hok Hok' Hres Hmv Hentry.
  destruct (resolveEntityId_tracked_1 _ _ _ _ _ Hok Hres) as (_ & _ & Hdead & _).
  destruct (resolveEntityId_version _ _ _ _ _ Hok Hres) as [_ Hver].
  destruct (mv_dest _ _ _ _ _ _ _ Hmv) as (q' & Hq' & _ & Hvalid').
  pose proof Hvalid' as (_ & _ & Hslot')%isValid_true.
  pose proof (mv_version _ _ _ _ _ _ _ Hmv) as Hver'.
  pose proof (mv_alive _ _ _ _ _ _ _ Hmv) as Hdead'.
  assert (id' = EntityId.mk (EntityId.unstableIndex id') (EntityId.version id)
                  (EntityId.poolKey id') false) as Heta.
  { rewrite (entityId_eta id') at 1. by rewrite Hver', Hver, Hdead'. }
  split; [|by apply (resolveEntityId_direct id' r' q')].
  rewrite Heta at 1. apply resolveEntityId_tracked_2; [done|].
  split; [done|]. split.
  - exists q'. by rewrite <- Hver, <- Hver'.
  - right. by rewrite <- Hver.
Qed.

Lemma addComponent_keeps c value id id1 r r0 k p :
  collisionFree = true ->
  registryOk r ->
  Registry.isIterating r = false ->
  Registry.resolveEntityId id r = Done (r0, id1, Some k) ->
  Registry.pools r !! k = Some p ->
  ComponentPool.hasComponent c p = false ->
  c < universeSize ->
  exists r' id' q',
    Registry.addComponent c value id r = Done (r', id')
    /\ registryOk r'
    /\ relocated c (ComponentPool.componentsInUseIndices p ++ [c]) r k id1 r' id'
    /\ Registry.pools r' !! EntityId.poolKey id' = Some q'
    /\ ComponentPool.hasComponent c q' = true
    /\ componentAt r' (EntityId.poolKey id') c (EntityId.unstableIndex id') = Some value
    /\ keeps (fun w c' => w = EntityId.version id1 /\ c' = c) r r'
    /\ is_Some (Registry.entityRemappings r' !! EntityId.version id1)
    /\ (forall w k0 i0, livesAt r' w k0 i0 -> exists k1 i1, livesAt r w k1 i1).
Proof.
  intros Hcf Hok Hit Hres Hp Habsent Hc.
  destruct (addComponent_spec c value id id1 r r0 k p Hcf Hok Hit Hres Hp Habsent Hc)
    as (r' & id' & Hrun & Hok' & Hmv & Hvalue & _).
  destruct (resolveEntityId_Some _ _ _ _ _ Hres) as (-> & Hkey & p0 & Hp0 & Hvalid).
  rewrite Hp in Hp0. injection Hp0 as <-.
  pose proof (ok_pools r Hok _ _ Hp) as Hpok.
  assert (c ∉ ComponentPool.componentsInUseIndices p) as Hnotin.
  { rewrite <- (hasComponent_indices k p c Hpok). by rewrite Habsent. }
  destruct (relocate_keeps c (ComponentPool.componentsInUseIndices p ++ [c])
              (ComponentPool.componentHashes p ++ [hash_code c])
              (fun bitmask => N.setbit bitmask (N.of_nat c)) id1 k p r)
    as (r3 & id3 & Hrel & Hok3 & Hmv3 & _ & Hkeeps3 & Hentry3 & Hold3); try done.
  - apply NoDup_app. split; [by apply (ok_nodup _ _ Hpok)|]. split.
    + intros x Hx ->%list_elem_of_singleton. done.
    + apply NoDup_singleton.
  - intros c' [?| ->%list_elem_of_singleton]%elem_of_app; [by apply (ok_range _ _ Hpok) | done].
  - rewrite fmap_app. simpl. by rewrite (ok_hashes _ _ Hpok).
  - intros c'. rewrite N.setbit_iff, elem_of_app, list_elem_of_singleton,
      (ok_mask _ _ Hpok c'). split.
    + intros [H%Nat2N.inj|?]; [by right | by left].
    + intros [?| ->]; [by right | by left].
  - intros Hperm. apply Hnotin. rewrite <- Hperm. apply elem_of_app. right. by left.
  - intros c' [?| ->%list_elem_of_singleton]%elem_of_app Hne; done.
  - intros c' Hc' _. apply elem_of_app. by left.
  - pose proof Hrun as Hrun0. unfold Registry.addComponent in Hrun0.
    rewrite Hit, Hres in Hrun0. simpl in Hrun0.
    unfold Registry.derefPool in Hrun0. rewrite Hp in Hrun0. simpl in Hrun0.
    rewrite Habsent, Hrel in Hrun0. simpl in Hrun0.
    apply bind_Done in Hrun0 as (r4 & Hwrite & Heq). injection Heq as -> ->.
    destruct (mv_dest _ _ _ _ _ _ _ Hmv3) as (q3 & Hq3 & Hperm3 & Hvalid3).
    pose proof (ok_pools r3 Hok3 _ _ Hq3) as Hq3ok.
    pose proof Hvalid3 as (_ & Hidx3 & Hslot3)%isValid_true.
    destruct (ok_column _ _ Hq3ok c) as (vec & Hvec & Hlvec).
    { rewrite Hperm3. apply elem_of_app. right. by left. }
    rewrite <- Hlvec in Hidx3.
    rewrite (writeComponent_spec _ c _ value r3 q3 vec Hq3 Hvec Hidx3) in Hwrite.
    injection Hwrite as <-.
    eexists _, id', _. split_and!; [exact Hrun | done | done | | | done | | |].
    5: { intros w k0 i0 [[-> Hslot]|[_ Hlive]]%livesAt_insert.
         - apply (Hold3 w (EntityId.poolKey id') i0). by exists q3.
         - by apply (Hold3 w k0 i0). }
    + simpl. by rewrite lookup_insert_eq.
    + unfold ComponentPool.hasComponent. simpl. apply (ok_mask _ _ Hq3ok).
      rewrite Hperm3. apply elem_of_app. right. by left.
    + eapply keeps_weaken; [|eapply keeps_trans; [exact Hkeeps3|]].
      2: { apply (write_keeps r3 _ q3 c vec _ value (EntityId.version id1)); try done.
           by rewrite <- (mv_version _ _ _ _ _ _ _ Hmv3). }
      simpl. tauto.
    + simpl. by eexists.
Qed.

Lemma removeComponent_keeps c id id1 r r0 k p :
  collisionFree = true ->
  registryOk r ->
  Registry.isIterating r = false ->
  Registry.resolveEntityId id r = Done (r0, id1, Some k) ->
  Registry.pools r !! k = Some p ->
  ComponentPool.hasComponent c p = true ->
  let newCs := filter (fun c' => c' <> c) (ComponentPool.componentsInUseIndices p) in
  exists r' id' q',
    Registry.removeComponent c id r = Done (r', id')
    /\ registryOk r'
    /\ relocated c newCs r k id1 r' id'
    /\ Registry.pools r' !! EntityId.poolKey id' = Some q'
    /\ ComponentPool.hasComponent c q' = false
    /\ keeps (fun w c' => w = EntityId.version id1 /\ c' = c) r r'
    /\ is_Some (Registry.entityRemappings r' !! EntityId.version id1)
    /\ (forall w k0 i0, livesAt r' w k0 i0 -> exists k1 i1, livesAt r w k1 i1).
Proof.
  intros Hcf Hok Hit Hres Hp Hpresent newCs.
  destruct (resolveEntityId_Some _ _ _ _ _ Hres) as (-> & Hkey & p0 & Hp0 & Hvalid).
  rewrite Hp in Hp0. injection Hp0 as <-.
  pose proof (ok_pools r Hok _ _ Hp) as Hpok.
  assert (c ∈ ComponentPool.componentsInUseIndices p) as Hin.
  { by rewrite <- (hasComponent_indices k p c Hpok). }
  pose proof (ok_range _ _ Hpok c Hin) as Hc.
  destruct (relocate_keeps c newCs
              (filter (fun hash => hash <> hash_code c) (ComponentPool.componentHashes p))
              (fun bitmask => N.clearbit bitmask (N.of_nat c)) id1 k p r)
    as (r' & id' & Hrun & Hok' & Hmv & _ & Hkeeps & Hentry & Hold); try done.
  - apply NoDup_filter, (ok_nodup _ _ Hpok).
  - intros c' [_ ?]%list_elem_of_filter. by apply (ok_range _ _ Hpok).
  - rewrite (ok_hashes _ _ Hpok). unfold newCs. rewrite filter_hashes; [done|].
    intros c' Hc' Hh. apply hash_code_inj; [done | by apply (ok_range _ _ Hpok) | done..].
  - intros c'. unfold newCs.
    rewrite N.clearbit_iff, list_elem_of_filter, (ok_mask _ _ Hpok c'). split.
    + intros [? Hne]. split; [|done]. intros ->. done.
    + intros [Hne ?]. split; [done|]. intros Heq%Nat2N.inj. by subst.
  - intros Hperm. rewrite <- Hperm in Hin. by apply list_elem_of_filter in Hin as [? _].
  - intros c' [_ ?]%list_elem_of_filter _. done.
  - intros c' Hc' Hne. by apply list_elem_of_filter.
  - destruct (mv_dest _ _ _ _ _ _ _ Hmv) as (q' & Hq' & Hperm & _).
    exists r', id', q'. split_and!; try done.
    + unfold Registry.removeComponent. rewrite Hit. simpl. rewrite Hres. simpl.
      unfold Registry.derefPool. rewrite Hp. simpl. rewrite Hpresent. simpl. exact Hrun.
    + destruct (ComponentPool.hasComponent c q') eqn:Hhas; [|done].
      apply (hasComponent_indices _ _ _ (ok_pools r' Hok' _ _ Hq')) in Hhas.
      rewrite Hperm in Hhas. by apply list_elem_of_filter in Hhas as [? _].
Qed.

End AddRemoveFrame.

(** X12. On a well-formed store, outside an iteration, [addComponent] with a
    type of the pack that the resolved entity lacks: [get] for that type
    then returns the given value, through the handle the call hands back
    and through the handle as it was before the call; and every component
    value that [get] returned before the call, for any handle of any
    entity, it returns after it. *)
Theorem addComponent_then_get `{U : ComponentUniverse}
    (c : nat) (value : V) (id id1 : EntityId.t) (r r0 : Registry.t) (k : N)
    (p : ComponentPool.t) :
  collisionFree = true ->
  registryOk r ->
  Registry.isIterating r = false ->
  Registry.resolveEntityId id r = Done (r0, id1, Some k) ->
  Registry.pools r !! k = Some p ->
  ComponentPool.hasComponent c p = false ->
  c < universeSize ->
  exists r' id',
    Registry.addComponent c value id r = Done (r', id')
    /\ Registry.get c id' r' = Done (r', id', Some value)
    /\ Registry.get c id r' = Done (r', id', Some value)
    /\ forall c' h r1 h1 x,
         Registry.get c' h r = Done (r1, h1, Some x) ->
         exists h1', Registry.get c' h r' = Done (r', h1', Some x)
                     /\ EntityId.version h1' = EntityId.version h.
Proof.
  intros Hcf Hok Hit Hres Hp Habsent Hc.
  destruct (addComponent_keeps c value id id1 r r0 k p Hcf Hok Hit Hres Hp Habsent Hc)
    as (r' & id' & q' & Hrun & Hok' & Hmv & Hq' & Hhas' & Hvalue & Hkeeps & Hentry & _).
  destruct (relocated_resolves _ _ _ _ _ _ _ _ _ Hok Hok' Hres Hmv Hentry) as [Hold Hnew].
  destruct (resolveEntityId_version _ _ _ _ _ Hok Hres) as [_ Hver].
  exists r', id'. split_and!; [done| | |].
  - by apply (get_resolved c id' id' r' r' (EntityId.poolKey id') q' value).
  - by apply (get_resolved c id id' r' r' (EntityId.poolKey id') q' value).
  - intros c' h r1 h1 x Hget.
    apply (get_kept _ c' h r r' r1 h1 x Hok Hok' Hkeeps Hget).
    intros [Hh ->].
    destruct (get_Some_inv _ _ _ _ _ _ Hget) as (k0 & p0 & Hres0 & Hp0 & Hhas0 & _).
    destruct (resolveEntityId_tracked_1 _ _ _ _ _ Hok Hres0) as (-> & _ & _ & Hlive0 & _).
    destruct (resolveEntityId_tracked_1 _ _ _ _ _ Hok Hres) as (_ & _ & _ & Hlive & _).
    rewrite Hh in Hlive0. rewrite <- Hver in Hlive.
    destruct (ok_unique r Hok _ _ _ _ _ Hlive0 Hlive) as [-> _].
    rewrite Hp in Hp0. injection Hp0 as <-. congruence.
Qed.

(** X13. On a well-formed store, outside an iteration, [removeComponent] with a
    type the resolved entity has: [get] for that type then returns null,
    through the handle the call hands back and through the handle as it
    was before the call; and every other component value that [get]
    returned before the call, for any handle of any entity, it returns
    after it. *)
Theorem removeComponent_then_get `{U : ComponentUniverse}
    (c : nat) (id id1 : EntityId.t) (r r0 : Registry.t) (k : N) (p : ComponentPool.t) :
  collisionFree = true ->
  registryOk r ->
  Registry.isIterating r = false ->
  Registry.resolveEntityId id r = Done (r0, id1, Some k) ->
  Registry.pools r !! k = Some p ->
  ComponentPool.hasComponent c p = true ->
  exists r' id',
    Registry.removeComponent c id r = Done (r', id')
    /\ Registry.get c id' r' = Done (r', id', None)
    /\ Registry.get c id r' = Done (r', id', None)
    /\ forall c' h r1 h1 x,
         Registry.get c' h r = Done (r1, h1, Some x) ->
         EntityId.version h <> EntityId.version id \/ c' <> c ->
         exists h1', Registry.get c' h r' = Done (r', h1', Some x)
                     /\ EntityId.version h1' = EntityId.version h.
Proof.
  intros Hcf Hok Hit Hres Hp Hpresent.
  destruct (removeComponent_keeps c id id1 r r0 k p Hcf Hok Hit Hres Hp Hpresent)
    as (r' & id' & q' & Hrun & Hok' & Hmv & Hq' & Hhas' & Hkeeps & Hentry & _).
  destruct (relocated_resolves _ _ _ _ _ _ _ _ _ Hok Hok' Hres Hmv Hentry) as [Hold Hnew].
  destruct (resolveEntityId_version _ _ _ _ _ Hok Hres) as [_ Hver].
  exists r', id'. split_and!; [done| | |].
  - unfold Registry.get. rewrite Hnew. simpl. unfold Registry.derefPool. rewrite Hq'. simpl.
    by rewrite getComponent_absent.
  - unfold Registry.get. rewrite Hold. simpl. unfold Registry.derefPool. rewrite Hq'. simpl.
    by rewrite getComponent_absent.
  - intros c' h r1 h1 x Hget Hother.
    apply (get_kept _ c' h r r' r1 h1 x Hok Hok' Hkeeps Hget).
    rewrite Hver. tauto.
Qed.

(** ** Bulk iteration *)

Section Iteration.
Context `{U : ComponentUniverse}.
Implicit Types (r : Registry.t) (p : ComponentPool.t) (h : EntityId.t).

Lemma outcome_bind_ext {A B} (m : outcome A) (f g : A -> outcome B) :
  (forall a, m = Done a -> f a = g a) -> m ≫= f = m ≫= g.
Proof. destruct m; simpl; auto. Qed.

Lemma outcome_bind_assoc {A B C} (m : outcome A) (f : A -> outcome B) (g : B -> outcome C) :
  (m ≫= f) ≫= g = m ≫= (fun a => f a ≫= g).
Proof. by destruct m. Qed.

Lemma visit_app {A} (callback : A -> Registry.t -> outcome Registry.t) l1 l2 r :
  visit callback (l1 ++ l2) r = r' ← visit callback l1 r; visit callback l2 r'.
Proof.
  revert r. induction l1 as [|a l1 IH]; intros r; simpl; [done|].
  rewrite outcome_bind_assoc. apply outcome_bind_ext. intros r' _. apply IH.
Qed.

Lemma visit_preserves {A} (Q : Registry.t -> Prop)
    (callback : A -> Registry.t -> outcome Registry.t) l r r' :
  (forall a r r', Q r -> callback a r = Done r' -> Q r') ->
  Q r -> visit callback l r = Done r' -> Q r'.
Proof.
  intros Hcb. revert r. induction l as [|a l IH]; intros r HQ H; simpl in H.
  - by inv_outcome.
  - apply bind_Done in H as (r1 & H1 & H). eapply IH; [|exact H]. by eapply Hcb.
Qed.

Lemma sameSlots_refl r : sameSlots r r.
Proof. done. Qed.

Lemma sameSlots_trans r1 r2 r3 : sameSlots r1 r2 -> sameSlots r2 r3 -> sameSlots r1 r3.
Proof. intros H12 H23 k. by rewrite H23, H12. Qed.

Lemma sameSlots_lookup r r' k p :
  sameSlots r r' -> Registry.pools r !! k = Some p ->
  exists p', Registry.pools r' !! k = Some p'
    /\ ComponentPool.versions p' = ComponentPool.versions p
    /\ ComponentPool.poolSize p' = ComponentPool.poolSize p
    /\ ComponentPool.componentsInUseBitmask p' = ComponentPool.componentsInUseBitmask p.
Proof.
  intros Hsame Hp. specialize (Hsame k). rewrite Hp in Hsame.
  destruct (Registry.pools r' !! k) as [p'|]; [|done].
  exists p'. simpl in Hsame. by injection Hsame as -> -> ->.
Qed.

(** While the flag is set, a call of the interface that returns is a [get]
    or a [set]: the pools keep their slots. *)
Lemma apiStep_while_iterating r r' :
  registryOk r -> Registry.isIterating r = true -> apiStep r r' ->
  registryOk r' /\ Registry.isIterating r' = true /\ sameSlots r r'.
Proof.
  intros Hok Hit Hstep.
  destruct (mutators_abort_while_iterating r Hit) as (H1 & H2 & H3 & H4 & H5).
  destruct Hstep as [cs r r' id _ _ H|cvs r r' id _ _ H|id r r' id' H|c v id r r' id' _ H
                    |c id r r' id' _ H|c id r r' id' x H|c v id r r' id' H].
  1-5: by rewrite ?H1, ?H2, ?H3, ?H4, ?H5 in H.
  - split; [by eapply get_ok|].
    unfold Registry.get in H. apply bind_Done in H as ([[r1 id1] pool] & Hres & H).
    destruct (resolveEntityId_frame _ _ _ _ _ Hres) as (Hpools & _ & Hflag).
    assert (r' = r1) as ->.
    { destruct pool; [|by inv_outcome].
      apply bind_Done in H as (p & _ & H). apply bind_Done in H as (x0 & _ & H).
      by inv_outcome. }
    split; [congruence|]. intros k. by rewrite Hpools.
  - split; [by eapply set_ok|].
    unfold Registry.set in H. apply bind_Done in H as ([[r1 id1] pool] & Hres & H).
    destruct (resolveEntityId_frame _ _ _ _ _ Hres) as (Hpools & _ & Hflag).
    assert (sameSlots r r1) as Hsame1 by (intros k; by rewrite Hpools).
    destruct pool as [key|]; [|inv_outcome; split; [congruence|done]].
    apply bind_Done in H as (p & _ & H). apply bind_Done in H as (ptr & _ & H).
    destruct ptr; [|inv_outcome; split; [congruence|done]].
    apply bind_Done in H as (r2 & Hw & H). injection H as -> ->.
    apply writeComponent_Done in Hw as (q & Hq & -> & _).
    split; [simpl; congruence|].
    eapply sameSlots_trans; [exact Hsame1|]. intros k. simpl.
    destruct (decide (k = key)) as [->|Hne].
    + rewrite lookup_insert_eq, Hq. simpl.
      by destruct (ComponentPool.components q !! c).
    + by rewrite lookup_insert_ne.
Qed.

Lemma rtc_apiStep_while_iterating r r' :
  registryOk r -> Registry.isIterating r = true -> rtc apiStep r r' ->
  registryOk r' /\ Registry.isIterating r' = true /\ sameSlots r r'.
Proof.
  intros Hok Hit Hsteps. induction Hsteps as [r|r r1 r2 Hstep _ IH].
  - split_and!; [done..|apply sameSlots_refl].
  - destruct (apiStep_while_iterating _ _ Hok Hit Hstep) as (Hok1 & Hit1 & Hsame1).
    destruct (IH Hok1 Hit1) as (Hok2 & Hit2 & Hsame2).
    split_and!; [done..|]. by eapply sameSlots_trans.
Qed.

Lemma apiCallback_keepsSlots {A} (callback : A -> Registry.t -> outcome Registry.t) :
  apiCallback callback -> keepsSlots callback.
Proof.
  intros Hcb a r r' Hok Hit Hrun. apply rtc_apiStep_while_iterating; [done..|].
  by eapply Hcb.
Qed.

Lemma iterating_callback {A} (callback : A -> Registry.t -> outcome Registry.t) r0 a r r' :
  keepsSlots callback -> iterating r0 r -> callback a r = Done r' -> iterating r0 r'.
Proof.
  intros Hcb (Hok & Hit & Hsame) Hrun.
  destruct (Hcb a r r' Hok Hit Hrun) as (Hok' & Hit' & Hsame').
  split_and!; [done..|]. by eapply sameSlots_trans.
Qed.

(** The inner loop of [forEachEntity] over the slots from [length pre]
    on. *)
Lemma forEachEntitySlot_visit callback r0 key p0 :
  keepsSlots callback ->
  Registry.pools r0 !! key = Some p0 ->
  forall vs pre r,
    iterating r0 r ->
    ComponentPool.versions p0 = pre ++ vs ->
    Registry.forEachEntitySlot callback key (seq (length pre) (length vs)) r
    = visit callback (imap (fun i v => EntityId.mk (length pre + i) v key false) vs) r.
Proof.
  intros Hcb Hp0. induction vs as [|v vs IH]; intros pre r Hiter Hvs; [done|].
  destruct Hiter as (Hok & Hit & Hsame).
  destruct (sameSlots_lookup _ _ _ _ Hsame Hp0) as (p & Hp & Hv & Hs & _).
  pose proof (ok_size _ _ (ok_pools r Hok _ _ Hp)) as Hsz.
  cbn [length seq Registry.forEachEntitySlot imap visit].
  unfold Registry.derefPool. rewrite Hp. simpl.
  unfold ComponentPool.size. rewrite Hsz, Hv, Hvs, length_app. simpl.
  rewrite bool_decide_eq_false_2 by lia.
  rewrite list_lookup_middle by done. rewrite Nat.add_0_r.
  apply outcome_bind_ext. intros r' Hrun.
  assert (iterating r0 r') as Hiter'.
  { eapply iterating_callback; [done| |exact Hrun]. by split_and!. }
  specialize (IH (pre ++ [v]) r' Hiter'). rewrite length_app in IH. simpl in IH.
  rewrite Nat.add_1_r in IH. rewrite IH by (by rewrite <- app_assoc).
  f_equal. apply imap_ext. intros i w _. simpl. f_equal. lia.
Qed.

(** In a pool that holds all the types [cs], the loop of
    [ComponentPool::forEach] hands out the same handles. *)
Lemma forEachSlot_as_entitySlot cs callback r0 key p0 :
  keepsSlots callback ->
  Registry.pools r0 !! key = Some p0 ->
  ComponentPool.hasComponents cs p0 = true ->
  forall slots r,
    iterating r0 r ->
    Registry.forEachSlot cs callback key slots r
    = Registry.forEachEntitySlot callback key slots r.
Proof.
  intros Hcb Hp0 Hhas. induction slots as [|i slots IH]; intros r Hiter; [done|].
  pose proof Hiter as (Hok & Hit & Hsame).
  destruct (sameSlots_lookup _ _ _ _ Hsame Hp0) as (p & Hp & Hv & Hs & Hmask).
  pose proof (ok_pools r Hok _ _ Hp) as Hpok.
  simpl. unfold Registry.derefPool. rewrite Hp. simpl. unfold ComponentPool.size.
  case_bool_decide as Hi; [done|].
  destruct (ComponentPool.versions p !! i) as [v|]; [|done].
  assert (Registry.slotsInRange cs i p = true) as ->.
  { unfold Registry.slotsInRange. apply forallb_forall. intros c Hc%list_elem_of_In.
    apply bool_decide_eq_true.
    assert (ComponentPool.hasComponents cs p = true) as Hhasp.
    { unfold ComponentPool.hasComponents in *. by rewrite Hmask. }
    apply (proj1 (hasComponents_forall cs p) Hhasp) in Hc.
    apply (hasComponent_indices _ _ _ Hpok) in Hc.
    destruct (ok_column _ _ Hpok c Hc) as (col & Hcol & Hlcol).
    rewrite Hcol. simpl. apply lookup_lt_is_Some_2. lia. }
  rewrite (ok_key _ _ Hpok).
  apply outcome_bind_ext. intros r' Hrun. apply IH.
  by eapply iterating_callback.
Qed.

(** The loop over the pools. *)
Lemma forEachKey_visit {A} (items : N -> ComponentPool.t -> list A)
    (body : N -> Registry.t -> outcome Registry.t)
    (callback : A -> Registry.t -> outcome Registry.t) r0 :
  keepsSlots callback ->
  (forall key p0 r, Registry.pools r0 !! key = Some p0 -> iterating r0 r ->
     body key r = visit callback (items key p0) r) ->
  forall (L : list (N * ComponentPool.t)) r,
    (forall kp, kp ∈ L -> Registry.pools r0 !! kp.1 = Some kp.2) ->
    iterating r0 r ->
    Registry.forEachKey body L.*1 r = visit callback (L ≫= fun kp => items kp.1 kp.2) r.
Proof.
  intros Hcb Hbody. induction L as [|[key p0] L IH]; intros r HL Hiter; [done|].
  cbn [fmap list_fmap Registry.forEachKey]. rewrite bind_cons, visit_app. simpl.
  rewrite (Hbody key p0 r); [|apply (HL (key, p0)); by left|done].
  apply outcome_bind_ext. intros r' Hrun. apply IH.
  - intros kp Hkp. apply HL. by right.
  - eapply (visit_preserves (iterating r0)); [|exact Hiter|exact Hrun].
    intros a r1 r2 H1 H2. by eapply iterating_callback.
Qed.

Lemma iterating_start r : registryOk r ->
  iterating (Registry.with_iterating true r) (Registry.with_iterating true r).
Proof. intros Hok. split_and!; [by apply with_iterating_ok | done | apply sameSlots_refl]. Qed.

Lemma forEachEntity_visit callback r :
  registryOk r -> keepsSlots callback ->
  Registry.forEachEntity callback r
  = r2 ← visit callback (entityHandles r) (Registry.with_iterating true r);
    Done (Registry.with_iterating true r2).
Proof.
  intros Hok Hcb. unfold Registry.forEachEntity, entityHandles, Registry.poolKeys.
  f_equal. simpl.
  apply (forEachKey_visit poolHandles _ callback (Registry.with_iterating true r)); try done.
  - intros key p0 r1 Hp0 Hiter.
    pose proof Hiter as (Hok1 & _ & Hsame).
    destruct (sameSlots_lookup _ _ _ _ Hsame Hp0) as (p & Hp & Hv & Hs & _).
    unfold Registry.derefPool. rewrite Hp. simpl. unfold ComponentPool.size.
    rewrite Hs, (ok_size _ _ (ok_pools _ (with_iterating_ok true r Hok) _ _ Hp0)).
    by apply (forEachEntitySlot_visit callback _ key p0 Hcb Hp0 _ [] r1).
  - intros [k p] Hkp. by apply elem_of_map_to_list in Hkp.
  - by apply iterating_start.
Qed.

Lemma forEachComponents_visit cs callback r :
  registryOk r -> keepsSlots callback ->
  Registry.forEachComponents cs callback r
  = r2 ← visit callback (matchingHandles cs r) (Registry.with_iterating true r);
    Done (Registry.with_iterating false r2).
Proof.
  intros Hok Hcb. unfold Registry.forEachComponents, matchingHandles, Registry.poolKeys.
  f_equal. simpl.
  apply (forEachKey_visit
           (fun key p => if ComponentPool.hasComponents cs p then poolHandles key p else [])
           _ callback (Registry.with_iterating true r)); try done.
  - intros key p0 r1 Hp0 Hiter.
    pose proof Hiter as (Hok1 & _ & Hsame).
    destruct (sameSlots_lookup _ _ _ _ Hsame Hp0) as (p & Hp & Hv & Hs & Hmask).
    unfold Registry.derefPool. rewrite Hp. simpl.
    assert (ComponentPool.hasComponents cs p = ComponentPool.hasComponents cs p0) as ->.
    { unfold ComponentPool.hasComponents. by rewrite Hmask. }
    destruct (ComponentPool.hasComponents cs p0) eqn:Hhas; [|done].
    rewrite (forEachSlot_as_entitySlot cs callback _ key p0 Hcb Hp0 Hhas) by done.
    rewrite Hs, (ok_size _ _ (ok_pools _ (with_iterating_ok true r Hok) _ _ Hp0)).
    by apply (forEachEntitySlot_visit callback _ key p0 Hcb Hp0 _ [] r1).
  - intros [k p] Hkp. by apply elem_of_map_to_list in Hkp.
  - by apply iterating_start.
Qed.

Lemma forEachPool_visit (callback : N -> Registry.t -> outcome Registry.t) r :
  registryOk r -> keepsSlots callback ->
  Registry.forEachPool callback r
  = r2 ← visit callback (occupiedPools r) (Registry.with_iterating true r);
    Done (Registry.with_iterating false r2).
Proof.
  intros Hok Hcb. unfold Registry.forEachPool, occupiedPools, Registry.poolKeys.
  f_equal. simpl.
  pose (items := fun (key : N) (p : ComponentPool.t) =>
                   if bool_decide (ComponentPool.size p = 0) then [] else [key]).
  apply (forEachKey_visit items _ callback (Registry.with_iterating true r)); try done.
  - intros key p0 r1 Hp0 Hiter.
    pose proof Hiter as (Hok1 & _ & Hsame).
    destruct (sameSlots_lookup _ _ _ _ Hsame Hp0) as (p & Hp & Hv & Hs & Hmask).
    unfold Registry.derefPool, items. rewrite Hp. simpl. unfold ComponentPool.size.
    rewrite Hs. case_bool_decide; [done|]. simpl. by destruct (callback key r1).
  - intros [k p] Hkp. by apply elem_of_map_to_list in Hkp.
  - by apply iterating_start.
Qed.

End Iteration.

Section Handles.
Context `{U : ComponentUniverse}.
Implicit Types (r : Registry.t) (p : ComponentPool.t) (h : EntityId.t).

Lemma elem_of_poolHandles h key p :
  h ∈ poolHandles key p <->
  EntityId.dead h = false /\ EntityId.poolKey h = key
  /\ ComponentPool.versions p !! EntityId.unstableIndex h = Some (EntityId.version h).
Proof.
  unfold poolHandles. rewrite elem_of_lookup_imap. split.
  - intros (i & v & -> & Hv). done.
  - intros (Hdead & Hkey & Hv). exists (EntityId.unstableIndex h), (EntityId.version h).
    split; [|done]. rewrite (entityId_eta h) at 1. by rewrite Hdead, Hkey.
Qed.

Lemma elem_of_entityHandles h r :
  h ∈ entityHandles r <->
  EntityId.dead h = false
  /\ livesAt r (EntityId.version h) (EntityId.poolKey h) (EntityId.unstableIndex h).
Proof.
  unfold entityHandles. rewrite list_elem_of_bind. split.
  - intros ([k p] & (Hdead & Hkey & Hv)%elem_of_poolHandles & Hkp%elem_of_map_to_list).
    simpl in *. subst k. split; [done|]. by exists p.
  - intros (Hdead & p & Hp & Hv). exists (EntityId.poolKey h, p). split.
    + by apply elem_of_poolHandles.
    + by apply elem_of_map_to_list.
Qed.

Lemma elem_of_matchingHandles cs h r :
  h ∈ matchingHandles cs r <->
  h ∈ entityHandles r
  /\ exists p, Registry.pools r !! EntityId.poolKey h = Some p
               /\ forall c, c ∈ cs -> ComponentPool.hasComponent c p = true.
Proof.
  unfold matchingHandles. rewrite list_elem_of_bind, elem_of_entityHandles. split.
  - intros ([k p] & Hh & Hkp%elem_of_map_to_list). simpl in *.
    destruct (ComponentPool.hasComponents cs p) eqn:Hhas; [|by apply elem_of_nil in Hh].
    apply elem_of_poolHandles in Hh as (Hdead & Hkey & Hv). subst k.
    split; [split; [done|by exists p]|]. exists p. split; [done|].
    by apply (proj1 (hasComponents_forall cs p)).
  - intros ([Hdead (p0 & Hp0 & Hv)] & p & Hp & Hhas).
    rewrite Hp in Hp0. injection Hp0 as <-.
    exists (EntityId.poolKey h, p). simpl. split; [|by apply elem_of_map_to_list].
    rewrite (proj2 (hasComponents_forall cs p) Hhas). by apply elem_of_poolHandles.
Qed.

Lemma fmap_list_bind {A B C} (g : B -> C) (f : A -> list B) (l : list A) :
  g <$> (l ≫= f) = l ≫= fun x => g <$> f x.
Proof.
  induction l as [|x l IH]; [done|]. by rewrite !bind_cons, fmap_app, IH.
Qed.

Lemma versions_of_poolHandles key p :
  EntityId.version <$> poolHandles key p = ComponentPool.versions p.
Proof.
  unfold poolHandles. rewrite fmap_imap.
  rewrite (imap_ext _ (const id)) by done. rewrite imap_const. apply list_fmap_id.
Qed.

(** No two stored entities share a version. *)
Lemma NoDup_versions_entityHandles r :
  registryOk r -> NoDup (EntityId.version <$> entityHandles r).
Proof.
  intros Hok. unfold entityHandles. rewrite fmap_list_bind.
  rewrite (list_bind_ext _ (fun kp => ComponentPool.versions kp.2) _
             (map_to_list (Registry.pools r)));
    [|intros [k p]; apply versions_of_poolHandles|done].
  apply NoDup_bind.
  - intros [k1 p1] [k2 p2] v Hp1%elem_of_map_to_list Hp2%elem_of_map_to_list
      [i1 Hv1]%list_elem_of_lookup [i2 Hv2]%list_elem_of_lookup. simpl in *.
    destruct (ok_unique r Hok v k1 i1 k2 i2) as [-> _]; [by exists p1 | by exists p2|].
    rewrite Hp1 in Hp2. by injection Hp2 as ->.
  - intros [k p] Hp%elem_of_map_to_list. simpl. apply NoDup_alt. intros i j v Hi Hj.
    by destruct (ok_unique r Hok v k i k j) as [_ ->]; [by exists p | by exists p|].
  - apply NoDup_map_to_list.
Qed.

End Handles.

(** X14. On a well-formed store, with a callback that acts through calls of the
    interface, [forEachEntity] runs the callback on the handles
    [entityHandles] in turn, each time on the registry the previous run
    left.  These handles are those of the stored entities: every slot of
    every pool has its handle in the list, naming that slot, and no two
    handles of the list have the same version. *)
Theorem forEachEntity_visits_each_entity_once `{U : ComponentUniverse}
    (callback : EntityId.t -> Registry.t -> outcome Registry.t) (r : Registry.t) :
  registryOk r ->
  apiCallback callback ->
  Registry.forEachEntity callback r
    = (r2 ← visit callback (entityHandles r) (Registry.with_iterating true r);
       Done (Registry.with_iterating true r2))
  /\ NoDup (EntityId.version <$> entityHandles r)
  /\ (forall h, h ∈ entityHandles r <->
        EntityId.dead h = false
        /\ livesAt r (EntityId.version h) (EntityId.poolKey h) (EntityId.unstableIndex h))
  /\ (forall h, h ∈ entityHandles r ->
        Registry.resolveEntityId h r = Done (r, h, Some (EntityId.poolKey h))).
Proof.
  intros Hok Hcb. split_and!.
  - apply forEachEntity_visit; [done|]. by apply apiCallback_keepsSlots.
  - by apply NoDup_versions_entityHandles.
  - intros h. apply elem_of_entityHandles.
  - intros h (Hdead & p & Hp & Hv)%elem_of_entityHandles.
    apply (resolveEntityId_direct h r p Hp). apply isValid_true. split_and!; [done| |done].
    rewrite (ok_size _ _ (ok_pools r Hok _ _ Hp)). by apply lookup_lt_Some in Hv.
Qed.

(** X15. On a well-formed store, with a callback that acts through calls of the
    interface, [forEachComponents<Components...>] runs the callback on the
    handles of the entities whose pool holds every listed type, and on no
    other, and clears the flag at the end. *)
Theorem forEachComponents_visits_matching_entities `{U : ComponentUniverse}
    (cs : list nat) (callback : EntityId.t -> Registry.t -> outcome Registry.t)
    (r : Registry.t) :
  registryOk r ->
  apiCallback callback ->
  Registry.forEachComponents cs callback r
    = (r2 ← visit callback (matchingHandles cs r) (Registry.with_iterating true r);
       Done (Registry.with_iterating false r2))
  /\ (forall h, h ∈ matchingHandles cs r <->
        h ∈ entityHandles r
        /\ exists p, Registry.pools r !! EntityId.poolKey h = Some p
                     /\ forall c, c ∈ cs -> ComponentPool.hasComponent c p = true)
  /\ matchingHandles [] r = entityHandles r.
Proof.
  intros Hok Hcb. split_and!.
  - apply forEachComponents_visit; [done|]. by apply apiCallback_keepsSlots.
  - intros h. apply elem_of_matchingHandles.
  - unfold matchingHandles, entityHandles. apply list_bind_ext; [|done].
    intros [k p]. simpl. by rewrite hasComponents_nil.
Qed.

(** X16. On a well-formed store, with a callback that acts through calls of the
    interface, [forEachPool] runs the callback once for each pool that has
    at least one slot and skips the empty pools. *)
Theorem forEachPool_visits_occupied_pools `{U : ComponentUniverse}
    (callback : N -> Registry.t -> outcome Registry.t) (r : Registry.t) :
  registryOk r ->
  apiCallback callback ->
  Registry.forEachPool callback r
    = (r2 ← visit callback (occupiedPools r) (Registry.with_iterating true r);
       Done (Registry.with_iterating false r2))
  /\ NoDup (occupiedPools r)
  /\ (forall k, k ∈ occupiedPools r <->
        exists p, Registry.pools r !! k = Some p /\ ComponentPool.poolSize p <> 0).
Proof.
  intros Hok Hcb. split_and!.
  - apply forEachPool_visit; [done|]. by apply apiCallback_keepsSlots.
  - unfold occupiedPools. apply NoDup_bind; [| |apply NoDup_map_to_list].
    + intros [k1 p1] [k2 p2] k Hp1%elem_of_map_to_list Hp2%elem_of_map_to_list. simpl.
      do 2 case_bool_decide; try (by intros ?%elem_of_nil) || (by intros _ ?%elem_of_nil).
      intros ->%list_elem_of_singleton ->%list_elem_of_singleton.
      rewrite Hp1 in Hp2. by injection Hp2 as ->.
    + intros [k p] _. simpl. case_bool_decide; [constructor|apply NoDup_singleton].
  - intros k. unfold occupiedPools. rewrite list_elem_of_bind. split.
    + intros ([k0 p] & Hk & Hp%elem_of_map_to_list). simpl in Hk.
      case_bool_decide as Hsize; [by apply elem_of_nil in Hk|].
      apply list_elem_of_singleton in Hk as ->. by exists p.
    + intros (p & Hp & Hsize). exists (k, p). simpl.
      split; [|by apply elem_of_map_to_list].
      rewrite bool_decide_eq_false_2 by done. by apply list_elem_of_singleton.
Qed.

Section EarlyReturn.
Context `{U : ComponentUniverse}.
Implicit Types (r : Registry.t) (p : ComponentPool.t) (h : EntityId.t).

Lemma visitUntil_app {A} (callback : A -> Registry.t -> outcome (Registry.t * bool))
    l1 l2 r :
  visitUntil callback (l1 ++ l2) r
  = '(r', stop) ← visitUntil callback l1 r;
    if (stop : bool) then Done (r', true) else visitUntil callback l2 r'.
Proof.
  revert r. induction l1 as [|a l1 IH]; intros r; simpl; [done|].
  rewrite outcome_bind_assoc. apply outcome_bind_ext. intros [r' stop] _.
  destruct stop; [done|]. apply IH.
Qed.

Lemma visitUntil_preserves {A} (Q : Registry.t -> Prop)
    (callback : A -> Registry.t -> outcome (Registry.t * bool)) l r r' stop :
  (forall a r r' b, Q r -> callback a r = Done (r', b) -> Q r') ->
  Q r -> visitUntil callback l r = Done (r', stop) -> Q r'.
Proof.
  intros Hcb. revert r. induction l as [|a l IH]; intros r HQ H; simpl in H.
  - by inv_outcome.
  - apply bind_Done in H as ([r1 b] & H1 & H).
    destruct b; [inv_outcome; by eapply Hcb|]. eapply IH; [|exact H]. by eapply Hcb.
Qed.

Lemma iterating_callbackEarlyReturn {A}
    (callback : A -> Registry.t -> outcome (Registry.t * bool)) r0 a r r' stop :
  keepsSlots (fun a r => '(r', _) ← callback a r; Done r') ->
  iterating r0 r -> callback a r = Done (r', stop) -> iterating r0 r'.
Proof.
  intros Hcb Hiter Hrun. eapply (iterating_callback _ r0 a r r' Hcb Hiter).
  simpl. by rewrite Hrun.
Qed.

Lemma forEachSlotEarlyReturn_visit cs callback r0 key p0 :
  keepsSlots (fun a r => '(r', _) ← callback a r; Done r') ->
  Registry.pools r0 !! key = Some p0 ->
  ComponentPool.hasComponents cs p0 = true ->
  forall vs pre r,
    iterating r0 r ->
    ComponentPool.versions p0 = pre ++ vs ->
    Registry.forEachSlotEarlyReturn cs callback key (seq (length pre) (length vs)) r
    = visitUntil callback (imap (fun i v => EntityId.mk (length pre + i) v key false) vs) r.
Proof.
  intros Hcb Hp0 Hhas. induction vs as [|v vs IH]; intros pre r Hiter Hvs; [done|].
  pose proof Hiter as (Hok & Hit & Hsame).
  destruct (sameSlots_lookup _ _ _ _ Hsame Hp0) as (p & Hp & Hv & Hs & Hmask).
  pose proof (ok_pools r Hok _ _ Hp) as Hpok.
  pose proof (ok_size _ _ Hpok) as Hsz.
  cbn [length seq Registry.forEachSlotEarlyReturn imap visitUntil].
  unfold Registry.derefPool. rewrite Hp. simpl.
  rewrite Hsz, Hv, Hvs, length_app. simpl.
  rewrite bool_decide_eq_false_2 by lia.
  rewrite list_lookup_middle by done. rewrite Nat.add_0_r.
  assert (Registry.slotsInRange cs (length pre) p = true) as ->.
  { unfold Registry.slotsInRange. apply forallb_forall. intros c Hc%list_elem_of_In.
    apply bool_decide_eq_true.
    assert (ComponentPool.hasComponents cs p = true) as Hhasp.
    { unfold ComponentPool.hasComponents in *. by rewrite Hmask. }
    apply (proj1 (hasComponents_forall cs p) Hhasp) in Hc.
    apply (hasComponent_indices _ _ _ Hpok) in Hc.
    destruct (ok_column _ _ Hpok c Hc) as (col & Hcol & Hlcol).
    rewrite Hcol. simpl. apply lookup_lt_is_Some_2.
    rewrite Hlcol, Hsz, Hv, Hvs, length_app. simpl. lia. }
  rewrite (ok_key _ _ Hpok).
  apply outcome_bind_ext. intros [r' stop] Hrun. destruct stop; [done|].
  assert (iterating r0 r') as Hiter' by (by eapply iterating_callbackEarlyReturn).
  specialize (IH (pre ++ [v]) r' Hiter'). rewrite length_app in IH. simpl in IH.
  rewrite Nat.add_1_r in IH. rewrite IH by (by rewrite <- app_assoc).
  f_equal. apply imap_ext. intros i w _. simpl. f_equal. lia.
Qed.

Lemma forEachKeyEarlyReturn_visit cs callback r0 :
  keepsSlots (fun a r => '(r', _) ← callback a r; Done r') ->
  forall (L : list (N * ComponentPool.t)) r,
    (forall kp, kp ∈ L -> Registry.pools r0 !! kp.1 = Some kp.2) ->
    iterating r0 r ->
    Registry.forEachKeyEarlyReturn cs callback L.*1 r
    = '(r', _) ← visitUntil callback
                   (L ≫= fun kp => if ComponentPool.hasComponents cs kp.2
                                   then poolHandles kp.1 kp.2 else []) r;
      Done r'.
Proof.
  intros Hcb. induction L as [|[key p0] L IH]; intros r HL Hiter; [done|].
  cbn [fmap list_fmap Registry.forEachKeyEarlyReturn]. rewrite bind_cons, visitUntil_app.
  simpl.
  assert (Registry.pools r0 !! key = Some p0) as Hp0 by (apply (HL (key, p0)); by left).
  assert (forall kp, kp ∈ L -> Registry.pools r0 !! kp.1 = Some kp.2) as HL'.
  { intros kp Hkp. apply HL. by right. }
  pose proof Hiter as (Hok & _ & Hsame).
  destruct (sameSlots_lookup _ _ _ _ Hsame Hp0) as (p & Hp & Hv & Hs & Hmask).
  unfold Registry.derefPool. rewrite Hp. simpl.
  assert (ComponentPool.hasComponents cs p = ComponentPool.hasComponents cs p0) as ->.
  { unfold ComponentPool.hasComponents. by rewrite Hmask. }
  destruct (ComponentPool.hasComponents cs p0) eqn:Hhas; simpl; [|by apply IH].
  destruct Hiter as (_ & Hit & _).
  assert (iterating r0 r) as Hiter by (by split_and!).
  assert (ComponentPool.poolSize p0 = length (ComponentPool.versions p0)) as Hsz0.
  { rewrite <- Hs, <- Hv. apply (ok_size _ _ (ok_pools r Hok _ _ Hp)). }
  rewrite Hs, Hsz0.
  rewrite (forEachSlotEarlyReturn_visit cs callback r0 key p0 Hcb Hp0 Hhas _ [] r) by done.
  rewrite outcome_bind_assoc. apply outcome_bind_ext. intros [r' stop] Hrun.
  destruct stop; [done|]. apply IH; [done|].
  eapply (visitUntil_preserves (iterating r0)); [|exact Hiter|exact Hrun].
  intros a r1 r2 b H1 H2. by eapply iterating_callbackEarlyReturn.
Qed.

Lemma apiCallbackEarlyReturn_keepsSlots {A}
    (callback : A -> Registry.t -> outcome (Registry.t * bool)) :
  apiCallbackEarlyReturn callback ->
  keepsSlots (fun a r => '(r', _) ← callback a r; Done r').
Proof.
  intros Hcb a r r' Hok Hit Hrun. apply bind_Done in Hrun as ([r1 stop] & Hrun & Heq).
  injection Heq as ->. apply rtc_apiStep_while_iterating; [done..|]. by eapply Hcb.
Qed.

End EarlyReturn.

(** X17. On a well-formed store, with a callback that acts through calls of the
    interface, [forEachComponentsEarlyReturn] runs the callback on the
    handles of the entities whose pool holds every listed type, in the
    order of [forEachComponents], up to and including the first run that
    returns [true]; the remaining entities, of that pool and of the pools
    after it, are not visited; the flag is cleared either way. *)
Theorem forEachComponentsEarlyReturn_stops_at_first_true `{U : ComponentUniverse}
    (cs : list nat) (callback : EntityId.t -> Registry.t -> outcome (Registry.t * bool))
    (r : Registry.t) :
  registryOk r ->
  apiCallbackEarlyReturn callback ->
  Registry.forEachComponentsEarlyReturn cs callback r
    = ('(r2, _) ← visitUntil callback (matchingHandles cs r) (Registry.with_iterating true r);
       Done (Registry.with_iterating false r2))
  /\ forall before h after r1 r2,
       matchingHandles cs r = before ++ h :: after ->
       visitUntil callback before (Registry.with_iterating true r) = Done (r1, false) ->
       callback h r1 = Done (r2, true) ->
       Registry.forEachComponentsEarlyReturn cs callback r
         = Done (Registry.with_iterating false r2).
Proof.
  intros Hok Hcb.
  assert (Registry.forEachComponentsEarlyReturn cs callback r
          = ('(r2, _) ← visitUntil callback (matchingHandles cs r)
                          (Registry.with_iterating true r);
             Done (Registry.with_iterating false r2))) as Hrun.
  { unfold Registry.forEachComponentsEarlyReturn, matchingHandles, Registry.poolKeys.
    simpl.
    rewrite (forEachKeyEarlyReturn_visit cs callback (Registry.with_iterating true r)).
    - rewrite outcome_bind_assoc. apply outcome_bind_ext. by intros [r2 stop] _.
    - by apply apiCallbackEarlyReturn_keepsSlots.
    - intros [k p] Hkp. by apply elem_of_map_to_list in Hkp.
    - by apply iterating_start. }
  split; [done|].
  intros before h after r1 r2 Hsplit Hbefore Hstop.
  rewrite Hrun, Hsplit, visitUntil_app, Hbefore. simpl. by rewrite Hstop.
Qed.

(** X18. A callback that starts with an operation that asserts the flag stops
    the iteration at the first entity it is run on: on a well-formed store
    [forEachEntity] and [forEachComponents] abort as soon as there is an
    entity to visit, and return without running the callback when there is
    none. *)
Theorem mutation_in_callback_aborts `{U : ComponentUniverse}
    (callback : EntityId.t -> Registry.t -> outcome Registry.t) (r : Registry.t) :
  registryOk r ->
  (forall h r1, Registry.isIterating r1 = true -> callback h r1 = Aborted) ->
  Registry.forEachEntity callback r
    = match entityHandles r with
      | [] => Done (Registry.with_iterating true r)
      | _ :: _ => Aborted
      end
  /\ forall cs,
       Registry.forEachComponents cs callback r
       = match matchingHandles cs r with
         | [] => Done (Registry.with_iterating false r)
         | _ :: _ => Aborted
         end.
Proof.
  intros Hok Habort.
  assert (keepsSlots callback) as Hcb.
  { intros h r1 r2 _ Hit Hrun. by rewrite (Habort h r1 Hit) in Hrun. }
  split; [|intros cs].
  - rewrite forEachEntity_visit by done.
    destruct (entityHandles r) as [|h hs]; [done|]. simpl. by rewrite Habort.
  - rewrite forEachComponents_visit by done.
    destruct (matchingHandles cs r) as [|h hs]; [done|]. simpl. by rewrite Habort.
Qed.

(** X19. The flag is one boolean: an iteration that is started from inside the
    callback of another one clears it when it returns.  On a well-formed
    store with the flag set, after [forEachComponents], [forEachPool] or
    [forEachComponentsEarlyReturn] has returned, the flag is clear, and
    [createEntity], which stopped at its assertion before, succeeds. *)
Theorem nested_iteration_clears_flag `{U : ComponentUniverse}
    (cs : list nat) (inner : EntityId.t -> Registry.t -> outcome Registry.t)
    (innerPool : N -> Registry.t -> outcome Registry.t)
    (innerEarly : EntityId.t -> Registry.t -> outcome (Registry.t * bool))
    (cvs : list (nat * V)) (r r1 : Registry.t) :
  collisionFree = true ->
  registryOk r ->
  Registry.isIterating r = true ->
  apiCallback inner -> apiCallback innerPool -> apiCallbackEarlyReturn innerEarly ->
  Registry.forEachComponents cs inner r = Done r1
  \/ Registry.forEachPool innerPool r = Done r1
  \/ Registry.forEachComponentsEarlyReturn cs innerEarly r = Done r1 ->
  NoDup cvs.*1 ->
  (forall c, c ∈ cvs.*1 -> c < universeSize) ->
  Registry.nextVersionIndex r1 <> INT_MAX ->
  Registry.createEntityWith cvs r = Aborted
  /\ Registry.isIterating r1 = false
  /\ exists r2 id, Registry.createEntityWith cvs r1 = Done (r2, id).
Proof.
  intros Hcf Hok Hit Hinner HinnerPool HinnerEarly Hrun Hnd Hrange Hmax.
  split; [by apply mutators_abort_while_iterating|].
  assert (registryOk r1 /\ Registry.isIterating r1 = false) as [Hok1 Hit1].
  { destruct (forEach_clears_iterating r r1) as (Hpool & Hcomponents & Hearly).
    destruct Hrun as [Hrun|[Hrun|Hrun]].
    - split; [|by eapply Hcomponents].
      apply (step_ok r r1 Hcf Hok). by eapply step_forEachComponents.
    - split; [|by eapply Hpool].
      apply (step_ok r r1 Hcf Hok). by eapply step_forEachPool.
    - split; [|by eapply Hearly].
      apply (step_ok r r1 Hcf Hok). by eapply step_forEachComponentsEarlyReturn. }
  split; [done|].
  destruct (createEntityWith_spec cvs r1 Hcf Hok1 Hnd Hrange Hit1 Hmax)
    as (cols & Hcreate & _).
  eauto.
Qed.

(** ** Every call returns *)

Section Totality.
Context `{U : ComponentUniverse}.
Implicit Types (r : Registry.t) (p : ComponentPool.t) (h : EntityId.t).

Lemma get_total c id r :
  registryOk r -> exists r1 id1 x, Registry.get c id r = Done (r1, id1, x).
Proof.
  intros Hok.
  destruct (resolveEntityId_two r id Hok) as ([[r1 id1] [k|]] & Hres & _).
  - destruct (resolveEntityId_Some _ _ _ _ _ Hres) as (-> & Hkey & p & Hp & Hvalid).
    pose proof (ok_pools r Hok _ _ Hp) as Hpok.
    pose proof Hvalid as (_ & Hidx & _)%isValid_true.
    unfold Registry.get. rewrite Hres. simpl. unfold Registry.derefPool. rewrite Hp. simpl.
    destruct (ComponentPool.hasComponent c p) eqn:Hhas.
    + apply (hasComponent_indices _ _ _ Hpok) in Hhas as Hin.
      destruct (componentAt_in_use r k p c _ Hpok Hp Hin Hidx) as [x Hx].
      unfold componentAt in Hx. rewrite Hp in Hx. simpl in Hx.
      rewrite (getComponent_present c id1 p x) by done. simpl. eauto.
    + rewrite getComponent_absent by done. simpl. eauto.
  - unfold Registry.get. rewrite Hres. simpl. eauto.
Qed.

Lemma set_total c value id r :
  registryOk r -> exists r1 id1, Registry.set c value id r = Done (r1, id1).
Proof.
  intros Hok.
  destruct (resolveEntityId_two r id Hok) as ([[r1 id1] [k|]] & Hres & _).
  - destruct (resolveEntityId_Some _ _ _ _ _ Hres) as (-> & Hkey & p & Hp & Hvalid).
    destruct (ComponentPool.hasComponent c p) eqn:Hhas.
    + destruct (set_resolved c value id id1 r r k p Hok Hres Hp Hhas) as (vec & _ & _ & Hrun).
      rewrite Hrun. eauto.
    + unfold Registry.set. rewrite Hres. simpl. unfold Registry.derefPool. rewrite Hp. simpl.
      rewrite getComponent_absent by done. simpl. eauto.
  - unfold Registry.set. rewrite Hres. simpl. eauto.
Qed.

Lemma removeEntity_total id r :
  registryOk r -> Registry.isIterating r = false ->
  exists r1 id1, Registry.removeEntity id r = Done (r1, id1).
Proof.
  intros Hok Hit.
  destruct (resolveEntityId_two r id Hok) as ([[r1 id1] [k|]] & Hres & _).
  - destruct (resolveEntityId_Some _ _ _ _ _ Hres) as (-> & Hkey & p & Hp & Hvalid).
    destruct (removeEntity_resolved id r id1 k p Hok Hit Hres Hp) as (p' & Hrun & _).
    rewrite Hrun. eauto.
  - unfold Registry.removeEntity. rewrite Hit, Hres. simpl. eauto.
Qed.

Lemma addComponent_total c value id r :
  collisionFree = true -> registryOk r -> Registry.isIterating r = false ->
  c < universeSize ->
  exists r1 id1, Registry.addComponent c value id r = Done (r1, id1).
Proof.
  intros Hcf Hok Hit Hc.
  destruct (resolveEntityId_two r id Hok) as ([[r1 id1] [k|]] & Hres & _).
  - destruct (resolveEntityId_Some _ _ _ _ _ Hres) as (-> & Hkey & p & Hp & Hvalid).
    destruct (ComponentPool.hasComponent c p) eqn:Hhas.
    + rewrite (addComponent_present c value id id1 r r k p Hit Hres Hp Hhas).
      by apply set_total.
    + destruct (addComponent_spec c value id id1 r r k p Hcf Hok Hit Hres Hp Hhas Hc)
        as (r' & id' & Hrun & _).
      rewrite Hrun. eauto.
  - unfold Registry.addComponent. rewrite Hit, Hres. simpl. eauto.
Qed.

Lemma removeComponent_total c id r :
  collisionFree = true -> registryOk r -> Registry.isIterating r = false ->
  exists r1 id1, Registry.removeComponent c id r = Done (r1, id1).
Proof.
  intros Hcf Hok Hit.
  destruct (resolveEntityId_two r id Hok) as ([[r1 id1] [k|]] & Hres & _).
  - destruct (resolveEntityId_Some _ _ _ _ _ Hres) as (-> & Hkey & p & Hp & Hvalid).
    destruct (ComponentPool.hasComponent c p) eqn:Hhas.
    + destruct (removeComponent_spec c id id1 r r k p Hcf Hok Hit Hres Hp Hhas)
        as (r' & id' & Hrun & _).
      rewrite Hrun. eauto.
    + unfold Registry.removeComponent. rewrite Hit, Hres. simpl.
      unfold Registry.derefPool. rewrite Hp. simpl. rewrite Hhas. simpl. eauto.
  - unfold Registry.removeComponent. rewrite Hit, Hres. simpl. eauto.
Qed.

End Totality.

(** X20. In every store a program can reach, provided the fingerprints of the
    pack do not collide, every call of the interface returns: [get] and
    [set] always; [removeEntity], [addComponent] and [removeComponent]
    whenever no iteration is in progress; [createEntity] whenever in
    addition the version counter is below [INT_MAX].  No call runs into an
    out-of-range access or a null pointer, and [resolveEntityId] never
    recurses for ever.  With the counter at [INT_MAX], [createEntity]
    overflows the [int]. *)
Theorem api_calls_return `{U : ComponentUniverse}
    (c : nat) (value : V) (id : EntityId.t) (cvs : list (nat * V)) (r : Registry.t) :
  collisionFree = true ->
  reachable r ->
  c < universeSize ->
  NoDup cvs.*1 ->
  (forall c', c' ∈ cvs.*1 -> c' < universeSize) ->
  (exists r1 id1 x, Registry.get c id r = Done (r1, id1, x))
  /\ (exists r1 id1, Registry.set c value id r = Done (r1, id1))
  /\ (Registry.isIterating r = false ->
      (exists r1 id1, Registry.removeEntity id r = Done (r1, id1))
      /\ (exists r1 id1, Registry.addComponent c value id r = Done (r1, id1))
      /\ (exists r1 id1, Registry.removeComponent c id r = Done (r1, id1))
      /\ (Registry.nextVersionIndex r <> INT_MAX ->
          exists r1 id1, Registry.createEntityWith cvs r = Done (r1, id1))
      /\ (Registry.nextVersionIndex r = INT_MAX ->
          Registry.createEntityWith cvs r = Undefined)).
Proof.
  intros Hcf Hreach Hc Hnd Hrange.
  pose proof (reachable_ok r Hcf Hreach) as Hok.
  split; [by apply get_total|]. split; [by apply set_total|].
  intros Hit. split_and!.
  - by apply removeEntity_total.
  - by apply addComponent_total.
  - by apply removeComponent_total.
  - intros Hmax.
    destruct (createEntityWith_spec cvs r Hcf Hok Hnd Hrange Hit Hmax) as (cols & Hrun & _).
    eauto.
  - intros Hmax. unfold Registry.createEntityWith. rewrite Hit. simpl.
    by rewrite bool_decide_eq_true_2.
Qed.

(** ** Nothing is erased *)

Section NeverErased.
Context `{U : ComponentUniverse}.
Implicit Types (r : Registry.t) (p : ComponentPool.t).

Lemma neverErased_refl r : neverErased r r.
Proof. by split. Qed.

Lemma neverErased_trans r1 r2 r3 :
  neverErased r1 r2 -> neverErased r2 r3 -> neverErased r1 r3.
Proof. intros [H1 H2] [H3 H4]. split; auto. Qed.

Lemma neverErased_same r r' :
  Registry.pools r' = Registry.pools r ->
  Registry.entityRemappings r' = Registry.entityRemappings r ->
  neverErased r r'.
Proof. intros Hp Hm. split; intros x Hx; by rewrite ?Hp, ?Hm. Qed.

Lemma neverErased_pool r k p :
  neverErased r (Registry.with_pools (<[k := p]> (Registry.pools r)) r).
Proof.
  split; [|done]. intros k' Hk'. simpl. apply lookup_insert_is_Some'. by right.
Qed.

Lemma neverErased_entry r v e :
  neverErased r (Registry.with_remappings (<[v := e]> (Registry.entityRemappings r)) r).
Proof.
  split; [done|]. intros v' Hv'. simpl. apply lookup_insert_is_Some'. by right.
Qed.

Lemma neverErased_handleRemoveResult result k r :
  neverErased r (Registry.handleRemoveResult result k r).
Proof.
  unfold Registry.handleRemoveResult.
  destruct (success result); simpl; [|apply neverErased_refl].
  destruct (wasSwapped result); [|apply neverErased_refl].
  destruct (swappedEntityVersion result); [|apply neverErased_refl].
  destruct (swappedEntityUnstableIndex result); [|apply neverErased_refl].
  apply neverErased_entry.
Qed.

Lemma neverErased_resolveFuel fuel id r r' id' res :
  Registry.resolveFuel fuel id r = Done (r', id', res) -> neverErased r r'.
Proof.
  revert id. induction fuel as [|fuel IH]; intros id; simpl; [discriminate|].
  destruct (EntityId.dead id); [intros; inv_outcome; apply neverErased_refl|].
  intros H. apply bind_Done in H as (direct & Hdirect & H).
  destruct direct; [inv_outcome; apply neverErased_refl|].
  destruct (Registry.entityRemappings r !! EntityId.version id) as [remap|];
    [|inv_outcome; apply neverErased_refl].
  destruct (EntityId.isIdentical remap id); [|by apply IH in H].
  inv_outcome. apply neverErased_entry.
Qed.

Lemma neverErased_writeComponent key c index value r r' :
  Registry.writeComponent key c index value r = Done r' -> neverErased r r'.
Proof. intros (q & _ & -> & _)%writeComponent_Done. apply neverErased_pool. Qed.

Lemma neverErased_copyShared indices c oldKey oldIndex newKey newIndex r r' :
  Registry.copyShared indices c oldKey oldIndex newKey newIndex r = Done r' ->
  neverErased r r'.
Proof.
  revert r. induction indices as [|i indices IH]; intros r H; simpl in H.
  - inv_outcome. apply neverErased_refl.
  - apply bind_Done in H as (r1 & H1 & H).
    eapply neverErased_trans; [|by apply IH]. case_bool_decide.
    + inv_outcome. apply neverErased_refl.
    + unfold Registry.copyComponent in H1. apply bind_Done in H1 as (op & _ & H1).
      destruct (ComponentPool.components op !! i) as [vec|];
        [|inv_outcome; apply neverErased_refl].
      destruct (vec !! oldIndex); [|done]. by eapply neverErased_writeComponent.
Qed.

Lemma neverErased_relocate c hashes nextBitmask id oldPool r r' id' :
  Registry.relocate c hashes nextBitmask id oldPool r = Done (r', id') ->
  neverErased r r'.
Proof.
  unfold Registry.relocate, Registry.generateComponentPoolKeyFromHashes.
  intros H. apply bind_Done in H as (r1 & Hfind & H).
  apply bind_Done in H as (np & _ & H).
  unfold Registry.transferEntityToNewPool in H. apply bind_Done in H as (r2 & Hpop & H).
  assert (neverErased r r1) as H01.
  { unfold Registry.findOrCreateFromBitmask in Hfind.
    destruct (Registry.pools r !! combineHashes hashes);
      [inv_outcome; apply neverErased_refl|].
    apply bind_Done in Hfind as (op & _ & Hfind). inv_outcome. apply neverErased_pool. }
  assert (neverErased r1 r2) as H12.
  { unfold Registry.transferPopulate in Hpop.
    apply bind_Done in Hpop as (? & _ & Hpop). apply bind_Done in Hpop as (np0 & _ & Hpop).
    apply bind_Done in Hpop as (np1 & _ & Hpop). apply bind_Done in Hpop as (? & _ & Hpop).
    apply bind_Done in Hpop as (back & _ & Hpop). apply bind_Done in Hpop as (? & _ & Hpop).
    eapply neverErased_trans; [apply neverErased_pool|].
    by eapply neverErased_copyShared. }
  assert (neverErased r2 r') as H23.
  { unfold Registry.transferRelease in H. apply bind_Done in H as (op & _ & H).
    apply bind_Done in H as ([result op'] & _ & H). injection H as <- _.
    eapply neverErased_trans; [apply neverErased_pool|].
    eapply neverErased_trans; [apply neverErased_handleRemoveResult|].
    apply neverErased_entry. }
  eauto using neverErased_trans.
Qed.

Lemma neverErased_apiStep r r' : apiStep r r' -> neverErased r r'.
Proof.
  intros [cs r0 r1 id _ _ H|cvs r0 r1 id _ _ H|id r0 r1 id' H|c v id r0 r1 id' _ H
         |c id r0 r1 id' _ H|c id r0 r1 id' x H|c v id r0 r1 id' H].
  - apply createEntityWith_Done in H as (_ & _ & _ & pool' & _ & ->). apply neverErased_pool.
  - apply createEntityWith_Done in H as (_ & _ & _ & pool' & _ & ->). apply neverErased_pool.
  - unfold Registry.removeEntity in H. apply bind_Done in H as (? & _ & H).
    apply bind_Done in H as ([[r2 id1] pool] & Hres & H).
    apply neverErased_resolveFuel in Hres.
    eapply neverErased_trans; [exact Hres|].
    destruct pool as [key|]; [|inv_outcome; apply neverErased_refl].
    apply bind_Done in H as (p & _ & H). apply bind_Done in H as ([result p'] & _ & H).
    injection H as <- _.
    eapply neverErased_trans; [apply neverErased_pool|].
    apply neverErased_handleRemoveResult.
  - unfold Registry.addComponent in H. apply bind_Done in H as (? & _ & H).
    apply bind_Done in H as ([[r2 id1] pool] & Hres & H).
    apply neverErased_resolveFuel in Hres.
    eapply neverErased_trans; [exact Hres|].
    destruct pool as [key|]; [|inv_outcome; apply neverErased_refl].
    apply bind_Done in H as (p & _ & H).
    destruct (ComponentPool.hasComponent c p).
    + apply bind_Done in H as ([[r3 id3] ptr] & Hget & H).
      unfold Registry.get in Hget. apply bind_Done in Hget as ([[r4 id4] pool4] & Hres4 & Hget).
      apply neverErased_resolveFuel in Hres4.
      assert (r3 = r4) as ->.
      { destruct pool4; [|by inv_outcome]. apply bind_Done in Hget as (? & _ & Hget).
        apply bind_Done in Hget as (? & _ & Hget). by inv_outcome. }
      eapply neverErased_trans; [exact Hres4|].
      destruct ptr; [|done]. apply bind_Done in H as (r5 & Hw & H). injection H as <- _.
      by eapply neverErased_writeComponent.
    + apply bind_Done in H as ([r3 id3] & Hrel & H).
      apply bind_Done in H as (r5 & Hw & H). injection H as <- _.
      eapply neverErased_trans; [by eapply neverErased_relocate|].
      by eapply neverErased_writeComponent.
  - unfold Registry.removeComponent in H. apply bind_Done in H as (? & _ & H).
    apply bind_Done in H as ([[r2 id1] pool] & Hres & H).
    apply neverErased_resolveFuel in Hres.
    eapply neverErased_trans; [exact Hres|].
    destruct pool as [key|]; [|inv_outcome; apply neverErased_refl].
    apply bind_Done in H as (p & _ & H).
    destruct (ComponentPool.hasComponent c p); simpl in H.
    + by eapply neverErased_relocate.
    + inv_outcome. apply neverErased_refl.
  - unfold Registry.get in H. apply bind_Done in H as ([[r2 id1] pool] & Hres & H).
    apply neverErased_resolveFuel in Hres.
    assert (r1 = r2) as ->; [|done].
    destruct pool; [|by inv_outcome]. apply bind_Done in H as (? & _ & H).
    apply bind_Done in H as (? & _ & H). by inv_outcome.
  - unfold Registry.set in H. apply bind_Done in H as ([[r2 id1] pool] & Hres & H).
    apply neverErased_resolveFuel in Hres.
    eapply neverErased_trans; [exact Hres|].
    destruct pool as [key|]; [|inv_outcome; apply neverErased_refl].
    apply bind_Done in H as (p & _ & H). apply bind_Done in H as (ptr & _ & H).
    destruct ptr; [|inv_outcome; apply neverErased_refl].
    apply bind_Done in H as (r5 & Hw & H). injection H as <- _.
    by eapply neverErased_writeComponent.
Qed.

Lemma neverErased_rtc_apiStep r r' : rtc apiStep r r' -> neverErased r r'.
Proof.
  induction 1 as [|r r1 r2 Hstep _ IH]; [apply neverErased_refl|].
  eapply neverErased_trans; [by apply neverErased_apiStep|done].
Qed.

Lemma neverErased_with_iterating b r : neverErased r (Registry.with_iterating b r).
Proof. by apply neverErased_same. Qed.

Lemma neverErased_step r r' : step r r' -> neverErased r r'.
Proof.
  intros [r0 r1 H | callback r0 r1 Hcb H | cs callback r0 r1 Hcb H
         | cs callback r0 r1 Hcb H | callback r0 r1 Hcb H].
  - by apply neverErased_apiStep.
  - unfold Registry.forEachPool in H. apply bind_Done in H as (r2 & H2 & H). inv_outcome.
    eapply neverErased_trans; [|apply neverErased_with_iterating].
    eapply (forEachKey_preserves (neverErased r0));
      [|apply (neverErased_with_iterating true)|exact H2].
    intros key r3 r3' H3 Hb. simpl in Hb. apply bind_Done in Hb as (p & _ & Hb).
    case_bool_decide; [by inv_outcome|].
    eapply neverErased_trans; [exact H3|]. apply neverErased_rtc_apiStep. by eapply Hcb.
  - unfold Registry.forEachComponents in H. apply bind_Done in H as (r2 & H2 & H).
    inv_outcome. eapply neverErased_trans; [|apply neverErased_with_iterating].
    eapply (forEachKey_preserves (neverErased r0));
      [|apply (neverErased_with_iterating true)|exact H2].
    intros key r3 r3' H3 Hb. simpl in Hb. apply bind_Done in Hb as (p & _ & Hb).
    destruct (ComponentPool.hasComponents cs p); [|by inv_outcome].
    eapply (forEachSlot_preserves (neverErased r0)); [|done|exact Hb].
    intros id r4 r4' H4 Hc.
    eapply neverErased_trans; [exact H4|]. apply neverErased_rtc_apiStep. by eapply Hcb.
  - unfold Registry.forEachComponentsEarlyReturn in H.
    apply bind_Done in H as (r2 & H2 & H). inv_outcome.
    eapply neverErased_trans; [|apply neverErased_with_iterating].
    eapply (forEachKeyEarlyReturn_preserves (neverErased r0));
      [|apply (neverErased_with_iterating true)|exact H2].
    intros id r4 r4' b H4 Hc.
    eapply neverErased_trans; [exact H4|]. apply neverErased_rtc_apiStep. by eapply Hcb.
  - unfold Registry.forEachEntity in H. apply bind_Done in H as (r2 & H2 & H). inv_outcome.
    eapply neverErased_trans; [|apply neverErased_with_iterating].
    eapply (forEachKey_preserves (neverErased r0));
      [|apply (neverErased_with_iterating true)|exact H2].
    intros key r3 r3' H3 Hb. simpl in Hb. apply bind_Done in Hb as (p & _ & Hb).
    eapply (forEachEntitySlot_preserves (neverErased r0)); [|done|exact Hb].
    intros id r4 r4' H4 Hc.
    eapply neverErased_trans; [exact H4|]. apply neverErased_rtc_apiStep. by eapply Hcb.
Qed.

End NeverErased.

(** X21. No call of the interface, and no iteration, erases a pool or a remap
    entry: along any run of a program the pools and the remap entries that
    exist stay, also a pool whose last entity has been removed and the
    entries of removed entities.  In particular the number of pools and of
    remap entries never goes down. *)
Theorem pools_and_remap_entries_are_never_erased `{U : ComponentUniverse}
    (r r' : Registry.t) :
  rtc step r r' ->
  neverErased r r'
  /\ size (Registry.pools r) <= size (Registry.pools r')
  /\ size (Registry.entityRemappings r) <= size (Registry.entityRemappings r').
Proof.
  intros Hsteps.
  assert (neverErased r r') as Hgrow.
  { induction Hsteps as [|r r1 r2 Hstep _ IH]; [apply neverErased_refl|].
    eapply neverErased_trans; [by apply neverErased_step|done]. }
  split; [done|]. destruct Hgrow as [Hpools Hentries].
  split.
  - rewrite <- !(size_dom (D := gset N)). apply subseteq_size, elem_of_subseteq.
    intros k. rewrite !elem_of_dom. apply Hpools.
  - rewrite <- !(size_dom (D := gset N)). apply subseteq_size, elem_of_subseteq.
    intros v. rewrite !elem_of_dom. apply Hentries.
Qed.

(** ** Versions are not reused *)

Section NoReuse.
Context `{U : ComponentUniverse}.
Implicit Types (r : Registry.t) (p : ComponentPool.t) (h : EntityId.t).

Lemma livesAt_same_pools r r' w k i :
  Registry.pools r' = Registry.pools r -> livesAt r' w k i -> livesAt r w k i.
Proof. intros Hpools (p & Hp & Hslot). exists p. by rewrite <- Hpools. Qed.

Lemma get_same_pools c id r r' id' x :
  Registry.get c id r = Done (r', id', x) -> Registry.pools r' = Registry.pools r.
Proof.
  unfold Registry.get. intros H. apply bind_Done in H as ([[r1 id1] pool] & Hres & H).
  destruct (resolveEntityId_frame _ _ _ _ _ Hres) as (Hpools & _).
  assert (r' = r1) as ->; [|done].
  destruct pool; [|by inv_outcome]. apply bind_Done in H as (? & _ & H).
  apply bind_Done in H as (? & _ & H). by inv_outcome.
Qed.

Lemma set_same_versions c value id r r' id' w k i :
  Registry.set c value id r = Done (r', id') -> livesAt r' w k i -> livesAt r w k i.
Proof.
  unfold Registry.set. intros H. apply bind_Done in H as ([[r1 id1] pool] & Hres & H).
  destruct (resolveEntityId_frame _ _ _ _ _ Hres) as (Hpools & _).
  destruct pool as [key|]; [|inv_outcome; by apply livesAt_same_pools].
  apply bind_Done in H as (p & _ & H). apply bind_Done in H as (ptr & _ & H).
  destruct ptr; [|inv_outcome; by apply livesAt_same_pools].
  apply bind_Done in H as (r2 & Hw & H). injection H as -> ->.
  apply writeComponent_Done in Hw as (q & Hq & -> & _).
  intros [[-> Hslot]|[_ Hlive]]%livesAt_insert.
  - exists q. rewrite <- Hpools. split; [done|].
    by destruct (ComponentPool.components q !! c).
  - by apply (livesAt_same_pools r r1).
Qed.

(** A call of the interface stores no version that was not stored before,
    except the one [createEntity] takes from the counter; the counter does
    not go down. *)
Lemma apiStep_no_new_versions r r' :
  collisionFree = true -> registryOk r -> apiStep r r' ->
  (Registry.nextVersionIndex r <= Registry.nextVersionIndex r')%Z
  /\ forall w k i, livesAt r' w k i ->
       (exists k0 i0, livesAt r w k0 i0) \/ (Registry.nextVersionIndex r <= Z.of_N w)%Z.
Proof.
  intros Hcf Hok Hstep.
  assert (forall cvs r1 id, Registry.createEntityWith cvs r = Done (r1, id) ->
            (Registry.nextVersionIndex r <= Registry.nextVersionIndex r1)%Z
            /\ forall w k i, livesAt r1 w k i ->
                 (exists k0 i0, livesAt r w k0 i0)
                 \/ (Registry.nextVersionIndex r <= Z.of_N w)%Z) as Hcreate.
  { intros cvs r1 id H.
    apply createEntityWith_Done in H as (_ & _ & -> & pool' & Hpool' & ->).
    apply createEntity_pool_Done in Hpool' as (_ & _ & Hv' & _).
    simpl. split; [lia|].
    intros w k i [[-> Hslot]|[_ Hlive]]%livesAt_insert; [|left; eauto].
    rewrite Hv' in Hslot. apply lookup_app_Some in Hslot as [Hslot|[_ Hslot]].
    - left. unfold Registry.findOrCreateFromTemplate in Hslot.
      destruct (Registry.pools r !! fingerprint cvs.*1) as [p0|] eqn:Hp0; [|done].
      exists (fingerprint cvs.*1), i. by exists p0.
    - right. apply list_lookup_singleton_Some in Hslot as [_ <-]. simpl.
      rewrite size_t_of_int_small; [done|]. apply (ok_counter r Hok). }
  destruct (Registry.isIterating r) eqn:Hit.
  { destruct (mutators_abort_while_iterating r Hit) as (H1 & H2 & H3 & H4 & H5).
    destruct Hstep as [cs r r' id _ _ H|cvs r r' id _ _ H|id r r' id' H|c v id r r' id' _ H
                      |c id r r' id' _ H|c id r r' id' x H|c v id r r' id' H].
    1-5: by rewrite ?H1, ?H2, ?H3, ?H4, ?H5 in H.
    - apply get_same_pools in H as Hpools.
      unfold Registry.get in H. apply bind_Done in H as ([[r1 id1] pool] & Hres & H).
      destruct (resolveEntityId_frame _ _ _ _ _ Hres) as (_ & Hnext & _).
      assert (r' = r1) as ->.
      { destruct pool; [|by inv_outcome]. apply bind_Done in H as (? & _ & H).
        apply bind_Done in H as (? & _ & H). by inv_outcome. }
      split; [lia|]. intros w k i Hlive. left. exists k, i.
      by apply (livesAt_same_pools r r1).
    - split.
      + destruct (set_total c v id r Hok) as (r1 & id1 & Hrun).
        assert (registryOk r') as Hok' by (by eapply set_ok).
        unfold Registry.set in H. apply bind_Done in H as ([[r2 id2] pool] & Hres & H).
        destruct (resolveEntityId_frame _ _ _ _ _ Hres) as (_ & Hnext & _).
        destruct pool as [key|]; [|inv_outcome; lia].
        apply bind_Done in H as (p & _ & H). apply bind_Done in H as (ptr & _ & H).
        destruct ptr; [|inv_outcome; lia].
        apply bind_Done in H as (r3 & Hw & H). injection H as -> ->.
        apply writeComponent_Done in Hw as (q & Hq & -> & _). simpl. lia.
      + intros w k i Hlive. left. exists k, i. by eapply set_same_versions. }
  destruct Hstep as [cs r r' id _ _ H|cvs r r' id _ _ H|id r r' id' H|c v id r r' id' Hc H
                    |c id r r' id' Hc H|c id r r' id' x H|c v id r r' id' H].
  - by eapply Hcreate.
  - by eapply Hcreate.
  - destruct (resolveEntityId_two r id Hok) as ([[r1 id1] [key|]] & Hres & _).
    + destruct (removeEntity_keeps id id1 r r1 key Hok Hit Hres)
        as (r2 & Hrun & _ & _ & _ & _ & _ & Hnext & _).
      destruct (resolveEntityId_Some _ _ _ _ _ Hres) as (-> & Hkey & p & Hp & Hvalid).
      destruct (removeEntity_resolved id r id1 key p Hok Hit Hres Hp)
        as (p' & Hrun' & _ & Hv' & _).
      rewrite Hrun' in H. injection H as <- _.
      split.
      { rewrite (proj1 (proj2 (handleRemoveResult_frame _ _ _))). simpl. lia. }
      intros w k i (p0 & Hp0 & Hslot). left.
      rewrite (proj1 (handleRemoveResult_frame _ _ _)) in Hp0. simpl in Hp0.
      destruct (decide (k = key)) as [->|Hne].
      * rewrite lookup_insert_eq in Hp0. injection Hp0 as <-.
        pose proof Hvalid as (_ & Hidx & _)%isValid_true.
        rewrite (ok_size _ _ (ok_pools r Hok _ _ Hp)) in Hidx.
        apply lookup_lt_Some in Hslot as Hi. rewrite Hv', length_swap_pop in Hi.
        rewrite Hv', lookup_swap_pop in Hslot by done.
        rewrite decide_True in Hslot by done.
        destruct (decide (i = EntityId.unstableIndex id1)); exists key; eexists; by exists p.
      * rewrite lookup_insert_ne in Hp0 by done. exists k, i. by exists p0.
    + unfold Registry.removeEntity in H. rewrite Hit, Hres in H. simpl in H.
      injection H as <- _.
      destruct (resolveEntityId_frame _ _ _ _ _ Hres) as (Hpools & Hnext & _).
      split; [lia|]. intros w k i Hlive. left. exists k, i.
      by apply (livesAt_same_pools r r1).
  - destruct (resolveEntityId_two r id Hok) as ([[r1 id1] [key|]] & Hres & _).
    + destruct (resolveEntityId_Some _ _ _ _ _ Hres) as (-> & Hkey & p & Hp & Hvalid).
      destruct (ComponentPool.hasComponent c p) eqn:Hhas.
      * rewrite (addComponent_present c v id id1 r r key p Hit Hres Hp Hhas) in H.
        destruct (set_resolved c v id id1 r r key p Hok Hres Hp Hhas)
          as (vec & _ & _ & Hrun).
        split.
        { rewrite Hrun in H. injection H as Heq _. rewrite <- Heq. simpl. lia. }
        intros w k i Hlive. left. exists k, i.
        exact (set_same_versions c v id r r' id' w k i H Hlive).
      * destruct (addComponent_keeps c v id id1 r r key p Hcf Hok Hit Hres Hp Hhas Hc)
          as (r2 & id2 & q' & Hrun & _ & Hmv & _ & _ & _ & _ & _ & Hold).
        rewrite Hrun in H. injection H as <- _.
        split; [rewrite (mv_counter _ _ _ _ _ _ _ Hmv); lia|].
        intros w k i Hlive. left. by eapply Hold.
    + unfold Registry.addComponent in H. rewrite Hit, Hres in H. simpl in H.
      injection H as <- _.
      destruct (resolveEntityId_frame _ _ _ _ _ Hres) as (Hpools & Hnext & _).
      split; [lia|]. intros w k i Hlive. left. exists k, i.
      by apply (livesAt_same_pools r r1).
  - destruct (resolveEntityId_two r id Hok) as ([[r1 id1] [key|]] & Hres & _).
    + destruct (resolveEntityId_Some _ _ _ _ _ Hres) as (-> & Hkey & p & Hp & Hvalid).
      destruct (ComponentPool.hasComponent c p) eqn:Hhas.
      * destruct (removeComponent_keeps c id id1 r r key p Hcf Hok Hit Hres Hp Hhas)
          as (r2 & id2 & q' & Hrun & _ & Hmv & _ & _ & _ & _ & Hold).
        rewrite Hrun in H. injection H as <- _.
        split; [rewrite (mv_counter _ _ _ _ _ _ _ Hmv); lia|].
        intros w k i Hlive. left. by eapply Hold.
      * unfold Registry.removeComponent in H. rewrite Hit, Hres in H. simpl in H.
        unfold Registry.derefPool in H. rewrite Hp in H. simpl in H. rewrite Hhas in H.
        simpl in H. injection H as <- _.
        split; [lia|]. intros w k i Hlive. left. eauto.
    + unfold Registry.removeComponent in H. rewrite Hit, Hres in H. simpl in H.
      injection H as <- _.
      destruct (resolveEntityId_frame _ _ _ _ _ Hres) as (Hpools & Hnext & _).
      split; [lia|]. intros w k i Hlive. left. exists k, i.
      by apply (livesAt_same_pools r r1).
  - apply get_same_pools in H as Hpools.
    unfold Registry.get in H. apply bind_Done in H as ([[r1 id1] pool] & Hres & H).
    destruct (resolveEntityId_frame _ _ _ _ _ Hres) as (_ & Hnext & _).
    assert (r' = r1) as ->.
    { destruct pool; [|by inv_outcome]. apply bind_Done in H as (? & _ & H).
      apply bind_Done in H as (? & _ & H). by inv_outcome. }
    split; [lia|]. intros w k i Hlive. left. exists k, i.
    by apply (livesAt_same_pools r r1).
  - split.
    + unfold Registry.set in H. apply bind_Done in H as ([[r2 id2] pool] & Hres & H).
      destruct (resolveEntityId_frame _ _ _ _ _ Hres) as (_ & Hnext & _).
      destruct pool as [key|]; [|inv_outcome; lia].
      apply bind_Done in H as (p & _ & H). apply bind_Done in H as (ptr & _ & H).
      destruct ptr; [|inv_outcome; lia].
      apply bind_Done in H as (r3 & Hw & H). injection H as -> ->.
      apply writeComponent_Done in Hw as (q & Hq & -> & _). simpl. lia.
    + intros w k i Hlive. left. exists k, i. by eapply set_same_versions.
Qed.

Lemma noReuse_refl r : noReuse r r.
Proof. split; [lia|]. intros w k i Hlive. left. eauto. Qed.

Lemma noReuse_trans r0 r1 r2 : noReuse r0 r1 -> noReuse r1 r2 -> noReuse r0 r2.
Proof.
  intros [Hn1 Hv1] [Hn2 Hv2]. split; [lia|].
  intros w k i Hlive. destruct (Hv2 w k i Hlive) as [(k1 & i1 & Hlive1)|Hfresh].
  - by apply (Hv1 w k1 i1).
  - right. lia.
Qed.

Lemma noReuse_with_iterating b r : noReuse r (Registry.with_iterating b r).
Proof. split; [simpl; lia|]. intros w k i Hlive. left. eauto. Qed.

Lemma noReuse_rtc_apiStep r r' :
  collisionFree = true -> registryOk r -> rtc apiStep r r' -> registryOk r' /\ noReuse r r'.
Proof.
  intros Hcf Hok Hsteps. induction Hsteps as [|r r1 r2 Hstep _ IH].
  - split; [done|apply noReuse_refl].
  - pose proof (apiStep_ok r r1 Hcf Hok Hstep) as Hok1.
    destruct (IH Hok1) as [Hok2 H12]. split; [done|].
    eapply noReuse_trans; [|exact H12]. by apply apiStep_no_new_versions.
Qed.

Lemma noReuse_step r r' :
  collisionFree = true -> registryOk r -> step r r' -> noReuse r r'.
Proof.
  intros Hcf Hok Hstep.
  pose (Q := fun r1 => registryOk r1 /\ noReuse r r1).
  assert (Q (Registry.with_iterating true r)) as Hstart.
  { split; [by apply with_iterating_ok|apply noReuse_with_iterating]. }
  assert (forall A (callback : A -> Registry.t -> outcome Registry.t), apiCallback callback ->
            forall a r1 r2, Q r1 -> callback a r1 = Done r2 -> Q r2) as Hcall.
  { intros A callback Hcb a r1 r2 [Hok1 H1] Hrun.
    destruct (noReuse_rtc_apiStep r1 r2 Hcf Hok1 (Hcb a r1 r2 Hrun)) as [Hok2 H12].
    split; [done|]. by eapply noReuse_trans. }
  assert (forall r1, Q r1 -> forall b, noReuse r (Registry.with_iterating b r1)) as Hend.
  { intros r1 [_ H1] b. eapply noReuse_trans; [exact H1|apply noReuse_with_iterating]. }
  destruct Hstep as [r0 r1 H | callback r0 r1 Hcb H | cs callback r0 r1 Hcb H
                    | cs callback r0 r1 Hcb H | callback r0 r1 Hcb H].
  - by apply apiStep_no_new_versions.
  - unfold Registry.forEachPool in H. apply bind_Done in H as (r2 & H2 & H). inv_outcome.
    apply Hend. eapply (forEachKey_preserves Q); [|exact Hstart|exact H2].
    intros key r3 r3' H3 Hb. simpl in Hb. apply bind_Done in Hb as (p & _ & Hb).
    case_bool_decide; [by inv_outcome|]. by eapply Hcall.
  - unfold Registry.forEachComponents in H. apply bind_Done in H as (r2 & H2 & H).
    inv_outcome. apply Hend. eapply (forEachKey_preserves Q); [|exact Hstart|exact H2].
    intros key r3 r3' H3 Hb. simpl in Hb. apply bind_Done in Hb as (p & _ & Hb).
    destruct (ComponentPool.hasComponents cs p); [|by inv_outcome].
    eapply (forEachSlot_preserves Q); [|done|exact Hb]. by apply Hcall.
  - unfold Registry.forEachComponentsEarlyReturn in H.
    apply bind_Done in H as (r2 & H2 & H). inv_outcome.
    apply Hend. eapply (forEachKeyEarlyReturn_preserves Q); [|exact Hstart|exact H2].
    intros id r4 r4' b [Hok4 H4] Hc.
    destruct (noReuse_rtc_apiStep r4 r4' Hcf Hok4 (Hcb id r4 r4' b Hc)) as [Hok4' H44].
    split; [done|]. by eapply noReuse_trans.
  - unfold Registry.forEachEntity in H. apply bind_Done in H as (r2 & H2 & H). inv_outcome.
    apply Hend. eapply (forEachKey_preserves Q); [|exact Hstart|exact H2].
    intros key r3 r3' H3 Hb. simpl in Hb. apply bind_Done in Hb as (p & _ & Hb).
    eapply (forEachEntitySlot_preserves Q); [|done|exact Hb]. by apply Hcall.
Qed.

End NoReuse.

(** X22. Versions are never reused.  Along any run of a program from a
    well-formed store, the version counter does not go down and a version
    that is stored was stored at the start or was taken from the counter
    since.  So a version below the counter that is not stored, such as the
    version of an entity that has been removed, is never stored again, and
    a handle that carries it resolves to [false] for ever, whatever is
    created or moved in its former slot. *)
Theorem removed_versions_never_return `{U : ComponentUniverse} (r r' : Registry.t) :
  collisionFree = true ->
  registryOk r ->
  rtc step r r' ->
  noReuse r r'
  /\ forall v,
       (Z.of_N v < Registry.nextVersionIndex r)%Z ->
       (forall k i, ~ livesAt r v k i) ->
       (forall k i, ~ livesAt r' v k i)
       /\ forall h, EntityId.version h = v ->
            exists r1 h1, Registry.resolveEntityId h r' = Done (r1, h1, None).
Proof.
  intros Hcf Hok Hsteps.
  assert (registryOk r' /\ noReuse r r') as [Hok' [Hnext Hold]].
  { induction Hsteps as [|r r1 r2 Hstep _ IH]; [split; [done|apply noReuse_refl]|].
    pose proof (step_ok r r1 Hcf Hok Hstep) as Hok1.
    destruct (IH Hok1) as [Hok2 H12]. split; [done|].
    eapply noReuse_trans; [|exact H12]. by apply noReuse_step. }
  split; [by split|].
  intros v Hv Hgone.
  assert (forall k i, ~ livesAt r' v k i) as Hgone'.
  { intros k i Hlive. destruct (Hold v k i Hlive) as [(k0 & i0 & Hlive0)|Hfresh]; [|lia].
    by apply (Hgone k0 i0). }
  split; [done|].
  intros h <-. by apply resolveEntityId_not_stored.
Qed.

(** ** Looking up a pool, and creating a slot in one *)

(** X23. On a well-formed store without fingerprint collisions, for pairwise
    distinct types of the pack: the pool [getPool<Components...>] returns
    is the one whose component types are exactly the listed ones; a pool
    with exactly these types, if the store has one, is the one returned;
    the order of the types does not matter; on a fresh registry the result
    is null. *)
Theorem getPool_finds_the_pool_of_the_types `{U : ComponentUniverse}
    (cs : list nat) (r : Registry.t) :
  collisionFree = true ->
  registryOk r ->
  NoDup cs ->
  (forall c, c ∈ cs -> c < universeSize) ->
  (forall p, Registry.getPool cs r = Some p ->
     ComponentPool.componentsInUseIndices p ≡ₚ cs
     /\ ComponentPool.poolKey p = fingerprint cs
     /\ forall c, ComponentPool.hasComponent c p = true <-> c ∈ cs)
  /\ (forall k p, Registry.pools r !! k = Some p ->
        ComponentPool.componentsInUseIndices p ≡ₚ cs ->
        Registry.getPool cs r = Some p)
  /\ (forall cs', cs' ≡ₚ cs -> Registry.getPool cs' r = Registry.getPool cs r)
  /\ Registry.getPool cs Registry.empty = None.
Proof.
  intros Hcf Hok Hnd Hrange.
  assert (forall cs0 r0, Registry.getPool cs0 r0 = Registry.pools r0 !! fingerprint cs0)
    as Hget by done.
  split_and!.
  - intros p Hp. rewrite Hget in Hp.
    pose proof (ok_pools r Hok _ _ Hp) as Hpok.
    assert (ComponentPool.componentsInUseIndices p ≡ₚ cs) as Hperm.
    { apply collisionFree_spec; [done | by apply (ok_nodup _ _ Hpok) | done
                                | by apply (ok_range _ _ Hpok) | done |].
      by rewrite <- (poolOk_fingerprint _ _ Hpok). }
    split; [done|]. split; [by apply (ok_key _ _ Hpok)|].
    intros c. by rewrite (hasComponent_indices _ _ _ Hpok), Hperm.
  - intros k p Hp Hperm. rewrite Hget, <- (fingerprint_perm _ _ Hperm).
    by rewrite <- (poolOk_fingerprint _ _ (ok_pools r Hok _ _ Hp)).
  - intros cs' Hperm. by rewrite !Hget, (fingerprint_perm _ _ Hperm).
  - rewrite Hget. apply lookup_empty.
Qed.

(** X24. [ComponentPool::createEntity] checks the handle it is given against
    the pool: when the handle names the next free slot (and the pool's size
    agrees with its version vector) it appends the version and, to the
    column of each listed type, the value given for it, and leaves the
    other columns alone; otherwise it aborts. *)
Theorem pool_createEntity_checks_the_slot `{U : ComponentUniverse}
    (id : EntityId.t) (cvs : list (nat * V)) (p : ComponentPool.t) :
  NoDup cvs.*1 ->
  (EntityId.unstableIndex id = ComponentPool.poolSize p ->
   ComponentPool.poolSize p = length (ComponentPool.versions p) ->
   exists p',
     ComponentPool.createEntity id cvs p = Done p'
     /\ ComponentPool.versions p' = ComponentPool.versions p ++ [EntityId.version id]
     /\ ComponentPool.poolSize p' = S (ComponentPool.poolSize p)
     /\ (forall c v, (c, v) ∈ cvs ->
           ComponentPool.components p' !! c
           = (fun col => col ++ [v]) <$> ComponentPool.components p !! c)
     /\ (forall c, c ∉ cvs.*1 ->
           ComponentPool.components p' !! c = ComponentPool.components p !! c))
  /\ (EntityId.unstableIndex id <> ComponentPool.poolSize p
      \/ ComponentPool.poolSize p <> length (ComponentPool.versions p) ->
      ComponentPool.createEntity id cvs p = Aborted).
Proof.
  intros Hnd.
  destruct (pushComponents_spec cvs p Hnd) as (cols & Hpush & _ & Hin & Hout).
  unfold ComponentPool.createEntity. rewrite Hpush. split.
  - intros Hindex Hsize. eexists. split; [by apply pushVersion_spec|]. simpl.
    split_and!; [done | done | |].
    + intros c v Hcv.
      assert (c ∈ cvs.*1) as Hc by (apply list_elem_of_fmap; exists (c, v); by split).
      destruct (Hin c Hc) as (v0 & Hcv0 & Hcol). rewrite Hcol.
      by rewrite (NoDup_fst_unique cvs c v0 v Hnd Hcv0 Hcv).
    + intros c Hc. by apply Hout.
  - intros Hbad. unfold ComponentPool.pushVersion. simpl.
    destruct (decide (EntityId.unstableIndex id = ComponentPool.poolSize p)) as [Hindex|Hindex].
    + rewrite (bool_decide_eq_true_2 (EntityId.unstableIndex id = _)) by done. simpl.
      rewrite bool_decide_eq_false_2 by tauto. done.
    + by rewrite (bool_decide_eq_false_2 (EntityId.unstableIndex id = _)).
Qed.

(** * The properties at concrete stores *)

#[local] Existing Instance Demo.universe.

Lemma demo_collisionFree : collisionFree = true.
Proof. vm_compute. reflexivity. Defined.

Lemma demo_pair_reachable : reachable Demo.pair.
Proof.
  unfold reachable.
  eapply rtc_l.
  { apply step_api.
    apply (step_createEntityWith (U := Demo.universe) [(0, 10%Z)] Registry.empty
             Demo.single Demo.first).
    - apply NoDup_singleton.
    - intros c ->%list_elem_of_singleton. simpl. lia.
    - vm_compute. reflexivity. }
  eapply rtc_l; [|apply rtc_refl].
  apply step_api.
  apply (step_createEntityWith (U := Demo.universe) [(0, 20%Z)] _ Demo.pair Demo.second).
  - apply NoDup_singleton.
  - intros c ->%list_elem_of_singleton. simpl. lia.
  - vm_compute. reflexivity.
Defined.

Lemma demo_healed_reachable : reachable Demo.healed.
Proof.
  eapply rtc_r; [apply demo_pair_reachable|].
  apply step_api.
  apply (step_removeEntity Demo.first Demo.pair Demo.healed (EntityId.markDead Demo.first)).
  vm_compute. reflexivity.
Defined.

Lemma demo_pair_ok : registryOk Demo.pair.
Proof. apply reachable_ok; [apply demo_collisionFree | apply demo_pair_reachable]. Defined.

Lemma demo_pool0_ok : poolOk Demo.key0 Demo.pool0.
Proof. apply (ok_pools Demo.pair demo_pair_ok). vm_compute. reflexivity. Defined.

(** C1 at [Demo.pair]: removing the first entity moves the second into
    slot 0, and its handle, unchanged in the caller's hands, still reads
    20. *)
Lemma swap_removal_heals_last_handle_witness :
  exists r' hr',
    Registry.get 0 Demo.second Demo.pair = Done (Demo.pair, Demo.second, Some 20%Z)
    /\ Registry.removeEntity Demo.first Demo.pair = Done (r', hr')
    /\ Registry.get 0 Demo.second r' = Done (r', Demo.moved, Some 20%Z).
Proof.
  destruct (swap_removal_heals_last_handle 0 Demo.first Demo.first Demo.second Demo.second
              Demo.pair Demo.pair Demo.pair Demo.key0 Demo.pool0)
    as (r' & hr' & x & Hget & Hremove & Hget' & _).
  - apply demo_pair_ok.
  - reflexivity.
  - vm_compute. reflexivity.
  - simpl. lia.
  - vm_compute. reflexivity.
  - reflexivity.
  - vm_compute. reflexivity.
  - simpl. lia.
  - reflexivity.
  - assert (x = 20%Z) as ->.
    { assert (Registry.get 0 Demo.second Demo.pair
              = Done (Demo.pair, Demo.second, Some 20%Z)) as Hrun
        by (vm_compute; reflexivity).
      rewrite Hrun in Hget. by injection Hget. }
    exists r', hr'. split_and!; [exact Hget | exact Hremove | exact Hget'].
Defined.

(** C2 at [Demo.healed], the store with one remap entry. *)
Lemma remap_entries_are_current_witness :
  (forall v e k i,
     Registry.entityRemappings Demo.healed !! v = Some e -> livesAt Demo.healed v k i ->
     EntityId.version e = v /\ EntityId.poolKey e = k /\ EntityId.unstableIndex e = i
     /\ livesAt Demo.healed (EntityId.version e) (EntityId.poolKey e)
          (EntityId.unstableIndex e))
  /\ (forall v e,
        Registry.entityRemappings Demo.healed !! v = Some e ->
        Registry.entityRemappings Demo.healed !! EntityId.version e = Some e)
  /\ (forall id, exists result,
        Registry.resolveEntityId id Demo.healed = Done result
        /\ Registry.resolveFuel 2 id Demo.healed = Done result).
Proof.
  apply (remap_entries_are_current Demo.healed).
  - vm_compute. reflexivity.
  - apply demo_healed_reachable.
Defined.

(** C3 at [Demo.pair]: adding type 1 to the first entity, and removing
    type 0 from it. *)
Lemma relocation_moves_the_entity_witness :
  (forall value, exists r' id' r3,
     Registry.addComponent 1 value Demo.first Demo.pair = Done (r', id')
     /\ relocated 1 [0; 1] Demo.pair Demo.key0 Demo.first r' id'
     /\ relocationSteps 1 [0; 1] Demo.pair Demo.key0 Demo.first r3 id'
     /\ componentAt r3 (EntityId.poolKey id') 1 (EntityId.unstableIndex id') = Some 0%Z
     /\ Registry.writeComponent (EntityId.poolKey id') 1 (EntityId.unstableIndex id')
          value r3 = Done r'
     /\ componentAt r' (EntityId.poolKey id') 1 (EntityId.unstableIndex id') = Some value
     /\ Registry.resolveEntityId id' r' = Done (r', id', Some (EntityId.poolKey id')))
  /\ exists r' id',
       Registry.removeComponent 0 Demo.first Demo.pair = Done (r', id')
       /\ relocated 0 [] Demo.pair Demo.key0 Demo.first r' id'
       /\ relocationSteps 0 [] Demo.pair Demo.key0 Demo.first r' id'
       /\ Registry.resolveEntityId id' r' = Done (r', id', Some (EntityId.poolKey id')).
Proof.
  split.
  - refine (proj1 (relocation_moves_the_entity 1 Demo.first Demo.first Demo.pair Demo.pair
                     Demo.key0 Demo.pool0 _ _ _ _ _ _) _).
    + vm_compute. reflexivity.
    + apply demo_pair_ok.
    + reflexivity.
    + vm_compute. reflexivity.
    + vm_compute. reflexivity.
    + simpl. lia.
    + reflexivity.
  - refine (proj2 (relocation_moves_the_entity 0 Demo.first Demo.first Demo.pair Demo.pair
                     Demo.key0 Demo.pool0 _ _ _ _ _ _) _).
    + vm_compute. reflexivity.
    + apply demo_pair_ok.
    + reflexivity.
    + vm_compute. reflexivity.
    + vm_compute. reflexivity.
    + simpl. lia.
    + reflexivity.
Defined.

(** C3 fails as stated for [addComponent]: the new slot is not fully
    populated when the old slot is removed.  On [Demo.pair],
    [addComponent<T1>(first, 5)] finds or creates the pool of the types 0
    and 1 ([r1]), fills the new slot ([r2]), removes the old slot ([r3])
    and then writes the value ([r']).  In [r2], with the entity still in
    its old slot, and in [r3], with the old slot gone, the new slot holds
    [T1{}], which is 0, for type 1, not the 5 the call was given. *)
Lemma relocation_counterexample :
  exists r' id' r1 r2 r3,
    Registry.addComponent 1 5%Z Demo.first Demo.pair = Done (r', id')
    /\ Registry.relocate 1 [hash_code 0; hash_code 1]
         (fun bitmask => N.setbit bitmask (N.of_nat 1)) Demo.first Demo.key0 Demo.pair
       = Done (r3, id')
    /\ Registry.findOrCreateFromBitmask (EntityId.poolKey id') [hash_code 0; hash_code 1]
         Demo.key0 (fun bitmask => N.setbit bitmask (N.of_nat 1)) Demo.pair = Done r1
    /\ Registry.transferPopulate 1 Demo.first id' Demo.key0 (EntityId.poolKey id') r1
       = Done r2
    /\ Registry.transferRelease Demo.first id' Demo.key0 r2 = Done (r3, id')
    /\ Registry.writeComponent (EntityId.poolKey id') 1 (EntityId.unstableIndex id') 5%Z r3
       = Done r'
    /\ livesAt r2 0 Demo.key0 0
    /\ livesAt r2 0 (EntityId.poolKey id') (EntityId.unstableIndex id')
    /\ componentAt r2 (EntityId.poolKey id') 0 (EntityId.unstableIndex id') = Some 10%Z
    /\ componentAt r2 (EntityId.poolKey id') 1 (EntityId.unstableIndex id') = Some 0%Z
    /\ componentAt r3 (EntityId.poolKey id') 1 (EntityId.unstableIndex id') = Some 0%Z
    /\ componentAt r' (EntityId.poolKey id') 1 (EntityId.unstableIndex id') = Some 5%Z.
Proof.
  eexists _, _, _, _, _.
  split; [vm_compute; reflexivity|].
  split; [vm_compute; reflexivity|].
  split; [vm_compute; reflexivity|].
  split; [vm_compute; reflexivity|].
  split; [vm_compute; reflexivity|].
  split; [vm_compute; reflexivity|].
  split; [eexists; split; vm_compute; reflexivity|].
  split; [eexists; split; vm_compute; reflexivity|].
  split_and!; vm_compute; reflexivity.
Defined.

(** C4 at [Demo.pair] with a callback that does nothing: [forEachEntity]
    returns, and [createEntity] on the registry it leaves stops. *)
Lemma forEachEntity_leaves_iterating_witness :
  Registry.forEachEntity (fun _ r => Done r) Demo.pair
    = Done (Registry.with_iterating true Demo.pair)
  /\ Registry.isIterating (Registry.with_iterating true Demo.pair) = true
  /\ Registry.createEntity [0] (Registry.with_iterating true Demo.pair) = Aborted.
Proof.
  assert (Registry.forEachEntity (fun _ r => Done r) Demo.pair
          = Done (Registry.with_iterating true Demo.pair)) as Hrun
    by (vm_compute; reflexivity).
  destruct (forEachEntity_leaves_iterating _ _ _ Hrun) as (Hflag & Hcreate & _).
  split_and!; [exact Hrun | exact Hflag | exact (Hcreate [0])].
Defined.

(** C5 at [Demo.pool0]: removing the entity in the last of its two slots
    moves nothing and reports that entity as swapped. *)
Lemma removeEntity_reports_swap_for_last_slot_witness :
  exists result p',
    ComponentPool.removeEntity Demo.second Demo.pool0 = Done (result, p')
    /\ wasSwapped result = true
    /\ swappedEntityVersion result = Some 1%N
    /\ swappedEntityUnstableIndex result = Some 1
    /\ ComponentPool.versions p' = [0%N]
    /\ ComponentPool.components p' !! 0 = Some [10%Z].
Proof.
  destruct (removeEntity_reports_swap_for_last_slot Demo.key0 Demo.second Demo.pool0)
    as (result & p' & Hrun & Hswapped & Hversion & Hindex & Hversions & Hcolumns).
  - apply demo_pool0_ok.
  - vm_compute. reflexivity.
  - simpl. lia.
  - reflexivity.
  - exists result, p'. split_and!; [exact Hrun | exact Hswapped | exact Hversion
      | exact Hindex | exact Hversions |].
    apply (Hcolumns 0 [10; 20]%Z); [apply list_elem_of_singleton|]; reflexivity.
Defined.

(** C6 at [Demo.pair]: type 1 added to the first entity and removed
    again. *)
Lemma add_then_remove_keeps_components_witness :
  exists ra ida rb idb,
    Registry.addComponent 1 5%Z Demo.first Demo.pair = Done (ra, ida)
    /\ Registry.removeComponent 1 ida ra = Done (rb, idb)
    /\ EntityId.poolKey idb = Demo.key0
    /\ EntityId.version idb = 0%N
    /\ Registry.get 0 Demo.first Demo.pair = Done (Demo.pair, Demo.first, Some 10%Z)
    /\ Registry.get 0 idb rb = Done (rb, idb, Some 10%Z).
Proof.
  destruct (add_then_remove_keeps_components (U := Demo.universe) 1 5%Z Demo.first Demo.first Demo.pair Demo.pair
              Demo.key0 Demo.pool0)
    as (ra & ida & rb & idb & Hadd & Hremove & Hkey & Hversion & _ & Hvalues).
  - vm_compute. reflexivity.
  - apply demo_pair_ok.
  - reflexivity.
  - vm_compute. reflexivity.
  - vm_compute. reflexivity.
  - simpl. lia.
  - reflexivity.
  - destruct (Hvalues 0 eq_refl) as (x & Hbefore & Hafter).
    assert (x = 10%Z) as ->.
    { assert (Registry.get 0 Demo.first Demo.pair
              = Done (Demo.pair, Demo.first, Some 10%Z)) as Hrun
        by (vm_compute; reflexivity).
      rewrite Hrun in Hbefore. by injection Hbefore. }
    exists ra, ida, rb, idb.
    split_and!; [exact Hadd | exact Hremove | exact Hkey | exact Hversion
      | exact Hbefore | exact Hafter].
Defined.

(** C10 at [Demo.pair]: an entity without components goes to a new pool
    under key 0. *)
Lemma createEntity_without_components_witness :
  exists r' id p',
    Registry.createEntity [] Demo.pair = Done (r', id)
    /\ EntityId.poolKey id = 0%N
    /\ Registry.pools r' !! 0%N = Some p'
    /\ ComponentPool.versions p' = [EntityId.version id]
    /\ ComponentPool.components p' = [[]; []; []]
    /\ ComponentPool.componentsInUseIndices p' = []
    /\ Registry.pools r' !! Demo.key0 = Some Demo.pool0
    /\ Registry.resolveEntityId id r' = Done (r', id, Some 0%N)
    /\ forall c, Registry.get c id r' = Done (r', id, None).
Proof.
  destruct (createEntity_without_components Demo.pair)
    as (r' & id & p' & Hrun & Hkey & Hzero & Hp' & Hversions & Hcolumns & Hindices
        & Hothers & Hresolve & Hget).
  - vm_compute. reflexivity.
  - apply demo_pair_ok.
  - reflexivity.
  - vm_compute. discriminate.
  - exists r', id, p'.
    split_and!; [exact Hrun | by rewrite Hkey | exact Hp' | exact Hversions
      | exact Hcolumns | exact Hindices | | exact Hresolve | exact Hget].
    rewrite Hothers; [reflexivity | vm_compute; discriminate].
Defined.

(** C7 at the types 0 and 1 in both orders. *)
Lemma fingerprint_order_independent_witness :
  combineHashes [3; 1; 2]%N = combineHashes [1; 2; 3]%N
  /\ exists r1 id1 r2 id2,
       Registry.createEntity [0; 1] Registry.empty = Done (r1, id1)
       /\ Registry.createEntity [1; 0] r1 = Done (r2, id2)
       /\ EntityId.poolKey id1 = EntityId.poolKey id2.
Proof.
  split.
  - apply (proj1 fingerprint_order_independent).
    change [3; 1; 2]%N with ([3%N] ++ [1; 2]%N). by rewrite Permutation_app_comm.
  - eexists _, _, _, _. split; [vm_compute; reflexivity|].
    split; [vm_compute; reflexivity|].
    refine (proj1 (proj2 (proj2 fingerprint_order_independent
                                 [0; 1] [1; 0] Registry.empty _ _ _ _ _ _ _))).
    + apply perm_swap.
    + vm_compute; reflexivity.
    + vm_compute; reflexivity.
Defined.




(** ** Further properties at concrete stores *)

Lemma demo_healed_ok : registryOk Demo.healed.
Proof. apply reachable_ok; [apply demo_collisionFree | apply demo_healed_reachable]. Defined.

(** The position of a present and of an absent type in a pack of three. *)
Lemma getIndexInTypeList_spec_witness :
  [10; 20; 30] !! getIndexInTypeList 20 [10; 20; 30] = Some 20
  /\ getIndexInTypeList 40 [10; 20; 30] = 3
  /\ getIndexInTypeList 30 [10; 20; 30] = 2.
Proof.
  split_and!.
  - apply (proj1 (proj2 (getIndexInTypeList_spec 20 [10; 20; 30]))).
    apply (bool_decide_unpack _). vm_compute. exact I.
  - apply (proj1 (proj2 (proj2 (getIndexInTypeList_spec 40 [10; 20; 30])))).
    apply (bool_decide_unpack _). vm_compute. exact I.
  - apply (proj2 (proj2 (proj2 (getIndexInTypeList_spec 30 [10; 20; 30])))).
    + apply (bool_decide_unpack _). vm_compute. exact I.
    + reflexivity.
Defined.

(** A handle past the end of [Demo.pool0]. *)
Lemma pool_removeEntity_failure_witness :
  exists result,
    ComponentPool.removeEntity (EntityId.mk 5 0 Demo.key0 false) Demo.pool0
      = Done (result, Demo.pool0)
    /\ success result = false.
Proof.
  destruct (pool_removeEntity_failure (EntityId.mk 5 0 Demo.key0 false) Demo.pool0)
    as (result & Hrun & Hfail & _).
  - right. right. left. simpl. lia.
  - exists result. split; [exact Hrun | exact Hfail].
Defined.

(** The first of the two slots of [Demo.pool0] is removed: the second
    entity is moved into it and reported. *)
Lemma pool_removeEntity_swap_and_pop_witness :
  exists result p',
    ComponentPool.removeEntity Demo.first Demo.pool0 = Done (result, p')
    /\ ComponentPool.poolSize p' = 1
    /\ wasSwapped result = true
    /\ swappedEntityVersion result = Some 1%N
    /\ swappedEntityUnstableIndex result = Some 0
    /\ ComponentPool.versions p' !! 0 = Some 1%N
    /\ ComponentPool.components p' !! 0 ≫= (fun vec => vec !! 0) = Some 20%Z.
Proof.
  destruct (pool_removeEntity_swap_and_pop Demo.key0 Demo.first Demo.pool0)
    as (result & p' & Hrun & _ & _ & Hsize & _ & _ & _ & _ & Hcolumns & _ & Hreport & _).
  - apply demo_pool0_ok.
  - vm_compute. reflexivity.
  - destruct Hreport as (Hswapped & Hversion & Hindex & Hslot); [simpl; lia|].
    exists result, p'.
    split_and!; [exact Hrun | exact Hsize | exact Hswapped | exact Hversion | exact Hindex
                | exact Hslot |].
    apply (Hcolumns 0 0); [apply list_elem_of_singleton; reflexivity | simpl; lia].
Defined.

(** The stale handle of the second entity on [Demo.healed]. *)
Lemma resolveEntityId_succeeds_iff_tracked_witness :
  Registry.resolveEntityId Demo.second Demo.healed
  = Done (Demo.healed, Demo.moved, Some Demo.key0).
Proof.
  apply (proj1 (resolveEntityId_succeeds_iff_tracked Demo.second Demo.healed demo_healed_ok)).
  split; [reflexivity|]. split; [reflexivity|].
  split; [reflexivity|]. split.
  - exists Demo.pool1. split; [vm_compute; reflexivity | reflexivity].
  - right. exists Demo.moved. vm_compute. reflexivity.
Defined.

(** [addComponent<T0>] on the first entity of [Demo.pair], which has a
    [T0]. *)
Lemma addComponent_present_is_set_witness :
  Registry.addComponent 0 7%Z Demo.first Demo.pair = Registry.set 0 7%Z Demo.first Demo.pair.
Proof.
  apply (addComponent_present_is_set (U := Demo.universe) 0 7%Z Demo.first Demo.first
           Demo.pair Demo.pair Demo.key0 Demo.pool0).
  - reflexivity.
  - vm_compute. reflexivity.
  - vm_compute. reflexivity.
  - reflexivity.
Defined.

(** Removing the first entity of [Demo.pair] leaves the second readable
    through its old handle. *)
Lemma removeEntity_keeps_other_entities_witness :
  exists r' id',
    Registry.removeEntity Demo.first Demo.pair = Done (r', id')
    /\ exists h1', Registry.get 0 Demo.second r' = Done (r', h1', Some 20%Z).
Proof.
  destruct (removeEntity_keeps_other_entities Demo.first Demo.first Demo.pair Demo.pair
              Demo.key0) as (r' & id' & Hrun & Hframe).
  - apply demo_pair_ok.
  - reflexivity.
  - vm_compute. reflexivity.
  - exists r', id'. split; [exact Hrun|].
    destruct (Hframe 0 Demo.second Demo.pair Demo.second 20%Z) as (h1' & Hget & _).
    + vm_compute. reflexivity.
    + simpl. discriminate.
    + exists h1'. exact Hget.
Defined.

(** After the first entity of [Demo.pair] is removed its handle reads
    null, and removing it again changes nothing. *)
Lemma removeEntity_removes_for_good_witness :
  exists r' id',
    Registry.removeEntity Demo.first Demo.pair = Done (r', id')
    /\ EntityId.dead id' = true
    /\ (exists r1 h1, Registry.get 0 Demo.first r' = Done (r1, h1, None))
    /\ Registry.removeEntity id' r' = Done (r', id').
Proof.
  destruct (removeEntity_removes_for_good Demo.first Demo.first Demo.pair Demo.pair Demo.key0)
    as (r' & id' & Hrun & Hdead & _ & _ & _ & Hgone & Hagain).
  - apply demo_pair_ok.
  - reflexivity.
  - vm_compute. reflexivity.
  - exists r', id'. split_and!; [exact Hrun | exact Hdead | | exact Hagain].
    destruct (Hgone Demo.first 0 eq_refl) as (r1 & h1 & _ & Hget & _).
    exists r1, h1. exact Hget.
Defined.

(** [set] on the first entity of [Demo.pair]. *)
Lemma set_then_get_witness :
  exists r',
    Registry.set 0 99%Z Demo.first Demo.pair = Done (r', Demo.first)
    /\ Registry.get 0 Demo.first r' = Done (r', Demo.first, Some 99%Z)
    /\ exists h1', Registry.get 0 Demo.second r' = Done (r', h1', Some 20%Z).
Proof.
  destruct (set_then_get (U := Demo.universe) 0 99%Z Demo.first Demo.first Demo.pair Demo.pair
              Demo.key0 Demo.pool0) as (r' & Hrun & Hget & _ & _ & _ & Hframe).
  - apply demo_pair_ok.
  - vm_compute. reflexivity.
  - vm_compute. reflexivity.
  - reflexivity.
  - exists r'. split_and!; [exact Hrun | exact Hget |].
    destruct (Hframe 0 Demo.second Demo.pair Demo.second 20%Z) as (h1' & Hget' & _).
    + vm_compute. reflexivity.
    + left. simpl. discriminate.
    + exists h1'. exact Hget'.
Defined.


(** A third entity, with a [T1], is created on [Demo.pair]. *)
Lemma createEntityWith_then_get_witness :
  exists r' id,
    Registry.createEntityWith [(1, 5%Z)] Demo.pair = Done (r', id)
    /\ EntityId.version id = 2%N
    /\ Registry.get 1 id r' = Done (r', id, Some 5%Z)
    /\ Registry.get 0 id r' = Done (r', id, None)
    /\ exists h1', Registry.get 0 Demo.second r' = Done (r', h1', Some 20%Z).
Proof.
  destruct (createEntityWith_then_get (U := Demo.universe) [(1, 5%Z)] Demo.pair)
    as (r' & id & Hrun & Hversion & _ & _ & _ & _ & _ & Hin & Hout & Hframe).
  - apply demo_collisionFree.
  - apply demo_pair_ok.
  - apply NoDup_singleton.
  - intros c Hc. apply list_elem_of_singleton in Hc. subst c. simpl. lia.
  - reflexivity.
  - vm_compute. discriminate.
  - exists r', id. split_and!; [exact Hrun | exact Hversion | | |].
    + apply Hin. apply list_elem_of_singleton. reflexivity.
    + apply Hout. simpl. intros Hc. apply list_elem_of_singleton in Hc. discriminate Hc.
    + destruct (Hframe 0 Demo.second Demo.pair Demo.second 20%Z) as (h1' & Hget & _).
      * vm_compute. reflexivity.
      * exists h1'. exact Hget.
Defined.

(** [createEntity<T1>()] on [Demo.pair]: the component is [T1{}]. *)
Lemma createEntity_default_values_witness :
  exists r' id,
    Registry.createEntity [1] Demo.pair = Done (r', id)
    /\ Registry.get 1 id r' = Done (r', id, Some 0%Z).
Proof.
  destruct (createEntity_default_values [1] Demo.pair)
    as (r' & id & Hrun & _ & Hin & _).
  - apply demo_collisionFree.
  - apply demo_pair_ok.
  - apply NoDup_singleton.
  - intros c Hc. apply list_elem_of_singleton in Hc. subst c. simpl. lia.
  - reflexivity.
  - vm_compute. discriminate.
  - exists r', id. split; [exact Hrun|].
    apply (Hin 1). apply list_elem_of_singleton. reflexivity.
Defined.

(** [addComponent<T1>(first, 5)] on [Demo.pair]: the value is read back
    through the new handle and through the old one, and both entities keep
    their [T0]. *)
Lemma addComponent_then_get_witness :
  exists r' id',
    Registry.addComponent 1 5%Z Demo.first Demo.pair = Done (r', id')
    /\ Registry.get 1 id' r' = Done (r', id', Some 5%Z)
    /\ Registry.get 1 Demo.first r' = Done (r', id', Some 5%Z)
    /\ (exists h1', Registry.get 0 Demo.first r' = Done (r', h1', Some 10%Z))
    /\ exists h1', Registry.get 0 Demo.second r' = Done (r', h1', Some 20%Z).
Proof.
  destruct (addComponent_then_get (U := Demo.universe) 1 5%Z Demo.first Demo.first
              Demo.pair Demo.pair Demo.key0 Demo.pool0)
    as (r' & id' & Hrun & Hnew & Hold & Hframe).
  - apply demo_collisionFree.
  - apply demo_pair_ok.
  - reflexivity.
  - vm_compute. reflexivity.
  - vm_compute. reflexivity.
  - reflexivity.
  - simpl. lia.
  - exists r', id'. split_and!; [exact Hrun | exact Hnew | exact Hold | |].
    + destruct (Hframe 0 Demo.first Demo.pair Demo.first 10%Z) as (h1' & Hget & _).
      * vm_compute. reflexivity.
      * exists h1'. exact Hget.
    + destruct (Hframe 0 Demo.second Demo.pair Demo.second 20%Z) as (h1' & Hget & _).
      * vm_compute. reflexivity.
      * exists h1'. exact Hget.
Defined.

(** [removeComponent<T0>(first)] on [Demo.pair]: the first entity has no
    [T0] any more, the second keeps its own. *)
Lemma removeComponent_then_get_witness :
  exists r' id',
    Registry.removeComponent 0 Demo.first Demo.pair = Done (r', id')
    /\ Registry.get 0 id' r' = Done (r', id', None)
    /\ Registry.get 0 Demo.first r' = Done (r', id', None)
    /\ exists h1', Registry.get 0 Demo.second r' = Done (r', h1', Some 20%Z).
Proof.
  destruct (removeComponent_then_get 0 Demo.first Demo.first Demo.pair Demo.pair
              Demo.key0 Demo.pool0)
    as (r' & id' & Hrun & Hnew & Hold & Hframe).
  - apply demo_collisionFree.
  - apply demo_pair_ok.
  - reflexivity.
  - vm_compute. reflexivity.
  - vm_compute. reflexivity.
  - reflexivity.
  - exists r', id'. split_and!; [exact Hrun | exact Hnew | exact Hold |].
    destruct (Hframe 0 Demo.second Demo.pair Demo.second 20%Z) as (h1' & Hget & _).
    + vm_compute. reflexivity.
    + left. simpl. discriminate.
    + exists h1'. exact Hget.
Defined.

(** A callback that overwrites the [T0] of the entity it is given. *)
Lemma demo_overwrite_apiCallback :
  apiCallback (fun h r => '(r', _) ← Registry.set 0 7%Z h r; Done r').
Proof.
  intros h r r' Hrun. apply bind_Done in Hrun as ([r1 h1] & Hset & Hdone).
  injection Hdone as <-. apply rtc_once. exact (step_set 0 7%Z h r r1 h1 Hset).
Defined.

Lemma demo_overwrite_apiCallbackEarlyReturn :
  apiCallbackEarlyReturn (fun h r => '(r', _) ← Registry.set 0 7%Z h r; Done (r', true)).
Proof.
  intros h r r' stop Hrun. apply bind_Done in Hrun as ([r1 h1] & Hset & Hdone).
  injection Hdone as <- _. apply rtc_once. exact (step_set 0 7%Z h r r1 h1 Hset).
Defined.

(** [forEachEntity] on [Demo.pair] visits the two entities in slot
    order. *)
Lemma forEachEntity_visits_each_entity_once_witness :
  let callback := fun h r => '(r', _) ← Registry.set 0 7%Z h r; Done r' in
  Registry.forEachEntity callback Demo.pair
    = (r2 ← visit callback [Demo.first; Demo.second] (Registry.with_iterating true Demo.pair);
       Done (Registry.with_iterating true r2)).
Proof.
  intros callback.
  pose proof (proj1 (forEachEntity_visits_each_entity_once callback Demo.pair
                       demo_pair_ok demo_overwrite_apiCallback)) as Hrun.
  assert (entityHandles Demo.pair = [Demo.first; Demo.second]) as Hhandles
    by (vm_compute; reflexivity).
  rewrite Hhandles in Hrun. exact Hrun.
Defined.

(** [forEachComponents<T0>] on [Demo.pair] visits both entities,
    [forEachComponents<T1>] none. *)
Lemma forEachComponents_visits_matching_entities_witness :
  let callback := fun h r => '(r', _) ← Registry.set 0 7%Z h r; Done r' in
  Registry.forEachComponents [0] callback Demo.pair
    = (r2 ← visit callback [Demo.first; Demo.second] (Registry.with_iterating true Demo.pair);
       Done (Registry.with_iterating false r2))
  /\ Registry.forEachComponents [1] callback Demo.pair = Done Demo.pair.
Proof.
  intros callback. split.
  - pose proof (proj1 (forEachComponents_visits_matching_entities [0] callback Demo.pair
                         demo_pair_ok demo_overwrite_apiCallback)) as Hrun.
    assert (matchingHandles [0] Demo.pair = [Demo.first; Demo.second]) as Hhandles
      by (vm_compute; reflexivity).
    rewrite Hhandles in Hrun. exact Hrun.
  - pose proof (proj1 (forEachComponents_visits_matching_entities [1] callback Demo.pair
                         demo_pair_ok demo_overwrite_apiCallback)) as Hrun.
    assert (matchingHandles [1] Demo.pair = []) as Hhandles by (vm_compute; reflexivity).
    rewrite Hhandles in Hrun. exact Hrun.
Defined.

(** [forEachPool] on [Demo.pair] runs the callback once, on the one
    pool. *)
Lemma forEachPool_visits_occupied_pools_witness :
  let callback := fun (k : N) (r : Registry.t) => Done r in
  Registry.forEachPool callback Demo.pair
    = (r2 ← visit callback [Demo.key0] (Registry.with_iterating true Demo.pair);
       Done (Registry.with_iterating false r2)).
Proof.
  intros callback.
  assert (apiCallback callback) as Hcb.
  { intros k r r' Hrun. injection Hrun as <-. apply rtc_refl. }
  pose proof (proj1 (forEachPool_visits_occupied_pools callback Demo.pair
                       demo_pair_ok Hcb)) as Hrun.
  assert (occupiedPools Demo.pair = [Demo.key0]) as Hpools by (vm_compute; reflexivity).
  rewrite Hpools in Hrun. exact Hrun.
Defined.

(** A callback that asks to stop at once: on [Demo.pair] only the first
    entity is overwritten. *)
Lemma forEachComponentsEarlyReturn_stops_at_first_true_witness :
  let callback := fun h r => '(r', _) ← Registry.set 0 7%Z h r; Done (r', true) in
  exists r2,
    callback Demo.first (Registry.with_iterating true Demo.pair) = Done (r2, true)
    /\ Registry.forEachComponentsEarlyReturn [0] callback Demo.pair
       = Done (Registry.with_iterating false r2)
    /\ Registry.get 0 Demo.second r2 = Done (r2, Demo.second, Some 20%Z).
Proof.
  intros callback. eexists. split; [vm_compute; reflexivity|]. split.
  - apply (proj2 (forEachComponentsEarlyReturn_stops_at_first_true [0] callback Demo.pair
                    demo_pair_ok demo_overwrite_apiCallbackEarlyReturn)
             [] Demo.first [Demo.second] (Registry.with_iterating true Demo.pair)).
    + vm_compute. reflexivity.
    + reflexivity.
    + vm_compute. reflexivity.
  - vm_compute. reflexivity.
Defined.

(** A callback that removes the entity it is given stops [forEachEntity]
    on [Demo.pair]; on the empty registry it is never run. *)
Lemma mutation_in_callback_aborts_witness :
  let callback := fun h r => '(r', _) ← Registry.removeEntity h r; Done r' in
  Registry.forEachEntity callback Demo.pair = Aborted
  /\ Registry.forEachEntity callback Registry.empty
     = Done (Registry.with_iterating true Registry.empty).
Proof.
  intros callback.
  assert (forall h r1, Registry.isIterating r1 = true -> callback h r1 = Aborted) as Habort.
  { intros h r1 Hit. unfold callback, Registry.removeEntity. rewrite Hit. reflexivity. }
  split.
  - rewrite (proj1 (mutation_in_callback_aborts callback Demo.pair demo_pair_ok Habort)).
    vm_compute. reflexivity.
  - rewrite (proj1 (mutation_in_callback_aborts callback Registry.empty
                      registryOk_empty Habort)).
    vm_compute. reflexivity.
Defined.


(** Inside an iteration over [Demo.pair], a nested
    [forEachComponents<T0>] with a callback that does nothing clears the
    flag, and [createEntity<T1>(5)] then succeeds. *)
Lemma nested_iteration_clears_flag_witness :
  let r := Registry.with_iterating true Demo.pair in
  Registry.createEntityWith [(1, 5%Z)] r = Aborted
  /\ Registry.forEachComponents [0] (fun _ r => Done r) r = Done Demo.pair
  /\ exists r2 id, Registry.createEntityWith [(1, 5%Z)] Demo.pair = Done (r2, id).
Proof.
  intros r.
  assert (Registry.forEachComponents [0] (fun _ r => Done r) r = Done Demo.pair) as Hrun
    by (vm_compute; reflexivity).
  destruct (nested_iteration_clears_flag (U := Demo.universe) [0]
              (fun _ r => Done r) (fun _ r => Done r) (fun _ r => Done (r, false))
              [(1, 5%Z)] r Demo.pair) as (Habort & _ & Hcreate).
  - apply demo_collisionFree.
  - apply (with_iterating_ok true Demo.pair demo_pair_ok).
  - reflexivity.
  - intros h r1 r2 Hcb. injection Hcb as <-. apply rtc_refl.
  - intros k r1 r2 Hcb. injection Hcb as <-. apply rtc_refl.
  - intros h r1 r2 stop Hcb. injection Hcb as <- _. apply rtc_refl.
  - left. exact Hrun.
  - apply NoDup_singleton.
  - intros c Hc. apply list_elem_of_singleton in Hc. subst c. simpl. lia.
  - vm_compute. discriminate.
  - split_and!; [exact Habort | exact Hrun | exact Hcreate].
Defined.

(** Every call returns on [Demo.pair], here with a handle that never
    existed. *)
Lemma api_calls_return_witness :
  let id := EntityId.mk 7 9 3 false in
  (exists r1 id1 x, Registry.get 0 id Demo.pair = Done (r1, id1, x))
  /\ (exists r1 id1, Registry.set 0 5%Z id Demo.pair = Done (r1, id1))
  /\ (exists r1 id1, Registry.removeEntity id Demo.pair = Done (r1, id1))
  /\ (exists r1 id1, Registry.addComponent 0 5%Z id Demo.pair = Done (r1, id1))
  /\ (exists r1 id1, Registry.removeComponent 0 id Demo.pair = Done (r1, id1))
  /\ (exists r1 id1, Registry.createEntityWith [(1, 5%Z)] Demo.pair = Done (r1, id1)).
Proof.
  intros id.
  destruct (api_calls_return (U := Demo.universe) 0 5%Z id [(1, 5%Z)] Demo.pair)
    as (Hget & Hset & Hmutators).
  - apply demo_collisionFree.
  - apply demo_pair_reachable.
  - simpl. lia.
  - apply NoDup_singleton.
  - intros c Hc. apply list_elem_of_singleton in Hc. subst c. simpl. lia.
  - destruct (Hmutators eq_refl) as (Hremove & Hadd & Hdrop & Hcreate & _).
    split_and!; [exact Hget | exact Hset | exact Hremove | exact Hadd | exact Hdrop |].
    apply Hcreate. vm_compute. discriminate.
Defined.

(** From [Demo.pair] to [Demo.healed] the pool stays and a remap entry is
    added. *)
Lemma pools_and_remap_entries_are_never_erased_witness :
  neverErased Demo.pair Demo.healed
  /\ size (Registry.pools Demo.pair) <= size (Registry.pools Demo.healed)
  /\ size (Registry.entityRemappings Demo.pair)
     <= size (Registry.entityRemappings Demo.healed).
Proof.
  apply (pools_and_remap_entries_are_never_erased Demo.pair Demo.healed).
  apply rtc_once. apply step_api.
  apply (step_removeEntity Demo.first Demo.pair Demo.healed (EntityId.markDead Demo.first)).
  vm_compute. reflexivity.
Defined.

(** On [Demo.healed] the first entity is gone.  After a new entity has
    been created in the pool, the handle of the first one still does not
    resolve. *)
Lemma removed_versions_never_return_witness :
  exists r' id,
    Registry.createEntityWith [(0, 30%Z)] Demo.healed = Done (r', id)
    /\ exists r1 h1, Registry.resolveEntityId Demo.first r' = Done (r1, h1, None).
Proof.
  eexists _, _. split; [vm_compute; reflexivity|].
  match goal with |- exists r1 h1, Registry.resolveEntityId _ ?r' = _ =>
    destruct (removed_versions_never_return Demo.healed r') as [_ Hgone]
  end.
  - apply demo_collisionFree.
  - apply demo_healed_ok.
  - apply rtc_once. apply step_api.
    eapply (step_createEntityWith (U := Demo.universe) [(0, 30%Z)] Demo.healed).
    + apply NoDup_singleton.
    + intros c Hc. apply list_elem_of_singleton in Hc. subst c. simpl. lia.
    + vm_compute. reflexivity.
  - destruct (Hgone 0%N) as [_ Hunresolved].
    + simpl. lia.
    + intros k i (p & Hp & Hslot). simpl in Hp.
      apply lookup_singleton_Some in Hp as [_ <-]. simpl in Hslot.
      destruct i as [|i]; simpl in Hslot; [discriminate Hslot|].
      rewrite lookup_nil in Hslot. discriminate Hslot.
    + apply (Hunresolved Demo.first). reflexivity.
Defined.

(** [getPool<T0>] on [Demo.pair]. *)
Lemma getPool_finds_the_pool_of_the_types_witness :
  Registry.getPool [0] Demo.pair = Some Demo.pool0
  /\ Registry.getPool [1] Registry.empty = None.
Proof.
  split.
  - destruct (getPool_finds_the_pool_of_the_types [0] Demo.pair) as (_ & Hfound & _).
    + apply demo_collisionFree.
    + apply demo_pair_ok.
    + apply NoDup_singleton.
    + intros c Hc. apply list_elem_of_singleton in Hc. subst c. simpl. lia.
    + apply (Hfound Demo.key0 Demo.pool0); [vm_compute; reflexivity | reflexivity].
  - destruct (getPool_finds_the_pool_of_the_types [1] Registry.empty)
      as (_ & _ & _ & Hempty).
    + apply demo_collisionFree.
    + apply registryOk_empty.
    + apply NoDup_singleton.
    + intros c Hc. apply list_elem_of_singleton in Hc. subst c. simpl. lia.
    + exact Hempty.
Defined.

(** A third slot in [Demo.pool0], and a handle that names a wrong slot. *)
Lemma pool_createEntity_checks_the_slot_witness :
  (exists p',
     ComponentPool.createEntity (EntityId.mk 2 7 Demo.key0 false) [(0, 30%Z)] Demo.pool0
       = Done p'
     /\ ComponentPool.versions p' = [0; 1; 7]%N
     /\ ComponentPool.components p' !! 0 = Some [10; 20; 30]%Z)
  /\ ComponentPool.createEntity (EntityId.mk 5 7 Demo.key0 false) [(0, 30%Z)] Demo.pool0
     = Aborted.
Proof.
  split.
  - destruct (proj1 (pool_createEntity_checks_the_slot (U := Demo.universe)
                       (EntityId.mk 2 7 Demo.key0 false) [(0, 30%Z)] Demo.pool0
                       (NoDup_singleton 0)) eq_refl eq_refl)
      as (p' & Hrun & Hversions & _ & Hin & _).
    exists p'. split_and!; [exact Hrun | exact Hversions |].
    apply (Hin 0 30%Z). apply list_elem_of_singleton. reflexivity.
  - apply (proj2 (pool_createEntity_checks_the_slot (U := Demo.universe)
                    (EntityId.mk 5 7 Demo.key0 false) [(0, 30%Z)] Demo.pool0
                    (NoDup_singleton 0))).
    left. simpl. lia.
Defined.
